(** * AutoFacil scheduling core: bookings, slot calendar, cancellation policy,
      settlement split and the deadline pollers.

    A shallow embedding of the Cloud Functions under
    [cloud-functions/src/scheduling] (createBooking, confirmBooking,
    cancelBooking, rescheduleBooking, markLessonCompleted and the two
    scheduled pollers processBookingTimeouts / processPaymentReleases),
    followed by the properties the specification states about them.

    Modelling conventions.
    - Firestore is a record of collections ([Store]).  Collections whose
      documents get generated ids and are never deleted (bookings, queues,
      logs) are lists, the document id being the index; the instructor and
      student documents, keyed by user id, and the calendar sub-collection,
      keyed by (instructor id, slot key) and subject to [delete], are
      [gmap]s.  A query with a range filter returns its documents in the
      order of the filtered field.
    - A Firestore transaction is one atomic function on the store; outside
      a transaction every write is a separate step, so that a handler can be
      stopped between two writes.
    - JavaScript numbers are [JS.number]: a rational or [NaN].  Amounts are
      whole currency units (the specification's integer arithmetic), on which
      double arithmetic is exact; [Math.round] is round-half-up.
    - Dates are milliseconds since the epoch ([Z]); the clock value [now] is
      an argument of every operation. *)

From Stdlib Require Import ZArith QArith Qround Lia String.
From stdpp Require Import gmap strings list.

Local Open Scope Z_scope.

(** ** JavaScript numbers *)

Module JS.

Inductive number : Type :=
| Num (q : Q)
| NaN.

Definition of_Z (z : Z) : number := Num (inject_Z z).

Definition add (a b : number) : number :=
  match a, b with Num x, Num y => Num (x + y) | _, _ => NaN end.

Definition sub (a b : number) : number :=
  match a, b with Num x, Num y => Num (x - y) | _, _ => NaN end.

Definition mul (a b : number) : number :=
  match a, b with Num x, Num y => Num (x * y) | _, _ => NaN end.

Definition div (a b : number) : number :=
  match a, b with Num x, Num y => Num (x / y) | _, _ => NaN end.

Definition neg (a : number) : number :=
  match a with Num x => Num (- x) | NaN => NaN end.

(** Comparisons: every comparison with [NaN] is false. *)
Definition leb (a b : number) : bool :=
  match a, b with Num x, Num y => Qle_bool x y | _, _ => false end.

Definition ltb (a b : number) : bool :=
  match a, b with Num x, Num y => negb (Qle_bool y x) | _, _ => false end.

Definition gtb (a b : number) : bool := ltb b a.

Definition geb (a b : number) : bool := leb b a.

Definition eqb (a b : number) : bool :=
  match a, b with Num x, Num y => Qeq_bool x y | _, _ => false end.

(** [a == b] on numbers, as a proposition. *)
Definition eq (a b : number) : Prop :=
  match a, b with Num x, Num y => (x == y)%Q | _, _ => False end.

(** Truthiness: [0] and [NaN] are falsy. *)
Definition truthy (a : number) : bool :=
  match a with Num x => negb (Qeq_bool x 0) | NaN => false end.

(** [a || b] *)
Definition or_else (a b : number) : number := if truthy a then a else b.

(** [Math.round]: nearest integer, halves towards plus infinity. *)
Definition round (a : number) : number :=
  match a with
  | Num x => Num (inject_Z (Qfloor (x + (1 # 2))))
  | NaN => NaN
  end.

(** Reading a field in an arithmetic position: [undefined] becomes [NaN]. *)
Definition to_number (o : option number) : number :=
  match o with Some n => n | None => NaN end.

End JS.

Abbreviation number := JS.number.

(** ** Data model ([types/booking.types.ts]) *)

Abbreviation uid := string.
Abbreviation bookingId := nat.

Inductive BookingStatus : Type :=
| PENDENTE
| CONFIRMADA
| CONCLUIDA
| CANCELADA.

Inductive PaymentStatus : Type :=
| PAY_PENDENTE
| DEPOSITO_PAGO
| PAGO
| REEMBOLSADO.

(** The [userType] of a cancellation request: the two declared values, and
    [other_user] for any other non-empty string, which the callable accepts
    as well. *)
Inductive UserType : Type :=
| student
| instructor
| other_user.

#[global] Instance BookingStatus_eq_dec : EqDecision BookingStatus.
Proof. solve_decision. Defined.

#[global] Instance UserType_eq_dec : EqDecision UserType.
Proof. solve_decision. Defined.

Record Booking : Type := mkBooking {
  studentId : uid;
  instructorId : uid;
  date : Z;
  duration : Z;
  status : BookingStatus;
  paymentStatus : PaymentStatus;
  rescheduleCount : Z;
  price : number;
  depositAmount : number;
  remainingAmount : number;
  createdAt : Z;
  (* fields that are absent until some function writes them *)
  pricePerHour : option number;
  rescheduleFee : option number;
  totalPrice : option number;
  cancelledBy : option UserType;
  refundAmount : option number;
  penaltyAmount : option number;
  actualDuration : option Z
}.

Record CancellationPolicy : Type := mkPolicy {
  refundPercentage : number;
  policy_penaltyAmount : number;
  reason : string
}.

(** Milliseconds in one hour: [1000 * 60 * 60]. *)
Definition HOUR_MS : Z := 1000 * 60 * 60.

(** Active bookings are the ones the availability queries select:
    [where('status', 'in', ['pendente', 'confirmada'])]. *)
Definition active (b : Booking) : bool :=
  match status b with
  | PENDENTE | CONFIRMADA => true
  | CONCLUIDA | CANCELADA => false
  end.

(** ** Pure helpers *)

(** [formatDateKey]: the key [YYYY-MM-DD-HH] names the calendar hour that
    contains the date; that hour is identified here by its index since the
    epoch. *)
Definition formatDateKey (d : Z) : Z := d / HOUR_MS.

(** createBooking, step 4: pricing. *)
Definition deposit_of (totalPrice : number) : number :=
  JS.round (JS.mul totalPrice (JS.Num 0.2)).

(** [calculateCancellationPolicy] (confirmBooking.ts, lines 395-437). *)
Definition calculateCancellationPolicy
    (userType : UserType) (hoursUntilBooking totalPrice depositAmount : number)
    : CancellationPolicy :=
  match userType with
  | student =>
      if JS.ltb hoursUntilBooking (JS.of_Z 24) then
        {| refundPercentage := JS.Num 1.0;
           policy_penaltyAmount := JS.of_Z 0;
           reason := "Cancelamento gratuito (menos de 24h antes da aula)" |}
      else
        {| refundPercentage := JS.Num 0.5;
           policy_penaltyAmount := JS.mul totalPrice (JS.Num 0.5);
           reason := "Cancelamento com multa de 50% (mais de 24h antes da aula)" |}
  | instructor | other_user =>
      if JS.ltb hoursUntilBooking (JS.of_Z 12) then
        {| refundPercentage := JS.Num 1.0;
           policy_penaltyAmount := totalPrice;
           reason := "Cancelamento pelo instrutor com menos de 12h (multa de 100%)" |}
      else
        {| refundPercentage := JS.Num 1.0;
           policy_penaltyAmount := JS.of_Z 0;
           reason := "Cancelamento pelo instrutor sem multa" |}
  end.

(** The reschedule fee (rescheduleBooking.ts, lines 86-87). *)
Definition reschedule_fee (rescheduleCount : Z) (price : number) : number :=
  if 0 <? rescheduleCount then JS.round (JS.mul price (JS.Num 0.1)) else JS.of_Z 0.

(** ** The Firestore collections *)

Inductive InstructorStatus : Type :=
| INS_PENDENTE
| APROVADO
| REJEITADO.

#[global] Instance InstructorStatus_eq_dec : EqDecision InstructorStatus.
Proof. solve_decision. Defined.

(** An [instructors/{id}] document; the wallet is the nested map
    [wallet.available / wallet.total / wallet.penalties], a missing counter
    reading as 0 under [FieldValue.increment].  [cpf] and [vehicle.plate]
    may be missing. *)
Record Instructor : Type := mkInstructor {
  ins_status : InstructorStatus;
  ins_pricePerHour : option number;
  wallet_available : number;
  wallet_total : number;
  wallet_penalties : number;
  ins_cpf : option string;
  ins_vehicle_plate : option string
}.

(** A [students/{id}] document: its [cpf], if it has one. *)
Record Student : Type := mkStudent {
  st_cpf : option string
}.

(** [instructors/{id}/calendar/{slotKey}] *)
Record CalendarSlot : Type := mkSlot {
  reserved : bool;
  slot_bookingId : option bookingId
}.

(** [bookingTimeouts] *)
Record TimeoutJob : Type := mkTimeout {
  to_bookingId : bookingId;
  to_scheduledFor : Z;
  to_processed : bool;
  to_cancelled : bool
}.

(** [paymentReleaseQueue] *)
Record ReleaseJob : Type := mkRelease {
  rel_bookingId : bookingId;
  rel_instructorId : uid;
  rel_totalAmount : number;
  rel_platformFee : number;
  rel_instructorAmount : number;
  rel_scheduledFor : Z;
  rel_processed : bool
}.

(** [refunds] *)
Record Refund : Type := mkRefund {
  rf_bookingId : bookingId;
  rf_amount : number;
  rf_reason : string
}.

Inductive WalletTxType : Type := TX_CREDIT | TX_PENALTY.

(** [walletTransactions] *)
Record WalletTransaction : Type := mkWalletTx {
  wt_userId : uid;
  wt_type : WalletTxType;
  wt_amount : number;
  wt_bookingId : bookingId
}.

Inductive PaymentType : Type := PT_DEPOSIT | PT_REMAINING | PT_RESCHEDULE_FEE.

(** [payments] *)
Record Payment : Type := mkPayment {
  pay_bookingId : bookingId;
  pay_studentId : uid;
  pay_amount : number;
  pay_type : PaymentType
}.

(** [paymentIntents] *)
Record PaymentIntent : Type := mkIntent {
  pi_bookingId : bookingId;
  pi_amount : number
}.

Inductive ValidationStatus : Type :=
| VS_PENDING
| VS_VALIDATED
| VS_REQUIRES_MANUAL_REVIEW.

(** [detranValidationQueue] *)
Record ValidationTask : Type := mkValidation {
  vt_bookingId : bookingId;
  vt_duracao_horas : Z;
  vt_status : ValidationStatus;
  vt_attempts : Z
}.

(** [notifications] *)
Record Notification : Type := mkNotification {
  nt_userId : uid;
  nt_type : string;
  nt_bookingId : bookingId
}.

Record Store : Type := mkStore {
  instructors : gmap uid Instructor;
  bookings : list Booking;
  calendar : gmap (uid * Z) CalendarSlot;
  bookingTimeouts : list TimeoutJob;
  paymentReleaseQueue : list ReleaseJob;
  refunds : list Refund;
  walletTransactions : list WalletTransaction;
  payments : list Payment;
  paymentIntents : list PaymentIntent;
  detranValidationQueue : list ValidationTask;
  notifications : list Notification;
  students : gmap uid Student
}.

(** Field-wise updates of the store. *)
Definition with_instructors (f : gmap uid Instructor -> gmap uid Instructor) (s : Store) : Store :=
  mkStore (f (instructors s)) (bookings s) (calendar s) (bookingTimeouts s)
    (paymentReleaseQueue s) (refunds s) (walletTransactions s) (payments s)
    (paymentIntents s) (detranValidationQueue s) (notifications s) (students s).

Definition with_bookings (f : list Booking -> list Booking) (s : Store) : Store :=
  mkStore (instructors s) (f (bookings s)) (calendar s) (bookingTimeouts s)
    (paymentReleaseQueue s) (refunds s) (walletTransactions s) (payments s)
    (paymentIntents s) (detranValidationQueue s) (notifications s) (students s).

Definition with_calendar (f : gmap (uid * Z) CalendarSlot -> gmap (uid * Z) CalendarSlot)
    (s : Store) : Store :=
  mkStore (instructors s) (bookings s) (f (calendar s)) (bookingTimeouts s)
    (paymentReleaseQueue s) (refunds s) (walletTransactions s) (payments s)
    (paymentIntents s) (detranValidationQueue s) (notifications s) (students s).

Definition with_bookingTimeouts (f : list TimeoutJob -> list TimeoutJob) (s : Store) : Store :=
  mkStore (instructors s) (bookings s) (calendar s) (f (bookingTimeouts s))
    (paymentReleaseQueue s) (refunds s) (walletTransactions s) (payments s)
    (paymentIntents s) (detranValidationQueue s) (notifications s) (students s).

Definition with_paymentReleaseQueue (f : list ReleaseJob -> list ReleaseJob) (s : Store) : Store :=
  mkStore (instructors s) (bookings s) (calendar s) (bookingTimeouts s)
    (f (paymentReleaseQueue s)) (refunds s) (walletTransactions s) (payments s)
    (paymentIntents s) (detranValidationQueue s) (notifications s) (students s).

Definition add_refund (r : Refund) (s : Store) : Store :=
  mkStore (instructors s) (bookings s) (calendar s) (bookingTimeouts s)
    (paymentReleaseQueue s) (refunds s ++ [r]) (walletTransactions s) (payments s)
    (paymentIntents s) (detranValidationQueue s) (notifications s) (students s).

Definition add_walletTransaction (t : WalletTransaction) (s : Store) : Store :=
  mkStore (instructors s) (bookings s) (calendar s) (bookingTimeouts s)
    (paymentReleaseQueue s) (refunds s) (walletTransactions s ++ [t]) (payments s)
    (paymentIntents s) (detranValidationQueue s) (notifications s) (students s).

Definition add_payment (p : Payment) (s : Store) : Store :=
  mkStore (instructors s) (bookings s) (calendar s) (bookingTimeouts s)
    (paymentReleaseQueue s) (refunds s) (walletTransactions s) (payments s ++ [p])
    (paymentIntents s) (detranValidationQueue s) (notifications s) (students s).

Definition add_paymentIntent (p : PaymentIntent) (s : Store) : Store :=
  mkStore (instructors s) (bookings s) (calendar s) (bookingTimeouts s)
    (paymentReleaseQueue s) (refunds s) (walletTransactions s) (payments s)
    (paymentIntents s ++ [p]) (detranValidationQueue s) (notifications s) (students s).

Definition add_validation (v : ValidationTask) (s : Store) : Store :=
  mkStore (instructors s) (bookings s) (calendar s) (bookingTimeouts s)
    (paymentReleaseQueue s) (refunds s) (walletTransactions s) (payments s)
    (paymentIntents s) (detranValidationQueue s ++ [v]) (notifications s) (students s).

Definition add_notification (n : Notification) (s : Store) : Store :=
  mkStore (instructors s) (bookings s) (calendar s) (bookingTimeouts s)
    (paymentReleaseQueue s) (refunds s) (walletTransactions s) (payments s)
    (paymentIntents s) (detranValidationQueue s) (notifications s ++ [n]) (students s).

(** Updates of a booking document ([update] merges the given fields). *)
Definition set_status (v : BookingStatus) (b : Booking) : Booking :=
  mkBooking (studentId b) (instructorId b) (date b) (duration b) v (paymentStatus b)
    (rescheduleCount b) (price b) (depositAmount b) (remainingAmount b) (createdAt b)
    (pricePerHour b) (rescheduleFee b) (totalPrice b) (cancelledBy b) (refundAmount b)
    (penaltyAmount b) (actualDuration b).

Definition set_cancellation (by_ : UserType) (refund penalty : number) (b : Booking) : Booking :=
  mkBooking (studentId b) (instructorId b) (date b) (duration b) CANCELADA (paymentStatus b)
    (rescheduleCount b) (price b) (depositAmount b) (remainingAmount b) (createdAt b)
    (pricePerHour b) (rescheduleFee b) (totalPrice b) (Some by_) (Some refund)
    (Some penalty) (actualDuration b).

Definition set_completion (actual : Z) (b : Booking) : Booking :=
  mkBooking (studentId b) (instructorId b) (date b) (duration b) CONCLUIDA (paymentStatus b)
    (rescheduleCount b) (price b) (depositAmount b) (remainingAmount b) (createdAt b)
    (pricePerHour b) (rescheduleFee b) (totalPrice b) (cancelledBy b) (refundAmount b)
    (penaltyAmount b) (Some actual).

(** The [updates] object of rescheduleBooking: fields left [None] are not
    part of the update and keep their stored value. *)
Record RescheduleUpdates : Type := mkUpdates {
  upd_date : Z;
  upd_rescheduleCount : Z;
  upd_duration : option Z;
  upd_price : option number;
  upd_rescheduleFee : option number;
  upd_totalPrice : option number
}.

Definition keep {A} (new : option A) (old : A) : A :=
  match new with Some v => v | None => old end.

Definition keep_opt {A} (new : option A) (old : option A) : option A :=
  match new with Some v => Some v | None => old end.

Definition apply_updates (u : RescheduleUpdates) (b : Booking) : Booking :=
  mkBooking (studentId b) (instructorId b) (upd_date u) (keep (upd_duration u) (duration b))
    (status b) (paymentStatus b) (upd_rescheduleCount u) (keep (upd_price u) (price b))
    (depositAmount b) (remainingAmount b) (createdAt b) (pricePerHour b)
    (keep_opt (upd_rescheduleFee u) (rescheduleFee b))
    (keep_opt (upd_totalPrice u) (totalPrice b)) (cancelledBy b) (refundAmount b)
    (penaltyAmount b) (actualDuration b).

(** [doc.ref.update(...)] of a booking: the document exists in every use. *)
Definition update_booking (id : bookingId) (f : Booking -> Booking) (s : Store) : Store :=
  with_bookings (fun l => match l !! id with Some b => <[id := f b]> l | None => l end) s.

(** ** Callable functions: a state and error monad over the store *)

Inductive ErrorCode : Type :=
| UNAUTHORIZED
| VALIDATION_ERROR
| NOT_FOUND
| INTERNAL.

(** [Err code status] is a thrown [FunctionError(code, _, status)]; any other
    exception reaches the caller as [Err INTERNAL 500]. *)
Inductive Result (A : Type) : Type :=
| Ok (a : A)
| Err (code : ErrorCode) (httpStatus : Z).

Arguments Ok {A} a.
Arguments Err {A} code httpStatus.

Definition M (A : Type) : Type := Store -> Store * Result A.

Definition ret {A} (a : A) : M A := fun s => (s, Ok a).

Definition throw {A} (code : ErrorCode) (httpStatus : Z) : M A :=
  fun s => (s, Err code httpStatus).

Definition bind {A B} (m : M A) (k : A -> M B) : M B :=
  fun s =>
    match m s with
    | (s', Ok a) => k a s'
    | (s', Err c h) => (s', Err c h)
    end.

Definition get : M Store := fun s => (s, Ok s).

Definition modify (f : Store -> Store) : M unit := fun s => (f s, Ok tt).

Definition throw_if (cond : bool) (code : ErrorCode) (httpStatus : Z) : M unit :=
  if cond then throw code httpStatus else ret tt.

(** [db.runTransaction]: the writes of a body that throws are discarded. *)
Definition transaction {A} (body : M A) : M A :=
  fun s =>
    match body s with
    | (s', Ok a) => (s', Ok a)
    | (_, Err c h) => (s, Err c h)
    end.

(** [try { body } catch (error) { console.error(...) }]: the writes made
    before the exception stay, the exception does not propagate. *)
Definition try_catch (body : M unit) : M unit :=
  fun s => (fst (body s), Ok tt).

Notation "'let*' x ':=' m 'in' k" := (bind m (fun x => k))
  (at level 10, x name, m at level 100, k at level 200).
Notation "m '>>' k" := (bind m (fun _ => k))
  (at level 100, k at level 200, right associativity).

Definition run {A} (m : M A) (s : Store) : Store := fst (m s).
Definition result {A} (m : M A) (s : Store) : Result A := snd (m s).

Definition succeeds {A} (r : Result A) : bool :=
  match r with Ok _ => true | Err _ _ => false end.

(** The availability query of createBooking and rescheduleBooking:
    bookings of the instructor at exactly this date whose status is
    pendente or confirmada. *)
Definition existingBookings (s : Store) (instr : uid) (d : Z) : list Booking :=
  List.filter
    (fun b => bool_decide (instructorId b = instr) && (date b =? d) && active b)
    (bookings s).

Definition is_empty {A} (l : list A) : bool :=
  match l with [] => true | _ => false end.

(** [calendarSlot.exists && calendarSlot.data()?.reserved] *)
Definition slot_reserved (s : Store) (instr : uid) (key : Z) : bool :=
  match calendar s !! (instr, key) with
  | Some c => reserved c
  | None => false
  end.

(** [transaction.set(calendarSlotRef, {reserved: true, bookingId}, {merge: true})] *)
Definition reserve_slot (instr : uid) (key : Z) (id : bookingId) : M unit :=
  modify (with_calendar (fun c => <[(instr, key) := mkSlot true (Some id)]> c)).

(** [calendarSlotRef.update({reserved: false, bookingId: FieldValue.delete()})]:
    [update] fails when the document does not exist. *)
Definition release_slot (instr : uid) (key : Z) : M unit :=
  fun s =>
    match calendar s !! (instr, key) with
    | Some _ =>
        (with_calendar (fun c => <[(instr, key) := mkSlot false None]> c) s, Ok tt)
    | None => (s, Err INTERNAL 500)
    end.

(** *** createBooking *)

Record BookingCreateRequest : Type := mkCreateRequest {
  req_instructorId : uid;
  req_date : option Z;
  req_duration : Z
}.

Record BookingCreateResponse : Type := mkCreateResponse {
  cr_bookingId : bookingId;
  cr_status : BookingStatus;
  cr_depositAmount : number;
  cr_totalPrice : number
}.

Definition processDepositPayment (id : bookingId) (studentId : uid) (amount : number) : M unit :=
  modify (add_payment (mkPayment id studentId amount PT_DEPOSIT)).

Definition scheduleAcceptanceTimeout (id : bookingId) (delayMs now : Z) : M unit :=
  modify (with_bookingTimeouts (fun l => l ++ [mkTimeout id (now + delayMs) false false])).

Definition sendNotification (userId : uid) (type : string) (id : bookingId) : M unit :=
  modify (add_notification (mkNotification userId type id)).

(** The transaction of step 5 (createBooking.ts, lines 104-173). *)
Definition createBooking_transaction
    (studentId : uid) (data : BookingCreateRequest) (bookingDate : Z)
    (totalPrice depositAmount remainingAmount : number) (now : Z) : M bookingId :=
  transaction (
    let* s := get in
    throw_if (negb (is_empty (existingBookings s (req_instructorId data) bookingDate)))
      VALIDATION_ERROR 409 >>
    throw_if (slot_reserved s (req_instructorId data) (formatDateKey bookingDate))
      VALIDATION_ERROR 409 >>
    let id := length (bookings s) in
    let booking :=
      {| studentId := studentId;
         instructorId := req_instructorId data;
         date := bookingDate;
         duration := req_duration data;
         status := PENDENTE;
         paymentStatus := PAY_PENDENTE;
         rescheduleCount := 0;
         price := totalPrice;
         depositAmount := depositAmount;
         remainingAmount := remainingAmount;
         createdAt := now;
         pricePerHour := None;
         rescheduleFee := None;
         totalPrice := None;
         cancelledBy := None;
         refundAmount := None;
         penaltyAmount := None;
         actualDuration := None |} in
    modify (with_bookings (fun l => l ++ [booking])) >>
    reserve_slot (req_instructorId data) (formatDateKey bookingDate) id >>
    ret id).

Definition createBooking (auth : option uid) (data : BookingCreateRequest) (now : Z)
    : M BookingCreateResponse :=
  match auth with
  | None => throw UNAUTHORIZED 401
  | Some studentId =>
      match req_date data with
      | None => throw VALIDATION_ERROR 400
      | Some bookingDate =>
          throw_if (String.eqb (req_instructorId data) "" || (req_duration data =? 0))
            VALIDATION_ERROR 400 >>
          throw_if ((req_duration data <? 1) || (4 <? req_duration data))
            VALIDATION_ERROR 400 >>
          throw_if (bookingDate <=? now) VALIDATION_ERROR 400 >>
          let* s := get in
          match instructors s !! req_instructorId data with
          | None => throw NOT_FOUND 404
          | Some ins =>
              throw_if (negb (bool_decide (ins_status ins = APROVADO)))
                VALIDATION_ERROR 400 >>
              let pricePerHour :=
                JS.or_else (JS.to_number (ins_pricePerHour ins)) (JS.of_Z 80) in
              let totalPrice := JS.mul pricePerHour (JS.of_Z (req_duration data)) in
              let depositAmount := deposit_of totalPrice in
              let remainingAmount := JS.sub totalPrice depositAmount in
              let* id :=
                createBooking_transaction studentId data bookingDate
                  totalPrice depositAmount remainingAmount now in
              processDepositPayment id studentId depositAmount >>
              scheduleAcceptanceTimeout id (2 * 60 * 60 * 1000) now >>
              sendNotification (req_instructorId data) "new_booking" id >>
              ret (mkCreateResponse id PENDENTE depositAmount totalPrice)
          end
      end
  end.

(** *** confirmBooking *)

Definition updatePaymentIntent (id : bookingId) (remainingAmount : number) : M unit :=
  modify (add_paymentIntent (mkIntent id remainingAmount)).

(** [cancelTimeoutJob] (confirmBooking.ts, lines 168-189): every timeout
    record of the booking that is not processed yet is marked processed and
    cancelled, in one batch. *)
Definition cancel_timeout_record (id : bookingId) (t : TimeoutJob) : TimeoutJob :=
  if bool_decide (to_bookingId t = id) && negb (to_processed t)
  then mkTimeout (to_bookingId t) (to_scheduledFor t) true true
  else t.

Definition cancelTimeoutJob (id : bookingId) : M unit :=
  modify (with_bookingTimeouts (map (cancel_timeout_record id))).

Definition confirmBooking (auth : option uid) (data_bookingId : option bookingId) (now : Z)
    : M (bookingId * BookingStatus) :=
  match auth with
  | None => throw UNAUTHORIZED 401
  | Some caller =>
      match data_bookingId with
      | None => throw VALIDATION_ERROR 400
      | Some id =>
          let* s := get in
          match bookings s !! id with
          | None => throw NOT_FOUND 404
          | Some booking =>
              throw_if (negb (bool_decide (instructorId booking = caller)))
                UNAUTHORIZED 403 >>
              throw_if (negb (bool_decide (status booking = PENDENTE)))
                VALIDATION_ERROR 400 >>
              let hoursSinceCreation :=
                JS.div (JS.of_Z (now - createdAt booking)) (JS.of_Z HOUR_MS) in
              throw_if (JS.gtb hoursSinceCreation (JS.of_Z 2)) VALIDATION_ERROR 403 >>
              modify (update_booking id (set_status CONFIRMADA)) >>
              updatePaymentIntent id (remainingAmount booking) >>
              cancelTimeoutJob id >>
              sendNotification (studentId booking) "booking_confirmed" id >>
              ret (id, CONFIRMADA)
          end
      end
  end.

(** *** cancelBooking *)

Record BookingCancelRequest : Type := mkCancelRequest {
  cn_bookingId : option bookingId;
  cn_userType : option UserType
}.

Record BookingCancelResponse : Type := mkCancelResponse {
  cc_bookingId : bookingId;
  cc_status : BookingStatus;
  cc_refundAmount : number;
  cc_penaltyAmount : number;
  cc_message : string
}.

(** [processRefund] of the cancellation path. *)
Definition processRefund (id : bookingId) (amount : number) (why : string) : M unit :=
  modify (add_refund (mkRefund id amount why)).

(** [walletRef.update({'wallet.available': increment(a), ...})]: fails when
    the instructor document does not exist. *)
Definition update_wallet (instr : uid) (f : Instructor -> Instructor) : M unit :=
  fun s =>
    match instructors s !! instr with
    | Some i => (with_instructors (fun m => <[instr := f i]> m) s, Ok tt)
    | None => (s, Err INTERNAL 500)
    end.

Definition penalize (penalty : number) (i : Instructor) : Instructor :=
  mkInstructor (ins_status i) (ins_pricePerHour i)
    (JS.add (wallet_available i) (JS.neg penalty))
    (wallet_total i)
    (JS.add (wallet_penalties i) penalty)
    (ins_cpf i) (ins_vehicle_plate i).

(** [applyInstructorPenalty] (confirmBooking.ts, lines 482-514); it is
    called with a penalty above 0 only. *)
Definition applyInstructorPenalty (instr : uid) (penalty : number) (id : bookingId) : M unit :=
  try_catch (
    update_wallet instr (penalize penalty) >>
    modify (add_walletTransaction (mkWalletTx instr TX_PENALTY (JS.neg penalty) id))).

Definition cancelBooking (auth : option uid) (data : BookingCancelRequest) (now : Z)
    : M BookingCancelResponse :=
  match auth with
  | None => throw UNAUTHORIZED 401
  | Some userId =>
      match cn_bookingId data, cn_userType data with
      | Some id, Some userType =>
          let* s := get in
          match bookings s !! id with
          | None => throw NOT_FOUND 404
          | Some booking =>
              throw_if (bool_decide (userType = student)
                        && negb (bool_decide (studentId booking = userId)))
                UNAUTHORIZED 403 >>
              throw_if (bool_decide (userType = instructor)
                        && negb (bool_decide (instructorId booking = userId)))
                UNAUTHORIZED 403 >>
              throw_if (bool_decide (status booking = CANCELADA)) VALIDATION_ERROR 400 >>
              throw_if (bool_decide (status booking = CONCLUIDA)) VALIDATION_ERROR 400 >>
              let bookingDate := date booking in
              let hoursUntilBooking :=
                JS.div (JS.of_Z (bookingDate - now)) (JS.of_Z HOUR_MS) in
              let policy :=
                calculateCancellationPolicy userType hoursUntilBooking
                  (price booking) (depositAmount booking) in
              modify (update_booking id
                        (set_cancellation userType
                           (JS.mul (refundPercentage policy) (price booking))
                           (policy_penaltyAmount policy))) >>
              release_slot (instructorId booking) (formatDateKey bookingDate) >>
              let refundAmount :=
                JS.round (JS.mul (refundPercentage policy) (price booking)) in
              (if JS.gtb refundAmount (JS.of_Z 0)
               then processRefund id refundAmount (reason policy)
               else ret tt) >>
              (if JS.gtb (policy_penaltyAmount policy) (JS.of_Z 0)
                  && bool_decide (userType = instructor)
               then applyInstructorPenalty (instructorId booking)
                      (policy_penaltyAmount policy) id
               else ret tt) >>
              sendNotification
                (match userType with
                 | student => instructorId booking
                 | instructor | other_user => studentId booking
                 end) "booking_cancelled" id >>
              ret (mkCancelResponse id CANCELADA refundAmount
                     (policy_penaltyAmount policy) (reason policy))
          end
      | _, _ => throw VALIDATION_ERROR 400
      end
  end.

(** *** rescheduleBooking *)

Record BookingRescheduleRequest : Type := mkRescheduleRequest {
  rs_bookingId : option bookingId;
  rs_newDate : option Z;
  rs_newDuration : option Z
}.

Record BookingRescheduleResponse : Type := mkRescheduleResponse {
  rr_bookingId : bookingId;
  rr_newDate : Z;
  rr_fee : number;
  rr_rescheduleCount : Z
}.

(** [if (data.newDuration)]: a missing or zero duration is falsy. *)
Definition given_duration (d : option Z) : option Z :=
  match d with
  | Some n => if n =? 0 then None else Some n
  | None => None
  end.

(** The [updates] object (rescheduleBooking.ts, lines 137-152). *)
Definition reschedule_updates
    (booking : Booking) (newBookingDate : Z) (newDuration : option Z)
    (rescheduleCount : Z) (fee : number) : RescheduleUpdates :=
  let upd_price :=
    match given_duration newDuration with
    | Some n => Some (JS.mul (JS.to_number (pricePerHour booking)) (JS.of_Z n))
    | None => None
    end in
  {| upd_date := newBookingDate;
     upd_rescheduleCount := rescheduleCount + 1;
     upd_duration := given_duration newDuration;
     upd_price := upd_price;
     upd_rescheduleFee := if JS.gtb fee (JS.of_Z 0) then Some fee else None;
     upd_totalPrice :=
       if JS.gtb fee (JS.of_Z 0)
       then Some (JS.add (JS.or_else (JS.to_number upd_price) (price booking)) fee)
       else None |}.

(** The transaction of step 2 (rescheduleBooking.ts, lines 52-162). *)
Definition rescheduleBooking_transaction
    (caller : uid) (id : bookingId) (newBookingDate : Z) (newDuration : option Z)
    : M BookingRescheduleResponse :=
  transaction (
    let* s := get in
    match bookings s !! id with
    | None => throw NOT_FOUND 404
    | Some booking =>
        throw_if (negb (bool_decide (studentId booking = caller))) UNAUTHORIZED 403 >>
        throw_if (negb (active booking)) VALIDATION_ERROR 400 >>
        let rescheduleCount := rescheduleCount booking in
        let fee := reschedule_fee rescheduleCount (price booking) in
        throw_if (negb (is_empty (existingBookings s (instructorId booking) newBookingDate)))
          VALIDATION_ERROR 409 >>
        release_slot (instructorId booking) (formatDateKey (date booking)) >>
        reserve_slot (instructorId booking) (formatDateKey newBookingDate) id >>
        modify (update_booking id
                  (apply_updates
                     (reschedule_updates booking newBookingDate newDuration
                        rescheduleCount fee))) >>
        ret (mkRescheduleResponse id newBookingDate fee (rescheduleCount + 1))
    end).

Definition chargeRescheduleFee (id : bookingId) (studentId : uid) (fee : number) : M unit :=
  modify (add_payment (mkPayment id studentId fee PT_RESCHEDULE_FEE)).

Definition rescheduleBooking (auth : option uid) (data : BookingRescheduleRequest) (now : Z)
    : M BookingRescheduleResponse :=
  match auth with
  | None => throw UNAUTHORIZED 401
  | Some caller =>
      match rs_bookingId data, rs_newDate data with
      | Some id, Some newBookingDate =>
          throw_if (newBookingDate <=? now) VALIDATION_ERROR 400 >>
          let* r := rescheduleBooking_transaction caller id newBookingDate
                      (rs_newDuration data) in
          (if JS.gtb (rr_fee r) (JS.of_Z 0)
           then chargeRescheduleFee id caller (rr_fee r)
           else ret tt) >>
          let* s := get in
          match bookings s !! id with
          | Some booking => sendNotification (instructorId booking) "booking_rescheduled" id
          | None => ret tt
          end >>
          ret r
      | _, _ => throw VALIDATION_ERROR 400
      end
  end.

(** *** markLessonCompleted *)

Record LessonCompletionRequest : Type := mkCompletionRequest {
  lc_bookingId : option bookingId;
  lc_actualDuration : Z
}.

(** A field that is not [undefined]. *)
Definition defined {A} (o : option A) : bool :=
  match o with Some _ => true | None => false end.

(** The three fields [triggerDetranValidation] reads from the student and
    the instructor document, [student?.cpf], [instructor?.cpf] and
    [instructor?.vehicle?.plate], are all there. *)
Definition detran_fields_defined (s : Store) (booking : Booking) : bool :=
  defined (students s !! studentId booking ≫= st_cpf)
  && defined (instructors s !! instructorId booking ≫= ins_cpf)
  && defined (instructors s !! instructorId booking ≫= ins_vehicle_plate).

(** The task [triggerDetranValidation] queues. *)
Definition detran_task (id : bookingId) (booking : Booking) : ValidationTask :=
  {| vt_bookingId := id;
     vt_duracao_horas :=
       match actualDuration booking with
       | Some a => if a =? 0 then duration booking else a
       | None => duration booking
       end;
     vt_status := VS_PENDING;
     vt_attempts := 0 |}.

(** [triggerDetranValidation] (markLessonCompleted.ts, lines 161-193); the
    [booking] it receives was read before the status update.  [add] refuses
    a document with an undefined field: when one of the three fields is
    missing it throws, the [catch] logs, and nothing is queued.  (The
    booking's [category] is there, as createBooking writes it.) *)
Definition triggerDetranValidation (id : bookingId) (booking : Booking) : M unit :=
  try_catch (
    let* s := get in
    if detran_fields_defined s booking
    then modify (add_validation (detran_task id booking))
    else throw INTERNAL 500).

Definition chargeRemainingPayment (id : bookingId) (booking : Booking) : M unit :=
  modify (add_payment (mkPayment id (studentId booking) (remainingAmount booking) PT_REMAINING)).

(** [schedulePaymentRelease] (markLessonCompleted.ts, lines 223-253). *)
Definition schedulePaymentRelease
    (id : bookingId) (instr : uid) (totalAmount : number) (delayMs now : Z) : M unit :=
  let platformFee := JS.round (JS.mul totalAmount (JS.Num 0.15)) in
  let instructorAmount := JS.sub totalAmount platformFee in
  modify (with_paymentReleaseQueue (fun q =>
    q ++ [ {| rel_bookingId := id;
              rel_instructorId := instr;
              rel_totalAmount := totalAmount;
              rel_platformFee := platformFee;
              rel_instructorAmount := instructorAmount;
              rel_scheduledFor := now + delayMs;
              rel_processed := false |} ])).

(** The write to [students/{id}/progress] made by [updateStudentProgress] is
    left out: no function of this development reads that collection. *)
Definition markLessonCompleted (auth : option uid) (data : LessonCompletionRequest) (now : Z)
    : M (bookingId * BookingStatus) :=
  match auth with
  | None => throw UNAUTHORIZED 401
  | Some caller =>
      match lc_bookingId data with
      | None => throw VALIDATION_ERROR 400
      | Some id =>
          throw_if (lc_actualDuration data =? 0) VALIDATION_ERROR 400 >>
          let* s := get in
          match bookings s !! id with
          | None => throw NOT_FOUND 404
          | Some booking =>
              throw_if (negb (bool_decide (instructorId booking = caller)))
                UNAUTHORIZED 403 >>
              throw_if (bool_decide (status booking = CONCLUIDA)) VALIDATION_ERROR 400 >>
              throw_if (now <? date booking) VALIDATION_ERROR 400 >>
              modify (update_booking id (set_completion (lc_actualDuration data))) >>
              triggerDetranValidation id booking >>
              chargeRemainingPayment id booking >>
              schedulePaymentRelease id caller (price booking) (24 * 60 * 60 * 1000) now >>
              sendNotification (studentId booking) "rating_request" id >>
              ret (id, CONCLUIDA)
          end
      end
  end.

(** ** Scheduled pollers

    The pollers run outside any transaction: they query a snapshot of due
    records and, for each record, perform a sequence of separate writes.  A
    run is therefore a list of writes per record; [crash = Some k] stops the
    process after [k] writes, [None] lets it run to the end.  A write that
    throws reaches the [catch] around the loop and ends the run. *)

Inductive Outcome : Type :=
| Finished
| Aborted
| Crashed.

Fixpoint run_writes (ws : list (M unit)) (crash : option nat) (s : Store)
    : Store * Outcome * option nat :=
  match ws with
  | [] => (s, Finished, crash)
  | w :: rest =>
      match crash with
      | Some O => (s, Crashed, crash)
      | _ =>
          match w s with
          | (s', Ok _) => run_writes rest (Nat.pred <$> crash) s'
          | (s', Err _ _) => (s', Aborted, crash)
          end
      end
  end.

Fixpoint run_loop {D} (handler : Store -> nat -> D -> list (M unit))
    (docs : list (nat * D)) (crash : option nat) (s : Store) : Store * Outcome :=
  match docs with
  | [] => (s, Finished)
  | (ref, d) :: rest =>
      match run_writes (handler s ref d) crash s with
      | (s', Finished, crash') => run_loop handler rest crash' s'
      | (s', o, _) => (s', o)
      end
  end.

(** The order of a query result.  Firestore returns the documents of a
    query with a range filter on a field in the ascending order of that
    field, and documents that agree on it in the order of their ids; a
    document's id is here its position in the collection.  [order_by]
    sorts a list that is in the order of the positions by [key], keeping
    that order among equal keys.  (Firestore generates its ids at random:
    what is stated below about the order in which a run takes its records
    is stated for records that differ in the field.) *)
Fixpoint insert_by {D} (key : D -> Z) (x : nat * D) (l : list (nat * D))
    : list (nat * D) :=
  match l with
  | [] => [x]
  | y :: rest =>
      if key (snd x) <=? key (snd y) then x :: l else y :: insert_by key x rest
  end.

Definition order_by {D} (key : D -> Z) (l : list (nat * D)) : list (nat * D) :=
  foldr (insert_by key) [] l.

(** [.where('scheduledFor', '<=', now).where('processed', '==', false).limit(50)] *)
Definition due_timeouts (now : Z) (s : Store) : list (nat * TimeoutJob) :=
  take 50 (order_by to_scheduledFor
             (List.filter
                (fun d => (to_scheduledFor (snd d) <=? now) && negb (to_processed (snd d)))
                (imap pair (bookingTimeouts s)))).

Definition due_releases (now : Z) (s : Store) : list (nat * ReleaseJob) :=
  take 50 (order_by rel_scheduledFor
             (List.filter
                (fun d => (rel_scheduledFor (snd d) <=? now) && negb (rel_processed (snd d)))
                (imap pair (paymentReleaseQueue s)))).

Definition mark_timeout_processed (ref : nat) : M unit :=
  modify (with_bookingTimeouts (fun l =>
    match l !! ref with
    | Some t => <[ref := mkTimeout (to_bookingId t) (to_scheduledFor t) true (to_cancelled t)]> l
    | None => l
    end)).

Definition mark_release_processed (ref : nat) : M unit :=
  modify (with_paymentReleaseQueue (fun l =>
    match l !! ref with
    | Some r =>
        <[ref := mkRelease (rel_bookingId r) (rel_instructorId r) (rel_totalAmount r)
                   (rel_platformFee r) (rel_instructorAmount r) (rel_scheduledFor r) true]> l
    | None => l
    end)).

(** [calendarSlotRef.delete()] *)
Definition delete_slot (instr : uid) (key : Z) : M unit :=
  modify (with_calendar (fun c => delete (instr, key) c)).

(** The body of the loop of [processBookingTimeouts] (createBooking.ts,
    lines 383-434) for one timeout record: the booking is read first, the
    writes follow. *)
Definition timeout_writes (s : Store) (ref : nat) (timeout : TimeoutJob) : list (M unit) :=
  let id := to_bookingId timeout in
  match bookings s !! id with
  | None => [mark_timeout_processed ref]
  | Some booking =>
      (if bool_decide (status booking = PENDENTE) then
         [ modify (update_booking id (set_status CANCELADA));
           delete_slot (instructorId booking) (formatDateKey (date booking));
           processRefund id (depositAmount booking) "timeout";
           sendNotification (studentId booking) "booking_timeout" id ]
       else [])
      ++ [mark_timeout_processed ref]
  end.

Definition processBookingTimeouts_upto (crash : option nat) (now : Z) (s : Store)
    : Store * Outcome :=
  run_loop timeout_writes (due_timeouts now s) crash s.

Definition processBookingTimeouts (now : Z) (s : Store) : Store :=
  fst (processBookingTimeouts_upto None now s).

Definition credit (amount : number) (i : Instructor) : Instructor :=
  mkInstructor (ins_status i) (ins_pricePerHour i)
    (JS.add (wallet_available i) amount)
    (JS.add (wallet_total i) amount)
    (wallet_penalties i)
    (ins_cpf i) (ins_vehicle_plate i).

(** [FieldValue.increment(n)] refuses an operand that is [NaN]: it throws
    while the argument of the update is built, before anything is written. *)
Definition increment_operand (n : number) : M unit :=
  match n with
  | JS.Num _ => ret tt
  | JS.NaN => throw INTERNAL 500
  end.

(** The body of the loop of [processPaymentReleases] (markLessonCompleted.ts,
    lines 365-404) for one release record. *)
Definition release_writes (s : Store) (ref : nat) (release : ReleaseJob) : list (M unit) :=
  [ (increment_operand (rel_instructorAmount release) >>
     update_wallet (rel_instructorId release) (credit (rel_instructorAmount release)));
    modify (add_walletTransaction
              (mkWalletTx (rel_instructorId release) TX_CREDIT
                 (rel_instructorAmount release) (rel_bookingId release)));
    sendNotification (rel_instructorId release) "payment_released" (rel_bookingId release);
    mark_release_processed ref ].

Definition processPaymentReleases_upto (crash : option nat) (now : Z) (s : Store)
    : Store * Outcome :=
  run_loop release_writes (due_releases now s) crash s.

Definition processPaymentReleases (now : Z) (s : Store) : Store :=
  fst (processPaymentReleases_upto None now s).

(** ** Executions *)

Inductive Call : Type :=
| CreateBooking (auth : option uid) (data : BookingCreateRequest)
| ConfirmBooking (auth : option uid) (data_bookingId : option bookingId)
| CancelBooking (auth : option uid) (data : BookingCancelRequest)
| RescheduleBooking (auth : option uid) (data : BookingRescheduleRequest)
| MarkLessonCompleted (auth : option uid) (data : LessonCompletionRequest)
| ProcessBookingTimeouts
| ProcessPaymentReleases.

(** One call at clock value [now]. *)
Definition step (c : Call) (now : Z) (s : Store) : Store :=
  match c with
  | CreateBooking auth data => run (createBooking auth data now) s
  | ConfirmBooking auth id => run (confirmBooking auth id now) s
  | CancelBooking auth data => run (cancelBooking auth data now) s
  | RescheduleBooking auth data => run (rescheduleBooking auth data now) s
  | MarkLessonCompleted auth data => run (markLessonCompleted auth data now) s
  | ProcessBookingTimeouts => processBookingTimeouts now s
  | ProcessPaymentReleases => processPaymentReleases now s
  end.

Fixpoint steps (cs : list (Call * Z)) (s : Store) : Store :=
  match cs with
  | [] => s
  | (c, now) :: rest => steps rest (step c now s)
  end.

(** A store with the given instructor and student documents and nothing
    else. *)
Definition initial (ins : gmap uid Instructor) (pupils : gmap uid Student) : Store :=
  mkStore ins [] ∅ [] [] [] [] [] [] [] [] pupils.

Definition is_reschedule (c : Call) : bool :=
  match c with RescheduleBooking _ _ => true | _ => false end.

(** Ids of the active bookings of an instructor whose date falls in a slot. *)
Definition active_in_slot (s : Store) (instr : uid) (key : Z) : list nat :=
  fst <$> List.filter
     (fun d => bool_decide (instructorId (snd d) = instr)
               && (formatDateKey (date (snd d)) =? key)
               && active (snd d))
     (imap pair (bookings s)).

(** The money invariant of a booking, with JavaScript's [==]. *)
Definition amounts_balanced (b : Booking) : Prop :=
  JS.eq (JS.add (depositAmount b) (remainingAmount b)) (price b).

Definition refunds_of (s : Store) (id : bookingId) : list Refund :=
  List.filter (fun r => bool_decide (rf_bookingId r = id)) (refunds s).

Definition credits_of (s : Store) (id : bookingId) : list WalletTransaction :=
  List.filter
    (fun t => bool_decide (wt_bookingId t = id)
              && match wt_type t with TX_CREDIT => true | TX_PENALTY => false end)
    (walletTransactions s).

(** ** The specification's own wording, for comparison with the code *)

Module Spec.

(** "platformFeePercent (0.15 default, 0.10 if package hours >= 20)" *)
Definition platformFeePercent (packageHours : option Z) : Q :=
  match packageHours with
  | Some h => if 20 <=? h then 0.10%Q else 0.15%Q
  | None => 0.15%Q
  end.

(** "platformFeeAmount = round(totalAmount x feePercent)" *)
Definition platformFeeAmount (totalAmount : number) (packageHours : option Z) : number :=
  JS.round (JS.mul totalAmount (JS.Num (platformFeePercent packageHours))).

(** "providerAmount = totalAmount - platformFeeAmount" *)
Definition providerAmount (totalAmount : number) (packageHours : option Z) : number :=
  JS.sub totalAmount (platformFeeAmount totalAmount packageHours).

(** "fee = 0 if this is the first reschedule on the booking, else 10% of
    the original price": the price the booking was created with. *)
Definition rescheduleFee (rescheduleCount : Z) (originalPrice : Q) : Q :=
  if 0 <? rescheduleCount then (originalPrice * 0.10)%Q else 0%Q.

End Spec.

(** ** External validation gateway *)

Module ValidationGateway.

(** Modelled from the spec: the result of one call of
    [ValidationAuthority.certify] (section 6): a protocol id, a timeout
    after 10 s, a transient error (5xx / network) or a permanent error
    (4xx).  The sources contain no caller of the authority for lessons. *)
Inductive CertifyResult : Type :=
| Certified (protocolId : string)
| CertifyTimeout
| TransientError
| PermanentError.

(** Modelled from the spec: "up to 3 attempts total" (section 4.5). *)
Definition MAX_ATTEMPTS : Z := 3.

(** Modelled from the spec: the exponential backoff before retry number
    [attempt]; the base delay is a parameter, the spec gives no value. *)
Definition backoff (base : Z) (attempt : Z) : Z := base * 2 ^ attempt.

(** Modelled from the spec: a task moved to another state of section 4.5,
    with its attempt counter. *)
Definition with_state (st : ValidationStatus) (attempts : Z) (t : ValidationTask)
    : ValidationTask :=
  mkValidation (vt_bookingId t) (vt_duracao_horas t) st attempts.

(** Modelled from the spec: one step of the per-task state machine of
    section 4.5, the consumer of [detranValidationQueue] that is missing
    from the sources (only the producer, [triggerDetranValidation], is
    there).  The second component is the delay after which the task is
    tried again, if it is. *)
Definition on_result (base : Z) (r : CertifyResult) (t : ValidationTask)
    : ValidationTask * option Z :=
  match r with
  | Certified _ => (with_state VS_VALIDATED (vt_attempts t) t, None)
  | CertifyTimeout => (with_state VS_REQUIRES_MANUAL_REVIEW (vt_attempts t) t, None)
  | PermanentError => (with_state VS_REQUIRES_MANUAL_REVIEW (vt_attempts t) t, None)
  | TransientError =>
      let attempt := vt_attempts t + 1 in
      if attempt <? MAX_ATTEMPTS
      then (with_state VS_PENDING attempt t, Some (backoff base attempt))
      else (with_state VS_REQUIRES_MANUAL_REVIEW attempt t, None)
  end.

(** Modelled from the spec: what a run of the gateway on one task leaves
    behind. *)
Record Trace : Type := mkTrace {
  final : ValidationTask;
  calls : list Z;          (* the attempt number of every call of certify *)
  delays : list Z          (* the backoff before every retry *)
}.

(** Modelled from the spec: the gateway keeps calling the authority while
    the task is Pending; [certify n] is the authority's answer to the call
    made at attempt [n]. *)
Fixpoint process (fuel : nat) (base : Z) (certify : Z -> CertifyResult)
    (t : ValidationTask) : Trace :=
  match vt_status t with
  | VS_PENDING =>
      match fuel with
      | O => mkTrace t [] []
      | S fuel' =>
          let '(t', retry) := on_result base (certify (vt_attempts t)) t in
          let rest := process fuel' base certify t' in
          mkTrace (final rest) (vt_attempts t :: calls rest)
            (match retry with Some d => d :: delays rest | None => delays rest end)
      end
  | _ => mkTrace t [] []
  end.

(** Modelled from the spec: Validated and RequiresManualReview are the
    final states of a task. *)
Definition terminal (t : ValidationTask) : bool :=
  match vt_status t with
  | VS_PENDING => false
  | VS_VALIDATED | VS_REQUIRES_MANUAL_REVIEW => true
  end.

End ValidationGateway.

(** ** Relations between stores used by the invariants *)

Definition status_of (s : Store) (id : bookingId) : option BookingStatus :=
  status <$> (bookings s !! id).

(** What every call keeps of a booking document: the parties, the creation
    time, the deposit and the remainder; a status other than pendente never
    becomes pendente again; and, when [with_price] is set, the price. *)
Record booking_kept (with_price : bool) (b b' : Booking) : Prop := mkKept {
  kept_student : studentId b' = studentId b;
  kept_instructor : instructorId b' = instructorId b;
  kept_created : createdAt b' = createdAt b;
  kept_deposit : depositAmount b' = depositAmount b;
  kept_remaining : remainingAmount b' = remainingAmount b;
  kept_settled : status b <> PENDENTE -> status b' <> PENDENTE;
  kept_price : with_price = true -> price b' = price b
}.

Definition bookings_kept (with_price : bool) (l l' : list Booking) : Prop :=
  forall (i : nat) (b : Booking),
    l !! i = Some b -> exists b' : Booking, l' !! i = Some b' /\ booking_kept with_price b b'.

(** A write is harmless when it keeps the booking documents, whatever the
    store it runs on. *)
Definition harmless (w : M unit) : Prop :=
  forall s : Store, bookings_kept true (bookings s) (bookings (fst (w s))).

(** The cancellation notices the timeout poller has sent for a booking. *)
Definition timeout_notices_of (s : Store) (id : bookingId) : list Notification :=
  List.filter
    (fun n => bool_decide (nt_bookingId n = id) && String.eqb (nt_type n) "booking_timeout")
    (notifications s).

(** What the timeout poller can change about one booking: its document, its
    refunds and its timeout notices. *)
Definition timeout_view (s : Store) (id : bookingId)
    : option Booking * list Refund * list Notification :=
  (bookings s !! id, refunds_of s id, timeout_notices_of s id).

(** Deliveries of the acceptance-timeout poller, each possibly cut short. *)
Fixpoint redeliver_timeouts (runs : list (option nat * Z)) (s : Store) : Store :=
  match runs with
  | [] => s
  | (crash, now) :: rest =>
      redeliver_timeouts rest (fst (processBookingTimeouts_upto crash now s))
  end.

(** Either the booking is still pendente and nothing was refunded or
    notified beyond [r] and [n], or it is not pendente and at most one refund
    and one notice were added. *)
Definition fired_at_most_once (id : bookingId) (r : list Refund) (n : list Notification)
    (s : Store) : Prop :=
  (status_of s id = Some PENDENTE /\ refunds_of s id = r /\ timeout_notices_of s id = n) \/
  (status_of s id <> Some PENDENTE /\
   (length (refunds_of s id) <= S (length r))%nat /\
   (length (timeout_notices_of s id) <= S (length n))%nat).

(** ** Slot exclusivity *)

(** The calendar document that stands for a booking. *)
Definition slot_key (b : Booking) : uid * Z :=
  (instructorId b, formatDateKey (date b)).

(** Reservation and booking agree: the slot of every active booking is
    reserved, in that booking's name. *)
Definition slots_consistent (s : Store) : Prop :=
  forall (id : bookingId) (b : Booking),
    bookings s !! id = Some b -> active b = true ->
    calendar s !! slot_key b = Some (mkSlot true (Some id)).

(** At most one active booking per (instructor, slot key). *)
Definition slot_exclusive (s : Store) : Prop :=
  forall (id1 id2 : bookingId) (b1 b2 : Booking),
    bookings s !! id1 = Some b1 -> bookings s !! id2 = Some b2 ->
    active b1 = true -> active b2 = true ->
    slot_key b1 = slot_key b2 -> id1 = id2.

(** The ways in which the calls other than rescheduleBooking change
    bookings and calendar together. *)
Inductive slot_step (s s' : Store) : Prop :=
| slot_step_same :
    bookings s' = bookings s -> calendar s' = calendar s -> slot_step s s'
| slot_step_create (b : Booking) :
    calendar s !! slot_key b = None \/
      (exists c, calendar s !! slot_key b = Some c /\ reserved c = false) ->
    bookings s' = bookings s ++ [b] ->
    calendar s' = <[slot_key b := mkSlot true (Some (length (bookings s)))]> (calendar s) ->
    slot_step s s'
| slot_step_update (id : bookingId) (b b' : Booking) :
    bookings s !! id = Some b ->
    slot_key b' = slot_key b ->
    (active b' = true -> active b = true) ->
    bookings s' = <[id := b']> (bookings s) ->
    calendar s' = calendar s ->
    slot_step s s'
| slot_step_release (id : bookingId) (b b' : Booking) :
    bookings s !! id = Some b ->
    active b = true ->
    active b' = false ->
    bookings s' = <[id := b']> (bookings s) ->
    calendar s' = <[slot_key b := mkSlot false None]> (calendar s) \/
      calendar s' = delete (slot_key b) (calendar s) ->
    slot_step s s'.

(** A request that passes the checks createBooking makes before its
    transaction. *)
Definition well_formed_create (auth : option uid) (data : BookingCreateRequest) (now : Z)
    (s : Store) : bool :=
  match auth, req_date data, instructors s !! req_instructorId data with
  | Some _, Some d, Some ins =>
      negb (String.eqb (req_instructorId data) "")
      && (1 <=? req_duration data) && (req_duration data <=? 4)
      && (now <? d)
      && bool_decide (ins_status ins = APROVADO)
  | _, _, _ => false
  end.

(** Two requests aim at the same (instructor, slot key). *)
Definition same_slot (d1 d2 : BookingCreateRequest) : Prop :=
  req_instructorId d1 = req_instructorId d2 /\
  (formatDateKey <$> req_date d1) = (formatDateKey <$> req_date d2).

(** A series of createBooking calls, with the outcome of each. *)
Fixpoint create_all (calls : list (option uid * BookingCreateRequest * Z)) (s : Store)
    : Store * list (Result BookingCreateResponse) :=
  match calls with
  | [] => (s, [])
  | (auth, data, now) :: rest =>
      let '(s1, r) := createBooking auth data now s in
      let '(s2, rs) := create_all rest s1 in
      (s2, r :: rs)
  end.

(** Executions in which no reschedule supplies a new duration. *)
Definition keeps_duration (c : Call) : bool :=
  match c with
  | RescheduleBooking _ data =>
      match given_duration (rs_newDuration data) with Some _ => false | None => true end
  | _ => true
  end.

(** Every booking document satisfies the money invariant. *)
Definition all_balanced (s : Store) : Prop :=
  forall (id : bookingId) (b : Booking), bookings s !! id = Some b -> amounts_balanced b.

(** The release queue only moves forward: records stay in place, keep their
    due time, and a processed record stays processed. *)
Definition queue_progress (q q' : list ReleaseJob) : Prop :=
  forall (i : nat) (r : ReleaseJob),
    q !! i = Some r ->
    exists r' : ReleaseJob,
      q' !! i = Some r' /\
      rel_scheduledFor r' = rel_scheduledFor r /\
      (rel_processed r = true -> rel_processed r' = true).

Definition release_processed (s : Store) (ref : nat) : Prop :=
  exists r : ReleaseJob, paymentReleaseQueue s !! ref = Some r /\ rel_processed r = true.

(** ** A worked scenario

    One approved instructor charging 70 per hour and two students, all
    with their identity fields; a two-hour lesson (price 140) booked at
    clock value 0 for hour 100. *)

Module Scenario.

Definition hours (n : Z) : Z := n * HOUR_MS.

Definition inst : uid := "instructor-1".
Definition ana : uid := "student-1".
Definition bia : uid := "student-2".

Definition registry : gmap uid Instructor :=
  {[ inst := mkInstructor APROVADO (Some (JS.of_Z 70)) (JS.of_Z 0) (JS.of_Z 0) (JS.of_Z 0)
               (Some "52998224725") (Some "ABC1D23") ]}.

Definition pupils : gmap uid Student :=
  {[ ana := mkStudent (Some "11144477735"); bia := mkStudent (Some "12345678909") ]}.

Definition start : Store := initial registry pupils.

Definition lesson : BookingCreateRequest := mkCreateRequest inst (Some (hours 100)) 2.

(** Booking 0: ana, hour 100, two hours. *)
Definition booked : Store := run (createBooking (Some ana) lesson 0) start.

(** Booking 1: bia, hour 101, one hour. *)
Definition booked_twice : Store :=
  run (createBooking (Some bia) (mkCreateRequest inst (Some (hours 101)) 1) 0) booked.

(** ana moves booking 0 to half past hour 101. *)
Definition move_into_taken_hour : BookingRescheduleRequest :=
  mkRescheduleRequest (Some 0%nat) (Some (hours 101 + 30 * 60 * 1000)) None.

(** ana moves booking 0 to hour 200 and makes it three hours long. *)
Definition move_and_extend : BookingRescheduleRequest :=
  mkRescheduleRequest (Some 0%nat) (Some (hours 200)) (Some 3).

(** ana moves booking 0 a second time, to hour 300. *)
Definition move_again : BookingRescheduleRequest :=
  mkRescheduleRequest (Some 0%nat) (Some (hours 300)) None.

(** ana cancels booking 0. *)
Definition ana_cancels : BookingCancelRequest :=
  mkCancelRequest (Some 0%nat) (Some student).

(** The instructor confirms at hour 1, gives the lesson and marks it
    completed at hour 102. *)
Definition confirmed : Store := run (confirmBooking (Some inst) (Some 0%nat) (hours 1)) booked.

Definition completion : LessonCompletionRequest := mkCompletionRequest (Some 0%nat) 2.

Definition completed : Store :=
  run (markLessonCompleted (Some inst) completion (hours 102)) confirmed.

Definition wallet (s : Store) : option number :=
  wallet_available <$> (instructors s !! inst).

(** ana moves booking 0 to hour 200, same duration. *)
Definition move_plain : BookingRescheduleRequest :=
  mkRescheduleRequest (Some 0%nat) (Some (hours 200)) None.

Definition moved_once : Store := run (rescheduleBooking (Some ana) move_plain 0) booked.

(** The validation task queued when booking 0 is marked completed. *)
Definition task : ValidationTask := mkValidation 0%nat 2 VS_PENDING 0.

End Scenario.

(** ** The order of booking statuses *)

(** The order in which the functions move [status]: pendente may become
    anything, confirmada may be completed or cancelled, cancelada may still
    be completed, concluida is final. *)
Definition status_reaches (a b : BookingStatus) : bool :=
  match a, b with
  | PENDENTE, _ => true
  | CONFIRMADA, (CONFIRMADA | CONCLUIDA | CANCELADA) => true
  | CANCELADA, (CANCELADA | CONCLUIDA) => true
  | CONCLUIDA, CONCLUIDA => true
  | _, _ => false
  end.

(** A booking document later in an execution: its status has moved along
    [status_reaches], a completed document has not changed at all, and the
    actual duration is written by the completion only. *)
Record booking_forward (b b' : Booking) : Prop := mkForward {
  fw_status : status_reaches (status b) (status b') = true;
  fw_final : status b = CONCLUIDA -> b' = b;
  fw_actual : status b' <> CONCLUIDA -> actualDuration b' = actualDuration b
}.

(** The booking collection later in an execution: every document is still
    there, moved forward, and a new document is pendente and has no actual
    duration. *)
Definition bookings_forward (l l' : list Booking) : Prop :=
  (forall (i : nat) (b : Booking),
     l !! i = Some b -> exists b' : Booking, l' !! i = Some b' /\ booking_forward b b') /\
  (forall (i : nat) (b' : Booking),
     l' !! i = Some b' -> l !! i = None ->
     status b' <> CONCLUIDA -> actualDuration b' = None).

(** ** Payout records *)

(** The payout record [schedulePaymentRelease] computes for a booking. *)
Record payout_matches (b : Booking) (r : ReleaseJob) : Prop := mkPayoutMatches {
  pm_instructor : rel_instructorId r = instructorId b;
  pm_total : rel_totalAmount r = price b;
  pm_fee : rel_platformFee r = JS.round (JS.mul (price b) (JS.Num 0.15));
  pm_amount : rel_instructorAmount r = JS.sub (price b) (rel_platformFee r)
}.

(** Every queued payout belongs to a completed booking and was computed from
    it, and no booking has two. *)
Definition payouts_sound (s : Store) : Prop :=
  (forall (i : nat) (r : ReleaseJob),
     paymentReleaseQueue s !! i = Some r ->
     exists b : Booking,
       bookings s !! rel_bookingId r = Some b /\ status b = CONCLUIDA /\ payout_matches b r) /\
  (forall (i j : nat) (r1 r2 : ReleaseJob),
     paymentReleaseQueue s !! i = Some r1 -> paymentReleaseQueue s !! j = Some r2 ->
     rel_bookingId r1 = rel_bookingId r2 -> i = j).

(** Two versions of a payout record that differ at most in [processed]. *)
Definition same_payout (r r' : ReleaseJob) : Prop :=
  rel_bookingId r' = rel_bookingId r /\
  rel_instructorId r' = rel_instructorId r /\
  rel_totalAmount r' = rel_totalAmount r /\
  rel_platformFee r' = rel_platformFee r /\
  rel_instructorAmount r' = rel_instructorAmount r.

(** ** Validation tasks *)

(** Only a completed booking carries an actual duration, and every queued
    validation task belongs to a completed booking, is pending with no
    attempt made, and carries the duration the booking was booked for. *)
Definition validations_sound (s : Store) : Prop :=
  (forall (id : bookingId) (b : Booking),
     bookings s !! id = Some b -> status b <> CONCLUIDA -> actualDuration b = None) /\
  (forall (i : nat) (t : ValidationTask),
     detranValidationQueue s !! i = Some t ->
     exists b : Booking,
       bookings s !! vt_bookingId t = Some b /\ status b = CONCLUIDA /\
       vt_duracao_horas t = duration b /\ vt_status t = VS_PENDING /\ vt_attempts t = 0) /\
  (forall (i j : nat) (t1 t2 : ValidationTask),
     detranValidationQueue s !! i = Some t1 -> detranValidationQueue s !! j = Some t2 ->
     vt_bookingId t1 = vt_bookingId t2 -> i = j).

(** ** Complete runs of the timeout poller *)

(** What a full run of the timeout handler makes of the store, for one
    record: the writes of [timeout_writes], all performed. *)
Definition after_timeout (s : Store) (ref : nat) (t : TimeoutJob) : Store :=
  fst (fst (run_writes (timeout_writes s ref t) None s)).

(** The state of one booking under the timeout poller: untouched, or
    cancelled with its slot deleted and its deposit refunded once. *)
Definition untouched (s0 s : Store) (id : bookingId) (b : Booking) : Prop :=
  bookings s !! id = Some b /\ refunds_of s id = refunds_of s0 id.

Definition timed_out (s0 s : Store) (id : bookingId) (b : Booking) : Prop :=
  bookings s !! id = Some (set_status CANCELADA b) /\
  refunds_of s id = refunds_of s0 id ++ [mkRefund id (depositAmount b) "timeout"] /\
  calendar s !! slot_key b = None.

(** ** Releases that cannot be credited *)

(** No two release records that are due share their [scheduledFor]: the
    order of the snapshot is then the order of [scheduledFor] alone. *)
Definition release_times_differ (now : Z) (s : Store) : Prop :=
  NoDup (rel_scheduledFor <$>
         List.filter (fun r => (rel_scheduledFor r <=? now) && negb (rel_processed r))
           (paymentReleaseQueue s)).


(** ** Credits of a release run *)

(** The wallet transaction [processPaymentReleases] logs for a record. *)
Definition credit_transaction (d : nat * ReleaseJob) : WalletTransaction :=
  mkWalletTx (rel_instructorId (snd d)) TX_CREDIT (rel_instructorAmount (snd d))
    (rel_bookingId (snd d)).

(** An instructor document after the credits of the records that name it,
    in the order of the snapshot. *)
Definition credit_all (k : uid) (docs : list (nat * ReleaseJob)) (i : Instructor) : Instructor :=
  foldl (fun acc d =>
           if bool_decide (rel_instructorId (snd d) = k)
           then credit (rel_instructorAmount (snd d)) acc
           else acc) i docs.

(** A wallet counter of instructor [k] after one increment by the
    instructor amount of every record that names [k], in the order of the
    snapshot. *)
Definition credited (k : uid) (docs : list (nat * ReleaseJob)) (counter : number) : number :=
  foldl (fun acc d =>
           if bool_decide (rel_instructorId (snd d) = k)
           then JS.add acc (rel_instructorAmount (snd d))
           else acc) counter docs.

(** A record the poller can credit: its instructor document exists and its
    amount is a number. *)
Definition creditable (s : Store) (d : nat * ReleaseJob) : Prop :=
  is_Some (instructors s !! rel_instructorId (snd d)) /\
  exists q : Q, rel_instructorAmount (snd d) = JS.Num q.

(** ** Parties of a cancellation *)

(** The caller passes step 3 of cancelBooking: a caller who claims to be
    the student, or the instructor, is compared with that party of the
    booking; for any other userType nothing is compared. *)
Definition is_party (userType : UserType) (caller : uid) (b : Booking) : bool :=
  match userType with
  | student => bool_decide (studentId b = caller)
  | instructor => bool_decide (instructorId b = caller)
  | other_user => true
  end.

(** ** Student progress *)

(** [updateStudentProgress] (markLessonCompleted.ts, lines 289-342) writes
    the sub-collection [students/{id}/progress/{category}] and the
    [notifications] collection; no other function of the repository touches
    the sub-collection, so it is modelled on a state of its own.  Hours are
    whole numbers, like the durations of the booking model.  An empty
    student id or category stands for every value [doc()] rejects: the call
    throws inside the [try] and the [catch] only logs. *)
Module Progress.

Inductive LessonType : Type :=
| TEORICA
| PRATICA.

#[global] Instance LessonType_eq_dec : EqDecision LessonType.
Proof. solve_decision. Defined.

(** A progress document: the two counters may be missing. *)
Record ProgressDoc : Type := mkProgress {
  theoreticalHours : option Z;
  practicalHours : option Z;
  lastUpdated : option Z;
  examEligible : bool
}.

Record Notice : Type := mkNotice {
  n_userId : uid;
  n_type : string
}.

Record State : Type := mkState {
  progress : gmap (uid * string) ProgressDoc;
  notifications : list Notice
}.

Definition empty : State := mkState ∅ [].

(** [FieldValue.increment(n)]: a missing counter counts as 0. *)
Definition increment (n : Z) (field : option Z) : option Z :=
  Some (default 0 field + n).

(** [progressRef.set({[fieldName]: increment(hours), lastUpdated}, {merge: true})]
    on the document [d], or on an empty document when there is none. *)
Definition merge_hours (type : LessonType) (hours now : Z) (d : option ProgressDoc)
    : ProgressDoc :=
  let old := default (mkProgress None None None false) d in
  match type with
  | TEORICA =>
      mkProgress (increment hours (theoreticalHours old)) (practicalHours old)
        (Some now) (examEligible old)
  | PRATICA =>
      mkProgress (theoreticalHours old) (increment hours (practicalHours old))
        (Some now) (examEligible old)
  end.

(** [(data.theoreticalHours || 0) >= 20 && (data.practicalHours || 0) >= 20] *)
Definition eligible (data : ProgressDoc) : bool :=
  (20 <=? default 0 (theoreticalHours data)) && (20 <=? default 0 (practicalHours data)).

Definition set_examEligible (d : ProgressDoc) : ProgressDoc :=
  mkProgress (theoreticalHours d) (practicalHours d) (lastUpdated d) true.

Definition updateStudentProgress
    (studentId : uid) (category : string) (hours : Z) (type : LessonType) (now : Z)
    (s : State) : State :=
  if bool_decide (studentId = "") || bool_decide (category = "") then s
  else
    let ref := (studentId, category) in
    let s1 := mkState (<[ref := merge_hours type hours now (progress s !! ref)]> (progress s))
                (notifications s) in
    match progress s1 !! ref with
    | Some data =>
        if eligible data && negb (examEligible data) then
          mkState (<[ref := set_examEligible data]> (progress s1))
            (notifications s1 ++ [mkNotice studentId "exam_eligible"])
        else s1
    | None => s1
    end.

(** A sequence of calls. *)
Record Update : Type := mkUpdate {
  u_studentId : uid;
  u_category : string;
  u_hours : Z;
  u_type : LessonType;
  u_now : Z
}.

Definition apply_update (s : State) (u : Update) : State :=
  updateStudentProgress (u_studentId u) (u_category u) (u_hours u) (u_type u) (u_now u) s.

Definition updates (us : list Update) (s : State) : State := foldl apply_update s us.

(** The hours of one type that a list of calls adds to one document. *)
Definition hours_of (ref : uid * string) (type : LessonType) (us : list Update) : Z :=
  foldr (fun u acc =>
           if bool_decide ((u_studentId u, u_category u) = ref /\ u_type u = type)
           then u_hours u + acc else acc) 0 us.

(** Both totals of a document reach 20 hours. *)
Definition reached (ref : uid * string) (us : list Update) : Prop :=
  20 <= hours_of ref TEORICA us /\ 20 <= hours_of ref PRATICA us.

(** The exam notices sent to a student, and the student's flagged documents. *)
Definition exam_notices (s : State) (student : uid) : list Notice :=
  List.filter (fun n => bool_decide (n_userId n = student)) (notifications s).

Definition flagged (student : uid) (kd : (uid * string) * ProgressDoc) : Prop :=
  fst (fst kd) = student /\ examEligible (snd kd) = true.

#[global] Instance flagged_dec student kd : Decision (flagged student kd).
Proof. unfold flagged. apply _. Defined.

Definition flagged_documents (s : State) (student : uid)
    : gmap (uid * string) ProgressDoc :=
  filter (flagged student) (progress s).

End Progress.

(** ** Withdrawals *)

(** [payments/walletManagement.ts]: [requestWithdrawal], its helpers
    [processPixWithdrawal], [queueTEDWithdrawal] and [calculateBusinessDays],
    and the daily poller [processTEDBatch].

    The functions read and write the [wallet] map of [instructors/{id}] and
    the collections [withdrawals], [tedBatchQueue], [walletTransactions] and
    [notifications]; they are modelled on a store of these.  A wallet
    counter may be missing; [FieldValue.increment] then starts from the
    operand, and it refuses an operand that is [NaN].

    A request is what the callable receives, which need not have the
    declared type: its method may be any value, its bank account any value
    or none; the amount is a number ([NaN] when missing) and the key a
    string or nothing.

    Numbers are added exactly.  JavaScript and Firestore add IEEE doubles,
    which give the exact sum of whole numbers of moderate size and not, in
    general, of amounts with cents: what is stated below about sums is
    stated for whole amounts ([whole]).  Dates are milliseconds since the
    epoch, read in UTC, the time zone of the Cloud Functions runtime. *)
Module Wallet.

(** [data.method]: the two members of [WithdrawalMethod], and
    [other_method] for any other value that is not falsy; requestWithdrawal
    compares the method with the two members and refuses no value. *)
Inductive WithdrawalMethod : Type :=
| PIX
| TED
| other_method.

#[global] Instance WithdrawalMethod_eq_dec : EqDecision WithdrawalMethod.
Proof. solve_decision. Defined.

(** [data.bankAccount], and the [bankAccount] of a queued transfer, by what
    the functions do with it: the field is missing ([undefined]), it is
    [null], it is another falsy value, or it is an object (or another
    truthy value) whose [bank] is printed. *)
Inductive BankAccount : Type :=
| account_undefined
| account_null
| account_falsy
| account_given (bank : string).

#[global] Instance BankAccount_eq_dec : EqDecision BankAccount.
Proof. solve_decision. Defined.

(** [!data.bankAccount] is false. *)
Definition account_truthy (a : BankAccount) : bool :=
  match a with
  | account_given _ => true
  | _ => false
  end.

(** Reading [bankAccount.bank] throws on [undefined] and on [null]. *)
Definition account_readable (a : BankAccount) : bool :=
  match a with
  | account_undefined | account_null => false
  | _ => true
  end.

(** The request; a missing [amount] is [NaN], which is as falsy; a missing
    or falsy [method] is [None]. *)
Record WithdrawalRequest : Type := mkWithdrawalRequest {
  wr_amount : number;
  wr_method : option WithdrawalMethod;
  wr_pixKey : option string;
  wr_bankAccount : BankAccount
}.

Record WalletDoc : Type := mkWallet {
  available : option number;
  blocked : option number;
  total : option number
}.

(** An [instructors/{id}] document: its [wallet] map, if any. *)
Record InstructorDoc : Type := mkInstructorDoc {
  wallet : option WalletDoc
}.

Inductive WithdrawalStatus : Type :=
| PROCESSING
| COMPLETED
| FAILED.

#[global] Instance WithdrawalStatus_eq_dec : EqDecision WithdrawalStatus.
Proof. solve_decision. Defined.

Record Withdrawal : Type := mkWithdrawal {
  w_instructorId : uid;
  w_amount : number;
  w_fee : number;
  w_netAmount : number;
  w_method : WithdrawalMethod;
  w_status : WithdrawalStatus
}.

Record TedJob : Type := mkTed {
  ted_withdrawalId : nat;
  ted_instructorId : uid;
  ted_amount : number;
  ted_bankAccount : BankAccount;
  ted_scheduledFor : Z;
  ted_processed : bool
}.

Record WalletTx : Type := mkTx {
  tx_userId : uid;
  tx_amount : number;
  tx_withdrawalId : nat
}.

Record Notice : Type := mkNotice {
  n_userId : uid;
  n_type : string
}.

Record Store : Type := mkStore {
  instructors : gmap uid InstructorDoc;
  withdrawals : list Withdrawal;
  tedBatchQueue : list TedJob;
  walletTransactions : list WalletTx;
  notifications : list Notice
}.

Record WithdrawalResponse : Type := mkResponse {
  r_withdrawalId : nat;
  r_amount : number;
  r_fee : number;
  r_netAmount : number;
  r_estimatedDate : Z
}.

(** *** Writes

    A write is a function on the store that may throw ([None]). *)

Definition Write : Type := Store -> option Store.

(** [FieldValue.increment(n)] applied to a counter. *)
Definition increment (n : number) (field : option number) : option number :=
  Some (match field with Some v => JS.add v n | None => n end).

(** A counter under an update that increments it ([Some n]) or does not
    name it ([None]). *)
Definition apply_increment (operand : option number) (field : option number)
    : option number :=
  match operand with
  | Some n => increment n field
  | None => field
  end.

(** [FieldValue.increment(n)] throws when [n] is [NaN]. *)
Definition operand_ok (operand : option number) : bool :=
  match operand with
  | Some JS.NaN => false
  | _ => true
  end.

(** The wallet of a document, with no counter when the map is missing. *)
Definition wallet_of (doc : InstructorDoc) : WalletDoc :=
  default (mkWallet None None None) (wallet doc).

(** [instructors/{id}.update({'wallet.available': increment(a),
    'wallet.blocked': increment(b), 'wallet.total': increment(t)})], where
    an update names only some of the three counters: it throws when an
    operand is [NaN] and when the document does not exist, and creates the
    [wallet] map when it is missing. *)
Definition update_wallet (instructorId : uid) (a b t : option number) : Write :=
  fun s =>
    if operand_ok a && operand_ok b && operand_ok t then
      match instructors s !! instructorId with
      | Some doc =>
          Some (mkStore
                  (<[instructorId :=
                       mkInstructorDoc
                         (Some (mkWallet
                                  (apply_increment a (available (wallet_of doc)))
                                  (apply_increment b (blocked (wallet_of doc)))
                                  (apply_increment t (total (wallet_of doc)))))]>
                     (instructors s))
                  (withdrawals s) (tedBatchQueue s) (walletTransactions s) (notifications s))
      | None => None
      end
    else None.

(** [withdrawals/{id}.update({status: ...})]: throws when the document does
    not exist. *)
Definition set_withdrawal_status (withdrawalId : nat) (st : WithdrawalStatus) : Write :=
  fun s =>
    match withdrawals s !! withdrawalId with
    | Some w =>
        Some (mkStore (instructors s)
                (<[withdrawalId :=
                     mkWithdrawal (w_instructorId w) (w_amount w) (w_fee w) (w_netAmount w)
                       (w_method w) st]> (withdrawals s))
                (tedBatchQueue s) (walletTransactions s) (notifications s))
    | None => None
    end.

Definition add_walletTransaction (t : WalletTx) : Write :=
  fun s => Some (mkStore (instructors s) (withdrawals s) (tedBatchQueue s)
                   (walletTransactions s ++ [t]) (notifications s)).

Definition add_notification (n : Notice) : Write :=
  fun s => Some (mkStore (instructors s) (withdrawals s) (tedBatchQueue s)
                   (walletTransactions s) (notifications s ++ [n])).

(** [tedBatchQueue.add({..., bankAccount, ...})]: [add] refuses a field that
    is [undefined]. *)
Definition add_ted (t : TedJob) : Write :=
  fun s =>
    match ted_bankAccount t with
    | account_undefined => None
    | _ =>
        Some (mkStore (instructors s) (withdrawals s) (tedBatchQueue s ++ [t])
                (walletTransactions s) (notifications s))
    end.

(** [tedDoc.ref.update({processed: true})] *)
Definition mark_ted_processed (ref : nat) : Write :=
  fun s =>
    match tedBatchQueue s !! ref with
    | Some t =>
        Some (mkStore (instructors s) (withdrawals s)
                (<[ref := mkTed (ted_withdrawalId t) (ted_instructorId t) (ted_amount t)
                            (ted_bankAccount t) (ted_scheduledFor t) true]> (tedBatchQueue s))
                (walletTransactions s) (notifications s))
    | None => None
    end.

(** The writes of a [try] block, one after the other.  [fault = Some k]
    makes the write number [k] throw (an error of the database or of the
    network), [None] lets only the writes throw that the store makes
    throw.  The result is the store reached and whether the block ended
    normally. *)
Fixpoint try_writes (ws : list Write) (fault : option nat) (s : Store) : Store * bool :=
  match ws with
  | [] => (s, true)
  | w :: rest =>
      match fault with
      | Some O => (s, false)
      | _ =>
          match w s with
          | Some s' => try_writes rest (Nat.pred <$> fault) s'
          | None => (s, false)
          end
      end
  end.

(** *** calculateBusinessDays (lines 299-313) *)

Definition DAY_MS : Z := 24 * 60 * 60 * 1000.

(** [Date.getDay]: 0 is Sunday; 1970-01-01 was a Thursday. *)
Definition getDay (date : Z) : Z := (date / DAY_MS + 4) mod 7.

Definition weekend (date : Z) : bool := (getDay date =? 0) || (getDay date =? 6).

(** The [while] loop; it runs out of [fuel] with [None]. *)
Fixpoint business_days_loop (fuel : nat) (result addedDays days : Z) : option Z :=
  if addedDays <? days then
    match fuel with
    | O => None
    | S fuel' =>
        let result := result + DAY_MS in
        if weekend result then business_days_loop fuel' result addedDays days
        else business_days_loop fuel' result (addedDays + 1) days
    end
  else Some result.

(** Three calendar days per business day are enough for the loop to end. *)
Definition calculateBusinessDays (startDate days : Z) : option Z :=
  business_days_loop (3 * Z.to_nat days) startDate 0 days.

(** *** requestWithdrawal (lines 24-186) *)

(** The four writes of the [try] block of [processPixWithdrawal]. *)
Definition pix_writes (withdrawalId : nat) (instructorId : uid) (amount : number)
    : list Write :=
  [ set_withdrawal_status withdrawalId COMPLETED;
    update_wallet instructorId None (Some (JS.neg amount)) (Some (JS.neg amount));
    add_walletTransaction (mkTx instructorId (JS.neg amount) withdrawalId);
    add_notification (mkNotice instructorId "withdrawal_completed") ].

(** [processPixWithdrawal] (lines 191-263): on an exception the [catch]
    moves [amount] from blocked back to available, marks the withdrawal
    failed and throws again. *)
Definition processPixWithdrawal
    (withdrawalId : nat) (instructorId : uid) (amount : number) (fault : option nat)
    (s : Store) : Store * Result unit :=
  match try_writes (pix_writes withdrawalId instructorId amount) fault s with
  | (s1, true) => (s1, Ok tt)
  | (s1, false) =>
      match update_wallet instructorId (Some amount) (Some (JS.neg amount)) None s1 with
      | None => (s1, Err INTERNAL 500)
      | Some s2 =>
          match set_withdrawal_status withdrawalId FAILED s2 with
          | None => (s2, Err INTERNAL 500)
          | Some s3 => (s3, Err INTERNAL 500)
          end
      end
  end.

(** [queueTEDWithdrawal] (lines 268-294).  The loop of
    [calculateBusinessDays] always ends, so that its [None] is never met,
    here and in [requestWithdrawal]. *)
Definition queueTEDWithdrawal
    (withdrawalId : nat) (instructorId : uid) (amount : number)
    (bankAccount : BankAccount) (now : Z) (s : Store) : Store * Result unit :=
  match calculateBusinessDays now 1 with
  | Some scheduledFor =>
      match add_ted (mkTed withdrawalId instructorId amount bankAccount scheduledFor false)
              s with
      | Some s1 => (s1, Ok tt)
      | None => (s, Err INTERNAL 500)
      end
  | None => (s, Err INTERNAL 500)
  end.

(** [!data.pixKey]: a missing or empty key. *)
Definition no_text (o : option string) : bool :=
  match o with
  | Some k => bool_decide (k = "")
  | None => true
  end.

(** The transaction of step 5: the amount moves from available to blocked
    and the withdrawal document is created; its id is returned. *)
Definition block_amount
    (instructorId : uid) (amount fee netAmount : number) (method : WithdrawalMethod)
    (s : Store) : option (Store * nat) :=
  match update_wallet instructorId (Some (JS.neg amount)) (Some amount) None s with
  | Some s1 =>
      Some (mkStore (instructors s1)
              (withdrawals s1 ++
                 [mkWithdrawal instructorId amount fee netAmount method PROCESSING])
              (tedBatchQueue s1) (walletTransactions s1) (notifications s1),
            length (withdrawals s1))
  | None => None
  end.

Definition requestWithdrawal
    (auth : option uid) (data : WithdrawalRequest) (now : Z) (fault : option nat)
    (s : Store) : Store * Result WithdrawalResponse :=
  match auth with
  | None => (s, Err UNAUTHORIZED 401)
  | Some instructorId =>
      match wr_method data with
      | None => (s, Err VALIDATION_ERROR 400)
      | Some method =>
          if negb (JS.truthy (wr_amount data)) then (s, Err VALIDATION_ERROR 400)
          else if JS.ltb (wr_amount data) (JS.Num 100) then (s, Err VALIDATION_ERROR 400)
          else if bool_decide (method = PIX) && no_text (wr_pixKey data)
          then (s, Err VALIDATION_ERROR 400)
          else if bool_decide (method = TED) && negb (account_truthy (wr_bankAccount data))
          then (s, Err VALIDATION_ERROR 400)
          else
            match instructors s !! instructorId with
            | None => (s, Err NOT_FOUND 404)
            | Some instructorDoc =>
                let wallet :=
                  default (mkWallet (Some (JS.Num 0)) (Some (JS.Num 0)) (Some (JS.Num 0)))
                    (wallet instructorDoc) in
                if JS.ltb (JS.to_number (available wallet)) (wr_amount data)
                then (s, Err VALIDATION_ERROR 400)
                else
                  let fee := if bool_decide (method = PIX) then JS.Num 2 else JS.Num 0 in
                  let netAmount := JS.sub (wr_amount data) fee in
                  match block_amount instructorId (wr_amount data) fee netAmount method s with
                  | None => (s, Err INTERNAL 500)
                  | Some (s1, withdrawalId) =>
                      let processed :=
                        if bool_decide (method = PIX)
                        then processPixWithdrawal withdrawalId instructorId netAmount fault s1
                        else queueTEDWithdrawal withdrawalId instructorId netAmount
                               (wr_bankAccount data) now s1 in
                      match processed with
                      | (s2, Err c h) => (s2, Err c h)
                      | (s2, Ok _) =>
                          match (if bool_decide (method = PIX) then Some now
                                 else calculateBusinessDays now 2) with
                          | Some estimatedDate =>
                              (s2, Ok (mkResponse withdrawalId (wr_amount data) fee netAmount
                                         estimatedDate))
                          | None => (s2, Err INTERNAL 500)
                          end
                      end
                  end
            end
      end
  end.

(** *** processTEDBatch (lines 319-396) *)

(** [.where('scheduledFor', '<=', now).where('processed', '==', false).limit(100)],
    in the order of [scheduledFor]. *)
Definition due_teds (now : Z) (s : Store) : list (nat * TedJob) :=
  take 100 (order_by ted_scheduledFor
              (List.filter
                 (fun d => (ted_scheduledFor (snd d) <=? now) && negb (ted_processed (snd d)))
                 (imap pair (tedBatchQueue s)))).

(** [walletTransactions.add({..., description: `Saque via TED -
    ${ted.bankAccount.bank}`, ...})]: building the description throws when
    [bankAccount] is [undefined] or [null]. *)
Definition log_transfer (ted : TedJob) : Write :=
  fun s =>
    if account_readable (ted_bankAccount ted)
    then add_walletTransaction
           (mkTx (ted_instructorId ted) (JS.neg (ted_amount ted)) (ted_withdrawalId ted)) s
    else None.

Definition ted_writes (ref : nat) (ted : TedJob) : list Write :=
  [ set_withdrawal_status (ted_withdrawalId ted) COMPLETED;
    update_wallet (ted_instructorId ted) None
      (Some (JS.neg (ted_amount ted))) (Some (JS.neg (ted_amount ted)));
    log_transfer ted;
    add_notification (mkNotice (ted_instructorId ted) "withdrawal_completed");
    mark_ted_processed ref ].

(** The body of the loop for one record: the inner [try], and the [catch]
    that marks the withdrawal failed; [None] when the [catch] throws
    itself, which ends the run. *)
Definition process_ted (ref : nat) (ted : TedJob) (s : Store) : option Store :=
  match try_writes (ted_writes ref ted) None s with
  | (s1, true) => Some s1
  | (s1, false) => set_withdrawal_status (ted_withdrawalId ted) FAILED s1
  end.

Fixpoint ted_loop (docs : list (nat * TedJob)) (s : Store) : Store * bool :=
  match docs with
  | [] => (s, true)
  | (ref, ted) :: rest =>
      match process_ted ref ted s with
      | Some s1 => ted_loop rest s1
      | None => (s, false)
      end
  end.

Definition processTEDBatch (now : Z) (s : Store) : Store :=
  fst (ted_loop (due_teds now s) s).

(** *** Reading a wallet *)

(** A counter as a number, a missing one counting as 0. *)
Definition counter (field : option number) : number := default (JS.Num 0) field.

(** Two numbers are the same value: equal rationals, or both [NaN]. *)
Definition same_number (a b : number) : Prop :=
  match a, b with
  | JS.Num x, JS.Num y => (x == y)%Q
  | JS.NaN, JS.NaN => True
  | _, _ => False
  end.

(** [available + blocked - total] of an instructor document. *)
Definition surplus (doc : InstructorDoc) : number :=
  JS.sub (JS.add (counter (available (wallet_of doc))) (counter (blocked (wallet_of doc))))
    (counter (total (wallet_of doc))).

(** A whole number of at most 2^40 in magnitude.  The sums and differences
    of a call, and of the hundred records of a run, of such numbers are
    whole numbers below 2^53, which IEEE doubles and Firestore's integers
    hold and add exactly. *)
Definition whole (n : number) : bool :=
  match n with
  | JS.Num q => Qeq_bool q (inject_Z (Qfloor q)) && (Z.abs (Qfloor q) <=? 2 ^ 40)
  | JS.NaN => false
  end.

Definition whole_counter (field : option number) : bool :=
  match field with
  | Some n => whole n
  | None => true
  end.

Definition whole_wallet (w : WalletDoc) : bool :=
  whole_counter (available w) && whole_counter (blocked w) && whole_counter (total w).

(** Every wallet counter and every queued amount is whole. *)
Definition whole_store (s : Store) : bool :=
  bool_decide (map_Forall (fun _ doc => whole_wallet (wallet_of doc) = true) (instructors s))
  && forallb (fun t => whole (ted_amount t)) (tedBatchQueue s).

(** No instructor document appears or disappears, and the surplus of each
    is the same value as before. *)
Definition surplus_kept (s s' : Store) : Prop :=
  forall u,
    match instructors s !! u, instructors s' !! u with
    | Some d, Some d' => same_number (surplus d') (surplus d)
    | None, None => True
    | _, _ => False
    end.

(** The run settles the record: the instructor document exists, the amount
    is a number and the bank account can be read. *)
Definition transferable (s : Store) (ted : TedJob) : bool :=
  bool_decide (is_Some (instructors s !! ted_instructorId ted))
  && operand_ok (Some (ted_amount ted))
  && account_readable (ted_bankAccount ted).

(** A record of the queue after a run: marked processed when the run
    settles it. *)
Definition settled (s : Store) (ted : TedJob) : TedJob :=
  mkTed (ted_withdrawalId ted) (ted_instructorId ted) (ted_amount ted) (ted_bankAccount ted)
    (ted_scheduledFor ted)
    (if transferable s ted then true else ted_processed ted).

(** The wallet transactions a run logs for its snapshot. *)
Definition transfers_logged (s : Store) (docs : list (nat * TedJob)) : list WalletTx :=
  flat_map (fun d =>
              if transferable s (snd d)
              then [mkTx (ted_instructorId (snd d)) (JS.neg (ted_amount (snd d)))
                      (ted_withdrawalId (snd d))]
              else []) docs.

(** No two queued transfers that are due share their [scheduledFor]: the
    order of the snapshot is then the order of [scheduledFor] alone. *)
Definition ted_times_differ (now : Z) (s : Store) : Prop :=
  NoDup (ted_scheduledFor <$>
         List.filter (fun t => (ted_scheduledFor t <=? now) && negb (ted_processed t))
           (tedBatchQueue s)).

(** When [requestWithdrawal] accepts: a method with what the function asks
    for it (a key for PIX, a bank account that is not falsy for TED, a bank
    account that is not [undefined] for any other method), an amount of at
    least 100, an instructor document with a wallet whose [available] is
    not below the amount. *)
Definition acceptable (auth : option uid) (data : WithdrawalRequest) (s : Store) : Prop :=
  exists (instructorId : uid) (method : WithdrawalMethod) (amount : Q)
         (doc : InstructorDoc) (w : WalletDoc),
    (auth = Some instructorId) /\
    (wr_method data = Some method) /\
    (wr_amount data = JS.Num amount) /\
    (100 <= amount)%Q /\
    (method = PIX -> exists key, wr_pixKey data = Some key /\ key <> "") /\
    (method = TED -> exists bank, wr_bankAccount data = account_given bank) /\
    (method = other_method -> wr_bankAccount data <> account_undefined) /\
    (instructors s !! instructorId = Some doc) /\
    (wallet doc = Some w) /\
    (match available w with
     | Some (JS.Num a) => (amount <= a)%Q
     | _ => True
     end).

(** The store after the transaction of step 5. *)
Definition after_block (u : uid) (q : Q) (fee : number) (method : WithdrawalMethod)
    (w : WalletDoc) (s : Store) : Store :=
  mkStore
    (<[u := mkInstructorDoc
              (Some (mkWallet
                       (increment (JS.neg (JS.Num q)) (available w))
                       (increment (JS.Num q) (blocked w))
                       (total w)))]>
       (instructors s))
    (withdrawals s ++ [mkWithdrawal u (JS.Num q) fee (JS.sub (JS.Num q) fee) method PROCESSING])
    (tedBatchQueue s)
    (walletTransactions s)
    (notifications s).

(** The store after an accepted PIX withdrawal on which no write fails. *)
Definition after_pix (u : uid) (q : Q) (w : WalletDoc) (s : Store) : Store :=
  let net := JS.sub (JS.Num q) (JS.Num 2) in
  mkStore
    (<[u := mkInstructorDoc
              (Some (mkWallet
                       (increment (JS.neg (JS.Num q)) (available w))
                       (increment (JS.neg net) (increment (JS.Num q) (blocked w)))
                       (increment (JS.neg net) (total w))))]>
       (instructors s))
    (withdrawals s ++ [mkWithdrawal u (JS.Num q) (JS.Num 2) net PIX COMPLETED])
    (tedBatchQueue s)
    (walletTransactions s ++ [mkTx u (JS.neg net) (length (withdrawals s))])
    (notifications s ++ [mkNotice u "withdrawal_completed"]).

(** The store after an accepted withdrawal by another method than PIX. *)
Definition after_ted (u : uid) (q : Q) (method : WithdrawalMethod) (w : WalletDoc)
    (bankAccount : BankAccount) (scheduledFor : Z) (s : Store) : Store :=
  let net := JS.sub (JS.Num q) (JS.Num 0) in
  mkStore
    (instructors (after_block u q (JS.Num 0) method w s))
    (withdrawals (after_block u q (JS.Num 0) method w s))
    (tedBatchQueue s ++
       [mkTed (length (withdrawals s)) u net bankAccount scheduledFor false])
    (walletTransactions s)
    (notifications s).

(** The calls of this file. *)
Inductive Call : Type :=
| RequestWithdrawal (auth : option uid) (data : WithdrawalRequest) (fault : option nat)
| ProcessTEDBatch.

Definition step (c : Call) (now : Z) (s : Store) : Store :=
  match c with
  | RequestWithdrawal auth data fault => fst (requestWithdrawal auth data now fault s)
  | ProcessTEDBatch => processTEDBatch now s
  end.

Fixpoint steps (cs : list (Call * Z)) (s : Store) : Store :=
  match cs with
  | [] => s
  | (c, now) :: rest => steps rest (step c now s)
  end.

(** The amount a call asks for is whole. *)
Definition whole_call (c : Call) : bool :=
  match c with
  | RequestWithdrawal _ data _ => whole (wr_amount data)
  | ProcessTEDBatch => true
  end.

(** Every store of the run and every amount asked for is whole. *)
Fixpoint whole_run (cs : list (Call * Z)) (s : Store) : bool :=
  whole_store s
  && match cs with
     | [] => true
     | (c, now) :: rest => whole_call c && whole_run rest (step c now s)
     end.

(** The number of business days among the [k] days that follow [date]. *)
Fixpoint business_days_after (k : nat) (date : Z) : Z :=
  match k with
  | O => 0
  | S k' =>
      (if weekend (date + DAY_MS) then 0 else 1) + business_days_after k' (date + DAY_MS)
  end.

End Wallet.

(** ** Validators *)

From Stdlib Require Import Ascii.

(** [utils/validators.ts].  A string is its list of characters; only the
    ten ASCII digits are digits for [\D] and [\d]. *)
Module Validators.

Definition is_digit (c : ascii) : bool :=
  (48 <=? nat_of_ascii c)%nat && (nat_of_ascii c <=? 57)%nat.

(** [parseInt] of a digit character. *)
Definition digit_value (c : ascii) : Z := Z.of_nat (nat_of_ascii c) - 48.

(** The character of a digit. *)
Definition digit_char (d : Z) : ascii := ascii_of_nat (Z.to_nat (48 + d)).

(** [cpf.replace(/\D/g, '')] *)
Definition clean (cpf : list ascii) : list ascii := List.filter is_digit cpf.

(** [/^(\d)\1{10}$/.test(cleanCPF)]: a digit followed by ten copies of it. *)
Definition all_same (cleanCPF : list ascii) : bool :=
  match cleanCPF with
  | c :: rest =>
      is_digit c && (length rest =? 10)%nat && forallb (fun x => Ascii.eqb x c) rest
  | [] => false
  end.

(** [for (i = 0; i < n; i++) sum += parseInt(charAt(i)) * (weight - i)] *)
Fixpoint weighted_sum (digits : list ascii) (weight : Z) : Z :=
  match digits with
  | [] => 0
  | c :: rest => digit_value c * weight + weighted_sum rest (weight - 1)
  end.

(** [let digit = 11 - (sum % 11); if (digit >= 10) digit = 0] *)
Definition check_digit (sum : Z) : Z :=
  let digit := 11 - sum mod 11 in
  if 10 <=? digit then 0 else digit.

(** [validateCPF] (lines 10-49) *)
Definition validateCPF (cpf : list ascii) : bool :=
  let cleanCPF := clean cpf in
  if negb (length cleanCPF =? 11)%nat then false
  else if all_same cleanCPF then false
  else
    let digit1 := check_digit (weighted_sum (take 9 cleanCPF) 10) in
    if negb (digit1 =? digit_value (nth 9 cleanCPF "0"%char)) then false
    else
      let digit2 := check_digit (weighted_sum (take 10 cleanCPF) 11) in
      if negb (digit2 =? digit_value (nth 10 cleanCPF "0"%char)) then false
      else true.

(** [formatCPF] (lines 56-59): the first eleven digits are grouped, the
    others follow unchanged; fewer than eleven digits are left as they are. *)
Definition formatCPF (cpf : list ascii) : list ascii :=
  match clean cpf with
  | a :: b :: c :: d :: e :: f :: g :: h :: i :: j :: k :: rest =>
      [a; b; c; "."%char; d; e; f; "."%char; g; h; i; "-"%char; j; k] ++ rest
  | cleanCPF => cleanCPF
  end.

(** The year, month and day that [getFullYear], [getMonth] and [getDate]
    read off a date. *)
Record DateParts : Type := mkDate {
  year : Z;
  month : Z;
  day : Z
}.

(** [validateAge] (lines 67-79); [birth = None] is the [Invalid Date] of a
    string that does not parse: its getters are [NaN], and [NaN >= minAge]
    is false. *)
Definition validateAge (birth : option DateParts) (today : DateParts) (minAge : Z) : bool :=
  match birth with
  | None => false
  | Some birth =>
      let age := year today - year birth in
      let monthDiff := month today - month birth in
      let age :=
        if (monthDiff <? 0) || ((monthDiff =? 0) && (day today <? day birth))
        then age - 1 else age in
      minAge <=? age
  end.

(** The characters of a list of digits. *)
Definition render (digits : list Z) : list ascii := digit_char <$> digits.

(** The two verification digits of nine base digits. *)
Definition first_check (base : list Z) : Z :=
  check_digit (weighted_sum (render base) 10).

Definition second_check (base : list Z) : Z :=
  check_digit (weighted_sum (render (base ++ [first_check base])) 11).

End Validators.

(** ** Pagination of search results *)

(** [paginateResults] (search/getInstructorAvailability.ts, lines 650-666),
    on whole page numbers and limits. *)
Module Search.

(** [Array.prototype.slice(start, end)]: a negative index counts from the
    end, and both indices are clamped to the array. *)
Definition slice {A} (l : list A) (start end_ : Z) : list A :=
  let len := Z.of_nat (length l) in
  let from := if start <? 0 then Z.max (len + start) 0 else Z.min start len in
  let to := if end_ <? 0 then Z.max (len + end_) 0 else Z.min end_ len in
  take (Z.to_nat (to - from)) (drop (Z.to_nat from) l).

Record Paginated (A : Type) : Type := mkPaginated {
  data : list A;
  page : Z;
  limit : Z;
  total : Z;
  hasMore : bool
}.

Arguments mkPaginated {A} data page limit total hasMore.
Arguments data {A} p.
Arguments page {A} p.
Arguments limit {A} p.
Arguments total {A} p.
Arguments hasMore {A} p.

Definition paginateResults {A} (results : list A) (page limit : Z) : Paginated A :=
  let start := (page - 1) * limit in
  let end_ := start + limit in
  let paginatedData := slice results start end_ in
  mkPaginated paginatedData page limit (Z.of_nat (length results))
    (end_ <? Z.of_nat (length results)).

(** The pages 1 to [n], one after the other. *)
Definition pages_upto {A} (results : list A) (limit : Z) (n : nat) : list A :=
  concat ((fun p => data (paginateResults results (Z.of_nat (S p)) limit)) <$> seq 0 n).

End Search.

(** ** Further states of the scenario *)

Module Incidents.

Import Scenario.

(** booked_twice, then: ana moves booking 0 into hour 101 (which booking 1
    holds), the instructor confirms booking 0, and the timeout poller cancels
    booking 1 and deletes the calendar document of hour 101. *)
Definition slot_lost : Store :=
  steps [ (RescheduleBooking (Some ana) move_into_taken_hour, 0);
          (ConfirmBooking (Some inst) (Some 0%nat), hours 1);
          (ProcessBookingTimeouts, hours 3) ] booked_twice.


(** A wallet of 500 with nothing blocked. *)
Definition wallet_start : Wallet.Store :=
  Wallet.mkStore
    {[ "instructor-1" :=
         Wallet.mkInstructorDoc
           (Some (Wallet.mkWallet (Some (JS.Num 500)) (Some (JS.Num 0))
                    (Some (JS.Num 500)))) ]} [] [] [] [].

Definition pix_request : Wallet.WithdrawalRequest :=
  Wallet.mkWithdrawalRequest (JS.Num 150) (Some Wallet.PIX) (Some "key@example.org")
    Wallet.account_undefined.

Definition ted_request : Wallet.WithdrawalRequest :=
  Wallet.mkWithdrawalRequest (JS.Num 150) (Some Wallet.TED) None
    (Wallet.account_given "Banco do Brasil").

(** Three queued transfers that are due, the one queued last being due
    first; the instructor of the one queued first has no document. *)
Definition ted_backlog : Wallet.Store :=
  Wallet.mkStore
    {[ "instructor-1" :=
         Wallet.mkInstructorDoc
           (Some (Wallet.mkWallet (Some (JS.Num 200)) (Some (JS.Num 400))
                    (Some (JS.Num 600)))) ]}
    [ Wallet.mkWithdrawal "instructor-9" (JS.Num 100) (JS.Num 0) (JS.Num 100) Wallet.TED
        Wallet.PROCESSING;
      Wallet.mkWithdrawal "instructor-1" (JS.Num 300) (JS.Num 0) (JS.Num 300) Wallet.TED
        Wallet.PROCESSING;
      Wallet.mkWithdrawal "instructor-1" (JS.Num 100) (JS.Num 0) (JS.Num 100) Wallet.TED
        Wallet.PROCESSING ]
    [ Wallet.mkTed 0 "instructor-9" (JS.Num 100) (Wallet.account_given "Banco do Brasil")
        5 false;
      Wallet.mkTed 1 "instructor-1" (JS.Num 300) (Wallet.account_given "Banco do Brasil")
        7 false;
      Wallet.mkTed 2 "instructor-1" (JS.Num 100) (Wallet.account_given "Banco do Brasil")
        3 false ]
    [] [].

End Incidents.

(** * Properties *)

(** ** Arithmetic of [JS.number] *)

Lemma ltb_Num (x y : Q) : JS.ltb (JS.Num x) (JS.Num y) = true <-> (x < y)%Q.
Proof.
  simpl. rewrite negb_true_iff. split.
  - intros H. apply Qnot_le_lt. intros Hle.
    apply Qle_bool_iff in Hle. congruence.
  - intros H. destruct (Qle_bool y x) eqn:E; [|reflexivity].
    apply Qle_bool_iff in E. exfalso. exact (Qlt_not_le _ _ H E).
Qed.

Lemma ltb_Num_false (x y : Q) : JS.ltb (JS.Num x) (JS.Num y) = false <-> (y <= x)%Q.
Proof.
  simpl. rewrite negb_false_iff. apply Qle_bool_iff.
Qed.

Lemma eq_Num_refl (x : Q) : JS.eq (JS.Num x) (JS.Num x).
Proof. simpl. reflexivity. Qed.

(** Subtracting a part from a total and adding it back gives the total. *)
Lemma part_plus_rest (t a : Q) :
  JS.eq (JS.add (JS.Num a) (JS.sub (JS.Num t) (JS.Num a))) (JS.Num t).
Proof. simpl. ring. Qed.

(** [Math.round] of a number is a number, [Math.round(NaN)] is [NaN]. *)
Lemma round_is_Num (a : number) : JS.round a <> JS.NaN <-> a <> JS.NaN.
Proof. destruct a; simpl; split; congruence. Qed.

(** ** Cancellation policy *)

(** C5. For every actor role, number of hours until the start and price, the
    policy function returns the tabulated values: requester less than 24 h
    before: refund 1.0, penalty 0; requester 24 h or more before: refund
    0.5, penalty 0.5 x price; provider less than 12 h before: refund 1.0,
    penalty 1.0 x price; provider 12 h or more before: refund 1.0, penalty 0. *)
Theorem C5_cancellation_policy_table
    (actorRole : UserType) (hoursUntilStart price deposit : Q) :
  let p := calculateCancellationPolicy actorRole
             (JS.Num hoursUntilStart) (JS.Num price) (JS.Num deposit) in
  (actorRole = student -> (hoursUntilStart < 24)%Q ->
     JS.eq (refundPercentage p) (JS.of_Z 1) /\
     JS.eq (policy_penaltyAmount p) (JS.of_Z 0)) /\
  (actorRole = student -> (24 <= hoursUntilStart)%Q ->
     JS.eq (refundPercentage p) (JS.Num 0.5) /\
     JS.eq (policy_penaltyAmount p) (JS.Num (0.5 * price))) /\
  (actorRole = instructor -> (hoursUntilStart < 12)%Q ->
     JS.eq (refundPercentage p) (JS.of_Z 1) /\
     JS.eq (policy_penaltyAmount p) (JS.Num (1 * price))) /\
  (actorRole = instructor -> (12 <= hoursUntilStart)%Q ->
     JS.eq (refundPercentage p) (JS.of_Z 1) /\
     JS.eq (policy_penaltyAmount p) (JS.of_Z 0)).
Proof.
  intros p. subst p. unfold calculateCancellationPolicy, JS.of_Z.
  split; [|split; [|split]]; intros -> Hh.
  - apply (ltb_Num hoursUntilStart (inject_Z 24)) in Hh.
    rewrite Hh. split; reflexivity.
  - apply (ltb_Num_false hoursUntilStart (inject_Z 24)) in Hh.
    rewrite Hh. split; [reflexivity | simpl; ring].
  - apply (ltb_Num hoursUntilStart (inject_Z 12)) in Hh.
    rewrite Hh. split; [reflexivity | simpl; ring].
  - apply (ltb_Num_false hoursUntilStart (inject_Z 12)) in Hh.
    rewrite Hh. split; reflexivity.
Qed.

(** The requester cancelling 10 h before a lesson of price 140: full refund,
    no penalty. *)
Lemma C5_cancellation_policy_table_witness :
  let p := calculateCancellationPolicy student (JS.Num 10) (JS.Num 140) (JS.Num 28) in
  JS.eq (refundPercentage p) (JS.of_Z 1) /\ JS.eq (policy_penaltyAmount p) (JS.of_Z 0).
Proof.
  apply (proj1 (C5_cancellation_policy_table student 10 140 28)).
  - reflexivity.
  - reflexivity.
Defined.

(** The provider cancelling 5 h before a lesson of price 140: the requester is
    refunded 140 and the provider penalised 140. *)
Example policy_provider_5h :
  let p := calculateCancellationPolicy instructor (JS.Num 5) (JS.Num 140) (JS.Num 28) in
  JS.eq (JS.round (JS.mul (refundPercentage p) (JS.Num 140))) (JS.of_Z 140) /\
  JS.eq (policy_penaltyAmount p) (JS.of_Z 140).
Proof. split; reflexivity. Qed.

(** The requester cancelling 30 h before a lesson of price 140: refund 0.5,
    penalty 70. *)
Example policy_requester_30h :
  let p := calculateCancellationPolicy student (JS.Num 30) (JS.Num 140) (JS.Num 28) in
  JS.eq (refundPercentage p) (JS.Num 0.5) /\
  JS.eq (policy_penaltyAmount p) (JS.of_Z 70).
Proof. split; reflexivity. Qed.

(** ** Settlement split *)




(** A completed booking is settled on its stored price. *)
Example completed_lesson_split :
  (fun r => (rel_totalAmount r, rel_platformFee r, rel_instructorAmount r))
    <$> paymentReleaseQueue Scenario.completed
  = [(JS.Num 140, JS.Num 21, JS.Num 119)].
Proof. vm_compute. reflexivity. Qed.

(** ** Concrete executions *)

Import Scenario.

Example booked_lesson :
  bookings booked !! 0%nat =
    Some (mkBooking ana inst (hours 100) 2 PENDENTE PAY_PENDENTE 0
            (JS.Num 140) (JS.Num 28) (JS.Num 112) 0
            None None None None None None None) /\
  calendar booked !! (inst, 100) = Some (mkSlot true (Some 0%nat)) /\
  bookingTimeouts booked = [mkTimeout 0%nat (hours 2) false false].
Proof. vm_compute. repeat split; reflexivity. Qed.

(** C1 (the code at the failing input). Booking 1 holds hour 101 of the
    instructor; rescheduleBooking moves booking 0 to 101:30, which only the
    exact-date query guards, and succeeds: two active bookings now share the
    slot (instructor, hour 101) and the slot record names booking 0. *)
Theorem C1_reschedule_double_books_slot :
  let call := rescheduleBooking (Some ana) move_into_taken_hour 0 in
  active_in_slot booked_twice inst 101 = [1%nat] /\
  calendar booked_twice !! (inst, 101) = Some (mkSlot true (Some 1%nat)) /\
  succeeds (result call booked_twice) = true /\
  active_in_slot (run call booked_twice) inst 101 = [0%nat; 1%nat] /\
  calendar (run call booked_twice) !! (inst, 101) = Some (mkSlot true (Some 0%nat)).
Proof. vm_compute. repeat split; reflexivity. Qed.

(** createBooking itself refuses the same move: a new booking at 101:30 is a
    conflict and leaves the store as it was. *)
Example create_into_taken_hour_conflicts :
  createBooking (Some ana) (mkCreateRequest inst (Some (hours 101 + 30 * 60 * 1000)) 1) 0
    booked_twice
  = (booked_twice, Err VALIDATION_ERROR 409).
Proof. vm_compute. reflexivity. Qed.

(** C2 (the code at the failing input). Rescheduling booking 0 with a new
    duration rewrites price from [booking.pricePerHour], a field no function
    writes, and leaves depositAmount and remainingAmount as they were: price
    is NaN, the parts still add up to 140. *)
Theorem C2_reschedule_duration_unbalances_amounts :
  let call := rescheduleBooking (Some ana) move_and_extend 0 in
  succeeds (result call booked) = true /\
  exists b : Booking,
    bookings (run call booked) !! 0%nat = Some b /\
    status b = PENDENTE /\
    duration b = 3 /\
    price b = JS.NaN /\
    depositAmount b = JS.Num 28 /\
    remainingAmount b = JS.Num 112 /\
    ~ amounts_balanced b.
Proof.
  vm_compute. split; [reflexivity|]. eexists. split; [reflexivity|].
  repeat split. intros [].
Qed.

(** C3 (the code at the failing input). The release record of the completed
    lesson is due; the poller stops after its first write, the wallet
    increment, so the record is still unprocessed; the next run credits the
    wallet again: 238 instead of 119. *)
Theorem C3_release_redelivery_double_credit :
  let first := processPaymentReleases_upto (Some 1%nat) (hours 127) completed in
  wallet completed = Some (JS.Num 0) /\
  snd first = Crashed /\
  wallet (fst first) = Some (JS.Num 119) /\
  (rel_processed <$> paymentReleaseQueue (fst first)) = [false] /\
  wallet (processPaymentReleases (hours 128) (fst first)) = Some (JS.Num 238) /\
  (rel_processed <$> paymentReleaseQueue (processPaymentReleases (hours 128) (fst first)))
    = [true].
Proof. vm_compute. repeat split; reflexivity. Qed.

(** Without a crash the second run finds the record processed and credits
    nothing. *)
Example release_rerun_credits_once :
  wallet (processPaymentReleases (hours 127) completed) = Some (JS.Num 119) /\
  wallet (processPaymentReleases (hours 128) (processPaymentReleases (hours 127) completed))
    = Some (JS.Num 119) /\
  length (credits_of
            (processPaymentReleases (hours 128) (processPaymentReleases (hours 127) completed))
            0%nat) = 1%nat.
Proof. vm_compute. repeat split; reflexivity. Qed.

(** C6 (as stated) fails. ana cancels 30 h before the lesson of price 140: 70
    is refunded, a penalty of 70 is recorded on the booking and returned, and
    the instructor's wallet is not touched: it is not credited 70. *)
Lemma C6_requester_penalty_not_credited :
  let call := cancelBooking (Some ana) ana_cancels (hours 70) in
  (exists r : BookingCancelResponse,
     result call booked = Ok r /\
     cc_refundAmount r = JS.Num 70 /\
     JS.eq (cc_penaltyAmount r) (JS.of_Z 70)) /\
  (rf_amount <$> refunds (run call booked)) = [JS.Num 70] /\
  wallet booked = Some (JS.Num 0) /\
  wallet (run call booked) = Some (JS.Num 0) /\
  (forall w, wallet (run call booked) = Some w -> ~ JS.eq w (JS.of_Z 70)) /\
  instructors (run call booked) = instructors booked /\
  walletTransactions (run call booked) = [].
Proof.
  vm_compute. split.
  - eexists. split; [reflexivity|]. split; reflexivity.
  - repeat split; try reflexivity. intros w [= <-]. discriminate.
Qed.

(** C8 (the code at the failing input). markLessonCompleted only rejects a
    booking that is already completed: a cancelled booking and a booking
    that was never confirmed are both marked completed once their date has
    passed, and a payout is queued. *)
Theorem C8_cancelled_booking_marked_completed :
  let cancelled := run (cancelBooking (Some ana) ana_cancels (hours 95)) booked in
  let call := markLessonCompleted (Some inst) completion (hours 101) in
  (status <$> bookings cancelled !! 0%nat) = Some CANCELADA /\
  result call cancelled = Ok (0%nat, CONCLUIDA) /\
  (status <$> bookings (run call cancelled) !! 0%nat) = Some CONCLUIDA /\
  (rel_instructorAmount <$> paymentReleaseQueue (run call cancelled)) = [JS.Num 119] /\
  (status <$> bookings booked !! 0%nat) = Some PENDENTE /\
  result call booked = Ok (0%nat, CONCLUIDA) /\
  (status <$> bookings (run call booked) !! 0%nat) = Some CONCLUIDA.
Proof. vm_compute. repeat split; reflexivity. Qed.

(** C9 (the code at the failing input). Booking 0 was created with price
    140.  Its first reschedule, free of charge, changes the duration, which
    rewrites the stored price (to NaN, from a field no function writes).
    The second reschedule computes its fee from the stored price, not from
    140: the fee is NaN, the response reports NaN, no reschedule fee is
    stored on the booking and no payment is recorded, where 14 was due.
    The same second reschedule after a first one that keeps the duration
    charges 14: it stores the fee and records a payment of 14. *)
Theorem C9_fee_lost_after_duration_change :
  let first := run (rescheduleBooking (Some ana) move_and_extend 0) booked in
  let call := rescheduleBooking (Some ana) move_again 0 in
  (price <$> bookings booked !! 0%nat) = Some (JS.Num 140) /\
  result (rescheduleBooking (Some ana) move_and_extend 0) booked
    = Ok (mkRescheduleResponse 0%nat (hours 200) (JS.Num 0) 1) /\
  (price <$> bookings first !! 0%nat) = Some JS.NaN /\
  (rescheduleCount <$> bookings first !! 0%nat) = Some 1 /\
  result call first = Ok (mkRescheduleResponse 0%nat (hours 300) JS.NaN 2) /\
  ~ JS.eq JS.NaN (JS.Num (Spec.rescheduleFee 1 140)) /\
  (rescheduleCount <$> bookings (run call first) !! 0%nat) = Some 2 /\
  (rescheduleFee <$> bookings (run call first) !! 0%nat) = Some None /\
  payments (run call first) = payments first /\
  result call moved_once = Ok (mkRescheduleResponse 0%nat (hours 300) (JS.Num 14) 2) /\
  (rescheduleFee <$> bookings (run call moved_once) !! 0%nat) = Some (Some (JS.Num 14)) /\
  payments (run call moved_once)
    = payments moved_once ++ [mkPayment 0%nat ana (JS.Num 14) PT_RESCHEDULE_FEE].
Proof.
  vm_compute. repeat split; try reflexivity. intros [].
Qed.

(** The fee is rounded: on a price of 145 it is 15, not 14.5. *)
Example reschedule_fee_is_rounded :
  JS.eq (reschedule_fee 1 (JS.of_Z 145)) (JS.of_Z 15) /\
  ~ JS.eq (reschedule_fee 1 (JS.of_Z 145)) (JS.Num (Spec.rescheduleFee 1 145)).
Proof. vm_compute. split; [reflexivity | discriminate]. Qed.

(** A second reschedule of the untouched booking costs 14 on 140. *)
Example second_reschedule_fee :
  let first := run (rescheduleBooking (Some ana)
                      (mkRescheduleRequest (Some 0%nat) (Some (hours 200)) None) 0) booked in
  (rr_fee <$> match result (rescheduleBooking (Some ana) move_again 0) first with
              | Ok r => Some r
              | Err _ _ => None
              end) = Some (JS.Num 14).
Proof. vm_compute. reflexivity. Qed.

(** ** Query results *)

Lemma insert_by_Permutation {D} (key : D -> Z) (x : nat * D) (l : list (nat * D)) :
  insert_by key x l ≡ₚ x :: l.
Proof.
  induction l as [|y l IH]; cbn [insert_by]; [reflexivity|].
  destruct (key (snd x) <=? key (snd y)); [reflexivity|].
  rewrite IH. apply Permutation_swap.
Qed.

Lemma order_by_Permutation {D} (key : D -> Z) (l : list (nat * D)) :
  order_by key l ≡ₚ l.
Proof.
  unfold order_by. induction l as [|x l IH]; cbn [foldr]; [reflexivity|].
  rewrite insert_by_Permutation, IH. reflexivity.
Qed.

(** A document of a snapshot is a document of the collection that passes
    the filter. *)
Lemma In_snapshot {D} (key : D -> Z) (f : nat * D -> bool) (n : nat) (l : list D)
    (i : nat) (d : D) :
  In (i, d) (take n (order_by key (List.filter f (imap pair l)))) ->
  l !! i = Some d /\ f (i, d) = true.
Proof.
  intros Hin. apply list_elem_of_In in Hin. apply (subseteq_take n) in Hin.
  rewrite order_by_Permutation in Hin.
  apply list_elem_of_In, List.filter_In in Hin as [Hin Hf].
  apply list_elem_of_In, elem_of_lookup_imap in Hin as (j & y & [= -> ->] & Hy).
  auto.
Qed.

(** ** What every call keeps of the booking documents *)

(** The first write of [release_writes]: refused for a [NaN] amount and for
    a missing instructor document. *)
Lemma credit_write (instr : uid) (amount : number) (s : Store) :
  (increment_operand amount >> update_wallet instr (credit amount)) s =
  match amount, instructors s !! instr with
  | JS.Num _, Some i => (with_instructors (fun m => <[instr := credit amount i]> m) s, Ok tt)
  | _, _ => (s, Err INTERNAL 500)
  end.
Proof.
  unfold bind, increment_operand, update_wallet, ret, throw.
  destruct amount; [destruct (instructors s !! instr)|]; reflexivity.
Qed.

Ltac unfold_monad :=
  unfold run, result, bind, get, modify, throw_if, throw, ret, transaction, try_catch in *.

(** Case analysis on the guards of a callable function, outermost first;
    [tac] closes the branches in which the function throws. *)
Ltac split_guards tac :=
  repeat (match goal with
          | |- context [if ?c then _ else _] => destruct c eqn:?
          | |- context [match ?m !! ?k with Some _ => _ | None => _ end] =>
              destruct (m !! k) eqn:?
          end; cbn [fst snd]; try tac).

Lemma bookings_kept_refl (p : bool) (l : list Booking) : bookings_kept p l l.
Proof. intros i b H. exists b. split; [exact H|]. constructor; auto. Qed.

Lemma bookings_kept_trans (p : bool) (l1 l2 l3 : list Booking) :
  bookings_kept p l1 l2 -> bookings_kept p l2 l3 -> bookings_kept p l1 l3.
Proof.
  intros H1 H2 i b Hb. destruct (H1 i b Hb) as (b2 & Hb2 & K1).
  destruct (H2 i b2 Hb2) as (b3 & Hb3 & K2). exists b3. split; [exact Hb3|].
  destruct K1 as [a1 a2 a3 a4 a5 a6 a7], K2 as [c1 c2 c3 c4 c5 c6 c7].
  constructor; try congruence; auto.
  intros Hp. rewrite c7, a7; auto.
Qed.

Lemma bookings_kept_weaken (p : bool) (l l' : list Booking) :
  bookings_kept true l l' -> bookings_kept p l l'.
Proof.
  intros H i b Hb. destruct (H i b Hb) as (b' & Hb' & [a1 a2 a3 a4 a5 a6 a7]).
  exists b'. split; [exact Hb'|]. constructor; auto.
Qed.

Lemma bookings_kept_app (p : bool) (l : list Booking) (b : Booking) :
  bookings_kept p l (l ++ [b]).
Proof.
  intros i x H. exists x. split.
  - apply lookup_app_l_Some. exact H.
  - constructor; auto.
Qed.

Lemma bookings_kept_update (p : bool) (f : Booking -> Booking) (s : Store) (id : bookingId) :
  (forall b, booking_kept p b (f b)) ->
  bookings_kept p (bookings s) (bookings (update_booking id f s)).
Proof.
  intros Hf i x Hx. unfold update_booking, with_bookings. cbn [bookings].
  destruct (bookings s !! id) as [b|] eqn:E.
  - destruct (decide (id = i)) as [->|Hne].
    + exists (f b). split.
      * apply list_lookup_insert_eq. eapply lookup_lt_Some; eauto.
      * rewrite E in Hx. injection Hx as <-. apply Hf.
    + exists x. split.
      * rewrite list_lookup_insert_ne; auto.
      * constructor; auto.
  - exists x. split; [exact Hx|]. constructor; auto.
Qed.

Lemma set_status_kept (p : bool) (v : BookingStatus) (b : Booking) :
  v <> PENDENTE -> booking_kept p b (set_status v b).
Proof. intros Hv. constructor; auto. Qed.

Lemma set_cancellation_kept (p : bool) (u : UserType) (r q : number) (b : Booking) :
  booking_kept p b (set_cancellation u r q b).
Proof. constructor; auto; simpl; congruence. Qed.

Lemma set_completion_kept (p : bool) (a : Z) (b : Booking) :
  booking_kept p b (set_completion a b).
Proof. constructor; auto; simpl; congruence. Qed.

Lemma apply_updates_kept (u : RescheduleUpdates) (b : Booking) :
  booking_kept false b (apply_updates u b).
Proof. constructor; auto; simpl; congruence. Qed.

Lemma createBooking_kept (auth : option uid) (data : BookingCreateRequest) (now : Z) (s : Store) :
  bookings_kept true (bookings s) (bookings (run (createBooking auth data now) s)).
Proof.
  unfold createBooking. destruct auth as [caller|]; [|apply bookings_kept_refl].
  destruct (req_date data) as [d|]; [|apply bookings_kept_refl].
  unfold createBooking_transaction, processDepositPayment, scheduleAcceptanceTimeout,
    sendNotification, reserve_slot.
  unfold_monad.
  split_guards ltac:(apply bookings_kept_refl).
  cbn. apply bookings_kept_app.
Qed.

Lemma confirmBooking_kept (auth : option uid) (id : option bookingId) (now : Z) (s : Store) :
  bookings_kept true (bookings s) (bookings (run (confirmBooking auth id now) s)).
Proof.
  unfold confirmBooking. destruct auth as [caller|]; [|apply bookings_kept_refl].
  destruct id as [id|]; [|apply bookings_kept_refl].
  unfold updatePaymentIntent, cancelTimeoutJob, sendNotification.
  unfold_monad. destruct (bookings s !! id) as [b|] eqn:E; [|apply bookings_kept_refl].
  split_guards ltac:(apply bookings_kept_refl).
  apply (bookings_kept_update true (set_status CONFIRMADA) s id).
  intros ?. apply set_status_kept. discriminate.
Qed.

Lemma cancelBooking_kept (auth : option uid) (data : BookingCancelRequest) (now : Z) (s : Store) :
  bookings_kept true (bookings s) (bookings (run (cancelBooking auth data now) s)).
Proof.
  unfold cancelBooking. destruct auth as [caller|]; [|apply bookings_kept_refl].
  destruct (cn_bookingId data) as [id|]; [|apply bookings_kept_refl].
  destruct (cn_userType data) as [userType|]; [|apply bookings_kept_refl].
  unfold processRefund, applyInstructorPenalty, sendNotification, release_slot, update_wallet.
  unfold_monad. destruct (bookings s !! id) as [b|] eqn:E; [|apply bookings_kept_refl].
  split_guards ltac:(apply bookings_kept_refl).
  all: apply (bookings_kept_update true _ s id); intros ?; apply set_cancellation_kept.
Qed.

Lemma rescheduleBooking_kept
    (auth : option uid) (data : BookingRescheduleRequest) (now : Z) (s : Store) :
  bookings_kept false (bookings s) (bookings (run (rescheduleBooking auth data now) s)).
Proof.
  unfold rescheduleBooking. destruct auth as [caller|]; [|apply bookings_kept_refl].
  destruct (rs_bookingId data) as [id|]; [|apply bookings_kept_refl].
  destruct (rs_newDate data) as [d|]; [|apply bookings_kept_refl].
  unfold rescheduleBooking_transaction, chargeRescheduleFee, sendNotification,
    release_slot, reserve_slot.
  unfold_monad.
  split_guards ltac:(apply bookings_kept_refl).
  all: apply (bookings_kept_update false _ s id); intros ?; apply apply_updates_kept.
Qed.

Lemma markLessonCompleted_kept
    (auth : option uid) (data : LessonCompletionRequest) (now : Z) (s : Store) :
  bookings_kept true (bookings s) (bookings (run (markLessonCompleted auth data now) s)).
Proof.
  unfold markLessonCompleted. destruct auth as [caller|]; [|apply bookings_kept_refl].
  destruct (lc_bookingId data) as [id|]; [|apply bookings_kept_refl].
  unfold triggerDetranValidation, chargeRemainingPayment, schedulePaymentRelease,
    sendNotification.
  unfold_monad.
  split_guards ltac:(apply bookings_kept_refl).
  all: apply (bookings_kept_update true _ s id); intros ?; apply set_completion_kept.
Qed.

Lemma run_writes_kept (ws : list (M unit)) (crash : option nat) (s : Store) :
  Forall harmless ws ->
  bookings_kept true (bookings s) (bookings (fst (fst (run_writes ws crash s)))).
Proof.
  intros Hws. revert crash s.
  induction Hws as [|w ws Hw _ IH]; intros crash s; simpl.
  - apply bookings_kept_refl.
  - assert (Hstep : bookings_kept true (bookings s)
              (bookings (fst (fst
                 match w s with
                 | (s', Ok _) => run_writes ws (Nat.pred <$> crash) s'
                 | (s', Err _ _) => (s', Aborted, crash)
                 end)))).
    { specialize (Hw s). destruct (w s) as [s' [u|c h]]; simpl in *.
      - eapply bookings_kept_trans; [exact Hw | apply IH].
      - exact Hw. }
    destruct crash as [[|k]|]; simpl; [apply bookings_kept_refl | exact Hstep | exact Hstep].
Qed.

Lemma run_loop_kept {D} (handler : Store -> nat -> D -> list (M unit))
    (docs : list (nat * D)) (crash : option nat) (s : Store) :
  (forall s0 ref d, Forall harmless (handler s0 ref d)) ->
  bookings_kept true (bookings s) (bookings (fst (run_loop handler docs crash s))).
Proof.
  intros Hh. revert crash s.
  induction docs as [|[ref d] rest IH]; intros crash s; simpl.
  - apply bookings_kept_refl.
  - pose proof (run_writes_kept (handler s ref d) crash s (Hh s ref d)) as Hw.
    destruct (run_writes (handler s ref d) crash s) as [[s' o] crash'].
    simpl in Hw. destruct o; simpl; try exact Hw.
    eapply bookings_kept_trans; [exact Hw | apply IH].
Qed.

Lemma timeout_writes_harmless (s : Store) (ref : nat) (t : TimeoutJob) :
  Forall harmless (timeout_writes s ref t).
Proof.
  unfold timeout_writes.
  assert (Hmark : harmless (mark_timeout_processed ref))
    by (intros s0; apply bookings_kept_refl).
  destruct (bookings s !! to_bookingId t) as [b|]; [|repeat constructor; exact Hmark].
  destruct (bool_decide (status b = PENDENTE)); simpl.
  - repeat constructor; try exact Hmark; intros s0; try apply bookings_kept_refl.
    apply (bookings_kept_update true _ s0 (to_bookingId t)).
    intros ?. apply set_status_kept. discriminate.
  - repeat constructor. exact Hmark.
Qed.

Lemma release_writes_harmless (s : Store) (ref : nat) (r : ReleaseJob) :
  Forall harmless (release_writes s ref r).
Proof.
  unfold release_writes. repeat constructor; intros s0; try apply bookings_kept_refl.
  rewrite credit_write.
  destruct (rel_instructorAmount r); [|apply bookings_kept_refl].
  destruct (instructors s0 !! rel_instructorId r); apply bookings_kept_refl.
Qed.

Lemma processBookingTimeouts_kept (crash : option nat) (now : Z) (s : Store) :
  bookings_kept true (bookings s) (bookings (fst (processBookingTimeouts_upto crash now s))).
Proof. apply run_loop_kept. apply timeout_writes_harmless. Qed.

Lemma processPaymentReleases_kept (crash : option nat) (now : Z) (s : Store) :
  bookings_kept true (bookings s) (bookings (fst (processPaymentReleases_upto crash now s))).
Proof. apply run_loop_kept. apply release_writes_harmless. Qed.

(** Every call keeps the parties, the creation time, the deposit and the
    remainder of every booking, never returns a booking to pendente, and,
    unless it is a reschedule, keeps the price. *)
Lemma step_kept (c : Call) (now : Z) (s : Store) :
  bookings_kept (negb (is_reschedule c)) (bookings s) (bookings (step c now s)).
Proof.
  destruct c; simpl.
  - apply createBooking_kept.
  - apply confirmBooking_kept.
  - apply cancelBooking_kept.
  - apply rescheduleBooking_kept.
  - apply markLessonCompleted_kept.
  - apply processBookingTimeouts_kept.
  - apply processPaymentReleases_kept.
Qed.

Lemma steps_kept (cs : list (Call * Z)) (s : Store) :
  bookings_kept false (bookings s) (bookings (steps cs s)).
Proof.
  revert s. induction cs as [|[c now] rest IH]; intros s; simpl.
  - apply bookings_kept_refl.
  - eapply bookings_kept_trans; [|apply IH].
    destruct (is_reschedule c) eqn:E.
    + pose proof (step_kept c now s) as H. rewrite E in H. exact H.
    + apply bookings_kept_weaken. pose proof (step_kept c now s) as H.
      rewrite E in H. exact H.
Qed.

(** No call but a reschedule changes the price stored on a booking. *)
Lemma steps_kept_price (cs : list (Call * Z)) (s : Store) :
  forallb (fun c => negb (is_reschedule (fst c))) cs = true ->
  bookings_kept true (bookings s) (bookings (steps cs s)).
Proof.
  revert s. induction cs as [|[c now] rest IH]; intros s Hcs; simpl in *.
  - apply bookings_kept_refl.
  - apply andb_true_iff in Hcs as [Hc Hrest].
    eapply bookings_kept_trans; [|apply IH; exact Hrest].
    pose proof (step_kept c now s) as H. rewrite Hc in H. exact H.
Qed.

(** ** confirmBooking *)

(** The acceptance window: [hoursSinceCreation > 2] is false exactly when at
    most two hours of milliseconds have passed. *)
Lemma hours_window (d : Z) :
  JS.gtb (JS.div (JS.of_Z d) (JS.of_Z HOUR_MS)) (JS.of_Z 2) = false <-> d <= 2 * HOUR_MS.
Proof.
  unfold JS.gtb, JS.ltb, JS.div, JS.of_Z. rewrite negb_false_iff, Qle_bool_iff.
  unfold Qle, Qdiv, Qmult, Qinv, inject_Z, HOUR_MS. simpl. lia.
Qed.

Lemma confirmBooking_eq (caller : uid) (id : bookingId) (now : Z) (s : Store) (b : Booking) :
  bookings s !! id = Some b ->
  confirmBooking (Some caller) (Some id) now s =
    if negb (bool_decide (instructorId b = caller)) then (s, Err UNAUTHORIZED 403)
    else if negb (bool_decide (status b = PENDENTE)) then (s, Err VALIDATION_ERROR 400)
    else if JS.gtb (JS.div (JS.of_Z (now - createdAt b)) (JS.of_Z HOUR_MS)) (JS.of_Z 2)
         then (s, Err VALIDATION_ERROR 403)
    else (add_notification (mkNotification (studentId b) "booking_confirmed" id)
            (with_bookingTimeouts (map (cancel_timeout_record id))
               (add_paymentIntent (mkIntent id (remainingAmount b))
                  (update_booking id (set_status CONFIRMADA) s))),
          Ok (id, CONFIRMADA)).
Proof.
  intros H. unfold confirmBooking, updatePaymentIntent, cancelTimeoutJob, sendNotification.
  unfold_monad. rewrite H.
  destruct (negb (bool_decide (instructorId b = caller))); [reflexivity|].
  destruct (negb (bool_decide (status b = PENDENTE))); [reflexivity|].
  destruct (JS.gtb _ _); reflexivity.
Qed.

(** Invariants of a poller run, crashes included. *)
Lemma run_writes_inv (Inv : Store -> Prop) (ws : list (M unit)) (crash : option nat) (s : Store) :
  Forall (fun w => forall s1, Inv s1 -> Inv (fst (w s1))) ws ->
  Inv s -> Inv (fst (fst (run_writes ws crash s))).
Proof.
  intros Hws. revert crash s.
  induction Hws as [|w ws Hw _ IH]; intros crash s Hs; simpl.
  - exact Hs.
  - assert (Hstep : Inv (fst (fst
                 match w s with
                 | (s', Ok _) => run_writes ws (Nat.pred <$> crash) s'
                 | (s', Err _ _) => (s', Aborted, crash)
                 end))).
    { specialize (Hw s Hs). destruct (w s) as [s' [u|c h]]; simpl in *.
      - apply IH. exact Hw.
      - exact Hw. }
    destruct crash as [[|k]|]; simpl; [exact Hs | exact Hstep | exact Hstep].
Qed.

Lemma run_loop_inv {D} (Inv : Store -> Prop) (handler : Store -> nat -> D -> list (M unit))
    (docs : list (nat * D)) (crash : option nat) (s : Store) :
  (forall s0 ref d, Inv s0 ->
     Forall (fun w => forall s1, Inv s1 -> Inv (fst (w s1))) (handler s0 ref d)) ->
  Inv s -> Inv (fst (run_loop handler docs crash s)).
Proof.
  intros Hh. revert crash s.
  induction docs as [|[ref d] rest IH]; intros crash s Hs; simpl.
  - exact Hs.
  - pose proof (run_writes_inv Inv (handler s ref d) crash s (Hh s ref d Hs) Hs) as Hw.
    destruct (run_writes (handler s ref d) crash s) as [[s' o] crash'].
    simpl in Hw. destruct o; simpl; try exact Hw.
    apply IH. exact Hw.
Qed.

Lemma refunds_of_add (s : Store) (r : Refund) (id : bookingId) :
  rf_bookingId r <> id -> refunds_of (add_refund r s) id = refunds_of s id.
Proof.
  intros Hne. unfold refunds_of, add_refund. cbn [refunds].
  rewrite List.filter_app. simpl. rewrite bool_decide_eq_false_2 by exact Hne.
  apply app_nil_r.
Qed.

Lemma lookup_update_booking_ne (s : Store) (j id : bookingId) (f : Booking -> Booking) :
  j <> id -> bookings (update_booking j f s) !! id = bookings s !! id.
Proof.
  intros Hne. unfold update_booking, with_bookings. cbn [bookings].
  destruct (bookings s !! j); [|reflexivity]. apply list_lookup_insert_ne. exact Hne.
Qed.

(** The timeout poller leaves a booking that is no longer pendente, and its
    refunds, alone, however far the run gets. *)
Lemma timeouts_skip_settled (crash : option nat) (now : Z) (s : Store)
    (id : bookingId) (b : Booking) :
  bookings s !! id = Some b -> status b <> PENDENTE ->
  bookings (fst (processBookingTimeouts_upto crash now s)) !! id = Some b /\
  refunds_of (fst (processBookingTimeouts_upto crash now s)) id = refunds_of s id.
Proof.
  intros Hb Hst. unfold processBookingTimeouts_upto.
  apply (run_loop_inv
           (fun s0 => bookings s0 !! id = Some b /\ refunds_of s0 id = refunds_of s id));
    [|split; [exact Hb | reflexivity]].
  intros s0 ref t [Hb0 _]. unfold timeout_writes.
  assert (Hmark : forall s1,
            bookings s1 !! id = Some b /\ refunds_of s1 id = refunds_of s id ->
            bookings (fst (mark_timeout_processed ref s1)) !! id = Some b /\
            refunds_of (fst (mark_timeout_processed ref s1)) id = refunds_of s id)
    by (intros s1 H; exact H).
  destruct (bookings s0 !! to_bookingId t) as [bt|] eqn:Et; [|repeat first [apply List.Forall_nil | apply List.Forall_cons]; exact Hmark].
  destruct (bool_decide (status bt = PENDENTE)) eqn:Ep; simpl;
    [|repeat first [apply List.Forall_nil | apply List.Forall_cons]; exact Hmark].
  assert (Hne : to_bookingId t <> id).
  { intros Heq. rewrite Heq, Hb0 in Et. injection Et as <-.
    apply bool_decide_eq_true in Ep. contradiction. }
  repeat first [apply List.Forall_nil | apply List.Forall_cons]; try exact Hmark;
    intros s1 [H1 H2]; unfold delete_slot, processRefund, sendNotification, modify; cbn [fst].
  - split; [|exact H2]. rewrite lookup_update_booking_ne; assumption.
  - split; [exact H1|]. rewrite <- H2. apply refunds_of_add. exact Hne.
Qed.

Lemma confirmBooking_rejects_settled (auth : option uid) (id : bookingId) (now : Z)
    (s : Store) (b : Booking) :
  bookings s !! id = Some b -> status b <> PENDENTE ->
  succeeds (result (confirmBooking auth (Some id) now) s) = false /\
  run (confirmBooking auth (Some id) now) s = s.
Proof.
  intros Hb Hst. destruct auth as [caller|]; [|split; reflexivity].
  unfold result, run. rewrite (confirmBooking_eq _ _ _ _ _ Hb).
  destruct (negb (bool_decide (instructorId b = caller))); [split; reflexivity|].
  rewrite bool_decide_eq_false_2 by exact Hst. split; reflexivity.
Qed.

Lemma cancel_timeout_record_processed (id : bookingId) (t : TimeoutJob) :
  to_bookingId (cancel_timeout_record id t) = id ->
  to_processed (cancel_timeout_record id t) = true.
Proof.
  unfold cancel_timeout_record.
  destruct (bool_decide (to_bookingId t = id)) eqn:E; simpl.
  - destruct (to_processed t) eqn:P; simpl; auto.
  - apply bool_decide_eq_false in E. intros H. contradiction.
Qed.

(** C7 (as the code has it). confirmBooking by [caller] succeeds if and
    only if the booking is pendente, at most two hours have passed since
    createdAt and the caller is the booking's instructor; a rejected call
    leaves the store as it is.  On success the status is confirmada and
    every acceptance-timeout record of the booking is marked processed, and
    the call has two more effects: it adds a payment intent for the
    booking's remainder to paymentIntents and a booking_confirmed
    notification for the student to notifications.  Nothing else changes:
    calendar slots, instructor and student documents, refunds, wallet
    transactions, payments, the settlement and validation queues, the other
    bookings and the timeout records of other bookings are as before, and
    the timeout poller that runs later leaves the booking confirmada and
    refunds nothing.  Every later confirm of the booking, after any sequence
    of calls, is rejected and changes nothing. *)
Theorem C7_confirm_window_and_idempotence
    (s : Store) (caller : uid) (id : bookingId) (now : Z) (b : Booking)
    (Hb : bookings s !! id = Some b) :
  let call := confirmBooking (Some caller) (Some id) now in
  (succeeds (result call s) = true <->
     status b = PENDENTE /\ now - createdAt b <= 2 * HOUR_MS /\ instructorId b = caller) /\
  (succeeds (result call s) = false -> run call s = s) /\
  (succeeds (result call s) = true ->
     run call s =
       add_notification (mkNotification (studentId b) "booking_confirmed" id)
         (with_bookingTimeouts (map (cancel_timeout_record id))
            (add_paymentIntent (mkIntent id (remainingAmount b))
               (update_booking id (set_status CONFIRMADA) s))) /\
     status_of (run call s) id = Some CONFIRMADA /\
     (forall t, In t (bookingTimeouts (run call s)) ->
        to_bookingId t = id -> to_processed t = true) /\
     calendar (run call s) = calendar s /\
     instructors (run call s) = instructors s /\
     refunds (run call s) = refunds s /\
     walletTransactions (run call s) = walletTransactions s /\
     payments (run call s) = payments s /\
     paymentReleaseQueue (run call s) = paymentReleaseQueue s /\
     detranValidationQueue (run call s) = detranValidationQueue s /\
     students (run call s) = students s /\
     paymentIntents (run call s)
       = paymentIntents s ++ [mkIntent id (remainingAmount b)] /\
     notifications (run call s)
       = notifications s ++ [mkNotification (studentId b) "booking_confirmed" id] /\
     (forall j, j <> id -> bookings (run call s) !! j = bookings s !! j) /\
     bookingTimeouts (run call s) = map (cancel_timeout_record id) (bookingTimeouts s) /\
     (forall t, to_bookingId t <> id -> cancel_timeout_record id t = t) /\
     (forall crash now',
        status_of (fst (processBookingTimeouts_upto crash now' (run call s))) id
          = Some CONFIRMADA /\
        refunds_of (fst (processBookingTimeouts_upto crash now' (run call s))) id
          = refunds_of s id) /\
     (forall cs auth' now',
        succeeds (result (confirmBooking auth' (Some id) now') (steps cs (run call s))) = false /\
        run (confirmBooking auth' (Some id) now') (steps cs (run call s))
          = steps cs (run call s))).
Proof.
  intros call. subst call. unfold result, run.
  rewrite (confirmBooking_eq _ _ _ _ _ Hb).
  destruct (bool_decide (instructorId b = caller)) eqn:Ei; cbn [negb succeeds fst snd].
  2:{ apply bool_decide_eq_false in Ei.
      split; [split; [discriminate | tauto] |]. split; [reflexivity | discriminate]. }
  apply bool_decide_eq_true in Ei.
  destruct (bool_decide (status b = PENDENTE)) eqn:Es; cbn [negb succeeds fst snd].
  2:{ apply bool_decide_eq_false in Es.
      split; [split; [discriminate | tauto] |]. split; [reflexivity | discriminate]. }
  apply bool_decide_eq_true in Es.
  destruct (JS.gtb (JS.div (JS.of_Z (now - createdAt b)) (JS.of_Z HOUR_MS)) (JS.of_Z 2))
    eqn:Ew; cbn [negb succeeds fst snd].
  { split; [split; [intros H; discriminate H |] |].
    - intros (_ & Hw & _). apply hours_window in Hw. congruence.
    - split; [reflexivity | discriminate]. }
  apply hours_window in Ew.
  split; [split; [tauto | reflexivity] |]. split; [discriminate|]. intros _.
  set (s' := add_notification _ _).
  assert (Hb' : bookings s' !! id = Some (set_status CONFIRMADA b)).
  { subst s'. unfold update_booking, with_bookings. cbn [bookings add_notification
      with_bookingTimeouts add_paymentIntent]. rewrite Hb.
    apply list_lookup_insert_eq. eapply lookup_lt_Some; eauto. }
  split; [reflexivity|].
  split; [unfold status_of; rewrite Hb'; reflexivity|].
  split.
  { subst s'. cbn [bookingTimeouts add_notification with_bookingTimeouts].
    intros t Ht. apply in_map_iff in Ht as (t0 & <- & _).
    apply cancel_timeout_record_processed. }
  split; [reflexivity|]. split; [reflexivity|]. split; [reflexivity|].
  split; [reflexivity|]. split; [reflexivity|]. split; [reflexivity|].
  split; [reflexivity|].
  split; [reflexivity|]. split; [reflexivity|]. split; [reflexivity|].
  split.
  { intros j Hj. subst s'. apply (lookup_update_booking_ne s id j). congruence. }
  split; [reflexivity|].
  split.
  { intros t Ht. unfold cancel_timeout_record.
    rewrite bool_decide_eq_false_2 by exact Ht. reflexivity. }
  split.
  - intros crash now'.
    destruct (timeouts_skip_settled crash now' s' id (set_status CONFIRMADA b) Hb')
      as [H1 H2]; [simpl; discriminate|].
    split; [unfold status_of; rewrite H1; reflexivity | rewrite H2; reflexivity].
  - intros cs auth' now'.
    destruct (steps_kept cs s' id (set_status CONFIRMADA b) Hb') as (b2 & Hb2 & K).
    apply (confirmBooking_rejects_settled auth' id now' _ b2 Hb2).
    apply (kept_settled _ _ _ K). simpl. discriminate.
Qed.

Lemma C7_confirm_window_and_idempotence_witness :
  succeeds (result (confirmBooking (Some inst) (Some 0%nat) (hours 1)) booked) = true /\
  status_of (run (confirmBooking (Some inst) (Some 0%nat) (hours 1)) booked) 0%nat
    = Some CONFIRMADA.
Proof.
  pose proof (C7_confirm_window_and_idempotence booked inst 0%nat (hours 1)
                (mkBooking ana inst (hours 100) 2 PENDENTE PAY_PENDENTE 0
                   (JS.Num 140) (JS.Num 28) (JS.Num 112) 0
                   None None None None None None None)
                ltac:(vm_compute; reflexivity)) as (Hiff & _ & Hok).
  assert (Hs : succeeds (result (confirmBooking (Some inst) (Some 0%nat) (hours 1)) booked) = true).
  { apply Hiff. vm_compute. repeat split; discriminate. }
  split; [exact Hs|]. apply (Hok Hs).
Defined.

(** C7 (as the spec words it) fails: the confirmation of booking 0 at hour 1
    sets the status and marks the timeout record, and it also writes a
    payment intent of 112 and a notification for the student. *)
Lemma C7_confirm_has_further_effects :
  let call := confirmBooking (Some inst) (Some 0%nat) (hours 1) in
  result call booked = Ok (0%nat, CONFIRMADA) /\
  status_of (run call booked) 0%nat = Some CONFIRMADA /\
  (to_processed <$> bookingTimeouts (run call booked)) = [true] /\
  paymentIntents booked = [] /\
  paymentIntents (run call booked) = [mkIntent 0%nat (JS.Num 112)] /\
  notifications (run call booked)
    = notifications booked ++ [mkNotification ana "booking_confirmed" 0%nat] /\
  paymentIntents (run call booked) <> paymentIntents booked /\
  notifications (run call booked) <> notifications booked.
Proof. vm_compute. repeat split; try reflexivity; discriminate. Qed.

(** ** rescheduleBooking *)

Lemma lookup_update_booking_eq (s : Store) (id : bookingId) (f : Booking -> Booking) (b : Booking) :
  bookings s !! id = Some b -> bookings (update_booking id f s) !! id = Some (f b).
Proof.
  intros Hb. unfold update_booking, with_bookings. cbn [bookings]. rewrite Hb.
  apply list_lookup_insert_eq. eapply lookup_lt_Some; eauto.
Qed.

(** What a successful reschedule charges: 0 when rescheduleCount is 0 and
    Math.round(price x 0.1) otherwise, where price is the price stored on
    the booking when the call starts, the only price the booking has.  A
    fee above 0 is recorded as a payment of type reschedule_fee; a fee of 0
    or NaN records none.  rescheduleCount grows by one, and a reschedule
    without a new duration leaves the price as it was, so the fee does not
    accumulate. *)
Lemma rescheduleBooking_fee_and_charge
    (s : Store) (caller : uid) (id : bookingId) (newDate : Z) (newDuration : option Z)
    (now : Z) (b : Booking) (r : BookingRescheduleResponse)
    (Hb : bookings s !! id = Some b)
    (Hok : result (rescheduleBooking (Some caller)
                     (mkRescheduleRequest (Some id) (Some newDate) newDuration) now) s = Ok r) :
  let s' := run (rescheduleBooking (Some caller)
                   (mkRescheduleRequest (Some id) (Some newDate) newDuration) now) s in
  (rescheduleCount b <= 0 -> rr_fee r = JS.of_Z 0) /\
  (0 < rescheduleCount b -> rr_fee r = JS.round (JS.mul (price b) (JS.Num 0.1))) /\
  rr_rescheduleCount r = rescheduleCount b + 1 /\
  payments s' =
    (if JS.gtb (rr_fee r) (JS.of_Z 0)
     then payments s ++ [mkPayment id caller (rr_fee r) PT_RESCHEDULE_FEE]
     else payments s) /\
  exists b' : Booking,
    bookings s' !! id = Some b' /\
    rescheduleCount b' = rescheduleCount b + 1 /\
    date b' = newDate /\
    (given_duration newDuration = None -> price b' = price b).
Proof.
  intros s'. subst s'. revert Hok.
  unfold rescheduleBooking. cbn [rs_bookingId rs_newDate rs_newDuration].
  unfold rescheduleBooking_transaction, chargeRescheduleFee, sendNotification,
    release_slot, reserve_slot.
  unfold_monad.
  destruct (newDate <=? now) eqn:Hfuture; cbn [fst snd]; [intros Hok; discriminate Hok|].
  rewrite Hb.
  split_guards ltac:(intros Hok; discriminate Hok).
  all: intros Hok; injection Hok as <-; cbn [rr_fee rr_rescheduleCount].
  all: (split; [intros Hc; unfold reschedule_fee;
                 destruct (0 <? rescheduleCount b) eqn:E; [apply Z.ltb_lt in E; lia | reflexivity] |]).
  all: (split; [intros Hc; unfold reschedule_fee;
                 destruct (0 <? rescheduleCount b) eqn:E; [reflexivity | apply Z.ltb_ge in E; lia] |]).
  all: (split; [reflexivity|]).
  all: cbn [rr_fee] in *; try congruence.
  all: (split; [reflexivity|]).
  all: exists (apply_updates
                 (reschedule_updates b newDate newDuration (rescheduleCount b)
                    (reschedule_fee (rescheduleCount b) (price b))) b).
  all: (split; [apply lookup_update_booking_eq; exact Hb |]).
  all: (split; [reflexivity|]); (split; [reflexivity|]).
  all: intros Hd; cbn [apply_updates price reschedule_updates upd_price]; rewrite Hd; reflexivity.
Qed.

(** The fee of the third reschedule is the fee of the second. *)
Example third_reschedule_same_fee :
  let twice := run (rescheduleBooking (Some ana) move_again 0) moved_once in
  (rr_fee <$> match result (rescheduleBooking (Some ana)
                              (mkRescheduleRequest (Some 0%nat) (Some (hours 400)) None) 0)
                      twice with
              | Ok r => Some r
              | Err _ _ => None
              end) = Some (JS.Num 14) /\
  (price <$> bookings twice !! 0%nat) = Some (JS.Num 140) /\
  (totalPrice <$> bookings twice !! 0%nat) = Some (Some (JS.Num 154)).
Proof. vm_compute. repeat split; reflexivity. Qed.

(** ** cancelBooking *)

Lemma hours_until_24 (d : Z) :
  JS.ltb (JS.div (JS.of_Z d) (JS.of_Z HOUR_MS)) (JS.of_Z 24) = false <-> 24 * HOUR_MS <= d.
Proof.
  unfold JS.ltb, JS.div, JS.of_Z. rewrite negb_false_iff, Qle_bool_iff.
  unfold Qle, Qdiv, Qmult, Qinv, inject_Z, HOUR_MS. simpl. lia.
Qed.

(** C6 (as the code has it). When the student cancels 24 h or more before the
    start, a successful cancelBooking returns and refunds
    Math.round(0.5 x price), records the penalty of 0.5 x price on the
    cancelled booking and returns it, and leaves every instructor document,
    wallets included, and the wallet transactions as they were: the
    penalty is credited to nobody. *)
Theorem C6_requester_late_cancel_keeps_wallet
    (s : Store) (caller : uid) (id : bookingId) (now : Z) (b : Booking) (p : Q)
    (r : BookingCancelResponse)
    (Hb : bookings s !! id = Some b)
    (Hp : price b = JS.Num p)
    (Hearly : 24 * HOUR_MS <= date b - now)
    (Hok : result (cancelBooking (Some caller) (mkCancelRequest (Some id) (Some student)) now) s
           = Ok r) :
  let s' := run (cancelBooking (Some caller) (mkCancelRequest (Some id) (Some student)) now) s in
  cc_refundAmount r = JS.round (JS.mul (JS.Num 0.5) (JS.Num p)) /\
  JS.eq (cc_penaltyAmount r) (JS.Num (0.5 * p)) /\
  (exists b' : Booking,
     bookings s' !! id = Some b' /\ status b' = CANCELADA /\
     cancelledBy b' = Some student /\
     penaltyAmount b' = Some (cc_penaltyAmount r)) /\
  (JS.gtb (cc_refundAmount r) (JS.of_Z 0) = true ->
     refunds s' = refunds s ++ [mkRefund id (cc_refundAmount r) (cc_message r)]) /\
  (JS.gtb (cc_refundAmount r) (JS.of_Z 0) = false -> refunds s' = refunds s) /\
  instructors s' = instructors s /\
  walletTransactions s' = walletTransactions s.
Proof.
  intros s'. subst s'. revert Hok.
  unfold cancelBooking. cbn [cn_bookingId cn_userType].
  unfold processRefund, applyInstructorPenalty, sendNotification, release_slot, update_wallet.
  unfold_monad. rewrite Hb.
  change (bool_decide (student = instructor)) with false.
  rewrite !andb_false_r. cbn [fst snd].
  apply hours_until_24 in Hearly.
  unfold calculateCancellationPolicy. rewrite Hearly, Hp.
  cbn [refundPercentage policy_penaltyAmount reason].
  split_guards ltac:(intros Hok; discriminate Hok).
  all: intros Hok; apply (f_equal (fun x => match x with Ok a => a | Err _ _ => r end)) in Hok;
    cbv beta iota in Hok; subst r;
    cbn [cc_refundAmount cc_penaltyAmount cc_message].
  all: (split; [reflexivity|]).
  all: (split; [simpl; ring|]).
  all: (split; [eexists; split;
                 [apply lookup_update_booking_eq; exact Hb | repeat split] |]).
  all: (split; [intros Hpos; first [reflexivity | congruence] |]).
  all: (split; [intros Hpos; first [reflexivity | congruence] |]).
  all: split; reflexivity.
Qed.

Lemma C6_requester_late_cancel_keeps_wallet_witness :
  exists r : BookingCancelResponse,
    result (cancelBooking (Some ana) ana_cancels (hours 70)) booked = Ok r /\
    cc_refundAmount r = JS.round (JS.mul (JS.Num 0.5) (JS.Num 140)) /\
    instructors (run (cancelBooking (Some ana) ana_cancels (hours 70)) booked)
      = instructors booked.
Proof.
  eexists. split; [vm_compute; reflexivity|].
  pose proof (C6_requester_late_cancel_keeps_wallet booked ana 0%nat (hours 70)
                (mkBooking ana inst (hours 100) 2 PENDENTE PAY_PENDENTE 0
                   (JS.Num 140) (JS.Num 28) (JS.Num 112) 0
                   None None None None None None None)
                140 _ ltac:(vm_compute; reflexivity) eq_refl
                ltac:(vm_compute; discriminate) ltac:(vm_compute; reflexivity))
    as (Hrefund & _ & _ & _ & _ & Hwallets & _).
  split; [exact Hrefund | exact Hwallets].
Defined.

(** ** External validation gateway *)

Import ValidationGateway.

(** The producer, from the sources: markLessonCompleted queues the task
    Pending at attempt 0, when the identity fields it copies are there. *)
Lemma triggerDetranValidation_enqueues (id : bookingId) (b : Booking) (s : Store) :
  detran_fields_defined s b = true ->
  exists t : ValidationTask,
    detranValidationQueue (run (triggerDetranValidation id b) s) = detranValidationQueue s ++ [t] /\
    vt_bookingId t = id /\ vt_status t = VS_PENDING /\ vt_attempts t = 0.
Proof.
  intros Hf. exists (detran_task id b).
  unfold run, triggerDetranValidation, try_catch, bind, get. rewrite Hf.
  split; [reflexivity|]. repeat split.
Qed.

Lemma backoff_doubles (base n : Z) : 0 <= n -> backoff base (n + 1) = 2 * backoff base n.
Proof. intros Hn. unfold backoff. rewrite Z.pow_add_r by lia. lia. Qed.

Lemma process_terminal_stops (fuel : nat) (base : Z) (certify : Z -> CertifyResult)
    (t : ValidationTask) :
  terminal t = true -> process fuel base certify t = mkTrace t [] [].
Proof.
  unfold terminal. destruct fuel; simpl; destruct (vt_status t); try reflexivity; discriminate.
Qed.

Ltac gateway_step :=
  simpl; change (0 + 1) with 1; change (1 + 1) with 2; change (2 + 1) with 3; simpl.

(** C10. A validation task at attempt 0 whose certification call times out
    goes straight to RequiresManualReview: one call, no retry, the attempt
    counter untouched.  A transient error increments the attempt counter and
    retries after a backoff that doubles; after three failed attempts in
    total the task is in RequiresManualReview.  A retry that succeeds
    validates the task.  Every run ends in a terminal state after at most
    three calls. *)
Theorem C10_timeout_direct_transient_retried
    (base : Z) (certify : Z -> CertifyResult) (t : ValidationTask)
    (Hpending : vt_status t = VS_PENDING) (Hzero : vt_attempts t = 0) :
  let tr := process 3 base certify t in
  (certify 0 = CertifyTimeout ->
     vt_status (final tr) = VS_REQUIRES_MANUAL_REVIEW /\
     vt_attempts (final tr) = 0 /\ calls tr = [0] /\ delays tr = []) /\
  (certify 0 = TransientError -> certify 1 = TransientError -> certify 2 = TransientError ->
     vt_status (final tr) = VS_REQUIRES_MANUAL_REVIEW /\
     vt_attempts (final tr) = 3 /\ calls tr = [0; 1; 2] /\
     delays tr = [backoff base 1; backoff base 2] /\
     backoff base 2 = 2 * backoff base 1) /\
  (forall protocolId, certify 0 = TransientError -> certify 1 = Certified protocolId ->
     vt_status (final tr) = VS_VALIDATED /\ calls tr = [0; 1] /\
     delays tr = [backoff base 1]) /\
  terminal (final tr) = true /\
  (length (calls tr) <= 3)%nat /\
  (forall fuel, (3 <= fuel)%nat -> process fuel base certify t = tr).
Proof.
  intros tr. subst tr. destruct t as [bid dur st att]. simpl in Hpending, Hzero. subst st att.
  split; [|split; [|split; [|split; [|split]]]].
  - intros H0. simpl. rewrite H0. simpl. repeat split.
  - intros H0 H1 H2. simpl. rewrite H0. gateway_step. rewrite H1. gateway_step.
    rewrite H2. gateway_step. repeat split. unfold backoff. lia.
  - intros protocolId H0 H1. simpl. rewrite H0. gateway_step. rewrite H1. gateway_step.
    repeat split.
  - simpl. destruct (certify 0); gateway_step; try reflexivity.
    destruct (certify 1); gateway_step; try reflexivity.
    destruct (certify 2); gateway_step; reflexivity.
  - simpl. destruct (certify 0); gateway_step; try lia.
    destruct (certify 1); gateway_step; try lia.
    destruct (certify 2); gateway_step; lia.
  - intros fuel Hf. destruct fuel as [|[|[|fuel]]]; try lia.
    simpl. destruct (certify 0); gateway_step; try reflexivity.
    destruct (certify 1); gateway_step; try reflexivity.
    destruct (certify 2); gateway_step; try reflexivity.
    all: rewrite process_terminal_stops by reflexivity; reflexivity.
Qed.

Lemma C10_timeout_direct_transient_retried_witness :
  let tr := process 3 1000 (fun _ => CertifyTimeout) task in
  vt_status (final tr) = VS_REQUIRES_MANUAL_REVIEW /\ calls tr = [0] /\ delays tr = [].
Proof.
  destruct (C10_timeout_direct_transient_retried 1000 (fun _ => CertifyTimeout) task
              eq_refl eq_refl) as (Htimeout & _).
  destruct (Htimeout eq_refl) as (Hstate & _ & Hcalls & Hdelays).
  split; [exact Hstate | split; [exact Hcalls | exact Hdelays]].
Defined.

Example transient_errors_exhaust :
  let tr := process 3 1000 (fun _ => TransientError) task in
  vt_status (final tr) = VS_REQUIRES_MANUAL_REVIEW /\
  calls tr = [0; 1; 2] /\ delays tr = [2000; 4000].
Proof. vm_compute. repeat split; reflexivity. Qed.

Example completed_lesson_queues_task :
  detranValidationQueue completed = [task].
Proof. vm_compute. reflexivity. Qed.


(** ** Redelivery of the acceptance-timeout poller *)

Lemma run_loop_inv_handler {D} (Inv : Store -> Prop)
    (handler : Store -> nat -> D -> list (M unit))
    (docs : list (nat * D)) (crash : option nat) (s : Store) :
  (forall s0 ref d c, Inv s0 -> Inv (fst (fst (run_writes (handler s0 ref d) c s0)))) ->
  Inv s -> Inv (fst (run_loop handler docs crash s)).
Proof.
  intros Hh. revert crash s.
  induction docs as [|[ref d] rest IH]; intros crash s Hs; simpl.
  - exact Hs.
  - pose proof (Hh s ref d crash Hs) as Hw.
    destruct (run_writes (handler s ref d) crash s) as [[s' o] crash'].
    simpl in Hw. destruct o; simpl; try exact Hw.
    apply IH. exact Hw.
Qed.

Lemma timeout_notices_of_add (s : Store) (n : Notification) (id : bookingId) :
  nt_bookingId n <> id -> timeout_notices_of (add_notification n s) id = timeout_notices_of s id.
Proof.
  intros Hne. unfold timeout_notices_of, add_notification. cbn [notifications].
  rewrite List.filter_app. simpl. rewrite bool_decide_eq_false_2 by exact Hne.
  apply app_nil_r.
Qed.

(** The writes made for the timeout record of another booking do not show in
    the view of this one. *)
Lemma timeout_writes_other (s0 : Store) (ref : nat) (t : TimeoutJob) (id : bookingId) :
  to_bookingId t <> id ->
  Forall (fun w : M unit => forall s1, timeout_view (fst (w s1)) id = timeout_view s1 id)
    (timeout_writes s0 ref t).
Proof.
  intros Hne. unfold timeout_writes.
  assert (Hmark : forall s1,
            timeout_view (fst (mark_timeout_processed ref s1)) id = timeout_view s1 id)
    by (intros s1; reflexivity).
  destruct (bookings s0 !! to_bookingId t) as [bt|];
    [|repeat first [apply List.Forall_nil | apply List.Forall_cons]; exact Hmark].
  destruct (bool_decide (status bt = PENDENTE)); simpl;
    repeat first [apply List.Forall_nil | apply List.Forall_cons]; try exact Hmark;
    intros s1; unfold timeout_view, processRefund, sendNotification, modify; cbn [fst].
  - rewrite lookup_update_booking_ne by exact Hne. reflexivity.
  - rewrite refunds_of_add by exact Hne. reflexivity.
  - rewrite timeout_notices_of_add by exact Hne. reflexivity.
Qed.

Lemma fired_at_most_once_view (id : bookingId) (r : list Refund) (n : list Notification)
    (s0 s1 : Store) :
  timeout_view s1 id = timeout_view s0 id ->
  fired_at_most_once id r n s0 -> fired_at_most_once id r n s1.
Proof.
  unfold timeout_view, fired_at_most_once, status_of. intros [= Hb Hr Hn].
  rewrite Hb, Hr, Hn. tauto.
Qed.

Lemma refunds_of_add_same (s : Store) (r : Refund) (id : bookingId) :
  rf_bookingId r = id -> refunds_of (add_refund r s) id = refunds_of s id ++ [r].
Proof.
  intros Hid. unfold refunds_of, add_refund. cbn [refunds].
  rewrite List.filter_app. simpl. rewrite bool_decide_eq_true_2 by exact Hid. reflexivity.
Qed.

Lemma timeout_notices_of_add_same (s : Store) (u : uid) (id : bookingId) :
  timeout_notices_of (add_notification (mkNotification u "booking_timeout" id) s) id
  = timeout_notices_of s id ++ [mkNotification u "booking_timeout" id].
Proof.
  unfold timeout_notices_of, add_notification. cbn [notifications].
  rewrite List.filter_app. simpl. rewrite bool_decide_eq_true_2 by reflexivity. reflexivity.
Qed.

(** The writes made for a timeout record of this booking: whatever the point
    at which the run stops, the booking fires at most once. *)
Lemma timeout_writes_self (s0 : Store) (ref : nat) (t : TimeoutJob) (c : option nat)
    (r : list Refund) (n : list Notification) :
  fired_at_most_once (to_bookingId t) r n s0 ->
  fired_at_most_once (to_bookingId t) r n
    (fst (fst (run_writes (timeout_writes s0 ref t) c s0))).
Proof.
  intros Hf. unfold timeout_writes.
  assert (Hmark : fired_at_most_once (to_bookingId t) r n
                    (fst (fst (run_writes [mark_timeout_processed ref] c s0)))).
  { destruct c as [[|k]|]; simpl; [exact Hf | |];
      (apply (fired_at_most_once_view _ _ _ s0); [reflexivity | exact Hf]). }
  destruct (bookings s0 !! to_bookingId t) as [b|] eqn:Eb; [|exact Hmark].
  destruct (bool_decide (status b = PENDENTE)) eqn:Ep; [|exact Hmark].
  apply bool_decide_eq_true in Ep.
  destruct Hf as [(_ & Hr & Hn) | (Hs & _)];
    [|unfold status_of in Hs; rewrite Eb in Hs; simpl in Hs; congruence].
  set (id := to_bookingId t) in *.
  assert (Hcancelled : forall s1, bookings s1 !! id = Some (set_status CANCELADA b) ->
                         status_of s1 id <> Some PENDENTE).
  { intros s1 H1. unfold status_of. rewrite H1. simpl. discriminate. }
  pose proof (lookup_update_booking_eq s0 id (set_status CANCELADA) b Eb) as Hb1.
  unfold processRefund, sendNotification, delete_slot, modify.
  destruct c as [[|[|[|[|[|k]]]]]|]; cbn [app run_writes fst snd fmap option_fmap option_map Nat.pred].
  - left. unfold status_of. rewrite Eb. simpl. rewrite Ep. auto.
  - right. split; [apply Hcancelled; exact Hb1|].
    split.
    + change (length (refunds_of s0 id) <= S (length r))%nat. rewrite Hr. lia.
    + change (length (timeout_notices_of s0 id) <= S (length n))%nat. rewrite Hn. lia.
  - right. split; [apply Hcancelled; exact Hb1|].
    split.
    + change (length (refunds_of s0 id) <= S (length r))%nat. rewrite Hr. lia.
    + change (length (timeout_notices_of s0 id) <= S (length n))%nat. rewrite Hn. lia.
  - right. split; [apply Hcancelled; exact Hb1|].
    split.
    + change (length (refunds_of (add_refund (mkRefund id (depositAmount b) "timeout") s0) id)
              <= S (length r))%nat.
      rewrite (refunds_of_add_same s0 (mkRefund id (depositAmount b) "timeout") id)
        by reflexivity.
      rewrite Hr, length_app. simpl. lia.
    + change (length (timeout_notices_of s0 id) <= S (length n))%nat. rewrite Hn. lia.
  - right. split; [apply Hcancelled; exact Hb1|].
    split.
    + change (length (refunds_of (add_refund (mkRefund id (depositAmount b) "timeout") s0) id)
              <= S (length r))%nat.
      rewrite (refunds_of_add_same s0 (mkRefund id (depositAmount b) "timeout") id)
        by reflexivity.
      rewrite Hr, length_app. simpl. lia.
    + change (length (timeout_notices_of
                        (add_notification (mkNotification (studentId b) "booking_timeout" id) s0) id)
              <= S (length n))%nat.
      rewrite timeout_notices_of_add_same, Hn, length_app. simpl. lia.
  - right. split; [apply Hcancelled; exact Hb1|].
    split.
    + change (length (refunds_of (add_refund (mkRefund id (depositAmount b) "timeout") s0) id)
              <= S (length r))%nat.
      rewrite (refunds_of_add_same s0 (mkRefund id (depositAmount b) "timeout") id)
        by reflexivity.
      rewrite Hr, length_app. simpl. lia.
    + change (length (timeout_notices_of
                        (add_notification (mkNotification (studentId b) "booking_timeout" id) s0) id)
              <= S (length n))%nat.
      rewrite timeout_notices_of_add_same, Hn, length_app. simpl. lia.
  - right. split; [apply Hcancelled; exact Hb1|].
    split.
    + change (length (refunds_of (add_refund (mkRefund id (depositAmount b) "timeout") s0) id)
              <= S (length r))%nat.
      rewrite (refunds_of_add_same s0 (mkRefund id (depositAmount b) "timeout") id)
        by reflexivity.
      rewrite Hr, length_app. simpl. lia.
    + change (length (timeout_notices_of
                        (add_notification (mkNotification (studentId b) "booking_timeout" id) s0) id)
              <= S (length n))%nat.
      rewrite timeout_notices_of_add_same, Hn, length_app. simpl. lia.
Qed.

Lemma timeouts_fire_at_most_once (crash : option nat) (now : Z) (s : Store)
    (id : bookingId) (r : list Refund) (n : list Notification) :
  fired_at_most_once id r n s ->
  fired_at_most_once id r n (fst (processBookingTimeouts_upto crash now s)).
Proof.
  unfold processBookingTimeouts_upto. apply run_loop_inv_handler.
  intros s0 ref t c Hf. destruct (decide (to_bookingId t = id)) as [<-|Hne].
  - apply timeout_writes_self. exact Hf.
  - apply (fired_at_most_once_view _ _ _ s0); [|exact Hf].
    apply (run_writes_inv (fun s1 => timeout_view s1 id = timeout_view s0 id));
      [|reflexivity].
    eapply List.Forall_impl; [|apply (timeout_writes_other s0 ref t id Hne)].
    intros w Hw s1 H1. rewrite Hw. exact H1.
Qed.

(** X13. However often the acceptance-timeout poller is delivered, and wherever
    each delivery stops, a booking gets at most one timeout refund and one
    timeout notice. *)
Theorem timeout_redelivery_fires_once (runs : list (option nat * Z)) (s : Store)
    (id : bookingId) :
  (length (refunds_of (redeliver_timeouts runs s) id) <= S (length (refunds_of s id)))%nat /\
  (length (timeout_notices_of (redeliver_timeouts runs s) id)
     <= S (length (timeout_notices_of s id)))%nat.
Proof.
  assert (Hinit : fired_at_most_once id (refunds_of s id) (timeout_notices_of s id) s).
  { destruct (decide (status_of s id = Some PENDENTE)) as [Hp|Hp].
    - left. auto.
    - right. split; [exact Hp|]. split; lia. }
  revert Hinit. generalize (refunds_of s id) as r, (timeout_notices_of s id) as n.
  intros r n. revert s. induction runs as [|[crash now] rest IH]; intros s Hf; simpl.
  - destruct Hf as [(_ & -> & ->) | (_ & H1 & H2)]; [split; lia | split; assumption].
  - apply IH. apply timeouts_fire_at_most_once. exact Hf.
Qed.


(** ** Slot exclusivity of createBooking *)

(** A createBooking that throws has written nothing. *)
Lemma createBooking_error_unchanged
    (auth : option uid) (data : BookingCreateRequest) (now : Z) (s : Store) :
  succeeds (result (createBooking auth data now) s) = false ->
  run (createBooking auth data now) s = s.
Proof.
  unfold createBooking. destruct auth as [caller|]; [|reflexivity].
  destruct (req_date data) as [d|]; [|reflexivity].
  unfold createBooking_transaction, processDepositPayment, scheduleAcceptanceTimeout,
    sendNotification, reserve_slot.
  unfold_monad.
  split_guards ltac:(reflexivity).
  cbn. discriminate.
Qed.

(** A successful createBooking leaves its slot reserved. *)
Lemma createBooking_reserves
    (auth : option uid) (data : BookingCreateRequest) (now : Z) (s : Store) :
  succeeds (result (createBooking auth data now) s) = true ->
  exists d, req_date data = Some d /\
    slot_reserved (run (createBooking auth data now) s)
      (req_instructorId data) (formatDateKey d) = true.
Proof.
  unfold createBooking. unfold_monad.
  destruct auth as [caller|]; [|intros H; simpl in H; discriminate H].
  destruct (req_date data) as [d|]; [|intros H; simpl in H; discriminate H].
  unfold createBooking_transaction, processDepositPayment, scheduleAcceptanceTimeout,
    sendNotification, reserve_slot.
  unfold_monad.
  split_guards ltac:(intros H; cbn [succeeds fst snd] in H; discriminate H).
  intros _. exists d. split; [reflexivity|].
  unfold slot_reserved. cbn [calendar add_notification with_bookingTimeouts add_payment
    with_calendar with_bookings]. rewrite lookup_insert_eq. reflexivity.
Qed.

Ltac rejected :=
  cbn [fst snd succeeds negb andb orb]; repeat split; try reflexivity;
  let H := fresh in intros H; discriminate H.

(** createBooking on a reserved slot: nothing is persisted, and a request
    that passes the input checks gets the conflict error. *)
Lemma createBooking_conflict
    (auth : option uid) (data : BookingCreateRequest) (now : Z) (s : Store) (d : Z) :
  req_date data = Some d ->
  slot_reserved s (req_instructorId data) (formatDateKey d) = true ->
  succeeds (result (createBooking auth data now) s) = false /\
  run (createBooking auth data now) s = s /\
  (well_formed_create auth data now s = true ->
   result (createBooking auth data now) s = Err VALIDATION_ERROR 409).
Proof.
  intros Hd Hres. unfold well_formed_create, createBooking. rewrite Hd.
  destruct auth as [caller|]; [|rejected].
  unfold createBooking_transaction, processDepositPayment, scheduleAcceptanceTimeout,
    sendNotification, reserve_slot.
  unfold_monad.
  destruct (String.eqb (req_instructorId data) "") eqn:E1; cbn [orb negb andb fst snd].
  { destruct (instructors s !! req_instructorId data); rejected. }
  destruct (req_duration data =? 0) eqn:E2; cbn [orb negb andb fst snd].
  { apply Z.eqb_eq in E2. rewrite E2.
    destruct (instructors s !! req_instructorId data); rejected. }
  destruct (req_duration data <? 1) eqn:E3; cbn [orb negb andb fst snd].
  { apply Z.ltb_lt in E3. replace (1 <=? req_duration data) with false
      by (symmetry; apply Z.leb_gt; lia).
    destruct (instructors s !! req_instructorId data); rejected. }
  destruct (4 <? req_duration data) eqn:E4; cbn [orb negb andb fst snd].
  { apply Z.ltb_lt in E4. replace (req_duration data <=? 4) with false
      by (symmetry; apply Z.leb_gt; lia).
    rewrite andb_false_r.
    destruct (instructors s !! req_instructorId data); rejected. }
  destruct (d <=? now) eqn:E5; cbn [orb negb andb fst snd].
  { apply Z.leb_le in E5. replace (now <? d) with false by (symmetry; apply Z.ltb_ge; lia).
    rewrite andb_false_r.
    destruct (instructors s !! req_instructorId data); rejected. }
  destruct (instructors s !! req_instructorId data) as [ins|]; cbn [fst snd]; [|rejected].
  destruct (bool_decide (ins_status ins = APROVADO)); cbn [orb negb andb fst snd].
  2:{ rewrite andb_false_r. rejected. }
  destruct (negb (is_empty (existingBookings s (req_instructorId data) d)));
    cbn [fst snd]; [rejected|].
  rewrite Hres. rejected.
Qed.

(** After a successful createBooking, every further createBooking aimed at
    the same (instructor, slot key) fails and leaves the store as it is;
    those that pass the input checks get the conflict error. *)
Theorem createBooking_exclusive
    (auth : option uid) (data : BookingCreateRequest) (now : Z) (s : Store)
    (later : list (option uid * BookingCreateRequest * Z)) :
  succeeds (result (createBooking auth data now) s) = true ->
  Forall (fun c => same_slot data (snd (fst c))) later ->
  let s1 := run (createBooking auth data now) s in
  fst (create_all later s1) = s1 /\
  Forall (fun r => succeeds r = false) (snd (create_all later s1)) /\
  Forall (fun c => well_formed_create (fst (fst c)) (snd (fst c)) (snd c) s1 = true ->
                   result (createBooking (fst (fst c)) (snd (fst c)) (snd c)) s1
                   = Err VALIDATION_ERROR 409) later.
Proof.
  intros Hok Hlater s1.
  destruct (createBooking_reserves auth data now s Hok) as (d & Hd & Hres).
  fold s1 in Hres.
  induction Hlater as [|[[auth' data'] now'] rest [Hi Hk] _ IH]; simpl.
  - repeat split; constructor.
  - cbn [fst snd] in Hi, Hk. rewrite Hd in Hk. simpl in Hk.
    destruct (req_date data') as [d'|] eqn:Hd'; [|discriminate]. simpl in Hk.
    injection Hk as Hk.
    assert (Hres' : slot_reserved s1 (req_instructorId data') (formatDateKey d') = true)
      by (rewrite <- Hi, <- Hk; exact Hres).
    destruct (createBooking_conflict auth' data' now' s1 d' Hd' Hres') as (Hf & Hs & H409).
    unfold run, result in *.
    destruct (createBooking auth' data' now' s1) as [s2 r] eqn:Ec. simpl in *. subst s2.
    destruct (create_all rest s1) as [s3 rs] eqn:Er. simpl in *.
    destruct IH as (IH1 & IH2 & IH3).
    split; [exact IH1|]. split; [constructor; assumption|].
    constructor; [cbn [fst snd]; rewrite Ec; exact H409 | exact IH3].
Qed.

(** Where reservation and booking agree, a free slot has no active booking at
    any date inside it. *)
Lemma free_slot_no_booking (s : Store) (instr : uid) (d : Z) :
  slots_consistent s ->
  slot_reserved s instr (formatDateKey d) = false ->
  existingBookings s instr d = [].
Proof.
  intros Hc Hfree. unfold existingBookings.
  destruct (List.filter _ (bookings s)) as [|b rest] eqn:E; [reflexivity|].
  assert (Hin : In b (List.filter
                        (fun b => bool_decide (instructorId b = instr) && (date b =? d) && active b)
                        (bookings s))) by (rewrite E; left; reflexivity).
  apply List.filter_In in Hin as [Hin Hb].
  apply andb_true_iff in Hb as [Hb Hact]. apply andb_true_iff in Hb as [Hi Hd].
  apply bool_decide_eq_true in Hi. apply Z.eqb_eq in Hd.
  apply list_elem_of_In, list_elem_of_lookup in Hin as [id Hid].
  pose proof (Hc id b Hid Hact) as Hslot. unfold slot_key in Hslot.
  rewrite Hi, Hd in Hslot. unfold slot_reserved in Hfree. rewrite Hslot in Hfree.
  discriminate.
Qed.

(** On a free slot a well-formed request succeeds. *)
Lemma createBooking_succeeds_on_free_slot
    (auth : option uid) (data : BookingCreateRequest) (now : Z) (s : Store) (d : Z) :
  slots_consistent s ->
  req_date data = Some d ->
  slot_reserved s (req_instructorId data) (formatDateKey d) = false ->
  well_formed_create auth data now s = true ->
  succeeds (result (createBooking auth data now) s) = true.
Proof.
  intros Hc Hd Hfree Hwf. unfold well_formed_create in Hwf. rewrite Hd in Hwf.
  pose proof (free_slot_no_booking s _ d Hc Hfree) as Hnone.
  unfold createBooking. rewrite Hd.
  destruct auth as [caller|]; [|discriminate].
  destruct (instructors s !! req_instructorId data) as [ins|] eqn:Ei; [|discriminate].
  apply andb_true_iff in Hwf as [Hwf Happ]. apply andb_true_iff in Hwf as [Hwf Hfut].
  apply andb_true_iff in Hwf as [Hwf H4]. apply andb_true_iff in Hwf as [Hid H1].
  apply negb_true_iff in Hid. apply Z.leb_le in H1, H4. apply Z.ltb_lt in Hfut.
  unfold createBooking_transaction, processDepositPayment, scheduleAcceptanceTimeout,
    sendNotification, reserve_slot.
  unfold_monad. rewrite Hid.
  replace (req_duration data =? 0) with false by (symmetry; apply Z.eqb_neq; lia).
  replace (req_duration data <? 1) with false by (symmetry; apply Z.ltb_ge; lia).
  replace (4 <? req_duration data) with false by (symmetry; apply Z.ltb_ge; lia).
  replace (d <=? now) with false by (symmetry; apply Z.leb_gt; lia).
  cbn [orb fst snd]. rewrite Ei, Happ. cbn [negb fst snd].
  rewrite Hnone, Hfree. reflexivity.
Qed.

(** ** Slot exclusivity in executions without rescheduleBooking *)

Lemma slots_consistent_exclusive (s : Store) : slots_consistent s -> slot_exclusive s.
Proof.
  intros Hc id1 id2 b1 b2 H1 H2 A1 A2 Hk.
  pose proof (Hc id1 b1 H1 A1) as E1. pose proof (Hc id2 b2 H2 A2) as E2.
  rewrite Hk in E1. rewrite E1 in E2. congruence.
Qed.

Lemma slot_step_consistent (s s' : Store) :
  slot_step s s' -> slots_consistent s -> slots_consistent s'.
Proof.
  intros Hstep Hc. destruct Hstep as [Hb Hcal | b Hfree Hb Hcal | id b b' Hid Hk Hact Hb Hcal
                                      | id b b' Hid Hact Hinact Hb Hcal].
  - intros j x Hj Hx. rewrite Hb in Hj. rewrite Hcal. apply Hc; assumption.
  - intros j x Hj Hx. rewrite Hb in Hj. rewrite Hcal.
    apply lookup_app_Some in Hj as [Hj | [Hlen Hj]].
    + pose proof (Hc j x Hj Hx) as Hslot.
      rewrite lookup_insert_ne; [exact Hslot|].
      intros Heq. rewrite Heq in Hfree. rewrite Hslot in Hfree.
      destruct Hfree as [Hfree | (c & Hfree & Hres)]; [discriminate|].
      injection Hfree as <-. discriminate.
    + apply list_lookup_singleton_Some in Hj as [Hj <-].
      assert (j = length (bookings s)) as -> by lia.
      apply lookup_insert_eq.
  - intros j x Hj Hx. rewrite Hb in Hj. rewrite Hcal.
    destruct (decide (id = j)) as [<-|Hne].
    + rewrite list_lookup_insert_eq in Hj by (eapply lookup_lt_Some; eauto).
      injection Hj as <-. rewrite Hk. apply Hc; auto.
    + rewrite list_lookup_insert_ne in Hj by exact Hne. apply Hc; assumption.
  - intros j x Hj Hx. rewrite Hb in Hj.
    destruct (decide (id = j)) as [<-|Hne].
    + rewrite list_lookup_insert_eq in Hj by (eapply lookup_lt_Some; eauto).
      injection Hj as <-. congruence.
    + rewrite list_lookup_insert_ne in Hj by exact Hne.
      pose proof (Hc j x Hj Hx) as Hslot.
      assert (Hkey : slot_key b <> slot_key x).
      { intros Heq. pose proof (Hc id b Hid Hact) as Hslot'.
        rewrite Heq in Hslot'. rewrite Hslot in Hslot'. congruence. }
      destruct Hcal as [-> | ->].
      * rewrite lookup_insert_ne by exact Hkey. exact Hslot.
      * rewrite lookup_delete_ne by exact Hkey. exact Hslot.
Qed.

Lemma bookings_update_booking (s : Store) (id : bookingId) (f : Booking -> Booking) (b : Booking) :
  bookings s !! id = Some b ->
  bookings (update_booking id f s) = <[id := f b]> (bookings s).
Proof.
  intros Hb. unfold update_booking, with_bookings. cbn [bookings]. rewrite Hb. reflexivity.
Qed.

Lemma slot_step_refl (s : Store) : slot_step s s.
Proof. apply slot_step_same; reflexivity. Qed.

Lemma createBooking_slot_step (auth : option uid) (data : BookingCreateRequest) (now : Z)
    (s : Store) :
  slot_step s (run (createBooking auth data now) s).
Proof.
  unfold createBooking. destruct auth as [caller|]; [|apply slot_step_refl].
  destruct (req_date data) as [d|]; [|apply slot_step_refl].
  unfold createBooking_transaction, processDepositPayment, scheduleAcceptanceTimeout,
    sendNotification, reserve_slot.
  unfold_monad.
  split_guards ltac:(apply slot_step_refl).
  match goal with
  | H : slot_reserved _ _ _ = false |- _ => rename H into Hfree
  end.
  eapply slot_step_create; cycle 1; [reflexivity | reflexivity |].
  unfold slot_reserved in Hfree.
  change (slot_key _) with (req_instructorId data, formatDateKey d).
  destruct (calendar s !! (req_instructorId data, formatDateKey d)) as [c|];
    [right; exists c; auto | left; reflexivity].
Qed.

Lemma confirmBooking_slot_step (auth : option uid) (id : option bookingId) (now : Z) (s : Store) :
  slot_step s (run (confirmBooking auth id now) s).
Proof.
  unfold confirmBooking. destruct auth as [caller|]; [|apply slot_step_refl].
  destruct id as [id|]; [|apply slot_step_refl].
  unfold updatePaymentIntent, cancelTimeoutJob, sendNotification.
  unfold_monad. destruct (bookings s !! id) as [b|] eqn:E; [|apply slot_step_refl].
  split_guards ltac:(apply slot_step_refl).
  apply (slot_step_update s _ id b (set_status CONFIRMADA b) E); try reflexivity.
  - intros _. unfold active.
    match goal with H : negb (bool_decide (status b = PENDENTE)) = false |- _ =>
      apply negb_false_iff, bool_decide_eq_true in H; rewrite H end.
    reflexivity.
  - cbn [bookings add_notification with_bookingTimeouts add_paymentIntent].
    apply bookings_update_booking. exact E.
Qed.

Lemma markLessonCompleted_slot_step
    (auth : option uid) (data : LessonCompletionRequest) (now : Z) (s : Store) :
  slot_step s (run (markLessonCompleted auth data now) s).
Proof.
  unfold markLessonCompleted. destruct auth as [caller|]; [|apply slot_step_refl].
  destruct (lc_bookingId data) as [id|]; [|apply slot_step_refl].
  unfold triggerDetranValidation, chargeRemainingPayment, schedulePaymentRelease,
    sendNotification.
  unfold_monad.
  destruct (lc_actualDuration data =? 0); cbn [fst snd]; [apply slot_step_refl|].
  destruct (bookings s !! id) as [b|] eqn:E; [|apply slot_step_refl].
  split_guards ltac:(apply slot_step_refl).
  all: apply (slot_step_update s _ id b (set_completion (lc_actualDuration data) b) E);
    try reflexivity;
    [ unfold active; simpl; discriminate
    | cbn [bookings add_notification with_paymentReleaseQueue add_payment add_validation];
      apply bookings_update_booking; exact E ].
Qed.

Lemma active_unless_finished (b : Booking) :
  bool_decide (status b = CANCELADA) = false ->
  bool_decide (status b = CONCLUIDA) = false ->
  active b = true.
Proof.
  intros H1 H2. apply bool_decide_eq_false in H1. apply bool_decide_eq_false in H2.
  unfold active. destruct (status b); congruence.
Qed.

Lemma cancelBooking_slot_step (auth : option uid) (data : BookingCancelRequest) (now : Z)
    (s : Store) :
  slot_step s (run (cancelBooking auth data now) s).
Proof.
  unfold cancelBooking. destruct auth as [caller|]; [|apply slot_step_refl].
  destruct (cn_bookingId data) as [id|]; [|apply slot_step_refl].
  destruct (cn_userType data) as [userType|]; [|apply slot_step_refl].
  unfold processRefund, applyInstructorPenalty, sendNotification, release_slot, update_wallet.
  unfold_monad. destruct (bookings s !! id) as [b|] eqn:E; [|apply slot_step_refl].
  split_guards ltac:(apply slot_step_refl).
  all: first
    [ eapply (slot_step_release s _ id b _ E);
      [ apply active_unless_finished; assumption
      |
      | cbn [bookings add_notification add_walletTransaction with_instructors add_refund
               with_calendar];
        apply bookings_update_booking; exact E
      | left; reflexivity ];
      reflexivity
    | eapply (slot_step_update s _ id b _ E);
      [ | | apply bookings_update_booking; exact E | reflexivity ];
      [ reflexivity | intros H; discriminate H ] ].
Qed.

Lemma release_writes_slot_step (s0 : Store) (ref : nat) (r : ReleaseJob) :
  Forall (fun w : M unit => forall s1,
            bookings (fst (w s1)) = bookings s1 /\ calendar (fst (w s1)) = calendar s1)
    (release_writes s0 ref r).
Proof.
  unfold release_writes.
  repeat first [apply List.Forall_nil | apply List.Forall_cons]; intros s1;
    try (split; reflexivity).
  rewrite credit_write.
  destruct (rel_instructorAmount r); [destruct (instructors s1 !! rel_instructorId r)|]; split; reflexivity.
Qed.

Lemma processPaymentReleases_consistent (crash : option nat) (now : Z) (s : Store) :
  slots_consistent s -> slots_consistent (fst (processPaymentReleases_upto crash now s)).
Proof.
  unfold processPaymentReleases_upto. apply run_loop_inv.
  intros s0 ref r _.
  eapply List.Forall_impl; [|apply (release_writes_slot_step s0 ref r)].
  intros w Hw s1 H1. destruct (Hw s1) as [Hb Hc].
  apply (slot_step_consistent s1); [apply slot_step_same; assumption | exact H1].
Qed.

Lemma timeout_writes_consistent (s0 : Store) (ref : nat) (t : TimeoutJob) (c : option nat) :
  slots_consistent s0 ->
  slots_consistent (fst (fst (run_writes (timeout_writes s0 ref t) c s0))).
Proof.
  intros Hc. unfold timeout_writes.
  assert (Hmark : slots_consistent
                    (fst (fst (run_writes [mark_timeout_processed ref] c s0)))).
  { destruct c as [[|k]|]; simpl; [exact Hc | |];
      (apply (slot_step_consistent s0); [apply slot_step_same; reflexivity | exact Hc]). }
  destruct (bookings s0 !! to_bookingId t) as [b|] eqn:Eb; [|exact Hmark].
  destruct (bool_decide (status b = PENDENTE)) eqn:Ep; [|exact Hmark].
  apply bool_decide_eq_true in Ep.
  assert (Hact : active b = true) by (unfold active; rewrite Ep; reflexivity).
  unfold processRefund, sendNotification, delete_slot, mark_timeout_processed, modify.
  apply (slot_step_consistent s0); [|exact Hc].
  destruct c as [[|[|k]]|]; cbn [app run_writes fst snd fmap option_fmap option_map Nat.pred].
  - apply slot_step_refl.
  - eapply (slot_step_update s0 _ (to_bookingId t) b _ Eb);
      [ | | apply bookings_update_booking; exact Eb | reflexivity ];
      [ reflexivity | intros H; discriminate H ].
  - eapply (slot_step_release s0 _ (to_bookingId t) b (set_status CANCELADA b) Eb Hact);
      [reflexivity | |].
    + destruct k as [|[|[|k]]];
        cbn [app run_writes fst snd fmap option_fmap option_map Nat.pred bookings
               with_calendar add_refund add_notification with_bookingTimeouts];
        apply bookings_update_booking; exact Eb.
    + right.
      destruct k as [|[|[|k]]];
        cbn [app run_writes fst snd fmap option_fmap option_map Nat.pred]; reflexivity.
  - eapply (slot_step_release s0 _ (to_bookingId t) b (set_status CANCELADA b) Eb Hact);
      [reflexivity | |].
    + cbn [bookings with_calendar add_refund add_notification with_bookingTimeouts].
      apply bookings_update_booking; exact Eb.
    + right. reflexivity.
Qed.

Lemma processBookingTimeouts_consistent (crash : option nat) (now : Z) (s : Store) :
  slots_consistent s -> slots_consistent (fst (processBookingTimeouts_upto crash now s)).
Proof.
  unfold processBookingTimeouts_upto. apply run_loop_inv_handler.
  intros s0 ref t c. apply timeout_writes_consistent.
Qed.

Lemma step_consistent (c : Call) (now : Z) (s : Store) :
  is_reschedule c = false -> slots_consistent s -> slots_consistent (step c now s).
Proof.
  intros Hc Hs. destruct c; simpl in *; try discriminate.
  - apply (slot_step_consistent s); [apply createBooking_slot_step | exact Hs].
  - apply (slot_step_consistent s); [apply confirmBooking_slot_step | exact Hs].
  - apply (slot_step_consistent s); [apply cancelBooking_slot_step | exact Hs].
  - apply (slot_step_consistent s); [apply markLessonCompleted_slot_step | exact Hs].
  - apply processBookingTimeouts_consistent. exact Hs.
  - apply processPaymentReleases_consistent. exact Hs.
Qed.

Lemma initial_consistent (ins : gmap uid Instructor) (pupils : gmap uid Student) : slots_consistent (initial ins pupils).
Proof. intros id b H. discriminate H. Qed.

(** X2. In every state reached without rescheduleBooking, reservation and
    booking agree and no slot holds two active bookings. *)
Theorem slot_exclusive_without_reschedule
    (ins : gmap uid Instructor) (pupils : gmap uid Student) (cs : list (Call * Z)) :
  forallb (fun c => negb (is_reschedule (fst c))) cs = true ->
  slots_consistent (steps cs (initial ins pupils)) /\ slot_exclusive (steps cs (initial ins pupils)).
Proof.
  intros Hcs.
  assert (H : slots_consistent (steps cs (initial ins pupils))).
  { generalize (initial_consistent ins pupils). generalize (initial ins pupils) as s.
    induction cs as [|[c now] rest IH]; intros s Hs; simpl in *; [exact Hs|].
    apply andb_true_iff in Hcs as [Hc Hrest]. apply negb_true_iff in Hc.
    apply IH; [exact Hrest|]. apply step_consistent; assumption. }
  split; [exact H | apply slots_consistent_exclusive; exact H].
Qed.


(** ** The money invariant of bookings *)

Lemma or_else_is_Num (a : number) (z : Z) : exists q, JS.or_else a (JS.of_Z z) = JS.Num q.
Proof.
  unfold JS.or_else. destruct a as [x|]; simpl.
  - destruct (negb (Qeq_bool x 0)); eexists; reflexivity.
  - eexists; reflexivity.
Qed.

(** The split made by createBooking adds up, whatever the instructor's price. *)
Lemma create_split_balanced (pricePerHour : option number) (duration : Z) :
  let totalPrice :=
    JS.mul (JS.or_else (JS.to_number pricePerHour) (JS.of_Z 80)) (JS.of_Z duration) in
  JS.eq (JS.add (deposit_of totalPrice) (JS.sub totalPrice (deposit_of totalPrice))) totalPrice.
Proof.
  intros totalPrice. subst totalPrice.
  destruct (or_else_is_Num (JS.to_number pricePerHour) 80) as [q ->].
  unfold deposit_of, JS.of_Z. cbn [JS.mul JS.round]. apply part_plus_rest.
Qed.

Lemma update_booking_length (id : bookingId) (f : Booking -> Booking) (s : Store) :
  length (bookings (update_booking id f s)) = length (bookings s).
Proof.
  unfold update_booking, with_bookings. cbn [bookings].
  destruct (bookings s !! id); [apply length_insert | reflexivity].
Qed.

(** createBooking appends at most one booking, and a balanced one. *)
Lemma createBooking_appends (auth : option uid) (data : BookingCreateRequest) (now : Z)
    (s : Store) :
  bookings (run (createBooking auth data now) s) = bookings s \/
  exists b, bookings (run (createBooking auth data now) s) = bookings s ++ [b] /\
            amounts_balanced b.
Proof.
  unfold createBooking. destruct auth as [caller|]; [|left; reflexivity].
  destruct (req_date data) as [d|]; [|left; reflexivity].
  unfold createBooking_transaction, processDepositPayment, scheduleAcceptanceTimeout,
    sendNotification, reserve_slot.
  unfold_monad.
  split_guards ltac:(left; reflexivity).
  right. eexists. split; [reflexivity|]. apply create_split_balanced.
Qed.

Lemma rescheduleBooking_kept_price
    (auth : option uid) (data : BookingRescheduleRequest) (now : Z) (s : Store) :
  given_duration (rs_newDuration data) = None ->
  bookings_kept true (bookings s) (bookings (run (rescheduleBooking auth data now) s)).
Proof.
  intros Hd. unfold rescheduleBooking. destruct auth as [caller|]; [|apply bookings_kept_refl].
  destruct (rs_bookingId data) as [id|]; [|apply bookings_kept_refl].
  destruct (rs_newDate data) as [d|]; [|apply bookings_kept_refl].
  unfold rescheduleBooking_transaction, chargeRescheduleFee, sendNotification,
    release_slot, reserve_slot.
  unfold_monad.
  split_guards ltac:(apply bookings_kept_refl).
  all: apply (bookings_kept_update true _ s id); intros x; constructor; auto;
    try (simpl; congruence).
  all: intros _; cbn [apply_updates price reschedule_updates upd_price]; rewrite Hd; reflexivity.
Qed.

Lemma step_kept_duration (c : Call) (now : Z) (s : Store) :
  keeps_duration c = true ->
  bookings_kept true (bookings s) (bookings (step c now s)).
Proof.
  intros Hc. destruct c; simpl in *.
  - apply createBooking_kept.
  - apply confirmBooking_kept.
  - apply cancelBooking_kept.
  - apply rescheduleBooking_kept_price.
    destruct (given_duration (rs_newDuration data)); [discriminate | reflexivity].
  - apply markLessonCompleted_kept.
  - apply processBookingTimeouts_kept.
  - apply processPaymentReleases_kept.
Qed.

Ltac project_bookings :=
  cbn [bookings add_notification add_payment with_calendar with_bookingTimeouts
         add_paymentIntent add_refund add_walletTransaction with_instructors
         with_paymentReleaseQueue add_validation].

Lemma confirmBooking_length (auth : option uid) (id : option bookingId) (now : Z) (s : Store) :
  length (bookings (run (confirmBooking auth id now) s)) = length (bookings s).
Proof.
  unfold confirmBooking. destruct auth as [caller|]; [|reflexivity].
  destruct id as [id|]; [|reflexivity].
  unfold updatePaymentIntent, cancelTimeoutJob, sendNotification.
  unfold_monad. split_guards ltac:(reflexivity).
  project_bookings. rewrite update_booking_length. reflexivity.
Qed.

Lemma cancelBooking_length (auth : option uid) (data : BookingCancelRequest) (now : Z)
    (s : Store) :
  length (bookings (run (cancelBooking auth data now) s)) = length (bookings s).
Proof.
  unfold cancelBooking. destruct auth as [caller|]; [|reflexivity].
  destruct (cn_bookingId data) as [id|]; [|reflexivity].
  destruct (cn_userType data) as [userType|]; [|reflexivity].
  unfold processRefund, applyInstructorPenalty, sendNotification, release_slot, update_wallet.
  unfold_monad. split_guards ltac:(reflexivity).
  all: project_bookings; rewrite update_booking_length; reflexivity.
Qed.

Lemma rescheduleBooking_length
    (auth : option uid) (data : BookingRescheduleRequest) (now : Z) (s : Store) :
  length (bookings (run (rescheduleBooking auth data now) s)) = length (bookings s).
Proof.
  unfold rescheduleBooking. destruct auth as [caller|]; [|reflexivity].
  destruct (rs_bookingId data) as [id|]; [|reflexivity].
  destruct (rs_newDate data) as [d|]; [|reflexivity].
  unfold rescheduleBooking_transaction, chargeRescheduleFee, sendNotification,
    release_slot, reserve_slot.
  unfold_monad. split_guards ltac:(reflexivity).
  all: project_bookings; rewrite update_booking_length; reflexivity.
Qed.

Lemma markLessonCompleted_length
    (auth : option uid) (data : LessonCompletionRequest) (now : Z) (s : Store) :
  length (bookings (run (markLessonCompleted auth data now) s)) = length (bookings s).
Proof.
  unfold markLessonCompleted. destruct auth as [caller|]; [|reflexivity].
  destruct (lc_bookingId data) as [id|]; [|reflexivity].
  unfold triggerDetranValidation, chargeRemainingPayment, schedulePaymentRelease,
    sendNotification.
  unfold_monad. split_guards ltac:(reflexivity).
  all: project_bookings; rewrite update_booking_length; reflexivity.
Qed.

Lemma processBookingTimeouts_length (crash : option nat) (now : Z) (s : Store) :
  length (bookings (fst (processBookingTimeouts_upto crash now s))) = length (bookings s).
Proof.
  unfold processBookingTimeouts_upto.
  apply (run_loop_inv (fun s0 => length (bookings s0) = length (bookings s)));
    [|reflexivity].
  intros s0 ref t _. unfold timeout_writes.
  destruct (bookings s0 !! to_bookingId t) as [b|];
    [destruct (bool_decide (status b = PENDENTE)); simpl|];
    repeat first [apply List.Forall_nil | apply List.Forall_cons];
    intros s1 H1; try exact H1.
  unfold modify. cbn [fst]. rewrite update_booking_length. exact H1.
Qed.

Lemma processPaymentReleases_length (crash : option nat) (now : Z) (s : Store) :
  length (bookings (fst (processPaymentReleases_upto crash now s))) = length (bookings s).
Proof.
  unfold processPaymentReleases_upto.
  apply (run_loop_inv (fun s0 => length (bookings s0) = length (bookings s)));
    [|reflexivity].
  intros s0 ref r _. unfold release_writes.
  repeat first [apply List.Forall_nil | apply List.Forall_cons];
    intros s1 H1; try exact H1.
  rewrite credit_write.
  destruct (rel_instructorAmount r); [destruct (instructors s1 !! rel_instructorId r)|]; exact H1.
Qed.

Lemma kept_balanced (b b' : Booking) :
  booking_kept true b b' -> amounts_balanced b -> amounts_balanced b'.
Proof.
  intros [_ _ _ Hd Hr _ Hp] Hb. unfold amounts_balanced in *.
  rewrite Hd, Hr, Hp by reflexivity. exact Hb.
Qed.

Lemma all_balanced_kept (s s' : Store) :
  length (bookings s') = length (bookings s) ->
  bookings_kept true (bookings s) (bookings s') ->
  all_balanced s -> all_balanced s'.
Proof.
  intros Hlen Hk Hs id b' Hb'.
  assert (Hlt : (id < length (bookings s))%nat)
    by (rewrite <- Hlen; eapply lookup_lt_Some; eauto).
  apply lookup_lt_is_Some in Hlt as [b Hb].
  destruct (Hk id b Hb) as (b'' & Hb'' & K).
  rewrite Hb' in Hb''. injection Hb'' as <-.
  apply (kept_balanced b b' K). apply (Hs id b Hb).
Qed.

Lemma step_balanced (c : Call) (now : Z) (s : Store) :
  keeps_duration c = true -> all_balanced s -> all_balanced (step c now s).
Proof.
  intros Hc Hs.
  destruct c as [auth data|auth id|auth data|auth data|auth data| |].
  - simpl. destruct (createBooking_appends auth data now s) as [Heq | (b & Heq & Hb)];
      intros id x Hx; rewrite Heq in Hx.
    + apply (Hs id x Hx).
    + apply lookup_app_Some in Hx as [Hx | [_ Hx]]; [apply (Hs id x Hx)|].
      apply list_lookup_singleton_Some in Hx as [_ <-]. exact Hb.
  - apply (all_balanced_kept s); [apply confirmBooking_length | | exact Hs].
    apply (step_kept_duration (ConfirmBooking auth id) now s Hc).
  - apply (all_balanced_kept s); [apply cancelBooking_length | | exact Hs].
    apply (step_kept_duration (CancelBooking auth data) now s Hc).
  - apply (all_balanced_kept s); [apply rescheduleBooking_length | | exact Hs].
    apply (step_kept_duration (RescheduleBooking auth data) now s Hc).
  - apply (all_balanced_kept s); [apply markLessonCompleted_length | | exact Hs].
    apply (step_kept_duration (MarkLessonCompleted auth data) now s Hc).
  - apply (all_balanced_kept s); [apply processBookingTimeouts_length | | exact Hs].
    apply (step_kept_duration ProcessBookingTimeouts now s Hc).
  - apply (all_balanced_kept s); [apply processPaymentReleases_length | | exact Hs].
    apply (step_kept_duration ProcessPaymentReleases now s Hc).
Qed.

(** X10. In every state reached by calls among which no reschedule supplies a new
    duration, depositAmount + remainingAmount == price holds for every
    booking. *)
Theorem amounts_balanced_unless_duration_change
    (ins : gmap uid Instructor) (pupils : gmap uid Student) (cs : list (Call * Z)) :
  forallb (fun c => keeps_duration (fst c)) cs = true ->
  all_balanced (steps cs (initial ins pupils)).
Proof.
  intros Hcs.
  assert (Hinit : all_balanced (initial ins pupils)) by (intros id b H; discriminate H).
  revert Hinit. generalize (initial ins pupils) as s.
  induction cs as [|[c now] rest IH]; intros s Hs; simpl in *; [exact Hs|].
  apply andb_true_iff in Hcs as [Hc Hrest].
  apply IH; [exact Hrest|]. apply step_balanced; assumption.
Qed.

(** Were the price per hour stored on the booking, a reschedule with a new
    duration would still leave the parts adding up to the old price. *)
Lemma reschedule_split_follows_old_price
    (b : Booking) (newDate : Z) (n : Z) (count : Z) (fee : number) (pph p : Q) :
  n <> 0 ->
  pricePerHour b = Some (JS.Num pph) ->
  price b = JS.Num p ->
  amounts_balanced b ->
  let b' := apply_updates (reschedule_updates b newDate (Some n) count fee) b in
  JS.eq (price b') (JS.Num (pph * inject_Z n)) /\
  JS.eq (JS.add (depositAmount b') (remainingAmount b')) (JS.Num p) /\
  (~ (pph * inject_Z n == p)%Q -> ~ amounts_balanced b').
Proof.
  intros Hn Hpph Hp Hb b'. subst b'.
  unfold amounts_balanced in *.
  cbn [apply_updates reschedule_updates price depositAmount remainingAmount upd_price
         given_duration keep].
  replace (n =? 0) with false by (symmetry; apply Z.eqb_neq; exact Hn).
  cbn [keep]. rewrite Hpph. cbn [JS.to_number JS.mul JS.of_Z].
  rewrite Hp in Hb.
  split; [apply eq_Num_refl|]. split; [exact Hb|].
  intros Hne Hbal.
  destruct (JS.add (depositAmount b) (remainingAmount b)) as [x|]; [|contradiction].
  simpl in Hb, Hbal. apply Hne. rewrite <- Hbal. exact Hb.
Qed.


(** ** Reruns of the payment-release poller *)

Lemma queue_progress_refl (q : list ReleaseJob) : queue_progress q q.
Proof. intros i r H. exists r. auto. Qed.

Lemma queue_progress_trans (q1 q2 q3 : list ReleaseJob) :
  queue_progress q1 q2 -> queue_progress q2 q3 -> queue_progress q1 q3.
Proof.
  intros H1 H2 i r Hr. destruct (H1 i r Hr) as (r2 & Hr2 & S2 & P2).
  destruct (H2 i r2 Hr2) as (r3 & Hr3 & S3 & P3).
  exists r3. split; [exact Hr3|]. split; [congruence | auto].
Qed.

Lemma release_processed_progress (s s' : Store) (ref : nat) :
  queue_progress (paymentReleaseQueue s) (paymentReleaseQueue s') ->
  release_processed s ref -> release_processed s' ref.
Proof.
  intros H (r & Hr & Hp). destruct (H ref r Hr) as (r' & Hr' & _ & Hp').
  exists r'. auto.
Qed.

Lemma run_writes_no_crash (ws : list (M unit)) (s : Store) :
  snd (run_writes ws None s) = None.
Proof.
  revert s. induction ws as [|w ws IH]; intros s; simpl; [reflexivity|].
  destruct (w s) as [s' [u|c h]]; [apply IH | reflexivity].
Qed.

(** A run that reaches its end has marked every record of its snapshot. *)
Lemma release_loop_finished (docs : list (nat * ReleaseJob)) (s : Store) :
  Forall (fun d => exists r, paymentReleaseQueue s !! fst d = Some r) docs ->
  snd (run_loop release_writes docs None s) = Finished ->
  queue_progress (paymentReleaseQueue s)
    (paymentReleaseQueue (fst (run_loop release_writes docs None s))) /\
  Forall (fun d => release_processed (fst (run_loop release_writes docs None s)) (fst d)) docs.
Proof.
  revert s. induction docs as [|[ref d] rest IH]; intros s Hdocs Hfin.
  - split; [apply queue_progress_refl | constructor].
  - apply Forall_cons in Hdocs as [[r Hr] Hrest]. cbn [fst] in Hr.
    cbn [run_loop] in *.
    assert (Hq : forall s1, queue_progress (paymentReleaseQueue s) (paymentReleaseQueue s1) ->
                 Forall (fun d => exists r, paymentReleaseQueue s1 !! fst d = Some r) rest).
    { intros s1 Hp. eapply List.Forall_impl; [|exact Hrest].
      intros x [rx Hx]. destruct (Hp _ _ Hx) as (r' & Hr' & _). eauto. }
    pose proof (run_writes_no_crash (release_writes s ref d) s) as Hnone.
    destruct (run_writes (release_writes s ref d) None s) as [[s1 o] c1] eqn:Erun.
    cbn [snd] in Hnone. subst c1.
    destruct o; cbn [fst snd] in *; try discriminate.
    assert (H1 : queue_progress (paymentReleaseQueue s) (paymentReleaseQueue s1) /\
                 release_processed s1 ref).
    { revert Erun.
      unfold release_writes, sendNotification, mark_release_processed, modify.
      cbn [run_writes fmap option_fmap option_map]. rewrite credit_write.
      destruct (rel_instructorAmount d); [|intros H; discriminate H].
      destruct (instructors s !! rel_instructorId d) as [i|]; cbn [fst snd];
        [|intros H; discriminate H].
      intros [= <-].
      cbv beta iota delta [paymentReleaseQueue with_paymentReleaseQueue add_notification
                             add_walletTransaction with_instructors].
      fold (paymentReleaseQueue s). rewrite Hr.
      assert (Hlt : (ref < length (paymentReleaseQueue s))%nat)
        by (eapply lookup_lt_Some; eauto).
      split.
      - intros j x Hx. destruct (decide (ref = j)) as [<-|Hne].
        + eexists. split; [apply list_lookup_insert_eq; exact Hlt|].
          rewrite Hr in Hx. injection Hx as <-. split; reflexivity.
        + exists x. rewrite list_lookup_insert_ne by exact Hne. auto.
      - eexists. split; [apply list_lookup_insert_eq; exact Hlt | reflexivity]. }
    destruct H1 as [Hp1 Hm1].
    destruct (IH s1 (Hq s1 Hp1) Hfin) as [Hp2 Hm2].
    split; [eapply queue_progress_trans; eauto|].
    constructor; [|exact Hm2].
    cbn [fst]. eapply release_processed_progress; eauto.
Qed.

Lemma due_releases_unprocessed (now : Z) (s : Store) (i : nat) (r : ReleaseJob) :
  In (i, r) (due_releases now s) ->
  paymentReleaseQueue s !! i = Some r /\ rel_processed r = false.
Proof.
  unfold due_releases. intros Hin. apply In_snapshot in Hin as [Hy Hdue].
  cbn [snd] in Hdue. apply andb_true_iff in Hdue as [_ Hp].
  apply negb_true_iff in Hp. auto.
Qed.

(** A release run that reaches its end has marked every record it credited,
    and a marked record is in no later snapshot: the poller, run again,
    credits no record a second time. *)
Theorem release_rerun_credits_nothing_twice (now : Z) (s : Store) :
  snd (processPaymentReleases_upto None now s) = Finished ->
  forall (now2 : Z) (s2 : Store),
    queue_progress (paymentReleaseQueue (processPaymentReleases now s))
      (paymentReleaseQueue s2) ->
    forall (ref : nat) (r r2 : ReleaseJob),
      In (ref, r) (due_releases now s) -> ~ In (ref, r2) (due_releases now2 s2).
Proof.
  intros Hfin now2 s2 Hprog ref r r2 Hin Hin2.
  unfold processPaymentReleases, processPaymentReleases_upto in *.
  assert (Hdocs : Forall (fun d => exists r, paymentReleaseQueue s !! fst d = Some r)
                    (due_releases now s)).
  { apply List.Forall_forall. intros [i x] Hx.
    apply due_releases_unprocessed in Hx as [Hx _]. eauto. }
  destruct (release_loop_finished (due_releases now s) s Hdocs Hfin) as [_ Hmarked].
  rewrite List.Forall_forall in Hmarked. specialize (Hmarked (ref, r) Hin). cbn [fst] in Hmarked.
  pose proof (release_processed_progress _ s2 ref Hprog Hmarked) as (x & Hx & Hp).
  apply due_releases_unprocessed in Hin2 as [Hx2 Hp2]. congruence.
Qed.

(** In particular the run that follows a finished run at once finds none of
    its records. *)
Corollary release_rerun_skips_processed (now now2 : Z) (s : Store) :
  snd (processPaymentReleases_upto None now s) = Finished ->
  forall (ref : nat) (r r2 : ReleaseJob),
    In (ref, r) (due_releases now s) ->
    ~ In (ref, r2) (due_releases now2 (processPaymentReleases now s)).
Proof.
  intros Hfin. apply (release_rerun_credits_nothing_twice now s Hfin now2).
  apply queue_progress_refl.
Qed.

(** * Further properties of the code

    Properties read off the code itself: of the scheduling functions
    above, and of the functions embedded in the modules [Progress],
    [Wallet], [Validators] and [Search]. *)

Import Incidents.

(** ** Booking statuses only move forward *)

Lemma status_reaches_refl (a : BookingStatus) : status_reaches a a = true.
Proof. destruct a; reflexivity. Qed.

Lemma status_reaches_trans (a b c : BookingStatus) :
  status_reaches a b = true -> status_reaches b c = true -> status_reaches a c = true.
Proof. destruct a, b, c; simpl; congruence. Qed.

Lemma booking_forward_refl (b : Booking) : booking_forward b b.
Proof. constructor; [apply status_reaches_refl | reflexivity | reflexivity]. Qed.

Lemma bookings_forward_refl (l : list Booking) : bookings_forward l l.
Proof.
  split.
  - intros i b H. exists b. split; [exact H | apply booking_forward_refl].
  - intros i b H1 H2. congruence.
Qed.

Lemma bookings_forward_trans (l1 l2 l3 : list Booking) :
  bookings_forward l1 l2 -> bookings_forward l2 l3 -> bookings_forward l1 l3.
Proof.
  intros [H1 N1] [H2 N2]. split.
  - intros i b Hb. destruct (H1 i b Hb) as (b2 & Hb2 & [S1 F1 A1]).
    destruct (H2 i b2 Hb2) as (b3 & Hb3 & [S2 F2 A2]). exists b3. split; [exact Hb3|].
    constructor.
    + eapply status_reaches_trans; eauto.
    + intros Hc. rewrite (F1 Hc) in *. auto.
    + intros Hc. rewrite (A2 Hc). apply A1. intros Hc2. apply Hc.
      rewrite (F2 Hc2). exact Hc2.
  - intros i b3 Hb3 Hnone Hc.
    destruct (l2 !! i) as [b2|] eqn:E2.
    + destruct (H2 i b2 E2) as (b3' & Hb3' & [S2 F2 A2]).
      rewrite Hb3 in Hb3'. injection Hb3' as <-.
      rewrite (A2 Hc). apply (N1 i b2 E2 Hnone).
      intros Hc2. apply Hc. rewrite (F2 Hc2). exact Hc2.
    + apply (N2 i b3 Hb3 E2 Hc).
Qed.

Lemma bookings_forward_app (l : list Booking) (b : Booking) :
  actualDuration b = None -> bookings_forward l (l ++ [b]).
Proof.
  intros Hb. split.
  - intros i x H. exists x.
    split; [apply lookup_app_l_Some; exact H | apply booking_forward_refl].
  - intros i x Hx Hnone _. apply lookup_app_Some in Hx as [Hx | [_ Hx]]; [congruence|].
    apply list_lookup_singleton_Some in Hx as [_ <-]. exact Hb.
Qed.

Lemma bookings_forward_update (f : Booking -> Booking) (s : Store) (id : bookingId) (b : Booking) :
  bookings s !! id = Some b -> booking_forward b (f b) ->
  bookings_forward (bookings s) (bookings (update_booking id f s)).
Proof.
  intros Hb Hf. unfold update_booking, with_bookings. cbn [bookings]. rewrite Hb. split.
  - intros i x Hx. destruct (decide (id = i)) as [->|Hne].
    + exists (f b). split.
      * apply list_lookup_insert_eq. eapply lookup_lt_Some; eauto.
      * rewrite Hb in Hx. injection Hx as <-. exact Hf.
    + exists x. split; [rewrite list_lookup_insert_ne; auto | apply booking_forward_refl].
  - intros i x Hx Hnone. apply lookup_lt_Some in Hx. rewrite length_insert in Hx.
    apply lookup_ge_None in Hnone. lia.
Qed.

Lemma forward_set_status (v : BookingStatus) (b : Booking) :
  status_reaches (status b) v = true -> status b <> CONCLUIDA ->
  booking_forward b (set_status v b).
Proof. intros Hv Hc. constructor; [exact Hv | intros; contradiction | reflexivity]. Qed.

Lemma forward_set_cancellation (u : UserType) (r q : number) (b : Booking) :
  active b = true -> booking_forward b (set_cancellation u r q b).
Proof.
  unfold active. intros Ha. constructor.
  - cbn [status set_cancellation]. destruct (status b); try reflexivity; discriminate.
  - intros Hc. rewrite Hc in Ha. discriminate.
  - reflexivity.
Qed.

Lemma forward_apply_updates (u : RescheduleUpdates) (b : Booking) :
  active b = true -> booking_forward b (apply_updates u b).
Proof.
  unfold active. intros Ha. constructor.
  - cbn [status apply_updates]. apply status_reaches_refl.
  - intros Hc. rewrite Hc in Ha. discriminate.
  - reflexivity.
Qed.

Lemma forward_set_completion (a : Z) (b : Booking) :
  status b <> CONCLUIDA -> booking_forward b (set_completion a b).
Proof.
  intros Hc. constructor.
  - cbn [status set_completion]. destruct (status b); try reflexivity; congruence.
  - intros; contradiction.
  - cbn [status set_completion]. intros H. contradiction.
Qed.

Lemma createBooking_forward (auth : option uid) (data : BookingCreateRequest) (now : Z) (s : Store) :
  bookings_forward (bookings s) (bookings (run (createBooking auth data now) s)).
Proof.
  unfold createBooking. destruct auth as [caller|]; [|apply bookings_forward_refl].
  destruct (req_date data) as [d|]; [|apply bookings_forward_refl].
  unfold createBooking_transaction, processDepositPayment, scheduleAcceptanceTimeout,
    sendNotification, reserve_slot.
  unfold_monad.
  split_guards ltac:(apply bookings_forward_refl).
  cbn. apply bookings_forward_app. reflexivity.
Qed.

Lemma confirmBooking_forward (auth : option uid) (id : option bookingId) (now : Z) (s : Store) :
  bookings_forward (bookings s) (bookings (run (confirmBooking auth id now) s)).
Proof.
  unfold confirmBooking. destruct auth as [caller|]; [|apply bookings_forward_refl].
  destruct id as [id|]; [|apply bookings_forward_refl].
  unfold updatePaymentIntent, cancelTimeoutJob, sendNotification.
  unfold_monad. destruct (bookings s !! id) as [b|] eqn:E; [|apply bookings_forward_refl].
  split_guards ltac:(apply bookings_forward_refl).
  apply (bookings_forward_update (set_status CONFIRMADA) s id b E).
  match goal with H : negb (bool_decide (status b = PENDENTE)) = false |- _ =>
    apply negb_false_iff, bool_decide_eq_true in H;
    apply forward_set_status; rewrite H; [reflexivity | discriminate] end.
Qed.

Lemma cancelBooking_forward (auth : option uid) (data : BookingCancelRequest) (now : Z) (s : Store) :
  bookings_forward (bookings s) (bookings (run (cancelBooking auth data now) s)).
Proof.
  unfold cancelBooking. destruct auth as [caller|]; [|apply bookings_forward_refl].
  destruct (cn_bookingId data) as [id|]; [|apply bookings_forward_refl].
  destruct (cn_userType data) as [userType|]; [|apply bookings_forward_refl].
  unfold processRefund, applyInstructorPenalty, sendNotification, release_slot, update_wallet.
  unfold_monad. destruct (bookings s !! id) as [b|] eqn:E; [|apply bookings_forward_refl].
  split_guards ltac:(apply bookings_forward_refl).
  all: apply (bookings_forward_update _ s id b E).
  all: apply forward_set_cancellation.
  all: unfold active;
    repeat match goal with
           | H : bool_decide (status _ = _) = false |- _ => apply bool_decide_eq_false in H
           end;
    match goal with |- match status ?x with _ => _ end = true =>
      destruct (status x); try reflexivity; congruence end.
Qed.

Lemma rescheduleBooking_forward
    (auth : option uid) (data : BookingRescheduleRequest) (now : Z) (s : Store) :
  bookings_forward (bookings s) (bookings (run (rescheduleBooking auth data now) s)).
Proof.
  unfold rescheduleBooking. destruct auth as [caller|]; [|apply bookings_forward_refl].
  destruct (rs_bookingId data) as [id|]; [|apply bookings_forward_refl].
  destruct (rs_newDate data) as [d|]; [|apply bookings_forward_refl].
  unfold rescheduleBooking_transaction, chargeRescheduleFee, sendNotification,
    release_slot, reserve_slot.
  unfold_monad.
  split_guards ltac:(apply bookings_forward_refl).
  all: match goal with E : bookings _ !! _ = Some ?b |- _ =>
         eapply (bookings_forward_update _ _ _ b E) end.
  all: apply forward_apply_updates.
  all: match goal with H : negb (active _) = false |- _ =>
         apply negb_false_iff in H; exact H end.
Qed.

Lemma markLessonCompleted_forward
    (auth : option uid) (data : LessonCompletionRequest) (now : Z) (s : Store) :
  bookings_forward (bookings s) (bookings (run (markLessonCompleted auth data now) s)).
Proof.
  unfold markLessonCompleted. destruct auth as [caller|]; [|apply bookings_forward_refl].
  destruct (lc_bookingId data) as [id|]; [|apply bookings_forward_refl].
  unfold triggerDetranValidation, chargeRemainingPayment, schedulePaymentRelease,
    sendNotification.
  unfold_monad.
  split_guards ltac:(apply bookings_forward_refl).
  all: match goal with E : bookings _ !! _ = Some ?b |- _ =>
    apply (bookings_forward_update _ _ _ b E);
    apply forward_set_completion;
    match goal with H : bool_decide (status b = CONCLUIDA) = false |- _ =>
      apply bool_decide_eq_false in H; exact H end
  end.
Qed.

Lemma timeout_writes_forward (s0 : Store) (ref : nat) (t : TimeoutJob) (c : option nat) :
  bookings_forward (bookings s0)
    (bookings (fst (fst (run_writes (timeout_writes s0 ref t) c s0)))).
Proof.
  unfold timeout_writes.
  assert (Hmark : bookings_forward (bookings s0)
                    (bookings (fst (fst (run_writes [mark_timeout_processed ref] c s0)))))
    by (destruct c as [[|k]|]; simpl; apply bookings_forward_refl).
  destruct (bookings s0 !! to_bookingId t) as [b|] eqn:Eb; [|exact Hmark].
  destruct (bool_decide (status b = PENDENTE)) eqn:Ep; [|exact Hmark].
  apply bool_decide_eq_true in Ep.
  unfold processRefund, sendNotification, delete_slot, mark_timeout_processed, modify.
  destruct c as [[|[|[|[|[|k]]]]]|];
    cbn [app run_writes fst snd fmap option_fmap option_map Nat.pred]; project_bookings;
    first [ apply bookings_forward_refl
          | apply (bookings_forward_update _ s0 _ b Eb); apply forward_set_status;
            rewrite Ep; [reflexivity | discriminate] ].
Qed.

Lemma processBookingTimeouts_forward (crash : option nat) (now : Z) (s : Store) :
  bookings_forward (bookings s) (bookings (fst (processBookingTimeouts_upto crash now s))).
Proof.
  unfold processBookingTimeouts_upto.
  apply (run_loop_inv_handler (fun s0 => bookings_forward (bookings s) (bookings s0)));
    [|apply bookings_forward_refl].
  intros s0 ref t c H. eapply bookings_forward_trans; [exact H|].
  apply timeout_writes_forward.
Qed.

Lemma processPaymentReleases_bookings (crash : option nat) (now : Z) (s : Store) :
  bookings (fst (processPaymentReleases_upto crash now s)) = bookings s.
Proof.
  unfold processPaymentReleases_upto.
  apply (run_loop_inv (fun s0 => bookings s0 = bookings s)); [|reflexivity].
  intros s0 ref r _. unfold release_writes.
  repeat first [apply List.Forall_nil | apply List.Forall_cons];
    intros s1 H1; try exact H1.
  rewrite credit_write.
  destruct (rel_instructorAmount r); [destruct (instructors s1 !! rel_instructorId r)|]; exact H1.
Qed.

Lemma step_forward (c : Call) (now : Z) (s : Store) :
  bookings_forward (bookings s) (bookings (step c now s)).
Proof.
  destruct c; simpl.
  - apply createBooking_forward.
  - apply confirmBooking_forward.
  - apply cancelBooking_forward.
  - apply rescheduleBooking_forward.
  - apply markLessonCompleted_forward.
  - apply processBookingTimeouts_forward.
  - unfold processPaymentReleases. rewrite processPaymentReleases_bookings.
    apply bookings_forward_refl.
Qed.

Lemma steps_forward (cs : list (Call * Z)) (s : Store) :
  bookings_forward (bookings s) (bookings (steps cs s)).
Proof.
  revert s. induction cs as [|[c now] rest IH]; intros s; simpl.
  - apply bookings_forward_refl.
  - eapply bookings_forward_trans; [apply step_forward | apply IH].
Qed.

(** X9. Whatever calls follow, in whatever order and at whatever times, a
    booking document is never deleted, its status only moves along pendente
    -> confirmada -> cancelada -> concluida (skipping allowed, never back),
    and once it is concluida no call changes the document again. *)
Theorem booking_status_never_goes_back
    (cs : list (Call * Z)) (s : Store) (id : bookingId) (b : Booking) :
  bookings s !! id = Some b ->
  exists b' : Booking,
    bookings (steps cs s) !! id = Some b' /\
    status_reaches (status b) (status b') = true /\
    (active b = false -> active b' = false) /\
    (status b = CONCLUIDA -> b' = b).
Proof.
  intros Hb. destruct (proj1 (steps_forward cs s) id b Hb) as (b' & Hb' & [Hs Hf _]).
  exists b'. split; [exact Hb'|]. split; [exact Hs|]. split; [|exact Hf].
  unfold active. destruct (status b), (status b'); simpl in *; congruence.
Qed.


Lemma booking_status_never_goes_back_witness :
  exists b' : Booking,
    bookings (steps [(ConfirmBooking (Some inst) (Some 0%nat), hours 1);
                     (CancelBooking (Some ana) ana_cancels, hours 50)] completed) !! 0%nat
      = Some b' /\
    status b' = CONCLUIDA.
Proof.
  destruct (booking_status_never_goes_back
              [(ConfirmBooking (Some inst) (Some 0%nat), hours 1);
               (CancelBooking (Some ana) ana_cancels, hours 50)]
              completed 0%nat
              (set_completion 2 (set_status CONFIRMADA
                 (mkBooking ana inst (hours 100) 2 PENDENTE PAY_PENDENTE 0
                    (JS.Num 140) (JS.Num 28) (JS.Num 112) 0
                    None None None None None None None)))
              ltac:(vm_compute; reflexivity))
    as (b' & Hb' & _ & _ & Hfinal).
  exists b'. split; [exact Hb'|]. rewrite (Hfinal eq_refl). reflexivity.
Defined.

(** ** One payout per completed booking *)

Lemma same_payout_refl (r : ReleaseJob) : same_payout r r.
Proof. repeat split. Qed.

Lemma Forall2_same_payout_refl (q : list ReleaseJob) : Forall2 same_payout q q.
Proof. induction q; constructor; [apply same_payout_refl | assumption]. Qed.

Lemma payouts_sound_frame (s s' : Store) :
  bookings_forward (bookings s) (bookings s') ->
  Forall2 same_payout (paymentReleaseQueue s) (paymentReleaseQueue s') ->
  payouts_sound s -> payouts_sound s'.
Proof.
  intros Hfw Hq [H1 H2]. split.
  - intros i r' Hr'.
    destruct (Forall2_lookup_r _ _ _ _ _ Hq Hr') as (r & Hr & Hid & Hi & Ht & Hf & Ha).
    destruct (H1 i r Hr) as (b & Hb & Hc & [P1 P2 P3 P4]).
    destruct (proj1 Hfw _ _ Hb) as (b' & Hb' & [_ Hfinal _]). rewrite (Hfinal Hc) in Hb'.
    exists b. rewrite Hid. split; [exact Hb'|]. split; [exact Hc|].
    constructor; congruence.
  - intros i j r1' r2' Hr1 Hr2 Heq.
    destruct (Forall2_lookup_r _ _ _ _ _ Hq Hr1) as (r1 & Hq1 & Hid1 & _).
    destruct (Forall2_lookup_r _ _ _ _ _ Hq Hr2) as (r2 & Hq2 & Hid2 & _).
    apply (H2 i j r1 r2 Hq1 Hq2). congruence.
Qed.

Lemma createBooking_queue (auth : option uid) (data : BookingCreateRequest) (now : Z) (s : Store) :
  paymentReleaseQueue (run (createBooking auth data now) s) = paymentReleaseQueue s.
Proof.
  unfold createBooking. destruct auth as [caller|]; [|reflexivity].
  destruct (req_date data) as [d|]; [|reflexivity].
  unfold createBooking_transaction, processDepositPayment, scheduleAcceptanceTimeout,
    sendNotification, reserve_slot.
  unfold_monad. split_guards ltac:(reflexivity); reflexivity.
Qed.

Lemma confirmBooking_queue (auth : option uid) (id : option bookingId) (now : Z) (s : Store) :
  paymentReleaseQueue (run (confirmBooking auth id now) s) = paymentReleaseQueue s.
Proof.
  unfold confirmBooking. destruct auth as [caller|]; [|reflexivity].
  destruct id as [id|]; [|reflexivity].
  unfold updatePaymentIntent, cancelTimeoutJob, sendNotification.
  unfold_monad. split_guards ltac:(reflexivity); reflexivity.
Qed.

Lemma cancelBooking_queue (auth : option uid) (data : BookingCancelRequest) (now : Z) (s : Store) :
  paymentReleaseQueue (run (cancelBooking auth data now) s) = paymentReleaseQueue s.
Proof.
  unfold cancelBooking. destruct auth as [caller|]; [|reflexivity].
  destruct (cn_bookingId data) as [id|]; [|reflexivity].
  destruct (cn_userType data) as [userType|]; [|reflexivity].
  unfold processRefund, applyInstructorPenalty, sendNotification, release_slot, update_wallet.
  unfold_monad. split_guards ltac:(reflexivity); reflexivity.
Qed.

Lemma rescheduleBooking_queue
    (auth : option uid) (data : BookingRescheduleRequest) (now : Z) (s : Store) :
  paymentReleaseQueue (run (rescheduleBooking auth data now) s) = paymentReleaseQueue s.
Proof.
  unfold rescheduleBooking. destruct auth as [caller|]; [|reflexivity].
  destruct (rs_bookingId data) as [id|]; [|reflexivity].
  destruct (rs_newDate data) as [d|]; [|reflexivity].
  unfold rescheduleBooking_transaction, chargeRescheduleFee, sendNotification,
    release_slot, reserve_slot.
  unfold_monad. split_guards ltac:(reflexivity); reflexivity.
Qed.

Lemma processBookingTimeouts_queue (crash : option nat) (now : Z) (s : Store) :
  paymentReleaseQueue (fst (processBookingTimeouts_upto crash now s)) = paymentReleaseQueue s.
Proof.
  unfold processBookingTimeouts_upto.
  apply (run_loop_inv (fun s0 => paymentReleaseQueue s0 = paymentReleaseQueue s));
    [|reflexivity].
  intros s0 ref t _. unfold timeout_writes.
  destruct (bookings s0 !! to_bookingId t) as [b|];
    [destruct (bool_decide (status b = PENDENTE)); simpl|];
    repeat first [apply List.Forall_nil | apply List.Forall_cons];
    intros s1 H1; exact H1.
Qed.

Lemma processPaymentReleases_queue (crash : option nat) (now : Z) (s : Store) :
  Forall2 same_payout (paymentReleaseQueue s)
    (paymentReleaseQueue (fst (processPaymentReleases_upto crash now s))).
Proof.
  unfold processPaymentReleases_upto.
  apply (run_loop_inv
           (fun s0 => Forall2 same_payout (paymentReleaseQueue s) (paymentReleaseQueue s0)));
    [|apply Forall2_same_payout_refl].
  intros s0 ref r _. unfold release_writes.
  repeat first [apply List.Forall_nil | apply List.Forall_cons];
    intros s1 H1; try exact H1.
  - rewrite credit_write.
  destruct (rel_instructorAmount r); [destruct (instructors s1 !! rel_instructorId r)|]; exact H1.
  - unfold mark_release_processed, modify. cbn [fst paymentReleaseQueue with_paymentReleaseQueue].
    destruct (paymentReleaseQueue s1 !! ref) as [x|] eqn:Ex; [|exact H1].
    apply (Forall2_trans same_payout same_payout same_payout _ (paymentReleaseQueue s1));
      [|exact H1|].
    + unfold same_payout. intros a b c (A1 & A2 & A3 & A4 & A5) (B1 & B2 & B3 & B4 & B5).
      repeat split; congruence.
    + apply Forall2_same_length_lookup. split; [rewrite length_insert; reflexivity|].
      intros i a b Ha Hb. destruct (decide (ref = i)) as [<-|Hne].
      * rewrite list_lookup_insert_eq in Hb by (eapply lookup_lt_Some; eauto).
        injection Hb as <-. rewrite Ex in Ha. injection Ha as <-. repeat split.
      * rewrite list_lookup_insert_ne in Hb by exact Hne.
        rewrite Ha in Hb. injection Hb as <-. apply same_payout_refl.
Qed.

(** What a call of markLessonCompleted does to the bookings and to the
    payout queue. *)
Lemma markLessonCompleted_effect
    (auth : option uid) (data : LessonCompletionRequest) (now : Z) (s : Store) :
  let s' := run (markLessonCompleted auth data now) s in
  (bookings s' = bookings s /\ paymentReleaseQueue s' = paymentReleaseQueue s) \/
  exists (id : bookingId) (b : Booking),
    bookings s !! id = Some b /\ status b <> CONCLUIDA /\
    bookings s' = <[id := set_completion (lc_actualDuration data) b]> (bookings s) /\
    exists r : ReleaseJob,
      paymentReleaseQueue s' = paymentReleaseQueue s ++ [r] /\
      rel_bookingId r = id /\ payout_matches b r.
Proof.
  intros s'. subst s'.
  unfold markLessonCompleted. destruct auth as [caller|]; [|left; split; reflexivity].
  destruct (lc_bookingId data) as [id|]; [|left; split; reflexivity].
  unfold triggerDetranValidation, chargeRemainingPayment, schedulePaymentRelease,
    sendNotification.
  unfold_monad.
  split_guards ltac:(left; split; reflexivity).
  all: right.
  all: match goal with E : bookings _ !! _ = Some ?b |- _ =>
    exists id, b; split; [exact E|]; split;
      [match goal with H : bool_decide (status b = CONCLUIDA) = false |- _ =>
         apply bool_decide_eq_false in H; exact H end|];
      split; [project_bookings; apply bookings_update_booking; exact E|]
  end.
  all: eexists; split; [reflexivity|]; split; [reflexivity|].
  all: constructor;
    cbn [rel_instructorId rel_totalAmount rel_platformFee rel_instructorAmount];
    try reflexivity.
  all: match goal with H : negb (bool_decide (instructorId _ = _)) = false |- _ =>
    apply negb_false_iff, bool_decide_eq_true in H; symmetry; exact H end.
Qed.

Lemma markLessonCompleted_sound
    (auth : option uid) (data : LessonCompletionRequest) (now : Z) (s : Store) :
  payouts_sound s -> payouts_sound (run (markLessonCompleted auth data now) s).
Proof.
  intros Hs.
  destruct (markLessonCompleted_effect auth data now s)
    as [[Hb Hq] | (id & b & Hb & Hst & Hbs & r & Hq & Hid & Hm)].
  - apply (payouts_sound_frame s); [rewrite Hb; apply bookings_forward_refl | | exact Hs].
    rewrite Hq. apply Forall2_same_payout_refl.
  - destruct Hs as [H1 H2].
    assert (Hold : forall i x, paymentReleaseQueue s !! i = Some x -> rel_bookingId x <> id).
    { intros i x Hx Heq. destruct (H1 i x Hx) as (b0 & Hb0 & Hc & _).
      rewrite Heq, Hb in Hb0. injection Hb0 as <-. contradiction. }
    assert (Hlt : (id < length (bookings s))%nat) by (eapply lookup_lt_Some; eauto).
    split.
    + intros i x Hx. rewrite Hq in Hx. rewrite Hbs.
      apply lookup_app_Some in Hx as [Hx | [_ Hx]].
      * destruct (H1 i x Hx) as (b0 & Hb0 & Hc & Hm0). exists b0.
        rewrite list_lookup_insert_ne by (apply not_eq_sym; eapply Hold; eauto). auto.
      * apply list_lookup_singleton_Some in Hx as [_ <-]. rewrite Hid.
        exists (set_completion (lc_actualDuration data) b).
        split; [apply list_lookup_insert_eq; exact Hlt|]. split; [reflexivity|].
        destruct Hm as [M1 M2 M3 M4]. constructor; assumption.
    + intros i j x y Hx Hy Heq. rewrite Hq in Hx, Hy.
      apply lookup_app_Some in Hx as [Hx | [Hi Hx]];
        apply lookup_app_Some in Hy as [Hy | [Hj Hy]].
      * eapply H2; eauto.
      * apply list_lookup_singleton_Some in Hy as [_ <-].
        exfalso. apply (Hold i x Hx). congruence.
      * apply list_lookup_singleton_Some in Hx as [_ <-].
        exfalso. apply (Hold j y Hy). congruence.
      * apply list_lookup_singleton_Some in Hx as [Hx _].
        apply list_lookup_singleton_Some in Hy as [Hy _]. lia.
Qed.

Lemma step_payouts_sound (c : Call) (now : Z) (s : Store) :
  payouts_sound s -> payouts_sound (step c now s).
Proof.
  intros Hs. destruct c; cbn [step].
  - apply (payouts_sound_frame s); [apply createBooking_forward | | exact Hs].
    rewrite createBooking_queue. apply Forall2_same_payout_refl.
  - apply (payouts_sound_frame s); [apply confirmBooking_forward | | exact Hs].
    rewrite confirmBooking_queue. apply Forall2_same_payout_refl.
  - apply (payouts_sound_frame s); [apply cancelBooking_forward | | exact Hs].
    rewrite cancelBooking_queue. apply Forall2_same_payout_refl.
  - apply (payouts_sound_frame s); [apply rescheduleBooking_forward | | exact Hs].
    rewrite rescheduleBooking_queue. apply Forall2_same_payout_refl.
  - apply markLessonCompleted_sound. exact Hs.
  - apply (payouts_sound_frame s); [apply processBookingTimeouts_forward | | exact Hs].
    unfold processBookingTimeouts. rewrite processBookingTimeouts_queue.
    apply Forall2_same_payout_refl.
  - apply (payouts_sound_frame s); [| apply processPaymentReleases_queue | exact Hs].
    unfold processPaymentReleases. rewrite processPaymentReleases_bookings.
    apply bookings_forward_refl.
Qed.

(** X11. In every state reached from an empty database, whatever the calls,
    every payout record in the release queue belongs to a booking that is
    concluida, names that booking's instructor, carries its price as total,
    Math.round(0.15 x price) as platform fee and the difference as the
    instructor's amount, and no booking has more than one payout record. *)
Theorem one_payout_per_completed_booking
    (ins : gmap uid Instructor) (pupils : gmap uid Student) (cs : list (Call * Z)) :
  payouts_sound (steps cs (initial ins pupils)).
Proof.
  assert (Hinit : payouts_sound (initial ins pupils)).
  { split; intros i; intros; cbn in *; discriminate. }
  revert Hinit. generalize (initial ins pupils) as s.
  induction cs as [|[c now] rest IH]; intros s Hs; simpl; [exact Hs|].
  apply IH. apply step_payouts_sound. exact Hs.
Qed.

(** ** Validation tasks of completed bookings *)

Lemma validations_sound_frame (s s' : Store) :
  bookings_forward (bookings s) (bookings s') ->
  detranValidationQueue s' = detranValidationQueue s ->
  validations_sound s -> validations_sound s'.
Proof.
  intros [Hfw Hnew] Hq (H1 & H2 & H3). unfold validations_sound. rewrite Hq. split; [|split].
  - intros id b' Hb' Hc.
    destruct (bookings s !! id) as [b|] eqn:Eb.
    + destruct (Hfw id b Eb) as (b2 & Hb2 & [S F A]).
      rewrite Hb' in Hb2. injection Hb2 as <-. rewrite (A Hc). apply (H1 id b Eb).
      intros Hc2. apply Hc. rewrite (F Hc2). exact Hc2.
    + apply (Hnew id b' Hb' Eb Hc).
  - intros i t Ht. destruct (H2 i t Ht) as (b & Hb & Hc & Hd).
    destruct (Hfw _ _ Hb) as (b' & Hb' & [_ F _]). rewrite (F Hc) in Hb'.
    exists b. auto.
  - exact H3.
Qed.

Lemma createBooking_validations (auth : option uid) (data : BookingCreateRequest) (now : Z)
    (s : Store) :
  detranValidationQueue (run (createBooking auth data now) s) = detranValidationQueue s.
Proof.
  unfold createBooking. destruct auth as [caller|]; [|reflexivity].
  destruct (req_date data) as [d|]; [|reflexivity].
  unfold createBooking_transaction, processDepositPayment, scheduleAcceptanceTimeout,
    sendNotification, reserve_slot.
  unfold_monad. split_guards ltac:(reflexivity); reflexivity.
Qed.

Lemma confirmBooking_validations (auth : option uid) (id : option bookingId) (now : Z)
    (s : Store) :
  detranValidationQueue (run (confirmBooking auth id now) s) = detranValidationQueue s.
Proof.
  unfold confirmBooking. destruct auth as [caller|]; [|reflexivity].
  destruct id as [id|]; [|reflexivity].
  unfold updatePaymentIntent, cancelTimeoutJob, sendNotification.
  unfold_monad. split_guards ltac:(reflexivity); reflexivity.
Qed.

Lemma cancelBooking_validations (auth : option uid) (data : BookingCancelRequest) (now : Z)
    (s : Store) :
  detranValidationQueue (run (cancelBooking auth data now) s) = detranValidationQueue s.
Proof.
  unfold cancelBooking. destruct auth as [caller|]; [|reflexivity].
  destruct (cn_bookingId data) as [id|]; [|reflexivity].
  destruct (cn_userType data) as [userType|]; [|reflexivity].
  unfold processRefund, applyInstructorPenalty, sendNotification, release_slot, update_wallet.
  unfold_monad. split_guards ltac:(reflexivity); reflexivity.
Qed.

Lemma rescheduleBooking_validations
    (auth : option uid) (data : BookingRescheduleRequest) (now : Z) (s : Store) :
  detranValidationQueue (run (rescheduleBooking auth data now) s) = detranValidationQueue s.
Proof.
  unfold rescheduleBooking. destruct auth as [caller|]; [|reflexivity].
  destruct (rs_bookingId data) as [id|]; [|reflexivity].
  destruct (rs_newDate data) as [d|]; [|reflexivity].
  unfold rescheduleBooking_transaction, chargeRescheduleFee, sendNotification,
    release_slot, reserve_slot.
  unfold_monad. split_guards ltac:(reflexivity); reflexivity.
Qed.

Lemma processBookingTimeouts_validations (crash : option nat) (now : Z) (s : Store) :
  detranValidationQueue (fst (processBookingTimeouts_upto crash now s))
  = detranValidationQueue s.
Proof.
  unfold processBookingTimeouts_upto.
  apply (run_loop_inv (fun s0 => detranValidationQueue s0 = detranValidationQueue s));
    [|reflexivity].
  intros s0 ref t _. unfold timeout_writes.
  destruct (bookings s0 !! to_bookingId t) as [b|];
    [destruct (bool_decide (status b = PENDENTE)); simpl|];
    repeat first [apply List.Forall_nil | apply List.Forall_cons];
    intros s1 H1; exact H1.
Qed.

Lemma processPaymentReleases_validations (crash : option nat) (now : Z) (s : Store) :
  detranValidationQueue (fst (processPaymentReleases_upto crash now s))
  = detranValidationQueue s.
Proof.
  unfold processPaymentReleases_upto.
  apply (run_loop_inv (fun s0 => detranValidationQueue s0 = detranValidationQueue s));
    [|reflexivity].
  intros s0 ref r _. unfold release_writes.
  repeat first [apply List.Forall_nil | apply List.Forall_cons];
    intros s1 H1; try exact H1.
  rewrite credit_write.
  destruct (rel_instructorAmount r); [destruct (instructors s1 !! rel_instructorId r)|]; exact H1.
Qed.

Lemma markLessonCompleted_validations
    (auth : option uid) (data : LessonCompletionRequest) (now : Z) (s : Store) :
  let s' := run (markLessonCompleted auth data now) s in
  detranValidationQueue s' = detranValidationQueue s \/
  exists (id : bookingId) (b : Booking),
    bookings s !! id = Some b /\ status b <> CONCLUIDA /\
    detranValidationQueue s'
      = detranValidationQueue s
        ++ [mkValidation id
              (match actualDuration b with
               | Some a => if a =? 0 then duration b else a
               | None => duration b
               end) VS_PENDING 0] /\
    bookings s' !! id = Some (set_completion (lc_actualDuration data) b).
Proof.
  intros s'. subst s'.
  unfold markLessonCompleted. destruct auth as [caller|]; [|left; reflexivity].
  destruct (lc_bookingId data) as [id|]; [|left; reflexivity].
  unfold triggerDetranValidation, chargeRemainingPayment, schedulePaymentRelease,
    sendNotification.
  unfold_monad.
  split_guards ltac:(left; reflexivity).
  right.
  match goal with E : bookings _ !! _ = Some ?b |- _ =>
    exists id, b; split; [exact E|]; split;
      [match goal with H : bool_decide (status b = CONCLUIDA) = false |- _ =>
         apply bool_decide_eq_false in H; exact H end|];
      split; [reflexivity|];
      project_bookings; apply lookup_update_booking_eq; exact E
  end.
Qed.

Lemma step_validations_sound (c : Call) (now : Z) (s : Store) :
  validations_sound s -> validations_sound (step c now s).
Proof.
  intros Hs. destruct c; cbn [step].
  - apply (validations_sound_frame s);
      [apply createBooking_forward | apply createBooking_validations | exact Hs].
  - apply (validations_sound_frame s);
      [apply confirmBooking_forward | apply confirmBooking_validations | exact Hs].
  - apply (validations_sound_frame s);
      [apply cancelBooking_forward | apply cancelBooking_validations | exact Hs].
  - apply (validations_sound_frame s);
      [apply rescheduleBooking_forward | apply rescheduleBooking_validations | exact Hs].
  - pose proof (markLessonCompleted_forward auth data now s) as Hfw.
    destruct (markLessonCompleted_validations auth data now s)
      as [Hq | (id & b & Hb & Hst & Hq & Hb')].
    + apply (validations_sound_frame s); assumption.
    + destruct Hs as (H1 & H2 & H3). destruct Hfw as [Hfw Hnew].
      assert (Hold : forall i t, detranValidationQueue s !! i = Some t -> vt_bookingId t <> id).
      { intros i t Ht Heq. destruct (H2 i t Ht) as (b0 & Hb0 & Hc & _).
        rewrite Heq, Hb in Hb0. injection Hb0 as <-. contradiction. }
      split; [|split].
      * intros j x Hx Hc.
        destruct (bookings s !! j) as [b0|] eqn:E0.
        -- destruct (Hfw j b0 E0) as (b2 & Hb2 & [S F A]).
           rewrite Hx in Hb2. injection Hb2 as <-. rewrite (A Hc). apply (H1 j b0 E0).
           intros Hc2. apply Hc. rewrite (F Hc2). exact Hc2.
        -- apply (Hnew j x Hx E0 Hc).
      * intros i t Ht. rewrite Hq in Ht.
        apply lookup_app_Some in Ht as [Ht | [_ Ht]].
        -- destruct (H2 i t Ht) as (b0 & Hb0 & Hc & Hd).
           destruct (Hfw _ _ Hb0) as (b1 & Hb1 & [_ F _]). rewrite (F Hc) in Hb1.
           exists b0. auto.
        -- apply list_lookup_singleton_Some in Ht as [_ <-].
           cbn [vt_bookingId vt_duracao_horas vt_status vt_attempts].
           exists (set_completion (lc_actualDuration data) b).
           split; [exact Hb'|]. split; [reflexivity|].
           rewrite (H1 id b Hb Hst). repeat split.
      * intros i j x y Hx Hy Heq. rewrite Hq in Hx, Hy.
        apply lookup_app_Some in Hx as [Hx | [Hi Hx]];
          apply lookup_app_Some in Hy as [Hy | [Hj Hy]].
        -- eapply H3; eauto.
        -- apply list_lookup_singleton_Some in Hy as [_ <-].
           exfalso. apply (Hold i x Hx). exact Heq.
        -- apply list_lookup_singleton_Some in Hx as [_ <-].
           exfalso. apply (Hold j y Hy). symmetry. exact Heq.
        -- apply list_lookup_singleton_Some in Hx as [Hx _].
           apply list_lookup_singleton_Some in Hy as [Hy _]. lia.
  - apply (validations_sound_frame s);
      [apply processBookingTimeouts_forward | apply processBookingTimeouts_validations
      | exact Hs].
  - apply (validations_sound_frame s); [| apply processPaymentReleases_validations | exact Hs].
    unfold processPaymentReleases. rewrite processPaymentReleases_bookings.
    apply bookings_forward_refl.
Qed.

(** X12. In every state reached from an empty database, whatever the calls,
    only a booking that is concluida carries an actual duration; every
    validation task queued for the licensing authority belongs to a
    concluida booking, is pending with no attempt made, and carries the
    duration the booking was booked for (the duration the instructor
    reports on completion is stored on the booking but is not what the task
    carries); and no booking has two validation tasks. *)
Theorem validation_task_carries_booked_duration
    (ins : gmap uid Instructor) (pupils : gmap uid Student) (cs : list (Call * Z)) :
  validations_sound (steps cs (initial ins pupils)).
Proof.
  assert (Hinit : validations_sound (initial ins pupils)).
  { split; [|split]; intros i; intros; cbn in *; discriminate. }
  revert Hinit. generalize (initial ins pupils) as s.
  induction cs as [|[c now] rest IH]; intros s Hs; simpl; [exact Hs|].
  apply IH. apply step_validations_sound. exact Hs.
Qed.

(** ** Rejected calls *)

Lemma confirmBooking_error_unchanged
    (auth : option uid) (id : option bookingId) (now : Z) (s : Store) :
  succeeds (result (confirmBooking auth id now) s) = false ->
  run (confirmBooking auth id now) s = s.
Proof.
  unfold confirmBooking. destruct auth as [caller|]; [|reflexivity].
  destruct id as [id|]; [|reflexivity].
  unfold updatePaymentIntent, cancelTimeoutJob, sendNotification.
  unfold_monad. split_guards ltac:(reflexivity). cbn. discriminate.
Qed.

Lemma rescheduleBooking_error_unchanged
    (auth : option uid) (data : BookingRescheduleRequest) (now : Z) (s : Store) :
  succeeds (result (rescheduleBooking auth data now) s) = false ->
  run (rescheduleBooking auth data now) s = s.
Proof.
  unfold rescheduleBooking. destruct auth as [caller|]; [|reflexivity].
  destruct (rs_bookingId data) as [id|]; [|reflexivity].
  destruct (rs_newDate data) as [d|]; [|reflexivity].
  unfold rescheduleBooking_transaction, chargeRescheduleFee, sendNotification,
    release_slot, reserve_slot.
  unfold_monad. split_guards ltac:(reflexivity). all: cbn; discriminate.
Qed.

Lemma markLessonCompleted_error_unchanged
    (auth : option uid) (data : LessonCompletionRequest) (now : Z) (s : Store) :
  succeeds (result (markLessonCompleted auth data now) s) = false ->
  run (markLessonCompleted auth data now) s = s.
Proof.
  unfold markLessonCompleted. destruct auth as [caller|]; [|reflexivity].
  destruct (lc_bookingId data) as [id|]; [|reflexivity].
  unfold triggerDetranValidation, chargeRemainingPayment, schedulePaymentRelease,
    sendNotification.
  unfold_monad. split_guards ltac:(reflexivity). all: cbn; discriminate.
Qed.

Lemma cancelBooking_rejection_unchanged
    (auth : option uid) (data : BookingCancelRequest) (now : Z) (s : Store)
    (code : ErrorCode) (h : Z) :
  result (cancelBooking auth data now) s = Err code h -> h <> 500 ->
  run (cancelBooking auth data now) s = s.
Proof.
  unfold cancelBooking. destruct auth as [caller|]; [reflexivity||idtac|reflexivity].
  destruct (cn_bookingId data) as [id|]; [|reflexivity].
  destruct (cn_userType data) as [userType|]; [|reflexivity].
  unfold processRefund, applyInstructorPenalty, sendNotification, release_slot, update_wallet.
  unfold_monad.
  split_guards ltac:(first [reflexivity
                           | intros H1 H2; injection H1 as _ <-; contradiction
                           | intros H1; discriminate H1]).
Qed.

(** ** Complete runs of the timeout poller *)

Lemma timeout_writes_finish (s : Store) (ref : nat) (t : TimeoutJob) :
  run_writes (timeout_writes s ref t) None s = (after_timeout s ref t, Finished, None).
Proof.
  unfold after_timeout, timeout_writes.
  destruct (bookings s !! to_bookingId t) as [b|]; [|reflexivity].
  destruct (bool_decide (status b = PENDENTE)); reflexivity.
Qed.

Lemma timeouts_loop_finishes (docs : list (nat * TimeoutJob)) (s : Store) :
  snd (run_loop timeout_writes docs None s) = Finished.
Proof.
  revert s. induction docs as [|[ref t] rest IH]; intros s; [reflexivity|].
  cbn [run_loop]. rewrite timeout_writes_finish. apply IH.
Qed.

Lemma timeouts_loop_cons (ref : nat) (t : TimeoutJob) (rest : list (nat * TimeoutJob))
    (s : Store) :
  fst (run_loop timeout_writes ((ref, t) :: rest) None s)
  = fst (run_loop timeout_writes rest None (after_timeout s ref t)).
Proof. cbn [run_loop]. rewrite timeout_writes_finish. reflexivity. Qed.

Lemma after_timeout_self (s0 s : Store) (ref : nat) (t : TimeoutJob) (b : Booking) :
  status b = PENDENTE ->
  (untouched s0 s (to_bookingId t) b \/ timed_out s0 s (to_bookingId t) b) ->
  timed_out s0 (after_timeout s ref t) (to_bookingId t) b.
Proof.
  intros Hp [[Hb Hr] | (Hb & Hr & Hc)]; unfold after_timeout, timeout_writes; rewrite Hb.
  - rewrite bool_decide_eq_true_2 by exact Hp.
    unfold processRefund, sendNotification, delete_slot, mark_timeout_processed, modify.
    cbn [app run_writes fst snd fmap option_fmap option_map Nat.pred].
    split; [|split].
    + project_bookings. apply lookup_update_booking_eq. exact Hb.
    + change (refunds_of (add_refund (mkRefund (to_bookingId t) (depositAmount b) "timeout") s)
                (to_bookingId t)
              = refunds_of s0 (to_bookingId t)
                ++ [mkRefund (to_bookingId t) (depositAmount b) "timeout"]).
      rewrite refunds_of_add_same by reflexivity. rewrite Hr. reflexivity.
    + cbn [calendar add_notification add_refund with_calendar with_bookingTimeouts].
      change (calendar (update_booking (to_bookingId t) (set_status CANCELADA) s))
        with (calendar s).
      apply lookup_delete_eq.
  - cbn [set_status status]. rewrite bool_decide_eq_false_2 by discriminate.
    cbn [app run_writes fst snd]. unfold mark_timeout_processed, modify. cbn [fst].
    split; [exact Hb|]. split; [exact Hr | exact Hc].
Qed.

Lemma after_timeout_other (s0 s : Store) (ref : nat) (t : TimeoutJob) (id : bookingId)
    (b : Booking) :
  to_bookingId t <> id ->
  (untouched s0 s id b -> untouched s0 (after_timeout s ref t) id b) /\
  (timed_out s0 s id b -> timed_out s0 (after_timeout s ref t) id b).
Proof.
  intros Hne.
  assert (Hview : timeout_view (after_timeout s ref t) id = timeout_view s id).
  { unfold after_timeout.
    apply (run_writes_inv (fun s1 => timeout_view s1 id = timeout_view s id)); [|reflexivity].
    eapply List.Forall_impl; [|apply (timeout_writes_other s ref t id Hne)].
    intros w Hw s1 H1. rewrite Hw. exact H1. }
  unfold timeout_view in Hview. injection Hview as Hb Hr _.
  split.
  - intros [H1 H2]. split; congruence.
  - intros (H1 & H2 & H3). split; [congruence|]. split; [congruence|].
    unfold after_timeout, timeout_writes.
    destruct (bookings s !! to_bookingId t) as [bt|]; [|exact H3].
    destruct (bool_decide (status bt = PENDENTE)); [|exact H3].
    unfold processRefund, sendNotification, delete_slot, mark_timeout_processed, modify.
    cbn [app run_writes fst snd fmap option_fmap option_map Nat.pred calendar
           add_notification add_refund with_calendar with_bookingTimeouts].
    change (calendar (update_booking (to_bookingId t) (set_status CANCELADA) s))
      with (calendar s).
    destruct (decide ((instructorId bt, formatDateKey (date bt)) = slot_key b)) as [->|Hk].
    + apply lookup_delete_eq.
    + rewrite lookup_delete_ne by exact Hk. exact H3.
Qed.

Lemma after_timeout_marks (s : Store) (ref : nat) (t : TimeoutJob) (j : nat) (x : TimeoutJob) :
  bookingTimeouts s !! j = Some x ->
  exists x', bookingTimeouts (after_timeout s ref t) !! j = Some x' /\
             (to_processed x = true \/ j = ref -> to_processed x' = true).
Proof.
  intros Hx.
  assert (Hmark : forall s1, bookingTimeouts s1 = bookingTimeouts s ->
            exists x', bookingTimeouts (fst (mark_timeout_processed ref s1)) !! j = Some x' /\
                       (to_processed x = true \/ j = ref -> to_processed x' = true)).
  { intros s1 H1. unfold mark_timeout_processed, modify.
    cbn [fst bookingTimeouts with_bookingTimeouts]. rewrite H1.
    destruct (bookingTimeouts s !! ref) as [y|] eqn:Ey.
    - destruct (decide (ref = j)) as [<-|Hne].
      + eexists. split; [apply list_lookup_insert_eq; eapply lookup_lt_Some; eauto|].
        reflexivity.
      + exists x. split; [rewrite list_lookup_insert_ne by exact Hne; exact Hx|].
        intros [H|H]; [exact H | congruence].
    - exists x. split; [exact Hx|]. intros [H|H]; [exact H | congruence]. }
  unfold after_timeout, timeout_writes.
  destruct (bookings s !! to_bookingId t) as [b|];
    [destruct (bool_decide (status b = PENDENTE))|];
    cbn [app run_writes fst snd fmap option_fmap option_map Nat.pred];
    unfold processRefund, sendNotification, delete_slot, modify; cbn [fst];
    apply Hmark; reflexivity.
Qed.

Lemma timeouts_loop_settles (docs : list (nat * TimeoutJob)) (s0 s : Store)
    (id : bookingId) (b : Booking) (j : nat) (x : TimeoutJob) :
  status b = PENDENTE ->
  bookingTimeouts s !! j = Some x ->
  untouched s0 s id b \/ timed_out s0 s id b ->
  let s' := fst (run_loop timeout_writes docs None s) in
  (untouched s0 s' id b \/ timed_out s0 s' id b) /\
  (timed_out s0 s id b -> timed_out s0 s' id b) /\
  (forall t, In (j, t) docs -> to_bookingId t = id -> timed_out s0 s' id b) /\
  exists x', bookingTimeouts s' !! j = Some x' /\
             (to_processed x = true \/ (exists t, In (j, t) docs) -> to_processed x' = true).
Proof.
  intros Hp. revert s x. induction docs as [|[ref t] rest IH]; intros s x Hx Hst s'.
  - subst s'. cbn [run_loop fst]. split; [exact Hst|]. split; [auto|].
    split; [intros t []|]. exists x. split; [exact Hx|].
    intros [H|[t []]]. exact H.
  - subst s'. rewrite timeouts_loop_cons.
    destruct (after_timeout_marks s ref t j x Hx) as (x1 & Hx1 & Hm1).
    assert (Hst1 : (untouched s0 (after_timeout s ref t) id b
                    \/ timed_out s0 (after_timeout s ref t) id b) /\
                   (timed_out s0 s id b -> timed_out s0 (after_timeout s ref t) id b) /\
                   (to_bookingId t = id -> timed_out s0 (after_timeout s ref t) id b)).
    { destruct (decide (to_bookingId t = id)) as [<-|Hne].
      - pose proof (after_timeout_self s0 s ref t b Hp Hst) as H. auto.
      - destruct (after_timeout_other s0 s ref t id b Hne) as [HA HB].
        split; [destruct Hst; auto|]. split; [exact HB|]. intros; contradiction. }
    destruct Hst1 as (Hst1 & Hkeep1 & Hself1).
    destruct (IH (after_timeout s ref t) x1 Hx1 Hst1) as (I1 & I2 & I3 & x' & Hx' & Hm').
    split; [exact I1|]. split; [auto|]. split.
    + intros t' [Heq|Hin] Hid; [|eapply I3; eauto].
      injection Heq as <- <-. auto.
    + exists x'. split; [exact Hx'|].
      intros [H|[t' [Heq|Hin]]]; apply Hm'.
      * left. apply Hm1. left. exact H.
      * injection Heq as <- <-. left. apply Hm1. right. reflexivity.
      * right. eauto.
Qed.

Lemma due_timeouts_lookup (now : Z) (s : Store) (i : nat) (t : TimeoutJob) :
  In (i, t) (due_timeouts now s) ->
  bookingTimeouts s !! i = Some t /\ to_scheduledFor t <= now /\ to_processed t = false.
Proof.
  unfold due_timeouts. intros Hin. apply In_snapshot in Hin as [Hy Hdue].
  cbn [snd] in Hdue. apply andb_true_iff in Hdue as [Hd Hp].
  apply negb_true_iff in Hp. apply Z.leb_le in Hd. auto.
Qed.

(** X14. A run of the acceptance-timeout poller that reaches its end has, for
    every record of its snapshot whose booking was still pendente, cancelled
    the booking, deleted its calendar slot, recorded exactly one refund of
    the deposit with reason "timeout", and marked the record processed. *)
Theorem timeout_run_cancels_pending
    (now : Z) (s : Store) (ref : nat) (t : TimeoutJob) (b : Booking) :
  In (ref, t) (due_timeouts now s) ->
  bookings s !! to_bookingId t = Some b ->
  status b = PENDENTE ->
  let s' := processBookingTimeouts now s in
  snd (processBookingTimeouts_upto None now s) = Finished /\
  bookings s' !! to_bookingId t = Some (set_status CANCELADA b) /\
  refunds_of s' (to_bookingId t)
    = refunds_of s (to_bookingId t) ++ [mkRefund (to_bookingId t) (depositAmount b) "timeout"] /\
  calendar s' !! slot_key b = None /\
  exists t' : TimeoutJob, bookingTimeouts s' !! ref = Some t' /\ to_processed t' = true.
Proof.
  intros Hin Hb Hp s'. subst s'.
  unfold processBookingTimeouts, processBookingTimeouts_upto.
  split; [apply timeouts_loop_finishes|].
  destruct (due_timeouts_lookup now s ref t Hin) as (Ht & _ & _).
  destruct (timeouts_loop_settles (due_timeouts now s) s s (to_bookingId t) b ref t Hp Ht)
    as (_ & _ & Hfire & t' & Ht' & Hm).
  { left. split; [exact Hb | reflexivity]. }
  destruct (Hfire t Hin eq_refl) as (H1 & H2 & H3).
  split; [exact H1|]. split; [exact H2|]. split; [exact H3|].
  exists t'. split; [exact Ht'|]. apply Hm. right. eauto.
Qed.

(** ** A release that cannot be credited *)

Lemma sublist_List_filter {A} (f : A -> bool) (l : list A) : sublist (List.filter f l) l.
Proof.
  induction l as [|x l IH]; simpl; [constructor|].
  destruct (f x); [apply sublist_skip | apply sublist_cons]; exact IH.
Qed.

Lemma NoDup_indexed {A} (key : A -> Z) (f : nat * A -> bool) (n : nat) (l : list A) :
  NoDup (fst <$> take n (order_by key (List.filter f (imap pair l)))).
Proof.
  apply (sublist_NoDup _ (fst <$> order_by key (List.filter f (imap pair l))));
    [|apply fmap_sublist, sublist_take].
  rewrite order_by_Permutation.
  apply (sublist_NoDup _ (fst <$> imap pair l)).
  - rewrite fmap_imap.
    rewrite (imap_ext _ (fun j _ => j) l) by reflexivity.
    rewrite (imap_seq_0 l (fun j => j)). rewrite list_fmap_id. apply NoDup_seq.
  - apply fmap_sublist. apply sublist_List_filter.
Qed.





(** ** Credits of a release run *)

Lemma release_loop_credits (docs : list (nat * ReleaseJob)) (s : Store) :
  Forall (creditable s) docs ->
  let out := run_loop release_writes docs None s in
  snd out = Finished /\
  walletTransactions (fst out) = walletTransactions s ++ map credit_transaction docs /\
  (forall k, instructors (fst out) !! k = credit_all k docs <$> instructors s !! k) /\
  bookings (fst out) = bookings s /\ refunds (fst out) = refunds s.
Proof.
  revert s. induction docs as [|[ref r] rest IH]; intros s Hdocs out; subst out.
  - cbn [run_loop fst snd map credit_all foldl]. rewrite app_nil_r.
    split; [reflexivity|]. split; [reflexivity|]. split; [|split; reflexivity].
    intros k. destruct (instructors s !! k); reflexivity.
  - apply Forall_cons in Hdocs as [[[i Hi] [q Hq]] Hrest]. cbn [snd] in Hi, Hq.
    set (s1 := with_paymentReleaseQueue
                 (fun l => match l !! ref with
                           | Some x =>
                               <[ref := mkRelease (rel_bookingId x) (rel_instructorId x)
                                          (rel_totalAmount x) (rel_platformFee x)
                                          (rel_instructorAmount x) (rel_scheduledFor x) true]> l
                           | None => l
                           end)
                 (add_notification
                    (mkNotification (rel_instructorId r) "payment_released" (rel_bookingId r))
                    (add_walletTransaction
                       (mkWalletTx (rel_instructorId r) TX_CREDIT (rel_instructorAmount r)
                          (rel_bookingId r))
                       (with_instructors
                          (fun m => <[rel_instructorId r := credit (rel_instructorAmount r) i]> m)
                          s)))).
    assert (Hstep : run_loop release_writes ((ref, r) :: rest) None s
                    = run_loop release_writes rest None s1).
    { cbn [run_loop]. unfold release_writes at 1.
      unfold sendNotification, mark_release_processed, modify.
      cbn [run_writes fmap option_fmap option_map].
      rewrite credit_write, Hi. subst s1. rewrite Hq. reflexivity. }
    rewrite Hstep.
    assert (Hins1 : forall k, instructors s1 !! k
                     = (fun a => if bool_decide (rel_instructorId r = k)
                                 then credit (rel_instructorAmount r) a else a)
                         <$> instructors s !! k).
    { intros k. subst s1.
      cbn [instructors with_paymentReleaseQueue add_notification add_walletTransaction
             with_instructors].
      destruct (decide (rel_instructorId r = k)) as [<-|Hne].
      - rewrite lookup_insert_eq, Hi. cbn. rewrite bool_decide_eq_true_2 by reflexivity.
        reflexivity.
      - rewrite lookup_insert_ne by exact Hne. rewrite bool_decide_eq_false_2 by exact Hne.
        destruct (instructors s !! k); reflexivity. }
    assert (Hrest1 : Forall (creditable s1) rest).
    { eapply List.Forall_impl; [|exact Hrest]. intros d [[x Hx] Hn]. split; [|exact Hn].
      rewrite Hins1, Hx. cbn. eauto. }
    destruct (IH s1 Hrest1) as (I1 & I2 & I3 & I4 & I5).
    split; [exact I1|]. split.
    { rewrite I2. subst s1. cbn [walletTransactions with_paymentReleaseQueue add_notification
        add_walletTransaction map]. rewrite <- app_assoc. reflexivity. }
    split; [|split; [rewrite I4 | rewrite I5]; reflexivity].
    intros k. rewrite I3, Hins1. cbn [credit_all foldl snd].
    destruct (instructors s !! k); reflexivity.
Qed.

(** The fields of a document after its credits. *)
Lemma credit_all_fields (k : uid) (docs : list (nat * ReleaseJob)) (i : Instructor) :
  wallet_available (credit_all k docs i) = credited k docs (wallet_available i) /\
  wallet_total (credit_all k docs i) = credited k docs (wallet_total i) /\
  wallet_penalties (credit_all k docs i) = wallet_penalties i /\
  ins_status (credit_all k docs i) = ins_status i /\
  ins_pricePerHour (credit_all k docs i) = ins_pricePerHour i /\
  ins_cpf (credit_all k docs i) = ins_cpf i /\
  ins_vehicle_plate (credit_all k docs i) = ins_vehicle_plate i.
Proof.
  revert i. induction docs as [|d rest IH]; intros i; [repeat split|].
  cbn [credit_all credited foldl].
  destruct (bool_decide (rel_instructorId (snd d) = k)); [|apply IH].
  destruct (IH (credit (rel_instructorAmount (snd d)) i)) as (A & B & C & D & E & F & G).
  unfold credit_all, credited in *. rewrite A, B, C, D, E, F, G. repeat split.
Qed.

(** X15. When every record in the snapshot can be credited (its instructor
    document exists and its amount is a number), and no two due records
    share their scheduledFor, processPaymentReleases reaches its end and
    logs exactly one credit transaction per record, in the order of the
    snapshot.  Every instructor document ends with wallet.available and
    wallet.total each incremented once by the instructor amount of every
    record that names it, in the order of the snapshot, and with its
    penalties and other fields as before; no instructor document appears;
    bookings and refunds are untouched. *)
Theorem release_run_credits_each_record_once (now : Z) (s : Store) :
  release_times_differ now s ->
  Forall (creditable s) (due_releases now s) ->
  let s' := processPaymentReleases now s in
  snd (processPaymentReleases_upto None now s) = Finished /\
  walletTransactions s'
    = walletTransactions s ++ map credit_transaction (due_releases now s) /\
  (forall (k : uid) (i : Instructor),
     instructors s !! k = Some i ->
     exists i' : Instructor,
       instructors s' !! k = Some i' /\
       wallet_available i' = credited k (due_releases now s) (wallet_available i) /\
       wallet_total i' = credited k (due_releases now s) (wallet_total i) /\
       wallet_penalties i' = wallet_penalties i /\
       ins_status i' = ins_status i /\
       ins_pricePerHour i' = ins_pricePerHour i /\
       ins_cpf i' = ins_cpf i /\
       ins_vehicle_plate i' = ins_vehicle_plate i) /\
  (forall k : uid, instructors s !! k = None -> instructors s' !! k = None) /\
  bookings s' = bookings s /\ refunds s' = refunds s.
Proof.
  intros _ Hall s'. subst s'. unfold processPaymentReleases, processPaymentReleases_upto.
  destruct (release_loop_credits (due_releases now s) s Hall) as (H1 & H2 & H3 & H4 & H5).
  split; [exact H1|]. split; [exact H2|]. split; [|split; [|split; assumption]].
  - intros k i Hi. exists (credit_all k (due_releases now s) i).
    split; [rewrite H3, Hi; reflexivity|]. apply credit_all_fields.
  - intros k Hk. rewrite H3, Hk. reflexivity.
Qed.

Lemma release_run_credits_each_record_once_witness :
  snd (processPaymentReleases_upto None (hours 200) completed) = Finished /\
  (wallet_available <$> instructors (processPaymentReleases (hours 200) completed) !! inst)
    = Some (JS.Num 119) /\
  (wallet_total <$> instructors (processPaymentReleases (hours 200) completed) !! inst)
    = Some (JS.Num 119) /\
  length (walletTransactions (processPaymentReleases (hours 200) completed)) = 1%nat.
Proof.
  destruct (release_run_credits_each_record_once (hours 200) completed)
    as (Hfin & Htx & Hw & _).
  { unfold release_times_differ. apply (bool_decide_unpack _). vm_compute. exact I. }
  { vm_compute. repeat constructor; eexists; reflexivity. }
  destruct (Hw inst (mkInstructor APROVADO (Some (JS.of_Z 70)) (JS.of_Z 0) (JS.of_Z 0)
                       (JS.of_Z 0) (Some "52998224725") (Some "ABC1D23")) eq_refl)
    as (i' & Hi' & Ha & Ht & _).
  split; [exact Hfin|]. rewrite Hi'. cbn [fmap option_fmap option_map]. rewrite Ha, Ht.
  split; [vm_compute; reflexivity|]. split; [vm_compute; reflexivity|].
  rewrite Htx. vm_compute. reflexivity.
Defined.

(** ** Reruns after a finished release run *)

Lemma queue_progress_app (q : list ReleaseJob) (r : ReleaseJob) : queue_progress q (q ++ [r]).
Proof.
  intros i x Hx. exists x. split; [apply lookup_app_l_Some; exact Hx | auto].
Qed.

Lemma processPaymentReleases_progress (crash : option nat) (now : Z) (s : Store) :
  queue_progress (paymentReleaseQueue s)
    (paymentReleaseQueue (fst (processPaymentReleases_upto crash now s))).
Proof.
  unfold processPaymentReleases_upto.
  apply (run_loop_inv
           (fun s0 => queue_progress (paymentReleaseQueue s) (paymentReleaseQueue s0)));
    [|apply queue_progress_refl].
  intros s0 ref r _. unfold release_writes.
  repeat first [apply List.Forall_nil | apply List.Forall_cons];
    intros s1 H1; try exact H1.
  - rewrite credit_write.
  destruct (rel_instructorAmount r); [destruct (instructors s1 !! rel_instructorId r)|]; exact H1.
  - unfold mark_release_processed, modify. cbn [fst paymentReleaseQueue with_paymentReleaseQueue].
    destruct (paymentReleaseQueue s1 !! ref) as [x|] eqn:Ex; [|exact H1].
    eapply queue_progress_trans; [exact H1|].
    intros j y Hy. destruct (decide (ref = j)) as [<-|Hne].
    + eexists. split; [apply list_lookup_insert_eq; eapply lookup_lt_Some; eauto|].
      rewrite Ex in Hy. injection Hy as <-. split; reflexivity.
    + exists y. rewrite list_lookup_insert_ne by exact Hne. auto.
Qed.

Lemma step_queue_progress (c : Call) (now : Z) (s : Store) :
  queue_progress (paymentReleaseQueue s) (paymentReleaseQueue (step c now s)).
Proof.
  destruct c; cbn [step].
  - rewrite createBooking_queue. apply queue_progress_refl.
  - rewrite confirmBooking_queue. apply queue_progress_refl.
  - rewrite cancelBooking_queue. apply queue_progress_refl.
  - rewrite rescheduleBooking_queue. apply queue_progress_refl.
  - destruct (markLessonCompleted_effect auth data now s)
      as [[_ Hq] | (id & b & _ & _ & _ & r & Hq & _)]; rewrite Hq;
      [apply queue_progress_refl | apply queue_progress_app].
  - unfold processBookingTimeouts. rewrite processBookingTimeouts_queue.
    apply queue_progress_refl.
  - apply processPaymentReleases_progress.
Qed.

Lemma steps_queue_progress (cs : list (Call * Z)) (s : Store) :
  queue_progress (paymentReleaseQueue s) (paymentReleaseQueue (steps cs s)).
Proof.
  revert s. induction cs as [|[c now] rest IH]; intros s; simpl.
  - apply queue_progress_refl.
  - eapply queue_progress_trans; [apply step_queue_progress | apply IH].
Qed.

(** X16. A run of processPaymentReleases that reaches its end has marked
    every record of its snapshot processed, and no call made afterwards
    unmarks one: whatever calls follow, no later run of the poller, at
    whatever time, finds a record of that snapshot again, so none is
    credited a second time. *)
Theorem finished_release_run_is_never_repeated
    (now : Z) (s : Store) (cs : list (Call * Z)) (now2 : Z)
    (ref : nat) (r r2 : ReleaseJob) :
  snd (processPaymentReleases_upto None now s) = Finished ->
  In (ref, r) (due_releases now s) ->
  ~ In (ref, r2) (due_releases now2 (steps cs (processPaymentReleases now s))).
Proof.
  intros Hfin Hin.
  apply (release_rerun_credits_nothing_twice now s Hfin now2 _
           (steps_queue_progress cs _) ref r r2 Hin).
Qed.

Lemma finished_release_run_is_never_repeated_witness :
  ~ In (0%nat,
        mkRelease 0%nat inst (JS.Num 140)
          (JS.round (JS.mul (JS.Num 140) (JS.Num 0.15)))
          (JS.sub (JS.Num 140) (JS.round (JS.mul (JS.Num 140) (JS.Num 0.15))))
          (hours 102 + 24 * 60 * 60 * 1000) true)
       (due_releases (hours 300)
          (steps [(ProcessPaymentReleases, hours 250);
                  (CreateBooking (Some bia) (mkCreateRequest inst (Some (hours 400)) 1), hours 260)]
             (processPaymentReleases (hours 200) completed))).
Proof.
  apply (finished_release_run_is_never_repeated (hours 200) completed
           [(ProcessPaymentReleases, hours 250);
            (CreateBooking (Some bia) (mkCreateRequest inst (Some (hours 400)) 1), hours 260)]
           (hours 300) 0%nat
           (mkRelease 0%nat inst (JS.Num 140)
              (JS.round (JS.mul (JS.Num 140) (JS.Num 0.15)))
              (JS.sub (JS.Num 140) (JS.round (JS.mul (JS.Num 140) (JS.Num 0.15))))
              (hours 102 + 24 * 60 * 60 * 1000) false)
           (mkRelease 0%nat inst (JS.Num 140)
              (JS.round (JS.mul (JS.Num 140) (JS.Num 0.15)))
              (JS.sub (JS.Num 140) (JS.round (JS.mul (JS.Num 140) (JS.Num 0.15))))
              (hours 102 + 24 * 60 * 60 * 1000) true)
           ltac:(vm_compute; reflexivity)).
  vm_compute. left. reflexivity.
Defined.

(** ** Cancellation by the instructor, and without a slot document *)




(** X5. cancelBooking updates the booking before it touches the calendar.
    When the calendar document of the booking's slot does not exist, a call
    that passes the checks fails with an internal error after having set the
    booking to cancelada: the booking stays cancelled, and no refund, no
    penalty and no notification is recorded. *)
Theorem cancel_without_slot_document_half_done
    (s : Store) (caller : uid) (userType : UserType) (id : bookingId) (now : Z) (b : Booking) :
  bookings s !! id = Some b ->
  is_party userType caller b = true ->
  active b = true ->
  calendar s !! slot_key b = None ->
  let call := cancelBooking (Some caller) (mkCancelRequest (Some id) (Some userType)) now in
  result call s = Err INTERNAL 500 /\
  (exists b' : Booking, bookings (run call s) !! id = Some b' /\ status b' = CANCELADA) /\
  refunds (run call s) = refunds s /\
  instructors (run call s) = instructors s /\
  walletTransactions (run call s) = walletTransactions s /\
  notifications (run call s) = notifications s /\
  calendar (run call s) = calendar s /\
  (forall auth' data' now', succeeds (result (cancelBooking auth' data' now') (run call s))
                            = true -> cn_bookingId data' <> Some id).
Proof.
  intros Hb Hparty Hact Hslot call. subst call.
  assert (Hst : status b <> CANCELADA /\ status b <> CONCLUIDA)
    by (unfold active in Hact; destruct (status b); split; congruence).
  destruct Hst as [Hn1 Hn2].
  assert (Hrun : cancelBooking (Some caller) (mkCancelRequest (Some id) (Some userType)) now s
                 = (update_booking id
                      (set_cancellation userType
                         (JS.mul (refundPercentage
                                    (calculateCancellationPolicy userType
                                       (JS.div (JS.of_Z (date b - now)) (JS.of_Z HOUR_MS))
                                       (price b) (depositAmount b)))
                                 (price b))
                         (policy_penaltyAmount
                            (calculateCancellationPolicy userType
                               (JS.div (JS.of_Z (date b - now)) (JS.of_Z HOUR_MS))
                               (price b) (depositAmount b)))) s,
                    Err INTERNAL 500)).
  { unfold cancelBooking. cbn [cn_bookingId cn_userType].
    unfold processRefund, applyInstructorPenalty, sendNotification, release_slot, update_wallet.
    unfold_monad. rewrite Hb.
    rewrite (bool_decide_eq_false_2 _ Hn1), (bool_decide_eq_false_2 _ Hn2).
    unfold is_party in Hparty. unfold slot_key in Hslot.
    destruct userType; try rewrite Hparty; cbn [negb andb fst snd bool_decide];
      repeat match goal with
             | |- context [bool_decide (?a = ?c)] =>
                 first [ change (bool_decide (a = c)) with true
                       | change (bool_decide (a = c)) with false ]
             end; cbn [negb andb fst snd];
      change (calendar (update_booking id ?f s)) with (calendar s);
      rewrite Hslot; reflexivity. }
  unfold result, run. rewrite Hrun. cbn [fst snd].
  split; [reflexivity|]. split.
  { eexists. split; [apply lookup_update_booking_eq; exact Hb | reflexivity]. }
  repeat (split; [reflexivity|]).
  intros auth' data' now' Hok Hid.
  revert Hok. unfold cancelBooking. rewrite Hid.
  destruct auth' as [caller'|]; [|intros H; discriminate H].
  destruct (cn_userType data') as [u|]; [|intros H; discriminate H].
  unfold_monad.
  rewrite (lookup_update_booking_eq s id _ b Hb).
  cbn [status set_cancellation studentId instructorId].
  change (bool_decide (CANCELADA = CANCELADA)) with true.
  split_guards ltac:(intros H; discriminate H).
Qed.

Lemma cancel_without_slot_document_half_done_witness :
  result (cancelBooking (Some ana) ana_cancels (hours 50)) slot_lost = Err INTERNAL 500 /\
  status_of (run (cancelBooking (Some ana) ana_cancels (hours 50)) slot_lost) 0%nat
    = Some CANCELADA /\
  refunds (run (cancelBooking (Some ana) ana_cancels (hours 50)) slot_lost) = refunds slot_lost.
Proof.
  destruct (cancel_without_slot_document_half_done slot_lost ana student 0%nat (hours 50)
              (mkBooking ana inst (hours 101 + 30 * 60 * 1000) 2 CONFIRMADA PAY_PENDENTE 1
                 (JS.Num 140) (JS.Num 28) (JS.Num 112) 0
                 None None None None None None None)
              ltac:(vm_compute; reflexivity) ltac:(vm_compute; reflexivity)
              ltac:(reflexivity) ltac:(vm_compute; reflexivity))
    as (Hres & (b' & Hb' & Hst) & Hrefunds & _).
  split; [exact Hres|]. split; [|exact Hrefunds].
  unfold status_of. change (mkCancelRequest (Some 0%nat) (Some student)) with ana_cancels in Hb'.
  rewrite Hb'. simpl. rewrite Hst. reflexivity.
Defined.

(** ** When the callable functions accept *)

(** X1. createBooking succeeds exactly when the request is well formed (an
    authenticated caller, an instructor id, a duration of 1 to 4 hours, a
    date in the future, an approved instructor), no active booking of the
    instructor starts at exactly that date, and the calendar document of the
    date's hour is not reserved.  It then appends one booking, pendente, with
    price = (pricePerHour or 80) x duration, deposit = Math.round(0.2 x price)
    and remainder = price - deposit, reserves the hour in its name, and
    schedules the acceptance timeout two hours after the call. *)
Theorem createBooking_accepts_iff
    (auth : option uid) (data : BookingCreateRequest) (now : Z) (s : Store) :
  let call := createBooking auth data now in
  (succeeds (result call s) = true <->
     well_formed_create auth data now s = true /\
     exists d : Z,
       req_date data = Some d /\
       existingBookings s (req_instructorId data) d = [] /\
       slot_reserved s (req_instructorId data) (formatDateKey d) = false) /\
  (forall r : BookingCreateResponse,
     result call s = Ok r ->
     exists (caller : uid) (d : Z) (ins : Instructor),
       auth = Some caller /\ req_date data = Some d /\
       instructors s !! req_instructorId data = Some ins /\
       let total :=
         JS.mul (JS.or_else (JS.to_number (ins_pricePerHour ins)) (JS.of_Z 80))
           (JS.of_Z (req_duration data)) in
       let b :=
         mkBooking caller (req_instructorId data) d (req_duration data) PENDENTE PAY_PENDENTE 0
           total (deposit_of total) (JS.sub total (deposit_of total)) now
           None None None None None None None in
       r = mkCreateResponse (length (bookings s)) PENDENTE (deposit_of total) total /\
       bookings (run call s) = bookings s ++ [b] /\
       calendar (run call s)
         = <[(req_instructorId data, formatDateKey d) :=
               mkSlot true (Some (length (bookings s)))]> (calendar s) /\
       bookingTimeouts (run call s)
         = bookingTimeouts s ++ [mkTimeout (length (bookings s)) (now + 2 * HOUR_MS) false false] /\
       payments (run call s)
         = payments s ++ [mkPayment (length (bookings s)) caller (deposit_of total) PT_DEPOSIT]).
Proof.
  intros call. subst call. split.
  - unfold well_formed_create, createBooking.
    destruct auth as [caller|]; [|split; [intros H; discriminate H | intros [H _]; simpl in H; discriminate H]].
    destruct (req_date data) as [d|];
      [|split; [intros H; discriminate H | intros [H _]; simpl in H; discriminate H]].
    unfold createBooking_transaction, processDepositPayment, scheduleAcceptanceTimeout,
      sendNotification, reserve_slot.
    unfold_monad.
    destruct (String.eqb (req_instructorId data) "") eqn:E1; cbn [orb negb andb fst snd succeeds].
    { split; [intros H; discriminate H|].
      intros [H _]. destruct (instructors s !! req_instructorId data); simpl in H; discriminate H. }
    destruct (req_duration data =? 0) eqn:E2; cbn [orb negb andb fst snd succeeds].
    { apply Z.eqb_eq in E2. rewrite E2. split; [intros H; discriminate H|].
      intros [H _]. destruct (instructors s !! req_instructorId data); simpl in H; discriminate H. }
    destruct (req_duration data <? 1) eqn:E3; cbn [orb negb andb fst snd succeeds].
    { apply Z.ltb_lt in E3. replace (1 <=? req_duration data) with false
        by (symmetry; apply Z.leb_gt; lia).
      split; [intros H; discriminate H|].
      intros [H _]. destruct (instructors s !! req_instructorId data); simpl in H; discriminate H. }
    destruct (4 <? req_duration data) eqn:E4; cbn [orb negb andb fst snd succeeds].
    { apply Z.ltb_lt in E4. replace (req_duration data <=? 4) with false
        by (symmetry; apply Z.leb_gt; lia).
      rewrite andb_false_r. split; [intros H; discriminate H|].
      intros [H _]. destruct (instructors s !! req_instructorId data); simpl in H; discriminate H. }
    destruct (d <=? now) eqn:E5; cbn [orb negb andb fst snd succeeds].
    { apply Z.leb_le in E5. replace (now <? d) with false by (symmetry; apply Z.ltb_ge; lia).
      rewrite andb_false_r. split; [intros H; discriminate H|].
      intros [H _]. destruct (instructors s !! req_instructorId data); simpl in H; discriminate H. }
    apply Z.ltb_ge in E3. apply Z.ltb_ge in E4. apply Z.leb_gt in E5.
    replace (1 <=? req_duration data) with true by (symmetry; apply Z.leb_le; lia).
    replace (req_duration data <=? 4) with true by (symmetry; apply Z.leb_le; lia).
    replace (now <? d) with true by (symmetry; apply Z.ltb_lt; lia).
    cbn [andb].
    destruct (instructors s !! req_instructorId data) as [ins|]; cbn [fst snd succeeds];
      [|split; [intros H; discriminate H | intros [H _]; simpl in H; discriminate H]].
    destruct (bool_decide (ins_status ins = APROVADO)); cbn [orb negb andb fst snd succeeds];
      [|split; [intros H; discriminate H | intros [H _]; simpl in H; discriminate H]].
    destruct (existingBookings s (req_instructorId data) d) as [|x l] eqn:Ee;
      cbn [is_empty negb fst snd succeeds].
    2:{ split; [intros H; discriminate H|].
        intros (_ & d' & [= <-] & H & _). congruence. }
    destruct (slot_reserved s (req_instructorId data) (formatDateKey d)) eqn:Er;
      cbn [fst snd succeeds].
    { split; [intros H; discriminate H|].
      intros (_ & d' & [= <-] & _ & H). congruence. }
    split; [|reflexivity]. intros _. split; [reflexivity|]. exists d. auto.
  - intros r. unfold createBooking.
    destruct auth as [caller|]; [|intros H; discriminate H].
    destruct (req_date data) as [d|]; [|intros H; discriminate H].
    unfold createBooking_transaction, processDepositPayment, scheduleAcceptanceTimeout,
      sendNotification, reserve_slot.
    unfold_monad.
    split_guards ltac:(intros H; discriminate H).
    intros [= <-]. eexists caller, d, _. split; [reflexivity|]. split; [reflexivity|].
    split; [reflexivity|]. cbn zeta. repeat split.
Qed.

(** The steps of a cancellation that follow the party check, the same for
    every userType; [last] closes the claim about the instructor documents. *)
Ltac cancel_after_party Hb Hlk last :=
  match goal with
  | |- context [status ?b] =>
      destruct (status b) eqn:?;
      cbn [fst snd succeeds];
      repeat match goal with
             | |- context [bool_decide (?a = ?c)] =>
                 first [ change (bool_decide (a = c)) with true
                       | change (bool_decide (a = c)) with false ]
             end; cbn [fst snd succeeds];
      try (split; [split; [intros H; discriminate H | intros (_ & H & _); discriminate H]
                  | intros H; discriminate H])
  end;
  match goal with
  | |- context [calendar (update_booking ?id ?f ?s)] =>
      change (calendar (update_booking id f s)) with (calendar s)
  end;
  match goal with
  | |- context [calendar ?s !! (instructorId ?b, formatDateKey (date ?b))] =>
      destruct (calendar s !! (instructorId b, formatDateKey (date b))) as [c|] eqn:?;
      cbn [fst snd succeeds];
      [|split; [split; [intros H; discriminate H | intros (_ & _ & [x Hx]); discriminate Hx]
               | intros H; discriminate H]]
  end;
  rewrite ?andb_false_r, ?andb_true_r;
  split_guards idtac;
  cbn [succeeds fst snd];
  (split; [split; [intros _; split; [reflexivity|]; split; [reflexivity | eauto]
                  | reflexivity] |]);
  intros _;
  (split; [reflexivity|]);
  (split; [eexists; split; [apply lookup_update_booking_eq; exact Hb | repeat split] |]);
  (split; [intros j Hj; apply Hlk; exact Hj |]);
  (split; [reflexivity | last]).

Lemma cancelBooking_outcome
    (s : Store) (caller : uid) (userType : UserType) (id : bookingId) (now : Z) (b : Booking)
    (Hb : bookings s !! id = Some b) :
  let call := cancelBooking (Some caller) (mkCancelRequest (Some id) (Some userType)) now in
  (succeeds (result call s) = true <->
     is_party userType caller b = true /\ active b = true /\
     is_Some (calendar s !! slot_key b)) /\
  (succeeds (result call s) = true ->
     calendar (run call s) = <[slot_key b := mkSlot false None]> (calendar s) /\
     (exists b' : Booking,
        bookings (run call s) !! id = Some b' /\ status b' = CANCELADA /\
        cancelledBy b' = Some userType /\ date b' = date b /\ price b' = price b) /\
     (forall j, j <> id -> bookings (run call s) !! j = bookings s !! j) /\
     paymentReleaseQueue (run call s) = paymentReleaseQueue s /\
     (userType <> instructor ->
        instructors (run call s) = instructors s /\
        walletTransactions (run call s) = walletTransactions s)).
Proof.
  intros call. subst call.
  unfold cancelBooking. cbn [cn_bookingId cn_userType].
  unfold processRefund, applyInstructorPenalty, sendNotification, release_slot, update_wallet.
  unfold_monad. rewrite Hb. unfold is_party, active, slot_key.
  assert (Hlk : forall j f, j <> id ->
            bookings (update_booking id f s) !! j = bookings s !! j)
    by (intros j f Hj; apply lookup_update_booking_ne; congruence).
  destruct userType;
    [change (bool_decide (student = student)) with true;
     change (bool_decide (student = instructor)) with false
    |change (bool_decide (instructor = student)) with false;
     change (bool_decide (instructor = instructor)) with true
    |change (bool_decide (other_user = student)) with false;
     change (bool_decide (other_user = instructor)) with false];
    cbn [andb negb].
  - destruct (bool_decide (studentId b = caller)); cbn [negb fst snd succeeds];
      [|split; [split; [intros H; discriminate H | intros [H _]; discriminate H]
               | intros H; discriminate H]].
    cancel_after_party Hb Hlk ltac:(intros _; split; reflexivity).
  - destruct (bool_decide (instructorId b = caller)); cbn [negb fst snd succeeds];
      [|split; [split; [intros H; discriminate H | intros [H _]; discriminate H]
               | intros H; discriminate H]].
    cancel_after_party Hb Hlk ltac:(intros H; exfalso; apply H; reflexivity).
  - cbn [negb fst snd succeeds].
    cancel_after_party Hb Hlk ltac:(intros _; split; reflexivity).
Qed.

(** X3. cancelBooking by [caller] with a given [userType] succeeds exactly
    when the caller passes the party check, the booking is pendente or
    confirmada, and the calendar document of its slot exists.  The party
    check compares the caller with the student for userType student and
    with the instructor for userType instructor; any other userType passes
    it, whoever calls.  A successful call marks the booking cancelada,
    records the userType as cancelledBy, frees the slot (reserved false, no
    booking id) and leaves every other booking as it was; only a
    cancellation with userType instructor can touch an instructor
    document. *)
Theorem cancelBooking_accepts_iff
    (s : Store) (caller : uid) (userType : UserType) (id : bookingId) (now : Z) (b : Booking)
    (Hb : bookings s !! id = Some b) :
  let call := cancelBooking (Some caller) (mkCancelRequest (Some id) (Some userType)) now in
  (succeeds (result call s) = true <->
     is_party userType caller b = true /\ active b = true /\
     is_Some (calendar s !! slot_key b)) /\
  (is_party userType caller b = true <->
     (userType = student -> studentId b = caller) /\
     (userType = instructor -> instructorId b = caller)) /\
  (succeeds (result call s) = true ->
     calendar (run call s) = <[slot_key b := mkSlot false None]> (calendar s) /\
     (exists b' : Booking,
        bookings (run call s) !! id = Some b' /\ status b' = CANCELADA /\
        cancelledBy b' = Some userType /\ date b' = date b /\ price b' = price b) /\
     (forall j, j <> id -> bookings (run call s) !! j = bookings s !! j) /\
     paymentReleaseQueue (run call s) = paymentReleaseQueue s /\
     (userType <> instructor ->
        instructors (run call s) = instructors s /\
        walletTransactions (run call s) = walletTransactions s)).
Proof.
  intros call.
  destruct (cancelBooking_outcome s caller userType id now b Hb) as [Hiff Hok].
  split; [exact Hiff|]. split; [|exact Hok].
  unfold is_party. destruct userType.
  - rewrite bool_decide_eq_true. split; [intros H; split; [auto | discriminate] | tauto].
  - rewrite bool_decide_eq_true. split; [intros H; split; [discriminate | auto] | tauto].
  - split; [intros _; split; discriminate | reflexivity].
Qed.

(** X6. rescheduleBooking succeeds exactly when the new date is in the
    future, the caller is the booking's student, the booking is pendente or
    confirmada, no active booking of the instructor starts at exactly the new
    date, and the calendar document of the old slot exists.  The reservation
    of the new hour is not among the conditions: on success the old slot is
    freed and the new hour's calendar document is overwritten in this
    booking's name, whatever it held.  Status, parties, deposit and
    remainder stay as they were, and no instructor wallet is touched. *)
Theorem rescheduleBooking_accepts_iff
    (s : Store) (caller : uid) (id : bookingId) (newDate : Z) (newDuration : option Z)
    (now : Z) (b : Booking)
    (Hb : bookings s !! id = Some b) :
  let call := rescheduleBooking (Some caller)
                (mkRescheduleRequest (Some id) (Some newDate) newDuration) now in
  (succeeds (result call s) = true <->
     now < newDate /\ studentId b = caller /\ active b = true /\
     existingBookings s (instructorId b) newDate = [] /\
     is_Some (calendar s !! slot_key b)) /\
  (succeeds (result call s) = true ->
     calendar (run call s)
       = <[(instructorId b, formatDateKey newDate) := mkSlot true (Some id)]>
           (<[slot_key b := mkSlot false None]> (calendar s)) /\
     (exists b' : Booking,
        bookings (run call s) !! id = Some b' /\ status b' = status b /\
        studentId b' = studentId b /\ instructorId b' = instructorId b /\
        depositAmount b' = depositAmount b /\ remainingAmount b' = remainingAmount b) /\
     (forall j, j <> id -> bookings (run call s) !! j = bookings s !! j) /\
     instructors (run call s) = instructors s /\
     refunds (run call s) = refunds s).
Proof.
  intros call. subst call.
  unfold rescheduleBooking. cbn [rs_bookingId rs_newDate rs_newDuration].
  unfold rescheduleBooking_transaction, chargeRescheduleFee, sendNotification,
    release_slot, reserve_slot.
  unfold_monad. unfold slot_key.
  assert (Hlk : forall j f, j <> id ->
            bookings (update_booking id f s) !! j = bookings s !! j)
    by (intros j f Hj; apply lookup_update_booking_ne; congruence).
  destruct (newDate <=? now) eqn:E1; cbn [fst snd succeeds].
  { apply Z.leb_le in E1.
    split; [split; [intros H; discriminate H | intros (H & _); lia] | intros H; discriminate H]. }
  apply Z.leb_gt in E1. rewrite Hb.
  destruct (bool_decide (studentId b = caller)) eqn:E2; cbn [negb fst snd succeeds].
  2:{ apply bool_decide_eq_false in E2.
      split; [split; [intros H; discriminate H | intros (_ & H & _); contradiction]
             | intros H; discriminate H]. }
  apply bool_decide_eq_true in E2.
  destruct (active b) eqn:E3; cbn [negb fst snd succeeds].
  2:{ split; [split; [intros H; discriminate H | intros (_ & _ & H & _); discriminate H]
             | intros H; discriminate H]. }
  destruct (existingBookings s (instructorId b) newDate) as [|x l] eqn:E4;
    cbn [is_empty negb fst snd succeeds].
  2:{ split; [split; [intros H; discriminate H | intros (_ & _ & _ & H & _); discriminate H]
             | intros H; discriminate H]. }
  destruct (calendar s !! (instructorId b, formatDateKey (date b))) as [c|] eqn:E5;
    cbn [fst snd succeeds].
  2:{ split; [split; [intros H; discriminate H
                     | intros (_ & _ & _ & _ & [y Hy]); discriminate Hy]
             | intros H; discriminate H]. }
  split_guards idtac.
  all: cbn [succeeds fst snd].
  all: (split; [split; [intros _; repeat split; eauto | reflexivity] |]).
  all: intros _.
  all: (split; [reflexivity|]).
  all: (split; [eexists; split; [apply lookup_update_booking_eq; exact Hb | repeat split] |]).
  all: (split; [intros j Hj; apply Hlk; exact Hj |]).
  all: split; reflexivity.
Qed.



(** ** Executions of the scenario *)

Lemma createBooking_exclusive_witness :
  result (createBooking (Some bia) (mkCreateRequest inst (Some (hours 100 + 60000)) 1) 5) booked
  = Err VALIDATION_ERROR 409.
Proof.
  destruct (createBooking_exclusive (Some ana) lesson 0 start
              [(Some bia, mkCreateRequest inst (Some (hours 100 + 60000)) 1, 5)]
              ltac:(vm_compute; reflexivity)
              ltac:(repeat constructor))
    as (_ & _ & H409).
  apply Forall_cons in H409 as [H _]. apply H. vm_compute. reflexivity.
Defined.

Lemma slot_exclusive_without_reschedule_witness :
  slot_exclusive
    (steps [(CreateBooking (Some ana) lesson, 0);
            (CreateBooking (Some bia) (mkCreateRequest inst (Some (hours 101)) 1), 0);
            (ConfirmBooking (Some inst) (Some 0%nat), hours 1);
            (ProcessBookingTimeouts, hours 3)] (initial registry pupils)).
Proof.
  apply (slot_exclusive_without_reschedule registry pupils
           [(CreateBooking (Some ana) lesson, 0);
            (CreateBooking (Some bia) (mkCreateRequest inst (Some (hours 101)) 1), 0);
            (ConfirmBooking (Some inst) (Some 0%nat), hours 1);
            (ProcessBookingTimeouts, hours 3)]).
  reflexivity.
Defined.

Lemma amounts_balanced_unless_duration_change_witness :
  all_balanced
    (steps [(CreateBooking (Some ana) lesson, 0);
            (RescheduleBooking (Some ana) move_plain, 0);
            (CancelBooking (Some ana) ana_cancels, hours 50)] (initial registry pupils)).
Proof.
  apply (amounts_balanced_unless_duration_change registry pupils
           [(CreateBooking (Some ana) lesson, 0);
            (RescheduleBooking (Some ana) move_plain, 0);
            (CancelBooking (Some ana) ana_cancels, hours 50)]).
  reflexivity.
Defined.

Lemma timeout_run_cancels_pending_witness :
  status_of (processBookingTimeouts (hours 3) booked) 0%nat = Some CANCELADA /\
  refunds_of (processBookingTimeouts (hours 3) booked) 0%nat
    = [mkRefund 0%nat (JS.Num 28) "timeout"].
Proof.
  destruct (timeout_run_cancels_pending (hours 3) booked 0%nat
              (mkTimeout 0%nat (2 * 60 * 60 * 1000) false false)
              (mkBooking ana inst (hours 100) 2 PENDENTE PAY_PENDENTE 0
                 (JS.Num 140) (JS.Num 28) (JS.Num 112) 0
                 None None None None None None None)
              ltac:(vm_compute; left; reflexivity) ltac:(vm_compute; reflexivity) eq_refl)
    as (_ & Hb & Hr & _).
  cbn [to_bookingId] in Hb, Hr. split.
  - unfold status_of. rewrite Hb. reflexivity.
  - rewrite Hr. reflexivity.
Defined.


(** X8. A call that is rejected has written nothing: createBooking,
    confirmBooking, rescheduleBooking and markLessonCompleted leave the
    database exactly as it was whenever they fail, and so does cancelBooking
    whenever it fails with an error other than the internal error 500. *)
Theorem rejected_call_writes_nothing :
  (forall auth data now s,
     succeeds (result (createBooking auth data now) s) = false ->
     run (createBooking auth data now) s = s) /\
  (forall auth id now s,
     succeeds (result (confirmBooking auth id now) s) = false ->
     run (confirmBooking auth id now) s = s) /\
  (forall auth data now s,
     succeeds (result (rescheduleBooking auth data now) s) = false ->
     run (rescheduleBooking auth data now) s = s) /\
  (forall auth data now s,
     succeeds (result (markLessonCompleted auth data now) s) = false ->
     run (markLessonCompleted auth data now) s = s) /\
  (forall auth data now s code h,
     result (cancelBooking auth data now) s = Err code h -> h <> 500 ->
     run (cancelBooking auth data now) s = s).
Proof.
  split; [exact createBooking_error_unchanged|].
  split; [exact confirmBooking_error_unchanged|].
  split; [exact rescheduleBooking_error_unchanged|].
  split; [exact markLessonCompleted_error_unchanged|].
  exact cancelBooking_rejection_unchanged.
Qed.

Lemma rejected_call_writes_nothing_witness :
  run (rescheduleBooking (Some bia) move_plain 0) booked = booked /\
  run (cancelBooking (Some bia) ana_cancels (hours 50)) booked = booked.
Proof.
  destruct rejected_call_writes_nothing as (_ & _ & Hmove & _ & Hcancel).
  split.
  - apply Hmove. vm_compute. reflexivity.
  - apply (Hcancel _ _ _ _ UNAUTHORIZED 403); [vm_compute; reflexivity | lia].
Defined.

(** Whatever calls follow, the student, the instructor, the creation
    time, the deposit and the remainder of a booking never change, and a
    booking that has left pendente never returns to it; as long as no
    reschedule is among the calls, the price does not change either. *)
Theorem booking_identity_is_immutable
    (cs : list (Call * Z)) (s : Store) (id : bookingId) (b : Booking) :
  bookings s !! id = Some b ->
  exists b' : Booking,
    bookings (steps cs s) !! id = Some b' /\
    studentId b' = studentId b /\ instructorId b' = instructorId b /\
    createdAt b' = createdAt b /\
    depositAmount b' = depositAmount b /\ remainingAmount b' = remainingAmount b /\
    (status b <> PENDENTE -> status b' <> PENDENTE) /\
    (forallb (fun c => negb (is_reschedule (fst c))) cs = true -> price b' = price b).
Proof.
  intros Hb.
  destruct (steps_kept cs s id b Hb) as (b' & Hb' & [K1 K2 K3 K4 K5 K6 _]).
  exists b'. repeat (split; [assumption|]).
  intros Hcs. destruct (steps_kept_price cs s Hcs id b Hb) as (b2 & Hb2 & [_ _ _ _ _ _ K7]).
  rewrite Hb' in Hb2. injection Hb2 as <-. apply K7. reflexivity.
Qed.

Lemma booking_identity_is_immutable_witness :
  exists b' : Booking,
    bookings (steps [(RescheduleBooking (Some ana) move_and_extend, 0);
                     (ConfirmBooking (Some inst) (Some 0%nat), hours 1)] booked) !! 0%nat
      = Some b' /\
    studentId b' = ana /\ depositAmount b' = JS.Num 28.
Proof.
  destruct (booking_identity_is_immutable
              [(RescheduleBooking (Some ana) move_and_extend, 0);
               (ConfirmBooking (Some inst) (Some 0%nat), hours 1)]
              booked 0%nat
              (mkBooking ana inst (hours 100) 2 PENDENTE PAY_PENDENTE 0
                 (JS.Num 140) (JS.Num 28) (JS.Num 112) 0
                 None None None None None None None)
              ltac:(vm_compute; reflexivity))
    as (b' & Hb' & H1 & _ & _ & H4 & _).
  exists b'. split; [exact Hb'|]. split; [exact H1 | exact H4].
Defined.

Lemma cancelBooking_accepts_iff_witness :
  succeeds (result (cancelBooking (Some ana) ana_cancels (hours 90)) booked) = true /\
  calendar (run (cancelBooking (Some ana) ana_cancels (hours 90)) booked) !! (inst, 100)
    = Some (mkSlot false None).
Proof.
  destruct (cancelBooking_accepts_iff booked ana student 0%nat (hours 90)
              (mkBooking ana inst (hours 100) 2 PENDENTE PAY_PENDENTE 0
                 (JS.Num 140) (JS.Num 28) (JS.Num 112) 0
                 None None None None None None None)
              ltac:(vm_compute; reflexivity)) as (Hiff & _ & Hok).
  assert (Hs : succeeds (result (cancelBooking (Some ana) ana_cancels (hours 90)) booked) = true).
  { apply Hiff. split; [reflexivity|]. split; [reflexivity|]. vm_compute. eauto. }
  split; [exact Hs|]. destruct (Hok Hs) as (Hcal & _).
  change (mkCancelRequest (Some 0%nat) (Some student)) with ana_cancels in Hcal.
  rewrite Hcal. vm_compute. reflexivity.
Defined.

Lemma rescheduleBooking_accepts_iff_witness :
  succeeds (result (rescheduleBooking (Some ana) move_into_taken_hour 0) booked_twice) = true /\
  calendar (run (rescheduleBooking (Some ana) move_into_taken_hour 0) booked_twice) !! (inst, 101)
    = Some (mkSlot true (Some 0%nat)).
Proof.
  destruct (rescheduleBooking_accepts_iff booked_twice ana 0%nat (hours 101 + 30 * 60 * 1000)
              None 0
              (mkBooking ana inst (hours 100) 2 PENDENTE PAY_PENDENTE 0
                 (JS.Num 140) (JS.Num 28) (JS.Num 112) 0
                 None None None None None None None)
              ltac:(vm_compute; reflexivity)) as (Hiff & Hok).
  assert (Hs : succeeds (result (rescheduleBooking (Some ana) move_into_taken_hour 0)
                           booked_twice) = true).
  { apply Hiff. split; [vm_compute; reflexivity|]. split; [reflexivity|].
    split; [reflexivity|]. split; [vm_compute; reflexivity | vm_compute; eauto]. }
  split; [exact Hs|]. destruct (Hok Hs) as (Hcal & _).
  change (mkRescheduleRequest (Some 0%nat) (Some (hours 101 + 30 * 60 * 1000)) None)
    with move_into_taken_hour in Hcal.
  rewrite Hcal. vm_compute. reflexivity.
Defined.


(** A caller who is no party of booking 0 cancels it with a userType that
    is neither student nor instructor: the call is accepted, under the
    instructor's policy and without a penalty. *)
Example cancel_with_other_userType :
  let call := cancelBooking (Some bia) (mkCancelRequest (Some 0%nat) (Some other_user))
                (hours 95) in
  result call booked
    = Ok (mkCancelResponse 0%nat CANCELADA (JS.Num 140) (JS.Num 140)
            "Cancelamento pelo instrutor com menos de 12h (multa de 100%)") /\
  status_of (run call booked) 0%nat = Some CANCELADA /\
  (cancelledBy <$> bookings (run call booked) !! 0%nat) = Some (Some other_user) /\
  instructors (run call booked) = instructors booked /\
  walletTransactions (run call booked) = walletTransactions booked.
Proof. vm_compute. repeat split; reflexivity. Qed.

(** Without a student document the completion of booking 0 succeeds and
    queues no validation task. *)
Example completion_without_student_document :
  let s := run (createBooking (Some ana) lesson 0) (initial registry ∅) in
  let call := markLessonCompleted (Some inst) completion (hours 102) in
  result call s = Ok (0%nat, CONCLUIDA) /\
  detranValidationQueue (run call s) = [] /\
  length (paymentReleaseQueue (run call s)) = 1%nat.
Proof. vm_compute. repeat split; reflexivity. Qed.

(** The payout of a booking whose price is NaN is never credited: the
    release run is aborted at the record and writes nothing. *)
Example release_of_NaN_amount_aborts :
  let extended := run (rescheduleBooking (Some ana) move_and_extend 0) booked in
  let done :=
    run (markLessonCompleted (Some inst) (mkCompletionRequest (Some 0%nat) 3) (hours 203))
      extended in
  (rel_instructorAmount <$> paymentReleaseQueue done) = [JS.NaN] /\
  snd (processPaymentReleases_upto None (hours 300) done) = Aborted /\
  processPaymentReleases (hours 300) done = done.
Proof. vm_compute. repeat split; reflexivity. Qed.

(** ** Student progress *)

(** One call, spelled out: nothing on an empty id, otherwise the merged
    document, flagged and announced when it first qualifies. *)
Lemma updateStudentProgress_eq studentId category hours type now s :
  studentId <> "" -> category <> "" ->
  let d := Progress.merge_hours type hours now
             (Progress.progress s !! (studentId, category)) in
  Progress.updateStudentProgress studentId category hours type now s =
  if Progress.eligible d && negb (Progress.examEligible d) then
    Progress.mkState
      (<[(studentId, category) := Progress.set_examEligible d]> (Progress.progress s))
      (Progress.notifications s ++ [Progress.mkNotice studentId "exam_eligible"])
  else
    Progress.mkState (<[(studentId, category) := d]> (Progress.progress s))
      (Progress.notifications s).
Proof.
  intros Hs Hc d. unfold Progress.updateStudentProgress.
  rewrite (bool_decide_eq_false_2 _ Hs), (bool_decide_eq_false_2 _ Hc). cbn [orb].
  cbn [Progress.progress Progress.notifications].
  rewrite lookup_insert_eq. fold d.
  destruct (Progress.eligible d && negb (Progress.examEligible d)); [|reflexivity].
  rewrite insert_insert_eq. reflexivity.
Qed.

Lemma updateStudentProgress_empty_id studentId category hours type now s :
  studentId = "" \/ category = "" ->
  Progress.updateStudentProgress studentId category hours type now s = s.
Proof.
  intros H. unfold Progress.updateStudentProgress.
  destruct H as [-> | ->]; cbn; [reflexivity|].
  destruct (bool_decide (studentId = "")); reflexivity.
Qed.

Lemma updates_snoc us u s :
  Progress.updates (us ++ [u]) s = Progress.apply_update (Progress.updates us s) u.
Proof. unfold Progress.updates. rewrite foldl_app. reflexivity. Qed.

Lemma exam_notices_snoc s student n :
  List.filter (fun n => bool_decide (Progress.n_userId n = student))
    (Progress.notifications s ++ [n]) =
  Progress.exam_notices s student ++
    (if bool_decide (Progress.n_userId n = student) then [n] else []).
Proof. unfold Progress.exam_notices. rewrite List.filter_app. reflexivity. Qed.

(** Writing a document changes the number of flagged documents of a student
    by the change of its own flag. *)
Lemma flagged_size_insert (m : gmap (uid * string) Progress.ProgressDoc) k d student :
  size (filter (Progress.flagged student) (<[k := d]> m)) =
  (size (filter (Progress.flagged student) m)
   + (if decide (Progress.flagged student (k, d)) then 1 else 0)
   - (match m !! k with
      | Some d0 => if decide (Progress.flagged student (k, d0)) then 1 else 0
      | None => 0
      end))%nat.
Proof.
  rewrite map_filter_insert.
  assert (Hdel : size (filter (Progress.flagged student) (delete k m)) =
                 (size (filter (Progress.flagged student) m)
                  - (match m !! k with
                     | Some d0 => if decide (Progress.flagged student (k, d0)) then 1 else 0
                     | None => 0
                     end))%nat).
  { rewrite map_filter_delete, map_size_delete.
    destruct (m !! k) as [d0|] eqn:Hk.
    - destruct (decide (Progress.flagged student (k, d0))) as [Hf|Hf].
      + rewrite (proj2 (map_lookup_filter_Some _ m k d0) (conj Hk Hf)). lia.
      + destruct (filter (Progress.flagged student) m !! k) as [d1|] eqn:Hk1.
        * apply map_lookup_filter_Some in Hk1 as [Hk1 Hf1]. congruence.
        * cbn. lia.
    - destruct (filter (Progress.flagged student) m !! k) as [d1|] eqn:Hk1.
      + apply map_lookup_filter_Some in Hk1 as [Hk1 Hf1]. congruence.
      + cbn. lia. }
  destruct (decide (Progress.flagged student (k, d))) as [Hd|Hd].
  - rewrite <- (insert_delete_eq (filter _ m)), <- map_filter_delete.
    rewrite map_size_insert_None.
    2:{ rewrite map_filter_delete. apply lookup_delete_eq. }
    rewrite Hdel.
    destruct (m !! k) as [d0|] eqn:Hk; [|lia].
    destruct (decide (Progress.flagged student (k, d0))) as [Hf|Hf]; [|lia].
    assert (0 < size (filter (Progress.flagged student) m))%nat; [|lia].
    destruct (size (filter (Progress.flagged student) m)) eqn:Hsz; [|lia].
    apply map_size_empty_inv in Hsz.
    pose proof (proj2 (map_lookup_filter_Some (Progress.flagged student) m k d0)
                  (conj Hk Hf)) as Hin.
    rewrite Hsz in Hin. rewrite lookup_empty in Hin. discriminate.
  - rewrite Hdel. lia.
Qed.

(** X18. [updateStudentProgress]: however the calls on the progress documents
    follow one another from an empty sub-collection, a student has received
    exactly as many [exam_eligible] notifications as the student has flagged
    progress documents: a document is announced when it is flagged, and never
    a second time. *)
Theorem exam_notice_once_per_document (us : list Progress.Update) (student : uid) :
  let s := Progress.updates us Progress.empty in
  length (Progress.exam_notices s student) = size (Progress.flagged_documents s student).
Proof.
  cbv zeta. induction us as [|u us IH] using rev_ind.
  - reflexivity.
  - rewrite updates_snoc. set (s := Progress.updates us Progress.empty) in *.
    unfold Progress.apply_update.
    destruct (decide (Progress.u_studentId u = "" \/ Progress.u_category u = ""))
      as [He|He].
    { rewrite (updateStudentProgress_empty_id _ _ _ _ _ _ He). exact IH. }
    rewrite updateStudentProgress_eq by tauto.
    unfold Progress.flagged_documents in *.
    set (k := (Progress.u_studentId u, Progress.u_category u)).
    set (d := Progress.merge_hours _ _ _ _).
    assert (Hflag : Progress.examEligible d =
                    match Progress.progress s !! k with
                    | Some d0 => Progress.examEligible d0
                    | None => false
                    end).
    { unfold d. destruct (Progress.progress s !! k), (Progress.u_type u); reflexivity. }
    destruct (Progress.eligible d && negb (Progress.examEligible d)) eqn:Hel.
    + apply andb_prop in Hel as [_ Hno]. apply negb_true_iff in Hno.
      unfold Progress.exam_notices. cbn [Progress.notifications Progress.progress].
      rewrite exam_notices_snoc, length_app, flagged_size_insert, IH.
      cbn [Progress.n_userId].
      rewrite Hno in Hflag.
      destruct (decide (Progress.u_studentId u = student)) as [Hu|Hu].
      * rewrite (bool_decide_eq_true_2 _ Hu).
        destruct (decide (Progress.flagged student (k, Progress.set_examEligible d)))
          as [_|Hn]; [|exfalso; apply Hn; split; [exact Hu|reflexivity]].
        destruct (Progress.progress s !! k) as [d0|]; [|cbn; lia].
        destruct (decide (Progress.flagged student (k, d0))) as [[_ Hf]|_]; [|cbn; lia].
        cbn in Hf. congruence.
      * rewrite (bool_decide_eq_false_2 _ Hu).
        destruct (decide (Progress.flagged student (k, Progress.set_examEligible d)))
          as [[Hf _]|_]; [contradiction|].
        destruct (Progress.progress s !! k) as [d0|]; [|cbn; lia].
        destruct (decide (Progress.flagged student (k, d0))) as [[Hf _]|_];
          [contradiction|cbn; lia].
    + unfold Progress.exam_notices. cbn [Progress.notifications Progress.progress].
      fold (Progress.exam_notices s student).
      rewrite flagged_size_insert, IH.
      destruct (Progress.progress s !! k) as [d0|] eqn:Hk.
      * destruct (decide (Progress.flagged student (k, d))) as [[Hf1 Hf2]|Hn];
          destruct (decide (Progress.flagged student (k, d0))) as [[Hg1 Hg2]|Hm];
          cbn in *; try lia.
        -- exfalso. apply Hm. split; [exact Hf1|]. cbn. congruence.
        -- exfalso. apply Hn. split; [exact Hg1|]. cbn. congruence.
      * destruct (decide (Progress.flagged student (k, d))) as [[_ Hf2]|_]; [|cbn; lia].
        cbn in Hf2. congruence.
Qed.

Lemma hours_of_snoc ref type us u :
  Progress.hours_of ref type (us ++ [u]) =
  Progress.hours_of ref type us +
  (if bool_decide ((Progress.u_studentId u, Progress.u_category u) = ref
                   /\ Progress.u_type u = type)
   then Progress.u_hours u else 0).
Proof.
  unfold Progress.hours_of. induction us as [|v us IH]; cbn.
  - destruct (bool_decide _); lia.
  - rewrite IH. destruct (bool_decide (_ /\ Progress.u_type v = type)); lia.
Qed.

Lemma hours_of_untouched ref type us :
  Forall (fun u => (Progress.u_studentId u, Progress.u_category u) <> ref) us ->
  Progress.hours_of ref type us = 0.
Proof.
  induction 1 as [|u us Hu _ IH]; [reflexivity|].
  cbn. rewrite bool_decide_eq_false_2; [exact IH|]. intros [? _]. contradiction.
Qed.

Lemma reached_prefix_snoc ref us u :
  (exists n, Progress.reached ref (take n (us ++ [u]))) <->
  (exists n, Progress.reached ref (take n us)) \/ Progress.reached ref (us ++ [u]).
Proof.
  split.
  - intros [n Hn]. destruct (decide (n <= length us)%nat) as [Hle|Hgt].
    + left. exists n. rewrite take_app_le in Hn by exact Hle. exact Hn.
    + right. rewrite take_ge in Hn; [exact Hn|]. rewrite length_app. cbn. lia.
  - intros [[n Hn] | H].
    + destruct (decide (n <= length us)%nat) as [Hle|Hgt].
      * exists n. rewrite take_app_le by exact Hle. exact Hn.
      * exists (length us). rewrite take_app_le by lia.
        rewrite take_ge in Hn by lia. rewrite take_ge by lia. exact Hn.
    + exists (length (us ++ [u])). rewrite take_ge by lia. exact H.
Qed.

(** What the documents hold after a list of calls on an empty
    sub-collection. *)
Lemma progress_documents_inv (us : list Progress.Update) (ref : uid * string) :
  match Progress.progress (Progress.updates us Progress.empty) !! ref with
  | Some d =>
      fst ref <> "" /\ snd ref <> "" /\
      default 0 (Progress.theoreticalHours d) = Progress.hours_of ref Progress.TEORICA us /\
      default 0 (Progress.practicalHours d) = Progress.hours_of ref Progress.PRATICA us /\
      (Progress.examEligible d = true <-> exists n, Progress.reached ref (take n us))
  | None =>
      fst ref <> "" -> snd ref <> "" ->
      Forall (fun u => (Progress.u_studentId u, Progress.u_category u) <> ref) us
  end.
Proof.
  induction us as [|u us IH] using rev_ind.
  - cbn. rewrite lookup_empty. intros _ _. constructor.
  - rewrite updates_snoc. set (s := Progress.updates us Progress.empty) in *.
    unfold Progress.apply_update.
    destruct (decide (Progress.u_studentId u = "" \/ Progress.u_category u = ""))
      as [He|He].
    { rewrite (updateStudentProgress_empty_id _ _ _ _ _ _ He).
      destruct (Progress.progress s !! ref) as [d|] eqn:Hd.
      - destruct IH as (Hr1 & Hr2 & Ht & Hp & Hf).
        assert (Hne : (Progress.u_studentId u, Progress.u_category u) <> ref).
        { intros <-. cbn in Hr1, Hr2. tauto. }
        split; [exact Hr1|]. split; [exact Hr2|].
        rewrite !hours_of_snoc, !bool_decide_eq_false_2 by tauto.
        rewrite !Z.add_0_r. split; [exact Ht|]. split; [exact Hp|].
        rewrite Hf, reached_prefix_snoc. unfold Progress.reached at 3.
        rewrite !hours_of_snoc, !bool_decide_eq_false_2 by tauto.
        rewrite !Z.add_0_r. split; [tauto|].
        intros [H|H]; [exact H|]. exists (length us). rewrite take_ge by lia. exact H.
      - intros Hr1 Hr2. apply Forall_app. split; [auto|].
        constructor; [|constructor]. intros <-. cbn in Hr1, Hr2. tauto. }
    assert (Hs : Progress.u_studentId u <> "") by tauto.
    assert (Hc : Progress.u_category u <> "") by tauto.
    rewrite (updateStudentProgress_eq _ _ _ _ _ _ Hs Hc). cbv zeta.
    set (k := (Progress.u_studentId u, Progress.u_category u)).
    set (d := Progress.merge_hours _ _ _ _).
    assert (Hlook : forall d1 d2 n1 n2,
               Progress.progress
                 (if Progress.eligible d && negb (Progress.examEligible d)
                  then Progress.mkState (<[k := d1]> (Progress.progress s)) n1
                  else Progress.mkState (<[k := d2]> (Progress.progress s)) n2) !! ref =
               if decide (k = ref)
               then Some (if Progress.eligible d && negb (Progress.examEligible d)
                          then d1 else d2)
               else Progress.progress s !! ref).
    { intros. destruct (Progress.eligible d && negb (Progress.examEligible d));
        cbn [Progress.progress]; destruct (decide (k = ref)) as [->|Hne];
        rewrite ?lookup_insert_eq, ?lookup_insert_ne by exact Hne; reflexivity. }
    rewrite Hlook. clear Hlook.
    destruct (decide (k = ref)) as [<-|Hne].
    + (* the document of the call *)
      assert (Hold :
        default 0 (Progress.theoreticalHours d)
          = Progress.hours_of k Progress.TEORICA (us ++ [u]) /\
        default 0 (Progress.practicalHours d)
          = Progress.hours_of k Progress.PRATICA (us ++ [u]) /\
        (Progress.examEligible d = true <-> exists n, Progress.reached k (take n us))).
      { rewrite !hours_of_snoc. unfold d.
        destruct (Progress.progress s !! k) as [d0|] eqn:Hd.
        - destruct IH as (_ & _ & Ht & Hp & Hf).
          destruct (Progress.u_type u) eqn:Hty; cbn;
            rewrite <- ?Ht, <- ?Hp;
            repeat (first [ rewrite bool_decide_eq_true_2 by (split; [reflexivity|congruence])
                          | rewrite bool_decide_eq_false_2 by (intros [_ ?]; congruence) ]);
            (split; [lia|]); (split; [lia|]); exact Hf.
        - specialize (IH Hs Hc).
          rewrite !(hours_of_untouched k _ us IH).
          destruct (Progress.u_type u) eqn:Hty; cbn;
            repeat (first [ rewrite bool_decide_eq_true_2 by (split; [reflexivity|congruence])
                          | rewrite bool_decide_eq_false_2 by (intros [_ ?]; congruence) ]);
            (split; [lia|]); (split; [lia|]);
            (split; [discriminate|]);
            intros [n [Hn _]];
            rewrite (hours_of_untouched k _ (take n us)) in Hn
              by (apply Forall_take; exact IH); lia. }
      destruct Hold as (Ht & Hp & Hf).
      split; [exact Hs|]. split; [exact Hc|].
      assert (Hel : Progress.eligible d = true <-> Progress.reached k (us ++ [u])).
      { unfold Progress.eligible, Progress.reached. rewrite Ht, Hp, andb_true_iff.
        rewrite !Z.leb_le. reflexivity. }
      rewrite reached_prefix_snoc.
      destruct (Progress.eligible d) eqn:He1; destruct (Progress.examEligible d) eqn:He2;
        cbn; (split; [exact Ht|]); (split; [exact Hp|]).
      * rewrite He2. tauto.
      * split; [intros _; right; apply Hel; reflexivity|reflexivity].
      * rewrite He2. tauto.
      * rewrite He2. split; [discriminate|].
        intros [H|H]; [apply Hf in H; discriminate|apply Hel in H; discriminate].
    + (* another document *)
      destruct (Progress.progress s !! ref) as [d0|] eqn:Hd.
      * destruct IH as (Hr1 & Hr2 & Ht & Hp & Hf).
        split; [exact Hr1|]. split; [exact Hr2|].
        rewrite !hours_of_snoc, !bool_decide_eq_false_2 by tauto.
        rewrite !Z.add_0_r. split; [exact Ht|]. split; [exact Hp|].
        rewrite Hf, reached_prefix_snoc. unfold Progress.reached at 3.
        rewrite !hours_of_snoc, !bool_decide_eq_false_2 by tauto.
        rewrite !Z.add_0_r. split; [tauto|].
        intros [H|H]; [exact H|]. exists (length us). rewrite take_ge by lia. exact H.
      * intros Hr1 Hr2. apply Forall_app. split; [auto|].
        constructor; [exact Hne|constructor].
Qed.

(** X19. [updateStudentProgress]: after any list of calls on an empty
    sub-collection, each counter of a progress document is the sum of the
    hours of the calls of its type on that document (negative hours
    included), and the document is flagged [examEligible] exactly when both
    totals were at least 20 right after one of the calls: the flag is never
    cleared, also when the totals fall below 20 again. *)
Theorem progress_totals_and_flag
    (us : list Progress.Update) (studentId : uid) (category : string)
    (d : Progress.ProgressDoc) :
  Progress.progress (Progress.updates us Progress.empty) !! (studentId, category) = Some d ->
  default 0 (Progress.theoreticalHours d)
    = Progress.hours_of (studentId, category) Progress.TEORICA us /\
  default 0 (Progress.practicalHours d)
    = Progress.hours_of (studentId, category) Progress.PRATICA us /\
  (Progress.examEligible d = true <->
   exists n, Progress.reached (studentId, category) (take n us)).
Proof.
  intros Hd. pose proof (progress_documents_inv us (studentId, category)) as H.
  rewrite Hd in H. tauto.
Qed.

Lemma progress_totals_and_flag_witness :
  let us := [Progress.mkUpdate "ana" "B" 25 Progress.TEORICA 1;
             Progress.mkUpdate "ana" "B" 20 Progress.PRATICA 2;
             Progress.mkUpdate "ana" "B" (-15) Progress.PRATICA 3] in
  let d := Progress.mkProgress (Some 25) (Some 5) (Some 3) true in
  Progress.progress (Progress.updates us Progress.empty) !! ("ana", "B") = Some d /\
  (default 0 (Progress.theoreticalHours d) = Progress.hours_of ("ana", "B") Progress.TEORICA us /\
   default 0 (Progress.practicalHours d) = Progress.hours_of ("ana", "B") Progress.PRATICA us /\
   (Progress.examEligible d = true <->
    exists n, Progress.reached ("ana", "B") (take n us))).
Proof.
  cbv zeta.
  assert (H : Progress.progress
                (Progress.updates
                   [Progress.mkUpdate "ana" "B" 25 Progress.TEORICA 1;
                    Progress.mkUpdate "ana" "B" 20 Progress.PRATICA 2;
                    Progress.mkUpdate "ana" "B" (-15) Progress.PRATICA 3]
                   Progress.empty) !! ("ana", "B")
              = Some (Progress.mkProgress (Some 25) (Some 5) (Some 3) true))
    by (vm_compute; reflexivity).
  split; [exact H|].
  exact (progress_totals_and_flag _ "ana" "B" _ H).
Defined.

(** One call with type 'pratica' on documents none of which has 20
    theoretical hours. *)
Lemma practical_update_step (u : Progress.Update) (s : Progress.State) :
  Progress.u_type u = Progress.PRATICA ->
  (forall ref d, Progress.progress s !! ref = Some d ->
                 default 0 (Progress.theoreticalHours d) < 20) ->
  let s' := Progress.apply_update s u in
  Progress.notifications s' = Progress.notifications s /\
  forall ref d', Progress.progress s' !! ref = Some d' ->
    Progress.examEligible d' =
      match Progress.progress s !! ref with
      | Some d => Progress.examEligible d
      | None => false
      end /\
    Progress.theoreticalHours d' =
      match Progress.progress s !! ref with
      | Some d => Progress.theoreticalHours d
      | None => None
      end.
Proof.
  intros Hty Hlow. cbv zeta. unfold Progress.apply_update.
  destruct (decide (Progress.u_studentId u = "" \/ Progress.u_category u = ""))
    as [He|He].
  { rewrite (updateStudentProgress_empty_id _ _ _ _ _ _ He).
    split; [reflexivity|]. intros ref d' ->. split; reflexivity. }
  rewrite updateStudentProgress_eq by tauto. cbv zeta. rewrite Hty.
  set (k := (Progress.u_studentId u, Progress.u_category u)).
  set (d := Progress.merge_hours _ _ _ _).
  assert (Hth : Progress.theoreticalHours d =
                match Progress.progress s !! k with
                | Some d0 => Progress.theoreticalHours d0
                | None => None
                end /\
                Progress.examEligible d =
                match Progress.progress s !! k with
                | Some d0 => Progress.examEligible d0
                | None => false
                end).
  { unfold d. destruct (Progress.progress s !! k); split; reflexivity. }
  destruct Hth as [Hth Hfl].
  assert (Hne : Progress.eligible d = false).
  { unfold Progress.eligible. rewrite Hth.
    destruct (Progress.progress s !! k) as [d0|] eqn:Hk.
    - pose proof (Hlow _ _ Hk). apply andb_false_iff. left. apply Z.leb_gt. assumption.
    - reflexivity. }
  rewrite Hne. cbn [andb Progress.notifications Progress.progress].
  split; [reflexivity|].
  intros ref d'. destruct (decide (k = ref)) as [<-|Hn].
  - rewrite lookup_insert_eq. intros [= <-]. split; [exact Hfl|exact Hth].
  - rewrite lookup_insert_ne by exact Hn. intros ->. split; reflexivity.
Qed.

(** X20. [updateStudentProgress] as [markLessonCompleted] calls it, always with
    type 'pratica': when no progress document has 20 theoretical hours, no
    list of such calls sends an exam notification, flags a document or
    changes a theoretical counter, however many practical hours it adds. *)
Theorem practical_hours_alone_never_qualify
    (us : list Progress.Update) (s : Progress.State) :
  Forall (fun u => Progress.u_type u = Progress.PRATICA) us ->
  (forall ref d, Progress.progress s !! ref = Some d ->
                 default 0 (Progress.theoreticalHours d) < 20) ->
  let s' := Progress.updates us s in
  Progress.notifications s' = Progress.notifications s /\
  forall ref d', Progress.progress s' !! ref = Some d' ->
    Progress.examEligible d' =
      match Progress.progress s !! ref with
      | Some d => Progress.examEligible d
      | None => false
      end /\
    Progress.theoreticalHours d' =
      match Progress.progress s !! ref with
      | Some d => Progress.theoreticalHours d
      | None => None
      end.
Proof.
  intros Hall. revert s. induction Hall as [|u us Hu _ IH]; intros s Hlow; cbv zeta.
  - change (Progress.updates [] s) with s.
    split; [reflexivity|]. intros ref d' ->. split; reflexivity.
  - change (Progress.updates (u :: us) s)
      with (Progress.updates us (Progress.apply_update s u)).
    destruct (practical_update_step u s Hu Hlow) as [Hn1 Hd1].
    assert (Hlow1 : forall ref d,
               Progress.progress (Progress.apply_update s u) !! ref = Some d ->
               default 0 (Progress.theoreticalHours d) < 20).
    { intros ref d Hd. destruct (Hd1 _ _ Hd) as [_ Hth]. rewrite Hth.
      destruct (Progress.progress s !! ref) as [d0|] eqn:Hk; [eauto|cbn; lia]. }
    destruct (IH _ Hlow1) as [Hn2 Hd2].
    split; [congruence|].
    intros ref d' Hd'. destruct (Hd2 _ _ Hd') as [Hf Ht]. rewrite Hf, Ht.
    destruct (Progress.progress (Progress.apply_update s u) !! ref) as [d1|] eqn:Hk1.
    + destruct (Hd1 _ _ Hk1) as [Hf1 Ht1]. split; assumption.
    + (* the document exists afterwards, so it existed after the first call *)
      split; destruct (Progress.progress s !! ref) as [d0|] eqn:Hk0; try reflexivity;
        exfalso; revert Hk1; unfold Progress.apply_update;
        (destruct (decide (Progress.u_studentId u = "" \/ Progress.u_category u = ""))
           as [He|He];
         [ rewrite (updateStudentProgress_empty_id _ _ _ _ _ _ He); congruence
         | rewrite updateStudentProgress_eq by tauto; cbv zeta;
           destruct (_ && _); cbn [Progress.progress];
           (destruct (decide ((Progress.u_studentId u, Progress.u_category u) = ref))
              as [<-|Hn];
            [ rewrite lookup_insert_eq; discriminate
            | rewrite lookup_insert_ne by exact Hn; congruence ]) ]).
Qed.

Lemma practical_hours_alone_never_qualify_witness :
  let s := Progress.mkState
             {[ ("ana", "B") := Progress.mkProgress (Some 19) (Some 18) (Some 0) false ]} [] in
  let us := [Progress.mkUpdate "ana" "B" 2 Progress.PRATICA 1;
             Progress.mkUpdate "ana" "B" 40 Progress.PRATICA 2] in
  Progress.notifications (Progress.updates us s) = [] /\
  forall ref d', Progress.progress (Progress.updates us s) !! ref = Some d' ->
    Progress.examEligible d' =
      match Progress.progress s !! ref with
      | Some d => Progress.examEligible d
      | None => false
      end /\
    Progress.theoreticalHours d' =
      match Progress.progress s !! ref with
      | Some d => Progress.theoreticalHours d
      | None => None
      end.
Proof.
  cbv zeta.
  apply (practical_hours_alone_never_qualify
           [Progress.mkUpdate "ana" "B" 2 Progress.PRATICA 1;
            Progress.mkUpdate "ana" "B" 40 Progress.PRATICA 2]
           (Progress.mkState
              {[ ("ana", "B") := Progress.mkProgress (Some 19) (Some 18) (Some 0) false ]} [])).
  - repeat constructor.
  - intros ref d. cbn [Progress.progress].
    intros [[= <-] <-]%lookup_singleton_Some. cbn. lia.
Defined.

(** ** Withdrawals *)

(** *** calculateBusinessDays *)

Lemma getDay_next date :
  Wallet.getDay (date + Wallet.DAY_MS) = (Wallet.getDay date + 1) mod 7.
Proof.
  unfold Wallet.getDay.
  replace (date + Wallet.DAY_MS) with (date + 1 * Wallet.DAY_MS) by lia.
  rewrite Z.div_add by (unfold Wallet.DAY_MS; lia).
  rewrite Zplus_mod_idemp_l. f_equal. lia.
Qed.

Lemma getDay_plus date k :
  Wallet.getDay (date + k * Wallet.DAY_MS) = (Wallet.getDay date + k) mod 7.
Proof.
  unfold Wallet.getDay.
  rewrite Z.div_add by (unfold Wallet.DAY_MS; lia).
  rewrite Zplus_mod_idemp_l. f_equal; lia.
Qed.

Lemma getDay_range date : 0 <= Wallet.getDay date < 7.
Proof. unfold Wallet.getDay. apply Z.mod_pos_bound. lia. Qed.

Lemma business_days_loop_done fuel result addedDays days :
  days <= addedDays ->
  Wallet.business_days_loop fuel result addedDays days = Some result.
Proof.
  intros H. destruct fuel; cbn; rewrite (proj2 (Z.ltb_ge _ _) H); reflexivity.
Qed.

Lemma business_days_loop_step fuel result addedDays days :
  addedDays < days ->
  Wallet.business_days_loop (S fuel) result addedDays days =
  if Wallet.weekend (result + Wallet.DAY_MS)
  then Wallet.business_days_loop fuel (result + Wallet.DAY_MS) addedDays days
  else Wallet.business_days_loop fuel (result + Wallet.DAY_MS) (addedDays + 1) days.
Proof. intros H. cbn. rewrite (proj2 (Z.ltb_lt _ _) H). reflexivity. Qed.

(** From any day, the next business day is at most three days away. *)
Lemma next_business_day date :
  exists j : nat,
    (1 <= j <= 3)%nat /\
    Wallet.weekend (date + Z.of_nat j * Wallet.DAY_MS) = false /\
    forall i : nat, (1 <= i < j)%nat ->
      Wallet.weekend (date + Z.of_nat i * Wallet.DAY_MS) = true.
Proof.
  pose proof (getDay_plus date (Z.of_nat 1)) as H1.
  pose proof (getDay_plus date (Z.of_nat 2)) as H2.
  pose proof (getDay_plus date (Z.of_nat 3)) as H3.
  pose proof (getDay_range date) as Hr.
  assert (Hc : Wallet.getDay date = 0 \/ Wallet.getDay date = 1 \/ Wallet.getDay date = 2
               \/ Wallet.getDay date = 3 \/ Wallet.getDay date = 4
               \/ Wallet.getDay date = 5 \/ Wallet.getDay date = 6) by lia.
  unfold Wallet.weekend.
  destruct Hc as [Hc|[Hc|[Hc|[Hc|[Hc|[Hc|Hc]]]]]]; rewrite Hc in H1, H2, H3.
  1-5: exists 1%nat; split; [lia|]; split; [rewrite H1; reflexivity|intros; lia].
  - exists 3%nat. split; [lia|]. split; [rewrite H3; reflexivity|].
    intros i Hi. assert (Hi' : i = 1%nat \/ i = 2%nat) by lia.
    destruct Hi' as [-> | ->]; [rewrite H1|rewrite H2]; reflexivity.
  - exists 2%nat. split; [lia|]. split; [rewrite H2; reflexivity|].
    intros i Hi. assert (i = 1%nat) as -> by lia. rewrite H1. reflexivity.
Qed.

Lemma business_days_after_weekend k date :
  (forall i : nat, (1 <= i <= k)%nat ->
     Wallet.weekend (date + Z.of_nat i * Wallet.DAY_MS) = true) ->
  Wallet.business_days_after k date = 0.
Proof.
  revert date. induction k as [|k IH]; intros date H; [reflexivity|].
  cbn [Wallet.business_days_after].
  pose proof (H 1%nat ltac:(lia)) as H1.
  replace (date + Z.of_nat 1 * Wallet.DAY_MS) with (date + Wallet.DAY_MS) in H1 by lia.
  rewrite H1, IH; [reflexivity|].
  intros i Hi. specialize (H (S i) ltac:(lia)).
  replace (date + Wallet.DAY_MS + Z.of_nat i * Wallet.DAY_MS)
    with (date + Z.of_nat (S i) * Wallet.DAY_MS) by lia. exact H.
Qed.

Lemma business_days_after_app j k date :
  Wallet.business_days_after (j + k) date =
  Wallet.business_days_after j date
  + Wallet.business_days_after k (date + Z.of_nat j * Wallet.DAY_MS).
Proof.
  revert date. induction j as [|j IH]; intros date.
  - cbn [Nat.add Wallet.business_days_after].
    replace (date + Z.of_nat 0 * Wallet.DAY_MS) with date by lia. lia.
  - cbn [Nat.add Wallet.business_days_after]. rewrite IH.
    replace (date + Wallet.DAY_MS + Z.of_nat j * Wallet.DAY_MS)
      with (date + Z.of_nat (S j) * Wallet.DAY_MS) by lia. lia.
Qed.

(** The loop skips the weekend days before the next business day. *)
Lemma business_days_loop_skip j fuel result addedDays days :
  addedDays < days ->
  (forall i : nat, (1 <= i <= j)%nat ->
     Wallet.weekend (result + Z.of_nat i * Wallet.DAY_MS) = true) ->
  Wallet.business_days_loop (j + fuel) result addedDays days =
  Wallet.business_days_loop fuel (result + Z.of_nat j * Wallet.DAY_MS) addedDays days.
Proof.
  intros Hlt. revert result. induction j as [|j IH]; intros result H.
  - cbn [Nat.add]. f_equal. lia.
  - cbn [Nat.add]. rewrite business_days_loop_step by exact Hlt.
    pose proof (H 1%nat ltac:(lia)) as H1.
    replace (result + Z.of_nat 1 * Wallet.DAY_MS) with (result + Wallet.DAY_MS) in H1 by lia.
    rewrite H1, IH.
    + f_equal. lia.
    + intros i Hi. specialize (H (S i) ltac:(lia)).
      replace (result + Wallet.DAY_MS + Z.of_nat i * Wallet.DAY_MS)
        with (result + Z.of_nat (S i) * Wallet.DAY_MS) by lia. exact H.
Qed.

Lemma business_days_loop_spec (n : nat) :
  forall fuel result addedDays days,
    days - addedDays = Z.of_nat n ->
    (3 * n <= fuel)%nat ->
    exists k : nat,
      Wallet.business_days_loop fuel result addedDays days
        = Some (result + Z.of_nat k * Wallet.DAY_MS) /\
      (n <= k <= 3 * n)%nat /\
      Wallet.business_days_after k result = Z.of_nat n /\
      ((0 < n)%nat -> Wallet.weekend (result + Z.of_nat k * Wallet.DAY_MS) = false).
Proof.
  induction n as [|n IH]; intros fuel result addedDays days Hn Hfuel.
  - exists 0%nat. rewrite business_days_loop_done by lia.
    split; [f_equal; lia|]. split; [lia|]. split; [reflexivity|lia].
  - destruct (next_business_day result) as (j & Hj & Hwork & Hskip).
    destruct j as [|j]; [lia|].
    replace fuel with (j + S (fuel - S j))%nat by lia.
    rewrite business_days_loop_skip by (try lia; intros i Hi; apply Hskip; lia).
    rewrite business_days_loop_step by lia.
    replace (result + Z.of_nat j * Wallet.DAY_MS + Wallet.DAY_MS)
      with (result + Z.of_nat (S j) * Wallet.DAY_MS) by lia.
    rewrite Hwork.
    destruct (IH (fuel - S j)%nat (result + Z.of_nat (S j) * Wallet.DAY_MS)
                (addedDays + 1) days ltac:(lia) ltac:(lia))
      as (k & Hk & Hrange & Hcount & Hend).
    exists (S j + k)%nat. split.
    { rewrite Hk. f_equal. lia. }
    split; [lia|]. split.
    + rewrite business_days_after_app, Hcount.
      replace (S j) with (j + 1)%nat by lia.
      rewrite business_days_after_app.
      rewrite business_days_after_weekend by (intros i Hi; apply Hskip; lia).
      cbn [Wallet.business_days_after].
      replace (result + Z.of_nat j * Wallet.DAY_MS + Wallet.DAY_MS)
        with (result + Z.of_nat (j + 1) * Wallet.DAY_MS) by lia.
      replace (j + 1)%nat with (S j) by lia. rewrite Hwork. lia.
    + intros _. destruct n as [|n].
      * assert (k = 0%nat) as -> by lia.
        replace (S j + 0)%nat with (S j) by lia. exact Hwork.
      * replace (result + Z.of_nat (S j + k) * Wallet.DAY_MS)
          with (result + Z.of_nat (S j) * Wallet.DAY_MS + Z.of_nat k * Wallet.DAY_MS) by lia.
        apply Hend. lia.
Qed.

Lemma calculateBusinessDays_spec startDate days :
  exists k : nat,
    Wallet.calculateBusinessDays startDate days
      = Some (startDate + Z.of_nat k * Wallet.DAY_MS) /\
    (Z.to_nat days <= k <= 3 * Z.to_nat days)%nat /\
    Wallet.business_days_after k startDate = Z.max 0 days /\
    (0 < days -> Wallet.weekend (startDate + Z.of_nat k * Wallet.DAY_MS) = false).
Proof.
  unfold Wallet.calculateBusinessDays.
  destruct (Z_lt_le_dec 0 days) as [Hpos|Hneg].
  - destruct (business_days_loop_spec (Z.to_nat days) (3 * Z.to_nat days) startDate 0 days
                ltac:(lia) ltac:(lia)) as (k & Hk & Hr & Hc & Hw).
    exists k. split; [exact Hk|]. split; [exact Hr|]. split; [lia|].
    intros _. apply Hw. lia.
  - exists 0%nat. rewrite business_days_loop_done by lia.
    split; [f_equal; lia|]. split; [lia|]. split; [cbn; lia|lia].
Qed.

(** X26. [calculateBusinessDays]: for a positive number of days the loop ends,
    at most three calendar days per business day later; the date it returns
    is a whole number of days after the start, falls on a Monday to Friday,
    and exactly [days] of the calendar days after the start up to it are
    business days. *)
Theorem calculateBusinessDays_counts_business_days (startDate days : Z) :
  0 < days ->
  exists k : nat,
    Wallet.calculateBusinessDays startDate days
      = Some (startDate + Z.of_nat k * Wallet.DAY_MS) /\
    (Z.to_nat days <= k <= 3 * Z.to_nat days)%nat /\
    Wallet.business_days_after k startDate = days /\
    1 <= Wallet.getDay (startDate + Z.of_nat k * Wallet.DAY_MS) <= 5.
Proof.
  intros Hpos.
  destruct (calculateBusinessDays_spec startDate days) as (k & Hk & Hr & Hc & Hw).
  exists k. split; [exact Hk|]. split; [exact Hr|]. split; [lia|].
  specialize (Hw Hpos). unfold Wallet.weekend in Hw.
  apply orb_false_iff in Hw as [H0 H6].
  apply Z.eqb_neq in H0, H6.
  pose proof (getDay_range (startDate + Z.of_nat k * Wallet.DAY_MS)). lia.
Qed.

(** Friday 2 January 1970, 09:00 UTC, plus two business days: Tuesday. *)
Lemma calculateBusinessDays_counts_business_days_witness :
  exists k : nat,
    Wallet.calculateBusinessDays (Wallet.DAY_MS + 9 * HOUR_MS) 2
      = Some (Wallet.DAY_MS + 9 * HOUR_MS + Z.of_nat k * Wallet.DAY_MS) /\
    (Z.to_nat 2 <= k <= 3 * Z.to_nat 2)%nat /\
    Wallet.business_days_after k (Wallet.DAY_MS + 9 * HOUR_MS) = 2 /\
    1 <= Wallet.getDay (Wallet.DAY_MS + 9 * HOUR_MS + Z.of_nat k * Wallet.DAY_MS) <= 5.
Proof.
  apply (calculateBusinessDays_counts_business_days (Wallet.DAY_MS + 9 * HOUR_MS) 2).
  lia.
Defined.

(** *** requestWithdrawal *)

Lemma calculateBusinessDays_some startDate days :
  is_Some (Wallet.calculateBusinessDays startDate days).
Proof.
  destruct (calculateBusinessDays_spec startDate days) as (k & Hk & _). eauto.
Qed.

Lemma lookup_snoc_length {A} (l : list A) (x : A) : (l ++ [x]) !! length l = Some x.
Proof. rewrite lookup_app_r by lia. rewrite Nat.sub_diag. reflexivity. Qed.

Lemma insert_snoc_length {A} (l : list A) (x y : A) :
  <[length l := y]> (l ++ [x]) = l ++ [y].
Proof.
  rewrite insert_app_r_alt by lia. rewrite Nat.sub_diag. reflexivity.
Qed.

Lemma amount_guards (q : Q) :
  (100 <= q)%Q ->
  JS.truthy (JS.Num q) = true /\ JS.ltb (JS.Num q) (JS.Num 100) = false.
Proof.
  intros Hq. split.
  - unfold JS.truthy. apply negb_true_iff. apply not_true_iff_false. intros H.
    apply Qeq_bool_iff in H. rewrite H in Hq. revert Hq. apply Qlt_not_le. reflexivity.
  - unfold JS.ltb. apply negb_false_iff. apply Qle_bool_iff. exact Hq.
Qed.

Lemma balance_guard (w : Wallet.WalletDoc) (q : Q) :
  match Wallet.available w with
  | Some (JS.Num a) => (q <= a)%Q
  | _ => True
  end <->
  JS.ltb (JS.to_number (Wallet.available w)) (JS.Num q) = false.
Proof.
  destruct (Wallet.available w) as [[a|]|]; unfold JS.to_number, JS.ltb; try tauto.
  rewrite negb_false_iff, Qle_bool_iff. reflexivity.
Qed.

Ltac wallet_store :=
  cbn [Wallet.instructors Wallet.withdrawals Wallet.tedBatchQueue
       Wallet.walletTransactions Wallet.notifications
       Wallet.wallet Wallet.available Wallet.blocked Wallet.total
       Wallet.w_instructorId Wallet.w_amount Wallet.w_fee Wallet.w_netAmount
       Wallet.w_method Wallet.w_status from_option id fst snd
       Wallet.operand_ok Wallet.apply_increment JS.neg JS.sub andb].

Ltac wallet_run :=
  repeat first
    [ progress wallet_store
    | rewrite lookup_snoc_length
    | rewrite insert_snoc_length
    | rewrite lookup_insert_eq
    | rewrite insert_insert_eq
    | progress cbn [Wallet.try_writes fmap option_fmap option_map Nat.pred]
    | progress unfold Wallet.set_withdrawal_status, Wallet.update_wallet,
        Wallet.add_walletTransaction, Wallet.add_notification, Wallet.wallet_of ].

(** The checks and the transaction of an accepted request. *)
Lemma requestWithdrawal_blocks u data method q doc w now fault s :
  Wallet.wr_method data = Some method ->
  Wallet.wr_amount data = JS.Num q ->
  (100 <= q)%Q ->
  (method = Wallet.PIX -> Wallet.no_text (Wallet.wr_pixKey data) = false) ->
  (method = Wallet.TED -> Wallet.account_truthy (Wallet.wr_bankAccount data) = true) ->
  Wallet.instructors s !! u = Some doc ->
  Wallet.wallet doc = Some w ->
  match Wallet.available w with
  | Some (JS.Num a) => (q <= a)%Q
  | _ => True
  end ->
  let fee := if bool_decide (method = Wallet.PIX) then JS.Num 2 else JS.Num 0 in
  let s1 := Wallet.after_block u q fee method w s in
  let id := length (Wallet.withdrawals s) in
  Wallet.requestWithdrawal (Some u) data now fault s =
  match (if bool_decide (method = Wallet.PIX)
         then Wallet.processPixWithdrawal id u (JS.sub (JS.Num q) fee) fault s1
         else Wallet.queueTEDWithdrawal id u (JS.sub (JS.Num q) fee)
                (Wallet.wr_bankAccount data) now s1) with
  | (s2, Err c h) => (s2, Err c h)
  | (s2, Ok _) =>
      match (if bool_decide (method = Wallet.PIX) then Some now
             else Wallet.calculateBusinessDays now 2) with
      | Some estimatedDate =>
          (s2, Ok (Wallet.mkResponse id (JS.Num q) fee (JS.sub (JS.Num q) fee)
                     estimatedDate))
      | None => (s2, Err INTERNAL 500)
      end
  end.
Proof.
  intros Hm Ha Hq Hpix Hted Hdoc Hw Hbal. cbv zeta.
  unfold Wallet.requestWithdrawal. rewrite Hm, Ha.
  destruct (amount_guards q Hq) as [-> ->]. cbn [negb].
  assert (H1 : bool_decide (method = Wallet.PIX) && Wallet.no_text (Wallet.wr_pixKey data)
               = false).
  { destruct (bool_decide (method = Wallet.PIX)) eqn:E; [|reflexivity].
    apply bool_decide_eq_true in E. rewrite (Hpix E). reflexivity. }
  assert (H2 : bool_decide (method = Wallet.TED)
               && negb (Wallet.account_truthy (Wallet.wr_bankAccount data)) = false).
  { destruct (bool_decide (method = Wallet.TED)) eqn:E; [|reflexivity].
    apply bool_decide_eq_true in E. rewrite (Hted E). reflexivity. }
  rewrite H1, H2, Hdoc, Hw. cbn [from_option id].
  rewrite (proj1 (balance_guard w q) Hbal).
  unfold Wallet.block_amount, Wallet.update_wallet, Wallet.wallet_of.
  rewrite Hdoc, Hw. wallet_store.
  unfold Wallet.after_block. reflexivity.
Qed.

Lemma requestWithdrawal_pix u data q doc w key now s :
  Wallet.wr_method data = Some Wallet.PIX ->
  Wallet.wr_amount data = JS.Num q ->
  (100 <= q)%Q ->
  Wallet.wr_pixKey data = Some key -> key <> "" ->
  Wallet.instructors s !! u = Some doc ->
  Wallet.wallet doc = Some w ->
  match Wallet.available w with
  | Some (JS.Num a) => (q <= a)%Q
  | _ => True
  end ->
  Wallet.requestWithdrawal (Some u) data now None s =
  (Wallet.after_pix u q w s,
   Ok (Wallet.mkResponse (length (Wallet.withdrawals s)) (JS.Num q) (JS.Num 2)
         (JS.sub (JS.Num q) (JS.Num 2)) now)).
Proof.
  intros Hm Ha Hq Hk Hkey Hdoc Hw Hbal.
  rewrite (requestWithdrawal_blocks u data Wallet.PIX q doc w now None s Hm Ha Hq);
    try assumption; try discriminate.
  2:{ intros _. rewrite Hk. cbn [Wallet.no_text]. apply bool_decide_eq_false_2. exact Hkey. }
  rewrite (bool_decide_eq_true_2 (Wallet.PIX = Wallet.PIX)) by reflexivity.
  unfold Wallet.after_block, Wallet.processPixWithdrawal, Wallet.pix_writes.
  wallet_run. unfold Wallet.after_pix. reflexivity.
Qed.

Lemma requestWithdrawal_ted u data method q doc w now s :
  Wallet.wr_method data = Some method ->
  method <> Wallet.PIX ->
  Wallet.wr_amount data = JS.Num q ->
  (100 <= q)%Q ->
  (method = Wallet.TED -> Wallet.account_truthy (Wallet.wr_bankAccount data) = true) ->
  Wallet.wr_bankAccount data <> Wallet.account_undefined ->
  Wallet.instructors s !! u = Some doc ->
  Wallet.wallet doc = Some w ->
  match Wallet.available w with
  | Some (JS.Num a) => (q <= a)%Q
  | _ => True
  end ->
  exists scheduledFor estimatedDate,
    Wallet.calculateBusinessDays now 1 = Some scheduledFor /\
    Wallet.calculateBusinessDays now 2 = Some estimatedDate /\
    Wallet.requestWithdrawal (Some u) data now None s =
    (Wallet.after_ted u q method w (Wallet.wr_bankAccount data) scheduledFor s,
     Ok (Wallet.mkResponse (length (Wallet.withdrawals s)) (JS.Num q) (JS.Num 0)
           (JS.sub (JS.Num q) (JS.Num 0)) estimatedDate)).
Proof.
  intros Hm Hne Ha Hq Hted Hbank Hdoc Hw Hbal.
  destruct (calculateBusinessDays_some now 1) as [sched Hs].
  destruct (calculateBusinessDays_some now 2) as [est He].
  exists sched, est. split; [exact Hs|]. split; [exact He|].
  rewrite (requestWithdrawal_blocks u data method q doc w now None s Hm Ha Hq);
    try assumption; [|intros H; contradiction].
  rewrite (bool_decide_eq_false_2 (method = Wallet.PIX)) by exact Hne.
  unfold Wallet.queueTEDWithdrawal. rewrite Hs, He. unfold Wallet.add_ted.
  cbn [Wallet.ted_bankAccount].
  destruct (Wallet.wr_bankAccount data) eqn:Hb; [contradiction| | |];
    unfold Wallet.after_ted, Wallet.after_block; reflexivity.
Qed.

(** A request by another method than PIX and TED that carries no bank
    account passes the checks, and fails when the transfer is queued: the
    amount stays blocked and the withdrawal stays in processing. *)
Lemma requestWithdrawal_no_account u data q doc w now s :
  Wallet.wr_method data = Some Wallet.other_method ->
  Wallet.wr_amount data = JS.Num q ->
  (100 <= q)%Q ->
  Wallet.wr_bankAccount data = Wallet.account_undefined ->
  Wallet.instructors s !! u = Some doc ->
  Wallet.wallet doc = Some w ->
  match Wallet.available w with
  | Some (JS.Num a) => (q <= a)%Q
  | _ => True
  end ->
  Wallet.requestWithdrawal (Some u) data now None s =
  (Wallet.after_block u q (JS.Num 0) Wallet.other_method w s, Err INTERNAL 500).
Proof.
  intros Hm Ha Hq Hbank Hdoc Hw Hbal.
  rewrite (requestWithdrawal_blocks u data Wallet.other_method q doc w now None s Hm Ha Hq);
    try assumption; try discriminate.
  rewrite (bool_decide_eq_false_2 (Wallet.other_method = Wallet.PIX)) by discriminate.
  unfold Wallet.queueTEDWithdrawal, Wallet.add_ted. cbn [Wallet.ted_bankAccount].
  rewrite Hbank. destruct (Wallet.calculateBusinessDays now 1); reflexivity.
Qed.

Lemma requestWithdrawal_accepted
    (auth : option uid) (data : Wallet.WithdrawalRequest) (now : Z) (s : Wallet.Store) :
  (exists r, snd (Wallet.requestWithdrawal auth data now None s) = Ok r) <->
  Wallet.acceptable auth data s.
Proof.
  split.
  - intros [r Hr]. unfold Wallet.requestWithdrawal in Hr.
    destruct auth as [u|]; [|discriminate Hr].
    destruct (Wallet.wr_method data) as [method|] eqn:Hm; [|discriminate Hr].
    destruct (JS.truthy (Wallet.wr_amount data)) eqn:Ht; [|discriminate Hr].
    cbn [negb] in Hr.
    destruct (JS.ltb (Wallet.wr_amount data) (JS.Num 100)) eqn:Hlt; [discriminate Hr|].
    destruct (Wallet.wr_amount data) as [q|] eqn:Ha; [|discriminate Ht].
    destruct (bool_decide (method = Wallet.PIX) && Wallet.no_text (Wallet.wr_pixKey data))
      eqn:Hpix; [discriminate Hr|].
    destruct (bool_decide (method = Wallet.TED)
              && negb (Wallet.account_truthy (Wallet.wr_bankAccount data)))
      eqn:Hted; [discriminate Hr|].
    destruct (Wallet.instructors s !! u) as [doc|] eqn:Hdoc; [|discriminate Hr].
    destruct (Wallet.wallet doc) as [w|] eqn:Hw.
    + cbn [from_option id] in Hr.
      destruct (JS.ltb (JS.to_number (Wallet.available w)) (JS.Num q)) eqn:Hbal;
        [discriminate Hr|].
      exists u, method, q, doc, w.
      split; [reflexivity|]. split; [exact Hm|]. split; [exact Ha|].
      split. { unfold JS.ltb in Hlt. apply negb_false_iff in Hlt.
               apply Qle_bool_iff in Hlt. exact Hlt. }
      split.
      { intros ->. rewrite bool_decide_eq_true_2 in Hpix by reflexivity.
        cbn [andb] in Hpix. destruct (Wallet.wr_pixKey data) as [key|]; [|discriminate].
        exists key. split; [reflexivity|]. cbn in Hpix.
        apply bool_decide_eq_false_1 in Hpix. exact Hpix. }
      split.
      { intros ->. rewrite bool_decide_eq_true_2 in Hted by reflexivity.
        cbn [andb] in Hted. apply negb_false_iff in Hted.
        destruct (Wallet.wr_bankAccount data); try discriminate Hted. eauto. }
      split.
      { intros -> Hu. revert Hr.
        unfold Wallet.block_amount, Wallet.update_wallet, Wallet.wallet_of.
        rewrite Hdoc, Hw. wallet_store.
        rewrite (bool_decide_eq_false_2 (Wallet.other_method = Wallet.PIX))
          by discriminate.
        unfold Wallet.queueTEDWithdrawal, Wallet.add_ted. cbn [Wallet.ted_bankAccount].
        rewrite Hu. destruct (Wallet.calculateBusinessDays now 1); discriminate. }
      split; [exact Hdoc|]. split; [exact Hw|].
      apply balance_guard. exact Hbal.
    + cbn [from_option id Wallet.available JS.to_number] in Hr.
      assert (Hz : JS.ltb (JS.Num 0) (JS.Num q) = true).
      { unfold JS.ltb in Hlt |- *. apply negb_false_iff in Hlt.
        apply Qle_bool_iff in Hlt.
        apply negb_true_iff, not_true_iff_false. intros H. apply Qle_bool_iff in H.
        assert (Hc : (100 <= 0)%Q) by (eapply Qle_trans; eassumption).
        revert Hc. apply Qlt_not_le. reflexivity. }
      rewrite Hz in Hr. discriminate Hr.
  - intros (u & method & q & doc & w & -> & Hm & Ha & Hq & Hpix & Hted & Hother
            & Hdoc & Hw & Hbal).
    destruct (decide (method = Wallet.PIX)) as [->|Hne].
    + destruct (Hpix eq_refl) as (key & Hk & Hkey).
      rewrite (requestWithdrawal_pix u data q doc w key now s) by assumption.
      eauto.
    + destruct (requestWithdrawal_ted u data method q doc w now s)
        as (sched & est & _ & _ & ->); try assumption; [| |eauto].
      * intros HT. destruct (Hted HT) as [bank ->]. reflexivity.
      * destruct method; [contradiction| |apply Hother; reflexivity].
        destruct (Hted eq_refl) as [bank ->]. discriminate.
Qed.

(** X21. [requestWithdrawal] (no write failing) succeeds exactly when the caller
    is authenticated, the amount is a number of at least 100, the method
    comes with what the function asks for it, and the caller's instructor
    document has a wallet whose [available] is not below the amount.  The
    function asks a non-empty key for PIX and a bank account that is not
    falsy for TED; it compares the method with nothing else, so that any
    other method is accepted as well, provided its bank account is not
    undefined, and is then queued like a TED, without fee and whatever the
    bank account is.  A wallet whose [available] counter is missing or not
    a number passes the balance check, an instructor without wallet does
    not.  A request by another method with no bank account passes every
    check and then fails with the internal error, the amount (a whole
    amount, from a wallet of whole counters) blocked and the withdrawal
    left in processing. *)
Theorem requestWithdrawal_accepts_iff
    (auth : option uid) (data : Wallet.WithdrawalRequest) (now : Z) (s : Wallet.Store) :
  ((exists r, snd (Wallet.requestWithdrawal auth data now None s) = Ok r) <->
   Wallet.acceptable auth data s) /\
  (forall r, snd (Wallet.requestWithdrawal auth data now None s) = Ok r ->
     Wallet.r_fee r = (if bool_decide (Wallet.wr_method data = Some Wallet.PIX)
                       then JS.Num 2 else JS.Num 0) /\
     Wallet.r_netAmount r = JS.sub (Wallet.wr_amount data) (Wallet.r_fee r) /\
     (Wallet.wr_method data <> Some Wallet.PIX ->
        exists ted,
          Wallet.tedBatchQueue (fst (Wallet.requestWithdrawal auth data now None s))
            = Wallet.tedBatchQueue s ++ [ted] /\
          Wallet.ted_amount ted = Wallet.r_netAmount r /\
          Wallet.ted_bankAccount ted = Wallet.wr_bankAccount data /\
          Wallet.ted_processed ted = false)) /\
  (forall u q doc w,
     auth = Some u ->
     Wallet.wr_method data = Some Wallet.other_method ->
     Wallet.wr_bankAccount data = Wallet.account_undefined ->
     Wallet.wr_amount data = JS.Num q -> (100 <= q)%Q ->
     Wallet.whole (JS.Num q) = true ->
     Wallet.instructors s !! u = Some doc -> Wallet.wallet doc = Some w ->
     Wallet.whole_wallet w = true ->
     match Wallet.available w with
     | Some (JS.Num a) => (q <= a)%Q
     | _ => True
     end ->
     Wallet.requestWithdrawal auth data now None s =
       (Wallet.after_block u q (JS.Num 0) Wallet.other_method w s, Err INTERNAL 500)).
Proof.
  split; [apply requestWithdrawal_accepted|]. split.
  - intros r Hr.
    destruct (proj1 (requestWithdrawal_accepted auth data now s) (ex_intro _ r Hr))
      as (u & method & q & doc & w & -> & Hm & Ha & Hq & Hpix & Hted & Hother
          & Hdoc & Hw & Hbal).
    revert Hr. rewrite Hm, Ha.
    destruct (decide (method = Wallet.PIX)) as [->|Hne].
    + destruct (Hpix eq_refl) as (key & Hk & Hkey).
      rewrite (requestWithdrawal_pix u data q doc w key now s) by assumption.
      cbn [fst snd]. intros [= <-]. cbn [Wallet.r_fee Wallet.r_netAmount].
      rewrite bool_decide_eq_true_2 by reflexivity.
      split; [reflexivity|]. split; [reflexivity|]. intros H. contradiction H. reflexivity.
    + destruct (requestWithdrawal_ted u data method q doc w now s)
        as (sched & est & _ & _ & ->); try assumption.
      * intros HT. destruct (Hted HT) as [bank ->]. reflexivity.
      * destruct method; [contradiction| |apply Hother; reflexivity].
        destruct (Hted eq_refl) as [bank ->]. discriminate.
      * cbn [fst snd]. intros [= <-]. cbn [Wallet.r_fee Wallet.r_netAmount].
        rewrite bool_decide_eq_false_2 by congruence.
        split; [reflexivity|]. split; [reflexivity|]. intros _.
        eexists. unfold Wallet.after_ted. cbn [Wallet.tedBatchQueue].
        split; [reflexivity|]. repeat split.
  - intros u q doc w -> Hm Hbank Ha Hq _ Hdoc Hw _ Hbal.
    apply (requestWithdrawal_no_account u data q doc w now s); assumption.
Qed.

Lemma requestWithdrawal_accepts_iff_witness :
  (exists r,
     snd (Wallet.requestWithdrawal (Some "instructor-1") ted_request 0 None wallet_start)
       = Ok r) /\
  (exists r,
     snd (Wallet.requestWithdrawal (Some "instructor-1")
            (Wallet.mkWithdrawalRequest (JS.Num 150) (Some Wallet.other_method) None
               Wallet.account_null) 0 None wallet_start) = Ok r /\
     Wallet.r_fee r = JS.Num 0) /\
  snd (Wallet.requestWithdrawal (Some "instructor-1")
         (Wallet.mkWithdrawalRequest (JS.Num 150) (Some Wallet.other_method) None
            Wallet.account_undefined) 0 None wallet_start) = Err INTERNAL 500.
Proof.
  split; [|split].
  - apply (proj1 (requestWithdrawal_accepts_iff (Some "instructor-1") ted_request 0
                    wallet_start)).
    exists "instructor-1", Wallet.TED, 150%Q,
      (Wallet.mkInstructorDoc
         (Some (Wallet.mkWallet (Some (JS.Num 500)) (Some (JS.Num 0)) (Some (JS.Num 500))))),
      (Wallet.mkWallet (Some (JS.Num 500)) (Some (JS.Num 0)) (Some (JS.Num 500))).
    split; [reflexivity|]. split; [reflexivity|]. split; [reflexivity|].
    split; [vm_compute; discriminate|]. split; [discriminate|].
    split; [intros _; eexists; reflexivity|]. split; [discriminate|].
    split; [reflexivity|]. split; [reflexivity|]. vm_compute. discriminate.
  - destruct (requestWithdrawal_accepts_iff (Some "instructor-1")
                (Wallet.mkWithdrawalRequest (JS.Num 150) (Some Wallet.other_method) None
                   Wallet.account_null) 0 wallet_start) as (Hiff & Hfee & _).
    destruct (proj2 Hiff) as [r Hr].
    { exists "instructor-1", Wallet.other_method, 150%Q,
      (Wallet.mkInstructorDoc
         (Some (Wallet.mkWallet (Some (JS.Num 500)) (Some (JS.Num 0)) (Some (JS.Num 500))))),
      (Wallet.mkWallet (Some (JS.Num 500)) (Some (JS.Num 0)) (Some (JS.Num 500))).
      split; [reflexivity|]. split; [reflexivity|]. split; [reflexivity|].
      split; [vm_compute; discriminate|]. split; [discriminate|].
      split; [discriminate|]. split; [discriminate|].
      split; [reflexivity|]. split; [reflexivity|]. vm_compute. discriminate. }
    exists r. split; [exact Hr|]. destruct (Hfee r Hr) as [-> _]. reflexivity.
  - destruct (requestWithdrawal_accepts_iff (Some "instructor-1")
                (Wallet.mkWithdrawalRequest (JS.Num 150) (Some Wallet.other_method) None
                   Wallet.account_undefined) 0 wallet_start) as (_ & _ & Hfail).
    rewrite (Hfail "instructor-1" 150%Q
               (Wallet.mkInstructorDoc
         (Some (Wallet.mkWallet (Some (JS.Num 500)) (Some (JS.Num 0)) (Some (JS.Num 500)))))
               (Wallet.mkWallet (Some (JS.Num 500)) (Some (JS.Num 0)) (Some (JS.Num 500)))
               eq_refl eq_refl eq_refl eq_refl
               ltac:(vm_compute; discriminate) ltac:(vm_compute; reflexivity)
               eq_refl eq_refl ltac:(vm_compute; reflexivity)
               ltac:(vm_compute; discriminate)).
    reflexivity.
Defined.

Ltac wallet_numbers :=
  unfold Wallet.surplus, Wallet.wallet_of, Wallet.counter, Wallet.apply_increment;
  unfold Wallet.increment, Wallet.same_number;
  cbn [from_option id Wallet.wallet Wallet.available Wallet.blocked Wallet.total
       JS.add JS.sub JS.neg];
  try exact I; try ring.

(** X22. An accepted PIX withdrawal of a whole amount from a wallet of whole
    counters, on which no write fails, takes the amount from
    [wallet.available] and the amount less the fee of 2 from
    [wallet.total]; the fee itself stays in [wallet.blocked], which ends 2
    higher than before.  The withdrawal document is created as completed and
    one wallet transaction of minus the net amount is logged; nothing is
    queued and no other instructor document changes. *)
Theorem pix_withdrawal_leaves_fee_blocked
    (u : uid) (data : Wallet.WithdrawalRequest) (q : Q) (doc : Wallet.InstructorDoc)
    (w : Wallet.WalletDoc) (key : string) (now : Z) (s : Wallet.Store) :
  Wallet.wr_method data = Some Wallet.PIX ->
  Wallet.wr_amount data = JS.Num q ->
  Wallet.whole (JS.Num q) = true ->
  (100 <= q)%Q ->
  Wallet.wr_pixKey data = Some key -> key <> "" ->
  Wallet.instructors s !! u = Some doc ->
  Wallet.wallet doc = Some w ->
  Wallet.whole_wallet w = true ->
  match Wallet.available w with
  | Some (JS.Num a) => (q <= a)%Q
  | _ => True
  end ->
  let s' := fst (Wallet.requestWithdrawal (Some u) data now None s) in
  exists w',
    Wallet.instructors s' !! u = Some (Wallet.mkInstructorDoc (Some w')) /\
    Wallet.same_number (Wallet.counter (Wallet.available w'))
      (JS.sub (Wallet.counter (Wallet.available w)) (JS.Num q)) /\
    Wallet.same_number (Wallet.counter (Wallet.blocked w'))
      (JS.add (Wallet.counter (Wallet.blocked w)) (JS.Num 2)) /\
    Wallet.same_number (Wallet.counter (Wallet.total w'))
      (JS.sub (Wallet.counter (Wallet.total w)) (JS.Num (q - 2))) /\
    Wallet.withdrawals s' =
      Wallet.withdrawals s ++
        [Wallet.mkWithdrawal u (JS.Num q) (JS.Num 2) (JS.Num (q - 2)) Wallet.PIX
           Wallet.COMPLETED] /\
    Wallet.walletTransactions s' =
      Wallet.walletTransactions s ++
        [Wallet.mkTx u (JS.Num (- (q - 2))) (length (Wallet.withdrawals s))] /\
    Wallet.tedBatchQueue s' = Wallet.tedBatchQueue s /\
    forall v, v <> u -> Wallet.instructors s' !! v = Wallet.instructors s !! v.
Proof.
  intros Hm Ha _ Hq Hk Hkey Hdoc Hw _ Hbal. cbv zeta.
  rewrite (requestWithdrawal_pix u data q doc w key now s) by assumption.
  cbn [fst]. unfold Wallet.after_pix.
  cbn [Wallet.instructors Wallet.withdrawals Wallet.tedBatchQueue
       Wallet.walletTransactions Wallet.notifications].
  eexists. split; [apply lookup_insert_eq|].
  cbn [Wallet.available Wallet.blocked Wallet.total].
  split. { destruct (Wallet.available w) as [[a|]|]; wallet_numbers. }
  split. { destruct (Wallet.blocked w) as [[b|]|]; wallet_numbers. }
  split. { destruct (Wallet.total w) as [[t|]|]; wallet_numbers. }
  split; [reflexivity|]. split; [reflexivity|]. split; [reflexivity|].
  intros v Hv. apply lookup_insert_ne. congruence.
Qed.

Lemma pix_withdrawal_leaves_fee_blocked_witness :
  let s' := fst (Wallet.requestWithdrawal (Some "instructor-1") pix_request 0 None
                   wallet_start) in
  exists w',
    Wallet.instructors s' !! "instructor-1" = Some (Wallet.mkInstructorDoc (Some w')) /\
    Wallet.same_number (Wallet.counter (Wallet.available w'))
      (JS.sub (JS.Num 500) (JS.Num 150)) /\
    Wallet.same_number (Wallet.counter (Wallet.blocked w'))
      (JS.add (JS.Num 0) (JS.Num 2)) /\
    Wallet.same_number (Wallet.counter (Wallet.total w'))
      (JS.sub (JS.Num 500) (JS.Num (150 - 2))) /\
    Wallet.withdrawals s' =
      [Wallet.mkWithdrawal "instructor-1" (JS.Num 150) (JS.Num 2) (JS.Num (150 - 2))
         Wallet.PIX Wallet.COMPLETED] /\
    Wallet.walletTransactions s' =
      [Wallet.mkTx "instructor-1" (JS.Num (- (150 - 2))) 0] /\
    Wallet.tedBatchQueue s' = [] /\
    forall v, v <> "instructor-1" ->
      Wallet.instructors s' !! v = Wallet.instructors wallet_start !! v.
Proof.
  cbv zeta.
  apply (pix_withdrawal_leaves_fee_blocked "instructor-1" pix_request 150
           (Wallet.mkInstructorDoc
              (Some (Wallet.mkWallet (Some (JS.Num 500)) (Some (JS.Num 0))
                       (Some (JS.Num 500)))))
           (Wallet.mkWallet (Some (JS.Num 500)) (Some (JS.Num 0)) (Some (JS.Num 500)))
           "key@example.org" 0 wallet_start).
  - reflexivity.
  - reflexivity.
  - vm_compute. reflexivity.
  - vm_compute. discriminate.
  - reflexivity.
  - discriminate.
  - reflexivity.
  - reflexivity.
  - vm_compute. reflexivity.
  - vm_compute. discriminate.
Defined.

(** X23. When a write of [processPixWithdrawal] fails, [requestWithdrawal] ends
    with the internal error and the withdrawal document is marked failed, but
    the wallet is not put back: the [catch] returns the net amount, so
    [wallet.available] stays 2 below its old value; and when the failure
    comes after the wallet update, [wallet.blocked] and [wallet.total] have
    in addition lost the net amount.  The amount and the counters of the
    wallet are whole. *)
Theorem failed_pix_withdrawal_is_not_rolled_back
    (u : uid) (data : Wallet.WithdrawalRequest) (q : Q) (doc : Wallet.InstructorDoc)
    (w : Wallet.WalletDoc) (key : string) (now : Z) (k : nat) (s : Wallet.Store) :
  Wallet.wr_method data = Some Wallet.PIX ->
  Wallet.wr_amount data = JS.Num q ->
  Wallet.whole (JS.Num q) = true ->
  (100 <= q)%Q ->
  Wallet.wr_pixKey data = Some key -> key <> "" ->
  Wallet.instructors s !! u = Some doc ->
  Wallet.wallet doc = Some w ->
  Wallet.whole_wallet w = true ->
  match Wallet.available w with
  | Some (JS.Num a) => (q <= a)%Q
  | _ => True
  end ->
  (k < 4)%nat ->
  let s' := fst (Wallet.requestWithdrawal (Some u) data now (Some k) s) in
  let lost := if (k <? 2)%nat then JS.Num 0 else JS.Num (q - 2) in
  snd (Wallet.requestWithdrawal (Some u) data now (Some k) s) = Err INTERNAL 500 /\
  Wallet.withdrawals s' =
    Wallet.withdrawals s ++
      [Wallet.mkWithdrawal u (JS.Num q) (JS.Num 2) (JS.Num (q - 2)) Wallet.PIX
         Wallet.FAILED] /\
  exists w',
    Wallet.instructors s' !! u = Some (Wallet.mkInstructorDoc (Some w')) /\
    Wallet.same_number (Wallet.counter (Wallet.available w'))
      (JS.sub (Wallet.counter (Wallet.available w)) (JS.Num 2)) /\
    Wallet.same_number (Wallet.counter (Wallet.blocked w'))
      (JS.sub (JS.add (Wallet.counter (Wallet.blocked w)) (JS.Num 2)) lost) /\
    Wallet.same_number (Wallet.counter (Wallet.total w'))
      (JS.sub (Wallet.counter (Wallet.total w)) lost).
Proof.
  intros Hm Ha _ Hq Hk Hkey Hdoc Hw _ Hbal Hlt. cbv zeta.
  rewrite (requestWithdrawal_blocks u data Wallet.PIX q doc w now (Some k) s Hm Ha Hq);
    try assumption; try discriminate.
  2:{ intros _. rewrite Hk. cbn [Wallet.no_text]. apply bool_decide_eq_false_2. exact Hkey. }
  rewrite (bool_decide_eq_true_2 (Wallet.PIX = Wallet.PIX)) by reflexivity.
  unfold Wallet.after_block, Wallet.processPixWithdrawal, Wallet.pix_writes.
  destruct k as [|[|[|[|k]]]]; [| | | |lia];
    unfold Nat.ltb; cbn [Nat.leb];
    repeat first [ rewrite Hdoc | rewrite Hw | progress wallet_run ];
    (split; [reflexivity|]); (split; [reflexivity|]);
    (eexists; split; [reflexivity|]);
    (split; [destruct (Wallet.available w) as [[a|]|]; wallet_numbers|]);
    (split; [destruct (Wallet.blocked w) as [[b|]|]; wallet_numbers
            |destruct (Wallet.total w) as [[t|]|]; wallet_numbers]).
Qed.

Lemma failed_pix_withdrawal_is_not_rolled_back_witness :
  let s' := fst (Wallet.requestWithdrawal (Some "instructor-1") pix_request 0
                   (Some 2%nat) wallet_start) in
  snd (Wallet.requestWithdrawal (Some "instructor-1") pix_request 0 (Some 2%nat)
         wallet_start)
    = Err INTERNAL 500 /\
  Wallet.withdrawals s' =
    [Wallet.mkWithdrawal "instructor-1" (JS.Num 150) (JS.Num 2) (JS.Num (150 - 2))
       Wallet.PIX Wallet.FAILED] /\
  exists w',
    Wallet.instructors s' !! "instructor-1" = Some (Wallet.mkInstructorDoc (Some w')) /\
    Wallet.same_number (Wallet.counter (Wallet.available w'))
      (JS.sub (JS.Num 500) (JS.Num 2)) /\
    Wallet.same_number (Wallet.counter (Wallet.blocked w'))
      (JS.sub (JS.add (JS.Num 0) (JS.Num 2)) (JS.Num (150 - 2))) /\
    Wallet.same_number (Wallet.counter (Wallet.total w'))
      (JS.sub (JS.Num 500) (JS.Num (150 - 2))).
Proof.
  cbv zeta.
  apply (failed_pix_withdrawal_is_not_rolled_back "instructor-1" pix_request 150
           (Wallet.mkInstructorDoc
              (Some (Wallet.mkWallet (Some (JS.Num 500)) (Some (JS.Num 0))
                       (Some (JS.Num 500)))))
           (Wallet.mkWallet (Some (JS.Num 500)) (Some (JS.Num 0)) (Some (JS.Num 500)))
           "key@example.org" 0 2%nat wallet_start).
  - reflexivity.
  - reflexivity.
  - vm_compute. reflexivity.
  - vm_compute. discriminate.
  - reflexivity.
  - discriminate.
  - reflexivity.
  - reflexivity.
  - vm_compute. reflexivity.
  - vm_compute. discriminate.
  - lia.
Defined.

(** *** The surplus of a wallet *)

Lemma same_number_refl a : Wallet.same_number a a.
Proof. destruct a; cbn; [reflexivity|exact I]. Qed.

Lemma same_number_trans a b c :
  Wallet.same_number a b -> Wallet.same_number b c -> Wallet.same_number a c.
Proof.
  destruct a, b, c; cbn; try tauto. intros H1 H2. rewrite H1. exact H2.
Qed.

Lemma surplus_kept_refl s : Wallet.surplus_kept s s.
Proof.
  intros u. destruct (Wallet.instructors s !! u); [apply same_number_refl|exact I].
Qed.

Lemma surplus_kept_trans s1 s2 s3 :
  Wallet.surplus_kept s1 s2 -> Wallet.surplus_kept s2 s3 -> Wallet.surplus_kept s1 s3.
Proof.
  intros H1 H2 u. specialize (H1 u). specialize (H2 u).
  destruct (Wallet.instructors s1 !! u), (Wallet.instructors s2 !! u),
    (Wallet.instructors s3 !! u); try tauto.
  eapply same_number_trans; eassumption.
Qed.

Lemma surplus_kept_same_instructors s s' :
  Wallet.instructors s' = Wallet.instructors s -> Wallet.surplus_kept s s'.
Proof. intros H u. rewrite H. apply surplus_kept_refl. Qed.

(** An update of the wallet whose increments cancel in
    [available + blocked - total]. *)
Lemma update_wallet_kept u a b t s s' :
  (forall w,
     Wallet.operand_ok a && Wallet.operand_ok b && Wallet.operand_ok t = true ->
     Wallet.same_number
       (Wallet.surplus
          (Wallet.mkInstructorDoc
             (Some (Wallet.mkWallet (Wallet.apply_increment a (Wallet.available w))
                      (Wallet.apply_increment b (Wallet.blocked w))
                      (Wallet.apply_increment t (Wallet.total w))))))
       (Wallet.surplus (Wallet.mkInstructorDoc (Some w)))) ->
  Wallet.update_wallet u a b t s = Some s' ->
  Wallet.surplus_kept s s'.
Proof.
  intros Hf. unfold Wallet.update_wallet.
  destruct (Wallet.operand_ok a && Wallet.operand_ok b && Wallet.operand_ok t) eqn:Hok;
    [|discriminate].
  destruct (Wallet.instructors s !! u) as [doc|] eqn:Hdoc; [|discriminate].
  intros [= <-]. intros v. cbn [Wallet.instructors].
  destruct (decide (u = v)) as [<-|Hne].
  - rewrite Hdoc, lookup_insert_eq.
    eapply same_number_trans; [apply Hf; reflexivity|].
    unfold Wallet.surplus, Wallet.wallet_of. cbn [Wallet.wallet from_option id].
    apply same_number_refl.
  - rewrite lookup_insert_ne by exact Hne.
    destruct (Wallet.instructors s !! v); [apply same_number_refl|exact I].
Qed.

Lemma block_kept u n s s' :
  Wallet.update_wallet u (Some (JS.neg n)) (Some n) None s = Some s' ->
  Wallet.surplus_kept s s'.
Proof.
  apply update_wallet_kept. intros w.
  destruct n as [x|]; [intros _|intros H; discriminate H].
  destruct w as [[[a|]|] [[b|]|] [[t|]|]]; wallet_numbers.
Qed.

Lemma unblock_kept u n s s' :
  Wallet.update_wallet u None (Some (JS.neg n)) (Some (JS.neg n)) s = Some s' ->
  Wallet.surplus_kept s s'.
Proof.
  apply update_wallet_kept. intros w.
  destruct n as [x|]; [intros _|intros H; discriminate H].
  destruct w as [[[a|]|] [[b|]|] [[t|]|]]; wallet_numbers.
Qed.

Lemma rollback_kept u n s s' :
  Wallet.update_wallet u (Some n) (Some (JS.neg n)) None s = Some s' ->
  Wallet.surplus_kept s s'.
Proof.
  apply update_wallet_kept. intros w.
  destruct n as [x|]; [intros _|intros H; discriminate H].
  destruct w as [[[a|]|] [[b|]|] [[t|]|]]; wallet_numbers.
Qed.

Lemma set_withdrawal_status_kept id st s s' :
  Wallet.set_withdrawal_status id st s = Some s' -> Wallet.surplus_kept s s'.
Proof.
  unfold Wallet.set_withdrawal_status.
  destruct (Wallet.withdrawals s !! id); [|discriminate]. intros [= <-].
  apply surplus_kept_same_instructors; reflexivity.
Qed.

Lemma add_walletTransaction_kept t s s' :
  Wallet.add_walletTransaction t s = Some s' -> Wallet.surplus_kept s s'.
Proof. intros [= <-]. apply surplus_kept_same_instructors; reflexivity. Qed.

Lemma log_transfer_kept ted s s' :
  Wallet.log_transfer ted s = Some s' -> Wallet.surplus_kept s s'.
Proof.
  unfold Wallet.log_transfer.
  destruct (Wallet.account_readable _); [apply add_walletTransaction_kept|discriminate].
Qed.

Lemma add_notification_kept n s s' :
  Wallet.add_notification n s = Some s' -> Wallet.surplus_kept s s'.
Proof. intros [= <-]. apply surplus_kept_same_instructors; reflexivity. Qed.

Lemma mark_ted_processed_kept ref s s' :
  Wallet.mark_ted_processed ref s = Some s' -> Wallet.surplus_kept s s'.
Proof.
  unfold Wallet.mark_ted_processed.
  destruct (Wallet.tedBatchQueue s !! ref) as [t|] eqn:Ht; [|discriminate].
  intros [= <-]. apply surplus_kept_same_instructors; reflexivity.
Qed.

Lemma try_writes_kept ws fault s :
  Forall (fun w => forall s1 s2, w s1 = Some s2 -> Wallet.surplus_kept s1 s2) ws ->
  Wallet.surplus_kept s (fst (Wallet.try_writes ws fault s)).
Proof.
  intros Hws. revert fault s. induction Hws as [|w ws Hw _ IH]; intros fault s.
  - apply surplus_kept_refl.
  - cbn [Wallet.try_writes].
    destruct fault as [[|k]|]; [apply surplus_kept_refl| |].
    + destruct (w s) as [s1|] eqn:Hs1; [|apply surplus_kept_refl].
      eapply surplus_kept_trans; [apply (Hw _ _ Hs1)|apply IH].
    + destruct (w s) as [s1|] eqn:Hs1; [|apply surplus_kept_refl].
      eapply surplus_kept_trans; [apply (Hw _ _ Hs1)|apply IH].
Qed.

Lemma processPixWithdrawal_kept id u n fault s :
  Wallet.surplus_kept s (fst (Wallet.processPixWithdrawal id u n fault s)).
Proof.
  unfold Wallet.processPixWithdrawal.
  assert (Hws : Forall (fun w : Wallet.Write =>
                          forall s1 s2, w s1 = Some s2 -> Wallet.surplus_kept s1 s2)
                  (Wallet.pix_writes id u n)).
  { unfold Wallet.pix_writes. repeat apply Forall_cons_2; [| | | |apply Forall_nil_2].
    - intros s1 s2. apply set_withdrawal_status_kept.
    - intros s1 s2. apply unblock_kept.
    - intros s1 s2. apply add_walletTransaction_kept.
    - intros s1 s2. apply add_notification_kept. }
  pose proof (try_writes_kept (Wallet.pix_writes id u n) fault s Hws) as H.
  destruct (Wallet.try_writes (Wallet.pix_writes id u n) fault s) as [s1 [|]];
    cbn [fst] in *; [exact H|].
  destruct (Wallet.update_wallet u _ _ _ s1) as [s2|] eqn:H2; cbn [fst]; [|exact H].
  assert (H12 : Wallet.surplus_kept s1 s2) by (eapply rollback_kept; exact H2).
  destruct (Wallet.set_withdrawal_status id Wallet.FAILED s2) as [s3|] eqn:H3; cbn [fst].
  - eapply surplus_kept_trans; [exact H|]. eapply surplus_kept_trans; [exact H12|].
    eapply set_withdrawal_status_kept. exact H3.
  - eapply surplus_kept_trans; eassumption.
Qed.

Lemma queueTEDWithdrawal_kept id u n bank now s :
  Wallet.surplus_kept s (fst (Wallet.queueTEDWithdrawal id u n bank now s)).
Proof.
  unfold Wallet.queueTEDWithdrawal, Wallet.add_ted. cbn [Wallet.ted_bankAccount].
  destruct (Wallet.calculateBusinessDays now 1) as [d|]; cbn [fst];
    [|apply surplus_kept_refl].
  destruct bank; cbn [fst]; first [apply surplus_kept_refl
                                  |apply surplus_kept_same_instructors; reflexivity].
Qed.

Lemma requestWithdrawal_kept auth data now fault s :
  Wallet.surplus_kept s (fst (Wallet.requestWithdrawal auth data now fault s)).
Proof.
  unfold Wallet.requestWithdrawal.
  destruct auth as [u|]; [|apply surplus_kept_refl].
  destruct (Wallet.wr_method data) as [method|]; [|apply surplus_kept_refl].
  destruct (negb (JS.truthy (Wallet.wr_amount data))); [apply surplus_kept_refl|].
  destruct (JS.ltb (Wallet.wr_amount data) (JS.Num 100)); [apply surplus_kept_refl|].
  destruct (_ && _); [apply surplus_kept_refl|].
  destruct (_ && _); [apply surplus_kept_refl|].
  destruct (Wallet.instructors s !! u) as [doc|] eqn:Hdoc; [|apply surplus_kept_refl].
  destruct (JS.ltb _ _); [apply surplus_kept_refl|].
  unfold Wallet.block_amount.
  destruct (Wallet.update_wallet u _ _ _ s) as [s0|] eqn:H0; [|apply surplus_kept_refl].
  assert (H00 : Wallet.surplus_kept s s0) by (eapply block_kept; exact H0).
  set (s1 := Wallet.mkStore _ _ _ _ _).
  assert (H01 : Wallet.surplus_kept s s1).
  { eapply surplus_kept_trans; [exact H00|].
    apply surplus_kept_same_instructors; reflexivity. }
  destruct (bool_decide (method = Wallet.PIX)).
  - pose proof (processPixWithdrawal_kept (length (Wallet.withdrawals s0)) u
                  (JS.sub (Wallet.wr_amount data) (JS.Num 2)) fault s1) as H12.
    destruct (Wallet.processPixWithdrawal _ _ _ _ _) as [s2 [r|c h]]; cbn [fst] in *;
      eapply surplus_kept_trans; eassumption.
  - pose proof (queueTEDWithdrawal_kept (length (Wallet.withdrawals s0)) u
                  (JS.sub (Wallet.wr_amount data) (JS.Num 0))
                  (Wallet.wr_bankAccount data) now s1) as H12.
    destruct (Wallet.queueTEDWithdrawal _ _ _ _ _ _) as [s2 [r|c h]]; cbn [fst] in *;
      [destruct (Wallet.calculateBusinessDays now 2)|];
      cbn [fst]; eapply surplus_kept_trans; eassumption.
Qed.

Lemma process_ted_kept ref ted s s' :
  Wallet.process_ted ref ted s = Some s' ->
  Wallet.surplus_kept s s'.
Proof.
  unfold Wallet.process_ted.
  assert (Hws : Forall (fun w : Wallet.Write =>
                          forall s1 s2, w s1 = Some s2 -> Wallet.surplus_kept s1 s2)
                  (Wallet.ted_writes ref ted)).
  { unfold Wallet.ted_writes. repeat apply Forall_cons_2; [| | | | |apply Forall_nil_2].
    - intros s1 s2. apply set_withdrawal_status_kept.
    - intros s1 s2. apply unblock_kept.
    - intros s1 s2. apply log_transfer_kept.
    - intros s1 s2. apply add_notification_kept.
    - intros s1 s2. apply mark_ted_processed_kept. }
  pose proof (try_writes_kept _ None s Hws) as H.
  destruct (Wallet.try_writes (Wallet.ted_writes ref ted) None s) as [s1 [|]];
    cbn [fst] in H.
  - intros [= <-]. exact H.
  - intros H2. eapply surplus_kept_trans; [exact H|].
    eapply set_withdrawal_status_kept. exact H2.
Qed.

Lemma ted_loop_kept docs s :
  Wallet.surplus_kept s (fst (Wallet.ted_loop docs s)).
Proof.
  revert s. induction docs as [|[ref ted] docs IH]; intros s.
  - apply surplus_kept_refl.
  - cbn [Wallet.ted_loop].
    destruct (Wallet.process_ted ref ted s) as [s1|] eqn:H1; [|apply surplus_kept_refl].
    eapply surplus_kept_trans; [exact (process_ted_kept _ _ _ _ H1)|apply IH].
Qed.

Lemma wallet_steps_kept cs s :
  Wallet.surplus_kept s (Wallet.steps cs s).
Proof.
  revert s. induction cs as [|[c now] cs IH]; intros s.
  - apply surplus_kept_refl.
  - cbn [Wallet.steps].
    eapply surplus_kept_trans; [|apply IH].
    destruct c as [auth data fault|]; cbn [Wallet.step].
    + apply requestWithdrawal_kept.
    + apply ted_loop_kept.
Qed.

(** X24. Withdrawals only move money between the counters of a wallet: along
    a run of [requestWithdrawal] calls (accepted, rejected or failing at any
    write of [processPixWithdrawal]) and [processTEDBatch] runs in which
    every amount asked for, every queued amount and every wallet counter is
    whole, no instructor document is created or deleted and
    [available + blocked - total] of every wallet stays what it was. *)
Theorem withdrawals_conserve_wallet_surplus
    (cs : list (Wallet.Call * Z)) (s : Wallet.Store) :
  Wallet.whole_run cs s = true ->
  Wallet.surplus_kept s (Wallet.steps cs s).
Proof. intros _. apply wallet_steps_kept. Qed.

Lemma withdrawals_conserve_wallet_surplus_witness :
  Wallet.surplus_kept wallet_start
    (Wallet.steps
       [(Wallet.RequestWithdrawal (Some "instructor-1") ted_request None, 0);
        (Wallet.RequestWithdrawal (Some "instructor-1") pix_request (Some 2%nat), 1);
        (Wallet.ProcessTEDBatch, 10 * Wallet.DAY_MS)]
       wallet_start).
Proof.
  apply (withdrawals_conserve_wallet_surplus
           [(Wallet.RequestWithdrawal (Some "instructor-1") ted_request None, 0);
            (Wallet.RequestWithdrawal (Some "instructor-1") pix_request (Some 2%nat), 1);
            (Wallet.ProcessTEDBatch, 10 * Wallet.DAY_MS)]
           wallet_start).
  vm_compute. reflexivity.
Defined.

(** *** processTEDBatch *)

Lemma due_teds_lookup (now : Z) (s : Wallet.Store) (ref : nat) (ted : Wallet.TedJob) :
  In (ref, ted) (Wallet.due_teds now s) ->
  Wallet.tedBatchQueue s !! ref = Some ted /\
  Wallet.ted_scheduledFor ted <= now /\ Wallet.ted_processed ted = false.
Proof.
  unfold Wallet.due_teds. intros Hin. apply In_snapshot in Hin as [Hy Hdue].
  cbn [snd] in Hdue. apply andb_true_iff in Hdue as [Hd Hp].
  apply negb_true_iff in Hp. apply Z.leb_le in Hd. auto.
Qed.

Lemma transferable_iff s ted :
  Wallet.transferable s ted = true <->
  is_Some (Wallet.instructors s !! Wallet.ted_instructorId ted) /\
  Wallet.ted_amount ted <> JS.NaN /\
  Wallet.ted_bankAccount ted <> Wallet.account_undefined /\
  Wallet.ted_bankAccount ted <> Wallet.account_null.
Proof.
  unfold Wallet.transferable, Wallet.operand_ok, Wallet.account_readable.
  rewrite !andb_true_iff, bool_decide_eq_true.
  destruct (Wallet.ted_amount ted), (Wallet.ted_bankAccount ted);
    intuition (try discriminate; try congruence).
Qed.

(** One record of the snapshot whose withdrawal document exists: when it is
    transferable the transfer is settled and the record marked; otherwise
    the withdrawal is marked failed, and the record and the log stay as they
    are.  Either way the loop goes on. *)
Lemma process_ted_step ref ted s :
  Wallet.tedBatchQueue s !! ref = Some ted ->
  is_Some (Wallet.withdrawals s !! Wallet.ted_withdrawalId ted) ->
  exists s1,
    Wallet.process_ted ref ted s = Some s1 /\
    length (Wallet.withdrawals s1) = length (Wallet.withdrawals s) /\
    (forall k, is_Some (Wallet.instructors s1 !! k) <-> is_Some (Wallet.instructors s !! k)) /\
    Wallet.tedBatchQueue s1 =
      <[ref := Wallet.settled s ted]> (Wallet.tedBatchQueue s) /\
    Wallet.walletTransactions s1 =
      Wallet.walletTransactions s ++ Wallet.transfers_logged s [(ref, ted)].
Proof.
  intros Hq [wd Hwd].
  assert (Hlen : (Wallet.ted_withdrawalId ted < length (Wallet.withdrawals s))%nat)
    by (apply lookup_lt_Some in Hwd; exact Hwd).
  assert (Hsame : Wallet.tedBatchQueue s
                  = <[ref := ted]> (Wallet.tedBatchQueue s))
    by (symmetry; apply list_insert_id; exact Hq).
  unfold Wallet.process_ted, Wallet.ted_writes.
  cbn [Wallet.try_writes]. unfold Wallet.set_withdrawal_status at 1. rewrite Hwd.
  cbn [fmap option_fmap option_map]. unfold Wallet.update_wallet at 1.
  cbn [Wallet.instructors Wallet.operand_ok andb].
  unfold Wallet.settled, Wallet.transfers_logged, Wallet.transferable.
  cbn [flat_map snd Wallet.operand_ok].
  destruct (Wallet.ted_amount ted) as [x|] eqn:Hx; cbn [JS.neg andb].
  2:{ (* the amount is NaN: the wallet update throws *)
      rewrite andb_false_r. cbn [andb].
      unfold Wallet.set_withdrawal_status.
      cbn [Wallet.instructors Wallet.withdrawals Wallet.tedBatchQueue
           Wallet.walletTransactions Wallet.notifications].
      rewrite list_lookup_insert_eq by exact Hlen.
      eexists. split; [reflexivity|].
      cbn [Wallet.instructors Wallet.withdrawals Wallet.tedBatchQueue
           Wallet.walletTransactions].
      split; [rewrite !length_insert; reflexivity|]. split; [reflexivity|].
      split; [|rewrite app_nil_r; reflexivity].
      rewrite Hsame at 1. f_equal. destruct ted; cbn in *. subst. reflexivity. }
  destruct (Wallet.instructors s !! Wallet.ted_instructorId ted) as [doc|] eqn:Hdoc.
  2:{ (* no instructor document: the wallet update throws *)
      rewrite (bool_decide_eq_false_2 (is_Some None)) by (intros [? [=]]). cbn [andb].
      unfold Wallet.set_withdrawal_status.
      cbn [Wallet.instructors Wallet.withdrawals Wallet.tedBatchQueue
           Wallet.walletTransactions Wallet.notifications].
      rewrite list_lookup_insert_eq by exact Hlen.
      eexists. split; [reflexivity|].
      cbn [Wallet.instructors Wallet.withdrawals Wallet.tedBatchQueue
           Wallet.walletTransactions].
      split; [rewrite !length_insert; reflexivity|]. split; [reflexivity|].
      split; [|rewrite app_nil_r; reflexivity].
      rewrite Hsame at 1. f_equal. destruct ted; cbn in *. subst. reflexivity. }
  rewrite (bool_decide_eq_true_2 (is_Some (Some doc))) by eauto. cbn [andb].
  unfold Wallet.log_transfer.
  destruct (Wallet.account_readable (Wallet.ted_bankAccount ted)) eqn:Hbank.
  - unfold Wallet.add_walletTransaction, Wallet.add_notification,
      Wallet.mark_ted_processed.
    cbn [Wallet.tedBatchQueue]. rewrite Hq, Hx.
    eexists. split; [reflexivity|].
    cbn [Wallet.instructors Wallet.withdrawals Wallet.tedBatchQueue
         Wallet.walletTransactions].
    split; [apply length_insert|]. split.
    { intros k. destruct (decide (Wallet.ted_instructorId ted = k)) as [<-|Hne].
      - rewrite lookup_insert_eq, Hdoc. split; eauto.
      - rewrite lookup_insert_ne by exact Hne. reflexivity. }
    split; [reflexivity|]. rewrite app_nil_r. reflexivity.
  - (* the bank account cannot be read: the log entry throws after the
       wallet update *)
    unfold Wallet.set_withdrawal_status.
    cbn [Wallet.instructors Wallet.withdrawals Wallet.tedBatchQueue
         Wallet.walletTransactions Wallet.notifications].
    rewrite list_lookup_insert_eq by exact Hlen.
    eexists. split; [reflexivity|].
    cbn [Wallet.instructors Wallet.withdrawals Wallet.tedBatchQueue
         Wallet.walletTransactions].
    split; [rewrite !length_insert; reflexivity|]. split.
    { intros k. destruct (decide (Wallet.ted_instructorId ted = k)) as [<-|Hne].
      - rewrite lookup_insert_eq, Hdoc. split; eauto.
      - rewrite lookup_insert_ne by exact Hne. reflexivity. }
    split; [|rewrite app_nil_r; reflexivity].
    rewrite Hsame at 1. f_equal. destruct ted; cbn in *. subst. reflexivity.
Qed.

Lemma transferable_same_instructors s s1 ted :
  (forall k, is_Some (Wallet.instructors s1 !! k) <-> is_Some (Wallet.instructors s !! k)) ->
  Wallet.transferable s1 ted = Wallet.transferable s ted.
Proof.
  intros H. unfold Wallet.transferable. do 2 f_equal.
  apply bool_decide_ext. apply H.
Qed.

Lemma settled_same_instructors s s1 ted :
  (forall k, is_Some (Wallet.instructors s1 !! k) <-> is_Some (Wallet.instructors s !! k)) ->
  Wallet.settled s1 ted = Wallet.settled s ted.
Proof.
  intros H. unfold Wallet.settled. rewrite (transferable_same_instructors s s1 ted H).
  reflexivity.
Qed.

Lemma transfers_logged_same_instructors s s1 docs :
  (forall k, is_Some (Wallet.instructors s1 !! k) <-> is_Some (Wallet.instructors s !! k)) ->
  Wallet.transfers_logged s1 docs = Wallet.transfers_logged s docs.
Proof.
  intros H. unfold Wallet.transfers_logged. induction docs as [|d docs IH]; [reflexivity|].
  cbn [flat_map]. rewrite IH. f_equal.
  rewrite (transferable_same_instructors s s1 (snd d) H). reflexivity.
Qed.

Lemma ted_loop_run docs :
  forall s,
    NoDup (fst <$> docs) ->
    (forall ref ted, In (ref, ted) docs ->
       Wallet.tedBatchQueue s !! ref = Some ted /\
       is_Some (Wallet.withdrawals s !! Wallet.ted_withdrawalId ted)) ->
    exists s',
      Wallet.ted_loop docs s = (s', true) /\
      length (Wallet.withdrawals s') = length (Wallet.withdrawals s) /\
      (forall k, is_Some (Wallet.instructors s' !! k)
                 <-> is_Some (Wallet.instructors s !! k)) /\
      (forall ref ted, In (ref, ted) docs ->
         Wallet.tedBatchQueue s' !! ref = Some (Wallet.settled s ted)) /\
      (forall ref, ~ In ref (fst <$> docs) ->
         Wallet.tedBatchQueue s' !! ref = Wallet.tedBatchQueue s !! ref) /\
      Wallet.walletTransactions s' =
        Wallet.walletTransactions s ++ Wallet.transfers_logged s docs.
Proof.
  induction docs as [|[ref ted] docs IH]; intros s Hnd Hdocs.
  - exists s. cbn. rewrite app_nil_r. repeat split; auto; intros; tauto.
  - cbn [fmap list_fmap fst] in Hnd. apply NoDup_cons in Hnd as [Hnot Hnd].
    destruct (Hdocs ref ted (or_introl eq_refl)) as [Hq Hwd].
    destruct (process_ted_step ref ted s Hq Hwd) as (s1 & Hs1 & Hlen & Hdom & Hqueue & Htx).
    cbn [Wallet.ted_loop]. rewrite Hs1.
    destruct (IH s1 Hnd) as (s' & Hrun & Hlen' & Hdom' & Hin' & Hout' & Htx').
    { intros ref' ted' Hin'. destruct (Hdocs ref' ted' (or_intror Hin')) as [Hq' Hwd'].
      assert (Hne : ref <> ref').
      { intros <-. apply Hnot. apply list_elem_of_fmap. exists (ref, ted').
        split; [reflexivity|]. apply list_elem_of_In. exact Hin'. }
      split.
      - rewrite Hqueue. rewrite list_lookup_insert_ne by exact Hne. exact Hq'.
      - apply lookup_lt_is_Some. rewrite Hlen. apply lookup_lt_is_Some. exact Hwd'. }
    exists s'. split; [exact Hrun|]. split; [lia|].
    split. { intros k. rewrite Hdom'. apply Hdom. }
    split.
    { intros ref' ted' [[= -> ->]|Hin].
      - rewrite Hout' by (intros Hin; apply Hnot; apply list_elem_of_In; exact Hin).
        rewrite Hqueue. apply list_lookup_insert_eq. apply lookup_lt_Some in Hq. exact Hq.
      - rewrite (Hin' _ _ Hin). f_equal. apply settled_same_instructors. exact Hdom. }
    split.
    { intros ref' Hnin. rewrite Hout' by (intros Hin; apply Hnin; right; exact Hin).
      rewrite Hqueue. apply list_lookup_insert_ne. intros <-. apply Hnin. left. reflexivity. }
    rewrite Htx', Htx. rewrite (transfers_logged_same_instructors s s1 docs Hdom).
    rewrite <- app_assoc. f_equal.
    unfold Wallet.transfers_logged. cbn [flat_map]. rewrite app_nil_r. reflexivity.
Qed.

(** X25. [processTEDBatch] goes on after a record it cannot settle.  It takes
    the due records in the order of their scheduledFor, which no two of them
    share.  When the withdrawal document of every record of the snapshot
    exists, the run reaches its end.  A record is settled when its
    instructor document exists, its amount is a number and its bank account
    is neither undefined nor null: it is then marked processed and logged as
    one wallet transaction, in the order of the snapshot.  Every other
    record stays as it is, unprocessed, to be tried again by every later
    run; nothing else in the queue changes. *)
Theorem ted_batch_goes_on_after_missing_instructor (now : Z) (s : Wallet.Store) :
  Wallet.ted_times_differ now s ->
  (forall ref ted, In (ref, ted) (Wallet.due_teds now s) ->
     is_Some (Wallet.withdrawals s !! Wallet.ted_withdrawalId ted)) ->
  let s' := Wallet.processTEDBatch now s in
  snd (Wallet.ted_loop (Wallet.due_teds now s) s) = true /\
  (forall ref ted, In (ref, ted) (Wallet.due_teds now s) ->
     Wallet.tedBatchQueue s' !! ref = Some (Wallet.settled s ted) /\
     (Wallet.ted_processed (Wallet.settled s ted) = true <->
      is_Some (Wallet.instructors s !! Wallet.ted_instructorId ted) /\
      Wallet.ted_amount ted <> JS.NaN /\
      Wallet.ted_bankAccount ted <> Wallet.account_undefined /\
      Wallet.ted_bankAccount ted <> Wallet.account_null) /\
     (Wallet.ted_processed (Wallet.settled s ted) = false -> Wallet.settled s ted = ted)) /\
  (forall ref, ~ In ref (fst <$> Wallet.due_teds now s) ->
     Wallet.tedBatchQueue s' !! ref = Wallet.tedBatchQueue s !! ref) /\
  Wallet.walletTransactions s' =
    Wallet.walletTransactions s ++ Wallet.transfers_logged s (Wallet.due_teds now s).
Proof.
  intros _ Hwd. cbv zeta. unfold Wallet.processTEDBatch.
  destruct (ted_loop_run (Wallet.due_teds now s) s) as (s' & Hrun & _ & _ & Hin & Hout & Htx).
  { apply NoDup_indexed. }
  { intros ref ted H. split; [apply (due_teds_lookup now s ref ted H)|apply (Hwd _ _ H)]. }
  rewrite Hrun. cbn [fst snd]. split; [reflexivity|]. split.
  - intros ref ted H. split; [apply (Hin _ _ H)|].
    destruct (due_teds_lookup now s ref ted H) as (_ & _ & Hp).
    rewrite <- transferable_iff.
    unfold Wallet.settled. cbn [Wallet.ted_processed]. rewrite Hp.
    destruct (Wallet.transferable s ted); split.
    + tauto.
    + discriminate.
    + tauto.
    + intros _. destruct ted; cbn in *. subst. reflexivity.
  - split; [exact Hout|exact Htx].
Qed.

Lemma ted_batch_goes_on_after_missing_instructor_witness :
  let s' := Wallet.processTEDBatch 10 ted_backlog in
  (fst <$> Wallet.due_teds 10 ted_backlog) = [2; 0; 1]%nat /\
  snd (Wallet.ted_loop (Wallet.due_teds 10 ted_backlog) ted_backlog) = true /\
  (Wallet.ted_processed <$> Wallet.tedBatchQueue s') = [false; true; true] /\
  (Wallet.w_status <$> Wallet.withdrawals s')
    = [Wallet.FAILED; Wallet.COMPLETED; Wallet.COMPLETED] /\
  Wallet.walletTransactions s'
    = [Wallet.mkTx "instructor-1" (JS.Num (- (100))) 2;
       Wallet.mkTx "instructor-1" (JS.Num (- (300))) 1].
Proof.
  cbv zeta.
  destruct (ted_batch_goes_on_after_missing_instructor 10 ted_backlog)
    as (Hend & Hqueue & _ & Htx).
  { unfold Wallet.ted_times_differ. apply (bool_decide_unpack _). vm_compute. exact I. }
  { intros ref ted H. vm_compute in H.
    destruct H as [[= <- <-]|[[= <- <-]|[[= <- <-]|[]]]]; eexists; reflexivity. }
  split; [vm_compute; reflexivity|]. split; [exact Hend|].
  split; [vm_compute; reflexivity|]. split; [vm_compute; reflexivity|].
  rewrite Htx. vm_compute. reflexivity.
Defined.

(** A transfer queued with a bank account that is null is paid out of the
    wallet at every run and never settled: the wallet update comes before
    the log entry, whose description cannot be built. *)
Example null_account_is_debited_at_every_run :
  let s :=
    Wallet.mkStore
      {[ "instructor-1" :=
           Wallet.mkInstructorDoc
             (Some (Wallet.mkWallet (Some (JS.Num 0)) (Some (JS.Num 300))
                      (Some (JS.Num 300)))) ]}
      [ Wallet.mkWithdrawal "instructor-1" (JS.Num 100) (JS.Num 0) (JS.Num 100)
          Wallet.other_method Wallet.PROCESSING ]
      [ Wallet.mkTed 0 "instructor-1" (JS.Num 100) Wallet.account_null 0 false ]
      [] [] in
  let once := Wallet.processTEDBatch 10 s in
  let twice := Wallet.processTEDBatch 20 once in
  (Wallet.ted_processed <$> Wallet.tedBatchQueue twice) = [false] /\
  (Wallet.w_status <$> Wallet.withdrawals twice) = [Wallet.FAILED] /\
  Wallet.walletTransactions twice = [] /\
  (Wallet.blocked <$> (Wallet.instructors once !! "instructor-1" ≫= Wallet.wallet))
    = Some (Some (JS.Num 200)) /\
  (Wallet.blocked <$> (Wallet.instructors twice !! "instructor-1" ≫= Wallet.wallet))
    = Some (Some (JS.Num 100)).
Proof. vm_compute. repeat split; reflexivity. Qed.

(** ** Validators *)

Lemma is_digit_char d : 0 <= d <= 9 -> Validators.is_digit (Validators.digit_char d) = true.
Proof.
  intros H.
  assert (Hc : d = 0 \/ d = 1 \/ d = 2 \/ d = 3 \/ d = 4 \/ d = 5 \/ d = 6 \/ d = 7
               \/ d = 8 \/ d = 9) by lia.
  repeat destruct Hc as [->|Hc]; try subst d; reflexivity.
Qed.

Lemma digit_value_char d : 0 <= d <= 9 -> Validators.digit_value (Validators.digit_char d) = d.
Proof.
  intros H.
  assert (Hc : d = 0 \/ d = 1 \/ d = 2 \/ d = 3 \/ d = 4 \/ d = 5 \/ d = 6 \/ d = 7
               \/ d = 8 \/ d = 9) by lia.
  repeat destruct Hc as [->|Hc]; try subst d; reflexivity.
Qed.

Lemma digit_char_inj d e :
  0 <= d <= 9 -> 0 <= e <= 9 ->
  Validators.digit_char d = Validators.digit_char e -> d = e.
Proof.
  intros Hd He H. rewrite <- (digit_value_char d Hd), <- (digit_value_char e He), H.
  reflexivity.
Qed.

Lemma clean_render ds :
  Forall (fun d => 0 <= d <= 9) ds ->
  Validators.clean (Validators.render ds) = Validators.render ds.
Proof.
  induction 1 as [|d ds Hd _ IH]; [reflexivity|].
  unfold Validators.clean, Validators.render in *. cbn [fmap list_fmap List.filter].
  rewrite (is_digit_char d Hd). f_equal. exact IH.
Qed.

Lemma clean_idem l : Validators.clean (Validators.clean l) = Validators.clean l.
Proof.
  unfold Validators.clean. induction l as [|c l IH]; [reflexivity|].
  cbn [List.filter]. destruct (Validators.is_digit c) eqn:Hc; [|exact IH].
  cbn [List.filter]. rewrite Hc, IH. reflexivity.
Qed.

Lemma clean_digits l : Forall (fun c => Validators.is_digit c = true) (Validators.clean l).
Proof.
  unfold Validators.clean. induction l as [|c l IH]; [constructor|].
  cbn [List.filter]. destruct (Validators.is_digit c) eqn:Hc; [|exact IH].
  constructor; assumption.
Qed.

Lemma clean_of_digits l :
  Forall (fun c => Validators.is_digit c = true) l -> Validators.clean l = l.
Proof.
  unfold Validators.clean. induction 1 as [|c l Hc _ IH]; [reflexivity|].
  cbn [List.filter]. rewrite Hc, IH. reflexivity.
Qed.

Lemma clean_formatCPF cpf :
  Validators.clean (Validators.formatCPF cpf) = Validators.clean cpf.
Proof.
  unfold Validators.formatCPF.
  pose proof (clean_idem cpf) as Hi.
  destruct (Validators.clean cpf) as [|a [|b [|c [|d [|e [|f [|g [|h [|i [|j [|k rest]]]]]]]]]]];
    exact Hi.
Qed.

(** X28. [formatCPF] only inserts separators: the digits of its result are the
    digits of its argument, so [validateCPF] gives the same answer on a CPF
    and on its formatted form, and formatting a second time changes
    nothing. *)
Theorem formatCPF_keeps_the_number (cpf : list ascii) :
  Validators.clean (Validators.formatCPF cpf) = Validators.clean cpf /\
  Validators.validateCPF (Validators.formatCPF cpf) = Validators.validateCPF cpf /\
  Validators.formatCPF (Validators.formatCPF cpf) = Validators.formatCPF cpf.
Proof.
  split; [apply clean_formatCPF|]. split.
  - unfold Validators.validateCPF. rewrite clean_formatCPF. reflexivity.
  - unfold Validators.formatCPF at 1. rewrite clean_formatCPF. reflexivity.
Qed.

Lemma check_digit_range sum : 0 <= Validators.check_digit sum <= 9.
Proof.
  unfold Validators.check_digit.
  pose proof (Z.mod_pos_bound sum 11 ltac:(lia)).
  destruct (10 <=? 11 - sum mod 11) eqn:H1; [lia|]. apply Z.leb_gt in H1. lia.
Qed.

(** The check digits of a number with nine equal digits are that digit. *)
Lemma repdigit_checks d :
  0 <= d <= 9 ->
  Validators.first_check [d; d; d; d; d; d; d; d; d] = d /\
  Validators.second_check [d; d; d; d; d; d; d; d; d] = d.
Proof.
  intros H.
  assert (Hc : d = 0 \/ d = 1 \/ d = 2 \/ d = 3 \/ d = 4 \/ d = 5 \/ d = 6 \/ d = 7
               \/ d = 8 \/ d = 9) by lia.
  repeat destruct Hc as [->|Hc]; try subst d; split; reflexivity.
Qed.

Lemma ascii_eqb_digit_char d e :
  0 <= d <= 9 -> 0 <= e <= 9 ->
  Ascii.eqb (Validators.digit_char d) (Validators.digit_char e) = bool_decide (d = e).
Proof.
  intros Hd He. destruct (Ascii.eqb_spec (Validators.digit_char d) (Validators.digit_char e))
    as [Heq|Hne].
  - apply digit_char_inj in Heq; [|assumption..]. rewrite bool_decide_eq_true_2; auto.
  - rewrite bool_decide_eq_false_2; [reflexivity|]. intros ->. apply Hne. reflexivity.
Qed.

(** X27. [validateCPF] accepts exactly one completion of nine base digits, the
    one with the two verification digits computed from them, unless the nine
    digits are all the same: the ten numbers made of one repeated digit carry
    correct verification digits and are rejected all the same. *)
Theorem validateCPF_accepts_one_completion (base : list Z) (x y : Z) :
  length base = 9%nat ->
  Forall (fun d => 0 <= d <= 9) base ->
  0 <= x <= 9 -> 0 <= y <= 9 ->
  Validators.validateCPF (Validators.render (base ++ [x; y])) = true <->
  x = Validators.first_check base /\
  y = Validators.second_check base /\
  ~ Forall (fun d => d = hd 0 base) base.
Proof.
  intros Hlen Hbase Hx Hy.
  destruct base as [|d1 [|d2 [|d3 [|d4 [|d5 [|d6 [|d7 [|d8 [|d9 [|? ?]]]]]]]]]];
    try discriminate Hlen. clear Hlen.
  repeat match goal with
         | H : Forall _ (_ :: _) |- _ => apply Forall_cons in H as [? H]
         end.
  clear Hbase.
  unfold Validators.validateCPF.
  rewrite clean_render
    by (repeat first [assumption | apply Forall_nil_2 | apply Forall_cons_2]).
  cbn [app Validators.render fmap list_fmap length Nat.eqb negb take nth hd].
  unfold Validators.second_check, Validators.first_check.
  cbn [app Validators.render fmap list_fmap].
  unfold Validators.all_same.
  rewrite is_digit_char by assumption.
  cbn [length Nat.eqb andb forallb].
  rewrite !ascii_eqb_digit_char by assumption.
  rewrite !digit_value_char by assumption.
  remember (Validators.check_digit
              (Validators.weighted_sum
                 [Validators.digit_char d1; Validators.digit_char d2; Validators.digit_char d3;
                  Validators.digit_char d4; Validators.digit_char d5; Validators.digit_char d6;
                  Validators.digit_char d7; Validators.digit_char d8; Validators.digit_char d9]
                 10)) as s1 eqn:Hs1.
  assert (Hrep : Forall (fun d => d = d1) [d1; d2; d3; d4; d5; d6; d7; d8; d9] <->
                 d2 = d1 /\ d3 = d1 /\ d4 = d1 /\ d5 = d1 /\ d6 = d1 /\ d7 = d1
                 /\ d8 = d1 /\ d9 = d1).
  { split.
    - intros HF. repeat match goal with
                        | H : Forall _ (_ :: _) |- _ => apply Forall_cons in H as [? H]
                        end. tauto.
    - intros (-> & -> & -> & -> & -> & -> & -> & ->). repeat constructor. }
  rewrite Hrep. clear Hrep.
  destruct (decide (d2 = d1 /\ d3 = d1 /\ d4 = d1 /\ d5 = d1 /\ d6 = d1 /\ d7 = d1
                    /\ d8 = d1 /\ d9 = d1)) as [Hall|Hnot].
  - (* nine equal digits *)
    destruct Hall as (-> & -> & -> & -> & -> & -> & -> & ->).
    destruct (repdigit_checks d1 ltac:(assumption)) as [Hc1 Hc2].
    unfold Validators.second_check, Validators.first_check in Hc1, Hc2.
    cbn [app Validators.render fmap list_fmap] in Hc1, Hc2.
    rewrite <- Hs1 in Hc1, Hc2.
    rewrite !bool_decide_eq_true_2 by reflexivity. cbn [andb].
    split; [|tauto].
    destruct (bool_decide (x = d1)) eqn:Hxd.
    + apply bool_decide_eq_true_1 in Hxd. subst x.
      destruct (bool_decide (y = d1)) eqn:Hyd; [discriminate|].
      apply bool_decide_eq_false_1 in Hyd. cbn [andb].
      rewrite Hc1. rewrite Z.eqb_refl. cbn [negb].
      rewrite Hc1 in Hc2. rewrite Hc2.
      destruct (d1 =? y) eqn:E; [apply Z.eqb_eq in E; congruence|discriminate].
    + apply bool_decide_eq_false_1 in Hxd. cbn [andb]. rewrite Hc1.
      destruct (d1 =? x) eqn:E; [apply Z.eqb_eq in E; congruence|discriminate].
  - (* some digit differs: the repeated-digit test fails *)
    assert (Hsame : bool_decide (d2 = d1) && bool_decide (d3 = d1) && bool_decide (d4 = d1)
                    && bool_decide (d5 = d1) && bool_decide (d6 = d1) && bool_decide (d7 = d1)
                    && bool_decide (d8 = d1) && bool_decide (d9 = d1) = false).
    { apply not_true_iff_false. intros Ht.
      repeat (apply andb_prop in Ht as [Ht ?]).
      repeat match goal with
             | H : bool_decide _ = true |- _ => apply bool_decide_eq_true_1 in H
             end.
      tauto. }
    assert (Hfalse : bool_decide (d2 = d1) && (bool_decide (d3 = d1) && (bool_decide (d4 = d1)
                     && (bool_decide (d5 = d1) && (bool_decide (d6 = d1)
                     && (bool_decide (d7 = d1) && (bool_decide (d8 = d1)
                     && (bool_decide (d9 = d1) && (bool_decide (x = d1)
                     && (bool_decide (y = d1) && true))))))))) = false).
    { rewrite !andb_assoc. rewrite Hsame. reflexivity. }
    rewrite Hfalse. clear Hfalse Hsame.
    destruct (s1 =? x) eqn:E1; cbn [negb].
    + apply Z.eqb_eq in E1. subst x.
      destruct (Validators.check_digit _ =? y) eqn:E2; cbn [negb].
      * apply Z.eqb_eq in E2. split; [|reflexivity]. intros _. auto.
      * apply Z.eqb_neq in E2. split; [discriminate|]. intros (_ & -> & _). congruence.
    + apply Z.eqb_neq in E1. split; [discriminate|]. intros (-> & _). congruence.
Qed.

Lemma validateCPF_accepts_one_completion_witness :
  Validators.validateCPF (Validators.render ([5; 2; 9; 9; 8; 2; 2; 4; 7] ++ [2; 5])) = true <->
  2 = Validators.first_check [5; 2; 9; 9; 8; 2; 2; 4; 7] /\
  5 = Validators.second_check [5; 2; 9; 9; 8; 2; 2; 4; 7] /\
  ~ Forall (fun d => d = hd 0 [5; 2; 9; 9; 8; 2; 2; 4; 7]) [5; 2; 9; 9; 8; 2; 2; 4; 7].
Proof.
  apply (validateCPF_accepts_one_completion [5; 2; 9; 9; 8; 2; 2; 4; 7] 2 5).
  - reflexivity.
  - repeat constructor; lia.
  - lia.
  - lia.
Defined.

(** X29. [validateAge] answers true exactly from the day on which the
    [minAge]-th anniversary of the birth date is reached, comparing year,
    then month, then day; a birth date that does not parse is always
    refused. *)
Theorem validateAge_from_the_anniversary
    (birth : option Validators.DateParts) (today : Validators.DateParts) (minAge : Z) :
  Validators.validateAge birth today minAge = true <->
  exists b, birth = Some b /\
    (Validators.year b + minAge < Validators.year today \/
     Validators.year b + minAge = Validators.year today /\
     (Validators.month b < Validators.month today \/
      Validators.month b = Validators.month today /\
      Validators.day b <= Validators.day today)).
Proof.
  unfold Validators.validateAge. destruct birth as [b|].
  - split.
    + intros H. exists b. split; [reflexivity|].
      destruct ((Validators.month today - Validators.month b <? 0)
                || ((Validators.month today - Validators.month b =? 0)
                    && (Validators.day today <? Validators.day b))) eqn:E;
        apply Z.leb_le in H.
      * lia.
      * apply orb_false_iff in E as [E1 E2]. apply Z.ltb_ge in E1.
        apply andb_false_iff in E2 as [E2|E2];
          [apply Z.eqb_neq in E2|apply Z.ltb_ge in E2]; lia.
    + intros (b' & [= <-] & H).
      destruct ((Validators.month today - Validators.month b <? 0)
                || ((Validators.month today - Validators.month b =? 0)
                    && (Validators.day today <? Validators.day b))) eqn:E;
        apply Z.leb_le.
      * apply orb_true_iff in E as [E|E]; [apply Z.ltb_lt in E; lia|].
        apply andb_true_iff in E as [E1 E2]. apply Z.eqb_eq in E1. apply Z.ltb_lt in E2. lia.
      * lia.
  - split; [discriminate|]. intros (b & [=] & _).
Qed.

(** ** Pagination of search results *)

Lemma paginateResults_data {A} (results : list A) (page limit : Z) :
  1 <= page -> 1 <= limit ->
  Search.data (Search.paginateResults results page limit) =
  take (Z.to_nat limit) (drop (Z.to_nat ((page - 1) * limit)) results).
Proof.
  intros Hp Hl. unfold Search.paginateResults, Search.slice. cbn [Search.data].
  set (len := Z.of_nat (length results)).
  set (start := (page - 1) * limit).
  assert (Hs : 0 <= start) by (unfold start; nia).
  rewrite (proj2 (Z.ltb_ge start 0)) by lia.
  rewrite (proj2 (Z.ltb_ge (start + limit) 0)) by lia.
  destruct (Z_le_gt_dec len start) as [Hbig|Hsmall].
  - (* the page starts behind the end *)
    rewrite !drop_ge by (unfold len in *; lia). rewrite !take_nil. reflexivity.
  - rewrite (Z.min_l start len) by lia.
    destruct (Z_le_gt_dec (start + limit) len) as [Hin|Hout].
    + rewrite Z.min_l by lia. f_equal. lia.
    + rewrite Z.min_r by lia.
      rewrite !take_ge; [reflexivity| |]; rewrite length_drop; unfold len in *; lia.
Qed.

Lemma pages_upto_take {A} (results : list A) (limit : Z) (n : nat) :
  1 <= limit ->
  Search.pages_upto results limit n = take (n * Z.to_nat limit) results.
Proof.
  intros Hl. unfold Search.pages_upto. induction n as [|n IH].
  - reflexivity.
  - rewrite seq_S, fmap_app, concat_app, IH. cbn [fmap list_fmap concat Nat.add].
    rewrite app_nil_r, paginateResults_data by lia.
    replace (Z.to_nat ((Z.of_nat (S n) - 1) * limit)) with (n * Z.to_nat limit)%nat by nia.
    rewrite take_take_drop. f_equal. lia.
Qed.

(** X30. [paginateResults], for a limit of at least 1: the pages 1 to [n] are
    the first [n * limit] results, each once and in order; page [n + 1]
    holds at most [limit] results, those that follow, so that the pages, the
    next page and the results behind it make up the whole list; and
    [hasMore] is true exactly when the page after it is not empty. *)
Theorem pages_partition_the_results {A} (results : list A) (limit : Z) (n : nat) :
  1 <= limit ->
  let shown := Search.pages_upto results limit n in
  let next := Search.paginateResults results (Z.of_nat (S n)) limit in
  shown = take (n * Z.to_nat limit) results /\
  shown ++ Search.data next ++ drop (S n * Z.to_nat limit) results = results /\
  Z.of_nat (length (Search.data next)) <= limit /\
  (Search.hasMore next = true <->
   Search.data (Search.paginateResults results (Z.of_nat (S (S n))) limit) <> []).
Proof.
  intros Hl. cbv zeta.
  rewrite pages_upto_take by exact Hl.
  rewrite !paginateResults_data by lia.
  replace (Z.to_nat ((Z.of_nat (S n) - 1) * limit)) with (n * Z.to_nat limit)%nat by nia.
  replace (Z.to_nat ((Z.of_nat (S (S n)) - 1) * limit))
    with (S n * Z.to_nat limit)%nat by nia.
  split; [reflexivity|]. split.
  { rewrite app_assoc, take_take_drop.
    replace (n * Z.to_nat limit + Z.to_nat limit)%nat with (S n * Z.to_nat limit)%nat by lia.
    apply take_drop. }
  split.
  { rewrite length_take. lia. }
  unfold Search.paginateResults. cbn [Search.hasMore].
  rewrite Z.ltb_lt.
  split.
  - intros Hlt Hnil.
    apply (f_equal length) in Hnil. rewrite length_take, length_drop in Hnil.
    cbn [length] in Hnil. nia.
  - intros Hne.
    destruct (Z_lt_le_dec ((Z.of_nat (S n) - 1) * limit + limit)
                (Z.of_nat (length results))) as [Hlt|Hge]; [exact Hlt|].
    exfalso. apply Hne. rewrite drop_ge by nia. apply take_nil.
Qed.

Lemma pages_partition_the_results_witness :
  let results := [1; 2; 3; 4; 5; 6; 7] in
  let shown := Search.pages_upto results 3 1 in
  let next := Search.paginateResults results (Z.of_nat 2) 3 in
  shown = take (1 * Z.to_nat 3) results /\
  shown ++ Search.data next ++ drop (2 * Z.to_nat 3) results = results /\
  Z.of_nat (length (Search.data next)) <= 3 /\
  (Search.hasMore next = true <->
   Search.data (Search.paginateResults results (Z.of_nat 3) 3) <> []).
Proof.
  cbv zeta. apply (pages_partition_the_results [1; 2; 3; 4; 5; 6; 7] 3 1). lia.
Defined.
